(* ===== verification/_CoqProject ===== *)
-Q . S2P
Prelude.v
Frame.v
Stream.v
Session.v
Concurrency.v
Delivery.v
GoStr.v
GoFmt.v
GoText.v
Encoding.v
Http.v
GoHtml.v
Pages.v
GoUrl.v
HttpRead.v
HttpResponse.v
Proto.v
Token.v
Auth.v
Registry.v
Control.v
ForwardAuth.v
Proxy.v
Inspect.v
InspectWeb.v
Forwarder.v
Crossing.v
Returning.v
Exchange.v
Client.v
Tunnel.v
Capture.v
Handshake.v
Tui.v
CertFile.v
Listen.v
GoFlag.v
ClientConf.v
ClientCmd.v
Usage.v
ServerCmd.v
