(* ===== verification/Prelude.v ===== *)
(** * munnel: a verification library

    munnel exposes a local HTTP service under a public name. A client
    (src/cmd/client, src/internal/client) keeps one control connection to a
    server (src/cmd/server, src/internal/server); the server routes every public
    request for the client's name over that connection, on a stream of its own,
    and the client forwards it to the local service and records the exchange for
    its inspector (src/internal/inspection).

    ** Parts and files

    - [Prelude]: bytes, machine integers, Go errors and [(T, error)] results,
      the tactics and the hint databases ([munnel]) all the files share.
    - [Frame] (mux/frame.go): the wire format. An [io.Writer] is the class
      [Writer], an [io.Reader] is what is left to read and the error that ends it.
    - [Stream] (mux/stream.go): one stream. Every critical section of an
      operation is a definition ([Abort_lock], [CloseWrite_lock],
      [markReadDone_lock]...) and the operation composes them. What a stream asks
      of its session is the class [StreamHost], against which its theorems are
      proved.
    - [Session] (mux/session.go): the session, which implements [StreamHost]; the
      stream table points into a heap of streams, as goroutines keep pointers to
      streams the table has dropped. [step] is one transition (a frame, a read, or
      an [internal] step), and the invariant is proved by induction over them.
    - [Concurrency]: the critical sections of [Stream] as steps of threads
      ([tstep]), interleaved in any order ([cstep]) with the death of the session.
    - [Delivery]: executions of a session with what is observed of them (the frames
      taken off the connection, the bytes handed to readers), and the flow of one
      stream's bytes from the writer at one end to the reader at the other.
    - [GoStr], [GoFmt], [GoText], [GoFlag], [Encoding], [Http], [GoHtml], [GoUrl],
      [HttpRead], [HttpResponse]: what the program uses of the Go standard library:
      string functions, the verbs of [fmt] and durations, [Atoi], [ParseBool] and
      line splitting, the [flag] package, base64 and hex, headers and parsed
      requests, [fmt.Sprintf] and [html/template] with what escaping is worth,
      request targets and their escaping, [http.ReadRequest], [Response.Write] and
      [http.ReadResponse].
    - [Pages] (server/proxy.go, landing.go): the error page and the landing page.
    - [Proto] (proto/message.go): the handshake messages and subdomain names.
    - [Token] (token/token.go): signed tokens.
    - [Auth] (server/auth.go): the authenticator, its configuration files and
      checks.
    - [Registry] (server/registry.go): the table of tunnels. Clients are shared
      by pointer between the handshake and the proxy, hence a heap. What it needs
      of a session is the class [Sessions].
    - [Control] (server/control.go): a control connection as a thread ([step]),
      any number of them interleaved on one registry ([cstep]).
    - [ForwardAuth] (forwardauth/forwardauth.go): login and session cookies; a
      login provider is the record [Provider].
    - [Proxy] (server/proxy.go, ask.go): routing of public requests, token
      issuance, framing of the request that crosses the tunnel, reading and
      relaying of the response, certificate check. [ServeHTTP] gives the answer,
      or the request that goes on to [proxyTo].
    - [Inspect] (inspection/store.go, hub.go, server.go): the ring buffer of
      records with its abstract specification [spec_op], the hub, the guard and
      the routes; [InspectWeb] has what is written: status, header and body of
      every reply.
    - [Forwarder] (client/forwarder.go): serving one stream from its text
      ([Serve]), writing the response, upgrades, error replies, replay.
    - [Crossing]: the server of [Proxy] and the forwarder of [Forwarder] on one
      stream: what the local service sees of what the viewer sent. [Returning]:
      the way back, what the viewer sees of the local service's response.
      [Exchange]: the way of the request in any execution of the session that
      carries it, [Delivery] and [Crossing] together.
    - [Client] (client/config.go, tunnel.go): configuration, the reconnect loop
      alone.
    - [Tunnel] (client/tunnel.go): the tunnel as the code has it: dialling, the
      handshake, and [Run] as a thread ([run_step]) among the goroutines that serve
      streams, the reader of the events and the user who quits ([step]).
    - [Capture] (cmd/client/main.go): the tunnel, the buffer, the tabs and the
      inspector as one process; [cap_step] is one step of any of its goroutines.
    - [Handshake]: the client of [Tunnel] and the server of [Control] on one
      connection.
    - [Tui] (tui/model.go, styles.go): the dashboard's model, [Update] and [View];
      it is fed with the events of [Tunnel]. The terminal framework is the class
      [Terminal].
    - [CertFile] (server/certfile.go): the certificate that is reloaded when its
      files change.
    - [Listen] (server/control.go, proxy.go, landing.go): binding the listeners
      ([Bind]), and the accept loops with the goroutine that collects their errors
      ([serve_step]).
    - [ClientConf] (cmd/client/defaults.go, main.go): the configuration file, read
      and rewritten.
    - [ClientCmd] (cmd/client/main.go): the arguments, [run], [munnel token]. What
      it starts is a tunnel of [Tunnel]. [Usage] reads the usage texts back.
    - [ServerCmd] (cmd/server/main.go): flags, keys, the server's configuration,
      [mint].

    ** How the code is modelled

    State is passed explicitly; a method that takes a mutex once is one function,
    one that takes it several times is composed of one function per section, and
    goroutines that run concurrently are threads whose steps are such sections.
    Fixed-width integers are [Z] with their wrap-around written out ([u32]).
    A clock is an argument; where the code reads the clock several times it is an
    argument per reading. Random bytes and the failures of the network are
    arguments too.

    What lies outside the repository is a parameter: HMAC-SHA256 ([Hmac]),
    SHA-256 ([Sha256]), the text of JSON values ([JSON], of which [JSONLaws]
    states only the round trip on encodable values, without a line feed in the
    text), the order in which Go ranges over a map ([MapRange]), the lower case of
    non-ASCII letters ([UnicodeLower]), [time.ParseDuration], [net.ParseIP],
    [url.Parse], [filepath.Join] and [filepath.Dir] ([FilePath]), the local time
    zone ([LocalTime]), the request targets net/url parses other than paths
    ([OtherURI]), transfer-encoded request bodies ([OtherBody]), the trailers of a
    response ([OtherTrailer]), [strconv.Quote] ([Quote]), the text of the inspector's
    JSON replies ([Encodes]), and the text of an error ([ErrorText]). Files, environment
    variables and the answers of the network are arguments. No theorem assumes
    anything of the hash functions: what is proved of tokens and cookies is that
    they are accepted exactly when they carry the right HMAC. The laws are shown
    satisfiable by the instances the witnesses use ([countable_json]).

    ** What is proved

    - Framing and handshake: frames and messages read back as written and leave
      the bytes behind them untouched; cut and oversized input is an error
      ([Frame], [Proto]).
    - Streams: [Write] cuts its data into maximal frames in order; [Read] delivers
      them in order, and errors only when drained; under every interleaving no
      data follows a close on the wire, close and reset go out at most once, and a
      finished stream is unregistered exactly once. Each thread run alone is the
      operation it stands for ([Stream], [Concurrency]). From one end to the other
      the bytes arrive in order and complete at [io.EOF], in every execution of the
      receiving session ([Delivery]).
    - Sessions: an invariant of every reachable state; one close error for
      everybody; nothing survives a close; a silent peer is noticed within its
      timeout and a slow reader is never taken for one; stream ids do not repeat
      ([Session]).
    - Who gets a name: tokens are accepted exactly when authentic, unexpired and
      unrevoked; reserved names only over TLS with a listed token, in every
      interleaving of connections; the registry follows the connections; a ready
      client has its protection decided ([Token], [Auth], [Registry], [Control]).
    - What a public request may do: it reaches only the tunnel its host names, a
      protected one only with a valid session; identity headers are never the
      viewer's; no stream is left behind; the headers sent are exactly the
      end-to-end ones; nothing a visitor sends becomes markup in a page
      ([ForwardAuth], [Pages], [Proxy]).
    - What arrives of it: the local service gets the viewer's method, target,
      end-to-end headers and body, and of an upgrade all headers and what follows
      them ([Crossing]). Whatever happens to the connection, it gets the whole
      request or nothing ([Exchange]).
    - What comes back: status, end-to-end headers, length and body of the local
      service's response, and who notices a body that broke off ([Returning]).
    - The client: every stream that is served is closed, and recorded as failed
      exactly when it failed; bounded bodies, replay ([Forwarder]); the reconnect
      policy ([Client]); a bounded history that refines a list, an inspector no
      request reaches without host, origin and token, and which tells a stranger
      nothing ([Inspect], [InspectWeb]); what the
      inspector lists and its tabs get, however the goroutines interleave
      ([Capture]).
    - The tunnel: under every interleaving nothing is sent on the closed event
      channel, the status follows the session, every recorded exchange is counted
      and emitted once; quitting always works; [Run] does what the loop of
      [Client] does; a pinned server is the only one the token is sent to. Both
      ends of the handshake agree, and a refusal for want of TLS is final
      ([Tunnel], [Handshake]). A dashboard that has taken all events shows the
      tunnel as it is ([Tui]).
    - Running a server: binding is all or nothing and stopping waits for every
      loop ([Listen]); a certificate once served is never lost and a renewed one
      is picked up ([CertFile]); a server only starts with a well-formed
      configuration, and the tokens it is given offline are good ([ServerCmd]).
    - Running a client: the argument loop is the left-to-right reading of the
      arguments, every setting comes from where the documentation says, a
      saved token is the one the next tunnel presents ([ClientConf], [ClientCmd]),
      and the usage texts list the flags the parsers accept ([Usage]).

    Some theorems state what the code does where that is not what it means to do:
    [duplicate_open_orphans], [separator_line_panics], [login_open_redirect],
    [replay_double_escapes], [lone_question_mark], [padded_length_refused],
    [upgrade_forwarded_twice], [landing_control_ipv6], [token_h_exits_2],
    [max_body_overflows], [cut_path_splits_rune], [ttl_days_refused],
    [broken_off_looks_whole], [broken_off_unnoticed] and the exceptions in [readAllLimited_exact] and [registered_names_valid].

    ** Fuel

    [Write_loop] runs on one more than the length of the data, since each
    iteration consumes at least a byte ([Write_loop_split]); [Read_loop] on two
    more than the number of queued chunks, enough whenever the stream is
    readable ([Read_loop_spec]); the result [ReadSpin] is the code's own endless
    loop, which [Read_spec] excludes for streams in the session's table. The
    reader of a whole connection, [readFrames], takes a frame of at least nine
    bytes per round. [arg_loop] runs on one more than the number of arguments,
    which [args_equivalence] shows to be enough: [LoopFuel] is never the result.
    [dechunk] takes at least a line per round and runs on one more than the length
    of the text ([dechunk_body]); [body_reads] takes at least an octet per read
    ([body_reads_all]); [hex_of] has as many digits as bits ([hex_of_spec]).
    All other recursion is structural.

    ** Not modelled

    The inspector's embedded page, and the usage text of the server command. The
    rendering of styled text and the measuring of it belong to the terminal
    framework and are the class [Terminal]. Trailers of a response: nothing the
    client writes has one. Paths that [http.ServeMux] cleans or refuses by itself.
    The way back has no theorem on executions like [Exchange]: [Delivery] follows
    the streams the peer has opened.
    The websocket library, [http.Server] and [http.Transport], the X.509 loader and
    the TLS handshake are outside the repository: what they answer is an argument
    of the definitions that call them. *)
From stdpp Require Export base tactics option list strings gmap fin_maps pretty.
From Stdlib Require Export ZArith Lia.
From Stdlib Require Import Strings.Byte.

#[global] Open Scope Z_scope.

(** ** Bytes

    A Go [byte] is [Byte.byte]; a [[]byte] is a [list byte].  A Go [string] is
    Rocq's [string], which is the same sequence of octets. *)

Abbreviation byte := Byte.byte (only parsing).
Abbreviation bytes := (list Byte.byte) (only parsing).

#[global] Instance byte_eq_dec : EqDecision Byte.byte := Byte.byte_eq_dec.

Definition byte_to_Z (b : Byte.byte) : Z := Z.of_N (Byte.to_N b).

(** [byte(z)]: the conversion of a Go integer to a byte keeps the low 8 bits. *)
Definition byte_of_Z (z : Z) : Byte.byte :=
  default x00 (Byte.of_N (Z.to_N (z mod 256))).

(** [[]byte(s)] and [string(b)]. *)
Definition bytes_of_string (s : string) : list Byte.byte := String.list_byte_of_string s.
Definition string_of_bytes (b : list Byte.byte) : string := String.string_of_list_byte b.

(** [len(x)] as a Go [int]. *)
Abbreviation zlen l := (Z.of_nat (length l)).
Abbreviation zslen s := (Z.of_nat (String.length s)).

(** The value of an unsigned integer type of [w] bits. *)
Definition wrap (w z : Z) : Z := z mod 2 ^ w.
Abbreviation u32 := (wrap 32).
Abbreviation u64 := (wrap 64).

(** ** Errors

    A Go [error] value.  The program compares errors only with sentinels, which
    are package variables; every other error is a message, kept as its format
    string and its arguments ([errors.New] has no argument, [fmt.Errorf] with
    [%w] has the wrapped error). *)
Inductive sentinel :=
| io_EOF
| io_ErrUnexpectedEOF
| bufio_ErrBufferFull
| bufio_ErrTooLong
| net_ErrClosed
| mux_ErrStreamReset
| mux_errSessionClosed
| mux_ErrIdleTimeout
| token_ErrMalformed
| token_ErrBadSig
| token_ErrExpired
| server_errNoToken
| server_errSubdomainTaken
| server_errTakenOver
| forwardauth_ErrInvalidSession
| forwardauth_ErrExpiredSession.

Inductive error :=
| Sentinel (s : sentinel)
| OSError (code : Z)
| Errorf (format : string) (args : list string)
| Wrapf (format : string) (wrapped : error).

#[global] Instance sentinel_eq_dec : EqDecision sentinel.
Proof. solve_decision. Defined.

#[global] Instance error_eq_dec : EqDecision error.
Proof. solve_decision. Defined.

Coercion Sentinel : sentinel >-> error.

(** [err.Error()]. *)
Class ErrorText := error_text : error -> string.

(** [errors.New(msg)]. *)
Abbreviation errors_New msg := (Errorf msg []).

(** A call that returns [(T, error)]: exactly one of the two is meaningful. *)
Inductive result (A : Type) :=
| Ok (a : A)
| Err (e : error).
Arguments Ok {A} a.
Arguments Err {A} e.

Definition is_ok {A} (r : result A) : bool := if r is Ok _ then true else false.

Definition result_bind {A B} (r : result A) (f : A -> result B) : result B :=
  match r with Ok a => f a | Err e => Err e end.

#[global] Instance result_mret : MRet result := @Ok.
#[global] Instance result_mbind : MBind result := fun A B f r => result_bind r f.

(** ** Tactics *)

(** Case on the next [if], [match] or [let] of the goal or of a hypothesis,
    and discard the branches that close by computation. *)
Ltac case_branches :=
  repeat (case_match; simplify_eq/=; try done).

(** Split a conjunction of boolean tests in the hypotheses. *)
Ltac bool_props :=
  repeat match goal with
  | H : (_ && _) = true |- _ => apply andb_true_iff in H as [? ?]
  | H : (_ || _) = false |- _ => apply orb_false_iff in H as [? ?]
  | H : negb _ = true |- _ => apply negb_true_iff in H
  | H : negb _ = false |- _ => apply negb_false_iff in H
  | H : (_ =? _)%string = true |- _ => apply String.eqb_eq in H
  | H : (_ =? _)%string = false |- _ => apply String.eqb_neq in H
  | H : (_ =? _)%Z = true |- _ => apply Z.eqb_eq in H
  | H : (_ =? _)%Z = false |- _ => apply Z.eqb_neq in H
  | H : (_ <? _)%Z = true |- _ => apply Z.ltb_lt in H
  | H : (_ <? _)%Z = false |- _ => apply Z.ltb_ge in H
  | H : (_ <=? _)%Z = true |- _ => apply Z.leb_le in H
  | H : (_ <=? _)%Z = false |- _ => apply Z.leb_gt in H
  | H : bool_decide _ = true |- _ => apply bool_decide_eq_true in H
  | H : bool_decide _ = false |- _ => apply bool_decide_eq_false in H
  end.

(** ** Lemmas on bytes *)

Create HintDb munnel discriminated.
Create Rewrite HintDb munnel.

Lemma byte_to_Z_range b : 0 <= byte_to_Z b < 256.
Proof.
  unfold byte_to_Z. pose proof (Byte.to_N_bounded b). lia.
Qed.

Lemma byte_of_to_Z b : byte_of_Z (byte_to_Z b) = b.
Proof.
  unfold byte_of_Z. rewrite Z.mod_small by apply byte_to_Z_range.
  unfold byte_to_Z. by rewrite N2Z.id, Byte.of_to_N.
Qed.

Lemma byte_to_of_Z z : byte_to_Z (byte_of_Z z) = z mod 256.
Proof.
  unfold byte_of_Z, byte_to_Z.
  pose proof (Z.mod_pos_bound z 256 ltac:(lia)) as Hz.
  destruct (Byte.of_N _) as [b|] eqn:E; simpl.
  - apply Byte.to_of_N in E. rewrite E. lia.
  - apply Byte.of_N_None_iff in E. lia.
Qed.

Lemma byte_to_Z_inj b1 b2 : byte_to_Z b1 = byte_to_Z b2 -> b1 = b2.
Proof. intros H. by rewrite <-(byte_of_to_Z b1), H, byte_of_to_Z. Qed.

#[export] Hint Rewrite byte_of_to_Z byte_to_of_Z : munnel.
#[export] Hint Resolve byte_to_Z_range : munnel.

Lemma string_of_bytes_of_string s : string_of_bytes (bytes_of_string s) = s.
Proof. apply String.string_of_list_byte_of_string. Qed.

Lemma take_cons_take {A} n (x : A) l : take n (x :: take n l) = take n (x :: l).
Proof. destruct n as [|n]; [done|]. simpl. by rewrite take_take, Nat.min_l by lia. Qed.

Lemma omap_snoc {A B} (f : A -> option B) l x : omap f (l ++ [x]) = omap f l ++ option_list (f x).
Proof. rewrite omap_app. by f_equal. Qed.

Lemma length_bytes_of_string s : length (bytes_of_string s) = String.length s.
Proof. unfold bytes_of_string, String.list_byte_of_string. rewrite length_map. by induction s as [|c s IH]; simpl; [|rewrite IH]. Qed.

Lemma bytes_of_string_of_bytes b : bytes_of_string (string_of_bytes b) = b.
Proof. apply String.list_byte_of_string_of_list_byte. Qed.

Lemma string_of_bytes_app a b : string_of_bytes (a ++ b) = (string_of_bytes a +:+ string_of_bytes b)%string.
Proof. induction a as [|x a IH]; [done|]. change (string_of_bytes ((x :: a) ++ b)) with (String (Ascii.ascii_of_byte x) (string_of_bytes (a ++ b))). by rewrite IH. Qed.

#[export] Hint Rewrite string_of_bytes_of_string bytes_of_string_of_bytes : munnel.

(** ** Lemmas on machine integers *)

Lemma wrap_range w z : 0 <= w -> 0 <= wrap w z < 2 ^ w.
Proof. intros Hw. apply Z.mod_pos_bound. lia. Qed.

Lemma wrap_small w z : 0 <= z < 2 ^ w -> wrap w z = z.
Proof. apply Z.mod_small. Qed.

(** ** Lemmas on lists *)

Lemma take_app_exact {A} (l k : list A) n : n = length l -> take n (l ++ k) = l.
Proof. intros ->. by rewrite take_app_length. Qed.

Lemma drop_app_exact {A} (l k : list A) n : n = length l -> drop n (l ++ k) = k.
Proof. intros ->. by rewrite drop_app_length. Qed.
