(* ===== verification/Frame.v ===== *)
(** * The mux wire format: internal/mux/frame.go

    A frame is a 9-byte header (type, stream id, payload length, big-endian)
    followed by the payload. [writeFrame] serialises one frame onto an
    [io.Writer], [readFrame] parses one frame from an [io.Reader]. *)
From S2P Require Import Prelude.
From Stdlib Require Import Strings.Byte.

(** ** Constants (frame.go:20-45, 66) *)

Definition HeaderSize : Z := 9.
Definition MaxPayload : Z := Z.shiftl 1 20.
Definition coalesceMax : Z := Z.shiftl 64 10.

Definition FrameOpen : Byte.byte := x01.
Definition FrameData : Byte.byte := x02.
Definition FramePing : Byte.byte := x03.
Definition FramePong : Byte.byte := x04.
Definition FrameClose : Byte.byte := x05.
Definition FrameReset : Byte.byte := x06.

(** [frameTypeName], the map literal of frame.go:47. *)
Definition frameTypeName : list (Byte.byte * string) :=
  [(FrameOpen, "OPEN"); (FrameData, "DATA"); (FramePing, "PING");
   (FramePong, "PONG"); (FrameClose, "CLOSE"); (FrameReset, "RESET")].

Definition hex_digit (n : Z) : string :=
  default "" (["0";"1";"2";"3";"4";"5";"6";"7";"8";"9";"a";"b";"c";"d";"e";"f"]
                !! Z.to_nat n).

Definition frameName (t : Byte.byte) : string :=
  match find (fun p => Byte.eqb (fst p) t) frameTypeName with
  | Some (_, n) => n
  | None => "0x" +:+ hex_digit (byte_to_Z t / 16) +:+ hex_digit (byte_to_Z t mod 16)
  end.

(** ** encoding/binary: [BigEndian.PutUint32], [PutUint64] and [Uint32] *)

Definition be_bytes32 (v : Z) : list Byte.byte :=
  [byte_of_Z (Z.shiftr v 24); byte_of_Z (Z.shiftr v 16);
   byte_of_Z (Z.shiftr v 8); byte_of_Z v].

(** [binary.BigEndian.PutUint32(b[off:], v)]. *)
Definition PutUint32 (b : list Byte.byte) (off : nat) (v : Z) : list Byte.byte :=
  list_inserts off (be_bytes32 v) b.

Definition PutUint64 (v : Z) : list Byte.byte :=
  be_bytes32 (Z.shiftr v 32) ++ be_bytes32 v.

Definition Uint32 (b : list Byte.byte) : Z :=
  let at_ i := byte_to_Z (default x00 (b !! i)) in
  Z.lor (at_ 3%nat) (Z.lor (Z.shiftl (at_ 2%nat) 8)
    (Z.lor (Z.shiftl (at_ 1%nat) 16) (Z.shiftl (at_ 0%nat) 24))).

(** ** Writing *)

(** An [io.Writer] as the frame writer uses it: [Write] either takes the whole
    slice or fails; the byte count is discarded by the callers. *)
Class Writer (W : Type) := Write : W -> list Byte.byte -> W * option error.

(** The [bytes.Buffer]-like writer that records each [Write] call and never
    fails. *)
Definition writes := list (list Byte.byte).
#[export] Instance buffer_writer : Writer writes := fun w b => (w ++ [b], None).

(** frame.go:91. [b] has at least [HeaderSize] bytes; [uint32(n)] truncates. *)
Definition putHeader (b : list Byte.byte) (typ : Byte.byte) (streamID n : Z) : list Byte.byte :=
  let b := <[0%nat := typ]> b in
  let b := PutUint32 b 1 streamID in
  PutUint32 b 5 (u32 n).

(** [copy(b[off:], src)] where [src] fits. *)
Definition copy_at (b : list Byte.byte) (off : nat) (src : list Byte.byte) : list Byte.byte :=
  list_inserts off src b.

(** frame.go:70. *)
Definition writeFrame `{Writer W} (w : W) (typ : Byte.byte) (streamID : Z)
    (payload : list Byte.byte) : W * option error :=
  if zlen payload <=? coalesceMax then
    let buf := replicate (9 + length payload) x00 in
    let buf := putHeader buf typ streamID (zlen payload) in
    let buf := copy_at buf 9 payload in
    Write w buf
  else
    let hdr := putHeader (replicate 9 x00) typ streamID (zlen payload) in
    let '(w, err) := Write w hdr in
    match err with
    | Some e => (w, Some e)
    | None => if 0 <? zlen payload then Write w payload else (w, None)
    end.

(** ** Reading *)

(** An [io.Reader]: the bytes that will arrive, then the error that ends it
    ([io.EOF] for a clean end). *)
Record reader := { rd_data : list Byte.byte; rd_end : error }.

(** [io.ReadFull(r, buf)] with [len(buf) = n]. *)
Definition ReadFull (r : reader) (n : nat) : reader * result (list Byte.byte) :=
  if (n <=? length (rd_data r))%nat then
    ({| rd_data := drop n (rd_data r); rd_end := rd_end r |}, Ok (take n (rd_data r)))
  else
    ({| rd_data := []; rd_end := rd_end r |},
     Err (if bool_decide (rd_end r = io_EOF) && (0 <? length (rd_data r))%nat
          then Sentinel io_ErrUnexpectedEOF else rd_end r)).

(** One frame as the read loop sees it. *)
Record frame := Frame { f_typ : Byte.byte; f_id : Z; f_payload : list Byte.byte }.

#[export] Instance frame_eq_dec : EqDecision frame.
Proof. solve_decision. Defined.

(** frame.go:99. *)
Definition readFrame (r : reader) : reader * result frame :=
  let '(r, hdr) := ReadFull r 9 in
  match hdr with
  | Err e => (r, Err e)
  | Ok hdr =>
      let typ := default x00 (hdr !! 0%nat) in
      let streamID := Uint32 (take 4 (drop 1 hdr)) in
      let n := Uint32 (take 4 (drop 5 hdr)) in
      if MaxPayload <? n then
        (r, Err (Errorf "mux: frame payload %d exceeds max %d" [pretty n; pretty MaxPayload]))
      else if n =? 0 then (r, Ok (Frame typ streamID []))
      else
        let '(r, payload) := ReadFull r (Z.to_nat n) in
        match payload with
        | Err e => (r, Err e)
        | Ok payload => (r, Ok (Frame typ streamID payload))
        end
  end.

(** Read frames until the reader fails: the sequence the read loop dispatches
    and the error that ends it. Every frame consumes at least a header, so the
    number of bytes is enough fuel. *)
Fixpoint readFrames (fuel : nat) (r : reader) : list frame * option error :=
  match fuel with
  | O => ([], None)
  | S fuel =>
      match readFrame r with
      | (_, Err e) => ([], Some e)
      | (r, Ok f) => let '(fs, e) := readFrames fuel r in (f :: fs, e)
      end
  end.

(** ** The abstract format *)

(** The wire image of a frame, as the package comment draws it. *)
Definition encode_frame (f : frame) : list Byte.byte :=
  f_typ f :: be_bytes32 (f_id f) ++ be_bytes32 (zlen (f_payload f)) ++ f_payload f.

(** A frame that the format can carry. *)
Definition frame_ok (f : frame) : Prop :=
  0 <= f_id f < 2 ^ 32 /\ zlen (f_payload f) <= MaxPayload.

#[export] Instance frame_ok_dec f : Decision (frame_ok f).
Proof. unfold frame_ok. apply _. Defined.

(** ** Lemmas *)

Lemma be_bytes32_length v : length (be_bytes32 v) = 4%nat.
Proof. done. Qed.

(** The four bytes of a 32-bit value, recombined with shifts and ors. *)
Lemma lor_shiftl_add a b k : 0 <= k -> 0 <= a < 2 ^ k -> Z.lor a (Z.shiftl b k) = a + b * 2 ^ k.
Proof.
  intros Hk Ha. rewrite Z.shiftl_mul_pow2 by done.
  enough (Z.land a (b * 2 ^ k) = 0) as Hland.
  { pose proof (Z.add_lor_land a (b * 2 ^ k)). lia. }
  apply Z.bits_inj'. intros n Hn. rewrite Z.land_spec, Z.bits_0.
  destruct (Z.lt_ge_cases n k).
  - rewrite Z.mul_pow2_bits_low by done. apply andb_false_r.
  - destruct (decide (a = 0)) as [->|]; [by rewrite Z.bits_0|].
    rewrite (Z.bits_above_log2 a n); [done|lia|].
    apply Z.log2_lt_pow2; [lia|]. apply Z.lt_le_trans with (2 ^ k); [lia|].
    apply Z.pow_le_mono_r; lia.
Qed.

Lemma shiftr_mod_256 v k : 0 <= k -> Z.shiftr v k mod 256 = (v / 2 ^ k) mod 256.
Proof. intros. by rewrite Z.shiftr_div_pow2. Qed.

Lemma Uint32_be_bytes32 v : Uint32 (be_bytes32 v) = u32 v.
Proof.
  unfold Uint32, be_bytes32. cbn [lookup list_lookup default id].
  rewrite !byte_to_of_Z, !shiftr_mod_256 by lia.
  assert (forall a b c d, 0 <= a < 256 -> 0 <= b < 256 -> 0 <= c < 256 ->
    Z.lor a (Z.lor (Z.shiftl b 8) (Z.lor (Z.shiftl c 16) (Z.shiftl d 24))) =
    a + b * 256 + c * 65536 + d * 16777216) as Hor.
  { intros a b c d Ha Hb Hc.
    replace (Z.shiftl d 24) with (Z.shiftl (Z.shiftl d 8) 16) by (by rewrite Z.shiftl_shiftl).
    rewrite <-Z.shiftl_lor, (lor_shiftl_add c d) by lia.
    replace (Z.shiftl (c + d * 2 ^ 8) 16) with (Z.shiftl (Z.shiftl (c + d * 2 ^ 8) 8) 8)
      by (by rewrite Z.shiftl_shiftl).
    rewrite <-Z.shiftl_lor, (lor_shiftl_add b), (lor_shiftl_add a) by lia. lia. }
  unfold wrap. rewrite Hor by (apply Z.mod_pos_bound; lia).
  change (2 ^ 24) with 16777216. change (2 ^ 16) with 65536.
  change (2 ^ 8) with 256. change (2 ^ 32) with 4294967296.
  Z.to_euclidean_division_equations. lia.
Qed.

Lemma be_bytes32_wrap v : be_bytes32 (u32 v) = be_bytes32 v.
Proof.
  assert (forall k, (k = 0 \/ k = 8 \/ k = 16 \/ k = 24) ->
    byte_of_Z (Z.shiftr (u32 v) k) = byte_of_Z (Z.shiftr v k)) as Hk.
  { intros k Hk. apply byte_to_Z_inj. rewrite !byte_to_of_Z.
    rewrite !shiftr_mod_256 by lia. unfold wrap.
    change (2 ^ 32) with 4294967296.
    destruct Hk as [->|[->|[->| ->]]];
      [change (2 ^ 0) with 1|change (2 ^ 8) with 256
      |change (2 ^ 16) with 65536|change (2 ^ 24) with 16777216];
      Z.to_euclidean_division_equations; lia. }
  unfold be_bytes32. rewrite !Hk by lia. pose proof (Hk 0 ltac:(lia)) as H0.
  rewrite !Z.shiftr_0_r in H0. by rewrite H0.
Qed.

Lemma Uint32_app v k : Uint32 (be_bytes32 v ++ k) = u32 v.
Proof. apply Uint32_be_bytes32. Qed.

(** What [putHeader] leaves in a zeroed buffer of [9 + n] bytes. *)
Lemma putHeader_zeroed typ id n m :
  putHeader (replicate (9 + m) x00) typ id n =
  typ :: be_bytes32 id ++ be_bytes32 n ++ replicate m x00.
Proof.
  unfold putHeader, PutUint32. rewrite be_bytes32_wrap. by destruct m.
Qed.

Lemma copy_at_full hdr src m :
  length hdr = 9%nat -> length src = m ->
  copy_at (hdr ++ replicate m x00) 9 src = hdr ++ src.
Proof.
  intros Hh <-. unfold copy_at.
  replace 9%nat with (length hdr + 0)%nat by lia.
  rewrite list_inserts_app_r. f_equal.
  rewrite <-(app_nil_r (replicate _ _)), list_inserts_0_r by (by rewrite length_replicate).
  apply app_nil_r.
Qed.

Lemma MaxPayload_value : MaxPayload = 1048576.
Proof. done. Qed.

Lemma coalesceMax_value : coalesceMax = 65536.
Proof. done. Qed.

(** The two buffers [writeFrame] builds: a whole small frame, a bare header. *)
Lemma small_frame_buffer typ id p :
  copy_at (putHeader (replicate (9 + length p) x00) typ id (zlen p)) 9 p =
  encode_frame (Frame typ id p).
Proof.
  rewrite putHeader_zeroed.
  by apply (copy_at_full (typ :: be_bytes32 id ++ be_bytes32 (zlen p)) p).
Qed.

Lemma header_buffer typ id n :
  putHeader (replicate 9 x00) typ id n = typ :: be_bytes32 id ++ be_bytes32 n.
Proof. pose proof (putHeader_zeroed typ id n 0) as Hh. by rewrite app_nil_r in Hh. Qed.

Lemma large_nonempty (p : list Byte.byte) :
  (zlen p <=? coalesceMax) = false -> (0 <? zlen p) = true.
Proof. intros. bool_props. rewrite coalesceMax_value in *. apply Z.ltb_lt. lia. Qed.

(** The bytes of a frame with a payload of any size: the header carries the
    length truncated to 32 bits. *)
Lemma writeFrame_buffer (w : writes) typ id payload :
  writeFrame w typ id payload =
  (if zlen payload <=? coalesceMax
   then w ++ [encode_frame (Frame typ id payload)]
   else w ++ [typ :: be_bytes32 id ++ be_bytes32 (zlen payload); payload], None).
Proof.
  unfold writeFrame, Write, buffer_writer. case_match.
  - by rewrite small_frame_buffer.
  - by rewrite large_nonempty, header_buffer, <-(app_assoc w).
Qed.

Lemma writeFrame_bytes (w : writes) f :
  concat (fst (writeFrame w (f_typ f) (f_id f) (f_payload f))) = concat w ++ encode_frame f.
Proof.
  destruct f as [typ id payload]. rewrite writeFrame_buffer. simpl.
  case_match; rewrite concat_app; simpl; by rewrite ?app_nil_r.
Qed.

Lemma encode_frame_length f : length (encode_frame f) = (9 + length (f_payload f))%nat.
Proof. done. Qed.

Lemma ReadFull_app d1 d2 e n :
  n = length d1 ->
  ReadFull {| rd_data := d1 ++ d2; rd_end := e |} n = ({| rd_data := d2; rd_end := e |}, Ok d1).
Proof.
  intros ->. unfold ReadFull. simpl. rewrite length_app.
  case_match eqn:H; [|apply Nat.leb_gt in H; lia].
  by rewrite take_app_length, drop_app_length.
Qed.

Lemma ReadFull_short d e n :
  (length d < n)%nat ->
  ReadFull {| rd_data := d; rd_end := e |} n =
  ({| rd_data := []; rd_end := e |},
   Err (if bool_decide (e = io_EOF) && (0 <? length d)%nat
        then Sentinel io_ErrUnexpectedEOF else e)).
Proof.
  intros Hn. unfold ReadFull. simpl. case_match eqn:H; [apply Nat.leb_le in H; lia|done].
Qed.

(** The header alone, whatever follows it. *)
Lemma readFrame_header typ id n d e :
  readFrame {| rd_data := typ :: be_bytes32 id ++ be_bytes32 n ++ d; rd_end := e |} =
  (if MaxPayload <? u32 n then
     ({| rd_data := d; rd_end := e |},
      Err (Errorf "mux: frame payload %d exceeds max %d" [pretty (u32 n); pretty MaxPayload]))
   else if u32 n =? 0 then ({| rd_data := d; rd_end := e |}, Ok (Frame typ (u32 id) []))
   else
     let '(r, p) := ReadFull {| rd_data := d; rd_end := e |} (Z.to_nat (u32 n)) in
     match p with Err e => (r, Err e) | Ok p => (r, Ok (Frame typ (u32 id) p)) end).
Proof.
  unfold readFrame.
  rewrite (ReadFull_app (typ :: be_bytes32 id ++ be_bytes32 n) d) by done.
  change (default x00 ((typ :: be_bytes32 id ++ be_bytes32 n) !! 0%nat)) with typ.
  change (take 4 (drop 1 (typ :: be_bytes32 id ++ be_bytes32 n))) with (be_bytes32 id).
  change (take 4 (drop 5 (typ :: be_bytes32 id ++ be_bytes32 n))) with (be_bytes32 n).
  by rewrite !Uint32_be_bytes32.
Qed.

Lemma readFrame_encode f d e :
  frame_ok f ->
  readFrame {| rd_data := encode_frame f ++ d; rd_end := e |} = ({| rd_data := d; rd_end := e |}, Ok f).
Proof.
  intros [Hid Hlen]. destruct f as [typ id p].
  unfold encode_frame. cbn [f_typ f_id f_payload] in *.
  rewrite MaxPayload_value in Hlen.
  rewrite <-app_comm_cons, <-!app_assoc.
  rewrite readFrame_header, !wrap_small by lia. rewrite MaxPayload_value.
  case_match; bool_props; [lia|].
  case_match; bool_props.
  - assert (p = []) as -> by (destruct p; [done|simpl in *; lia]). done.
  - rewrite ReadFull_app by lia. done.
Qed.

(** ** Properties *)

(** C18: the bytes [writeFrame] puts on the wire for any frame the format can
    carry are parsed back by [readFrame] to the same type, stream id and
    payload, and the reader is left exactly at the first byte after the frame,
    whatever follows. *)
Theorem readFrame_writeFrame f rest e :
  frame_ok f ->
  readFrame {| rd_data := concat (fst (writeFrame ([] : writes) (f_typ f) (f_id f) (f_payload f))) ++ rest;
               rd_end := e |}
  = ({| rd_data := rest; rd_end := e |}, Ok f).
Proof. intros Hf. rewrite writeFrame_bytes. simpl. by apply readFrame_encode. Qed.

Lemma readFrame_writeFrame_witness :
  frame_ok (Frame FrameData 7 [x41; x42]) /\
  readFrame {| rd_data := concat (fst (writeFrame ([] : writes) FrameData 7 [x41; x42])) ++ [xff];
               rd_end := io_EOF |}
  = ({| rd_data := [xff]; rd_end := io_EOF |}, Ok (Frame FrameData 7 [x41; x42])).
Proof.
  split; [vm_compute; repeat split; congruence|].
  apply (readFrame_writeFrame (Frame FrameData 7 [x41; x42])). vm_compute; repeat split; congruence.
Defined.

Lemma readFrame_empty e :
  readFrame {| rd_data := []; rd_end := e |} = ({| rd_data := []; rd_end := e |}, Err e).
Proof.
  unfold readFrame. rewrite ReadFull_short by (simpl; lia). simpl.
  by rewrite andb_false_r.
Qed.

Lemma readFrames_encode fs fuel e :
  Forall frame_ok fs -> (length fs < fuel)%nat ->
  readFrames fuel {| rd_data := concat (encode_frame <$> fs); rd_end := e |} = (fs, Some e).
Proof.
  intros Hfs. revert fuel. induction Hfs as [|f fs Hf Hfs IH]; intros [|fuel] Hfuel;
    simpl in Hfuel; try lia.
  - cbn [readFrames]. by rewrite readFrame_empty.
  - cbn [readFrames fmap list_fmap concat]. rewrite readFrame_encode by done.
    by rewrite IH by lia.
Qed.

Lemma encode_frames_length fs : (length fs <= length (concat (encode_frame <$> fs)))%nat.
Proof.
  induction fs as [|f fs IH]; [done|]. cbn [fmap list_fmap concat length].
  rewrite length_app, encode_frame_length. lia.
Qed.

(** Write a sequence of frames one after the other. *)
Definition writeFrames `{Writer W} (w : W) (fs : list frame) : W :=
  foldl (fun w f => fst (writeFrame w (f_typ f) (f_id f) (f_payload f))) w fs.

Lemma writeFrames_bytes fs (w : writes) :
  concat (writeFrames w fs) = concat w ++ concat (encode_frame <$> fs).
Proof.
  revert w. induction fs as [|f fs IH]; intros w; [by rewrite app_nil_r|].
  transitivity (concat (writeFrames (fst (writeFrame w (f_typ f) (f_id f) (f_payload f))) fs)); [done|].
  rewrite IH, writeFrame_bytes. by rewrite <-app_assoc.
Qed.

(** a sequence of frames written back to back is read back as the same
    sequence, in order, and reading stops with the error that ends the
    connection: no frame boundary is ever lost. *)
Theorem readFrames_writeFrames fs e :
  Forall frame_ok fs ->
  let wire := concat (writeFrames ([] : writes) fs) in
  readFrames (S (length wire)) {| rd_data := wire; rd_end := e |} = (fs, Some e).
Proof.
  intros Hfs wire. unfold wire. rewrite writeFrames_bytes. simpl app.
  apply readFrames_encode; [done|]. pose proof (encode_frames_length fs). simpl. lia.
Qed.

Lemma readFrames_writeFrames_witness :
  Forall frame_ok [Frame FrameOpen 1 []; Frame FrameData 1 [x41]] /\
  readFrames 21 {| rd_data := concat (writeFrames ([] : writes)
                    [Frame FrameOpen 1 []; Frame FrameData 1 [x41]]); rd_end := io_EOF |}
  = ([Frame FrameOpen 1 []; Frame FrameData 1 [x41]], Some (Sentinel io_EOF)).
Proof.
  assert (Forall frame_ok [Frame FrameOpen 1 []; Frame FrameData 1 [x41]]) as H
    by (repeat constructor; vm_compute; congruence).
  split; [exact H|].
  exact (readFrames_writeFrames [Frame FrameOpen 1 []; Frame FrameData 1 [x41]] io_EOF H).
Defined.

(** How a connection that is cut in the middle of a frame reads: [None] when
    the frame is complete. *)
Definition cut_error (f : frame) (k : nat) : option error :=
  if (length (encode_frame f) <=? k)%nat then None
  else if (k =? 0)%nat || (k =? 9)%nat then Some (Sentinel io_EOF)
  else Some (Sentinel io_ErrUnexpectedEOF).

(** a connection cut anywhere inside a frame yields an error and never a
    shorter frame. [io.EOF] is reported when the cut is before the frame or
    exactly between its header and its payload, [io.ErrUnexpectedEOF]
    everywhere else. *)
Theorem readFrame_truncated f k :
  frame_ok f -> (k < length (encode_frame f))%nat ->
  exists r e, cut_error f k = Some e /\
    readFrame {| rd_data := take k (encode_frame f); rd_end := io_EOF |} = (r, Err e).
Proof.
  intros [Hid Hlen] Hk. pose proof Hk as Hk'. rewrite encode_frame_length in Hk'.
  unfold cut_error. rewrite (proj2 (Nat.leb_gt _ _)) by done.
  destruct (decide (k < 9)%nat) as [H9|H9].
  - unfold readFrame. rewrite ReadFull_short by (rewrite length_take; lia).
    rewrite length_take. destruct k as [|k]; [by eauto|].
    replace (Nat.min (S k) _) with (S k) by lia.
    rewrite (proj2 (Nat.eqb_neq (S k) 9)) by lia. simpl. eauto.
  - destruct f as [typ id p]. cbn [f_id f_payload] in *. unfold encode_frame.
    cbn [f_typ f_id f_payload]. rewrite MaxPayload_value in Hlen.
    assert (take k (typ :: be_bytes32 id ++ be_bytes32 (zlen p) ++ p) =
      typ :: be_bytes32 id ++ be_bytes32 (zlen p) ++ take (k - 9) p) as ->.
    { do 9 (destruct k as [|k]; [lia|]). simpl. do 9 f_equal. f_equal. lia. }
    rewrite readFrame_header, !wrap_small by lia. rewrite MaxPayload_value.
    rewrite (proj2 (Z.ltb_ge _ _)), (proj2 (Z.eqb_neq _ _)) by lia.
    rewrite ReadFull_short by (rewrite length_take; lia).
    rewrite length_take. destruct (decide (k = 9)%nat) as [->|].
    + simpl. eauto.
    + rewrite (proj2 (Nat.eqb_neq k 0)), (proj2 (Nat.eqb_neq k 9)) by lia.
      rewrite (proj2 (Nat.ltb_lt 0 _)) by lia. simpl. eauto.
Qed.

Lemma readFrame_truncated_witness :
  frame_ok (Frame FrameData 1 [x41]) /\ (9 < length (encode_frame (Frame FrameData 1 [x41])))%nat /\
  exists r e, cut_error (Frame FrameData 1 [x41]) 9 = Some e /\
    readFrame {| rd_data := take 9 (encode_frame (Frame FrameData 1 [x41])); rd_end := io_EOF |}
    = (r, Err e).
Proof.
  assert (frame_ok (Frame FrameData 1 [x41])) as H by (vm_compute; repeat split; congruence).
  split; [exact H|]. split; [vm_compute; lia|].
  apply (readFrame_truncated (Frame FrameData 1 [x41]) 9 H). vm_compute; lia.
Defined.

(** a header announcing more than [MaxPayload] bytes is refused before a
    single payload byte is read or allocated, whatever follows it. *)
Theorem readFrame_oversize typ id n d e :
  MaxPayload < n < 2 ^ 32 ->
  readFrame {| rd_data := typ :: be_bytes32 id ++ be_bytes32 n ++ d; rd_end := e |} =
  ({| rd_data := d; rd_end := e |},
   Err (Errorf "mux: frame payload %d exceeds max %d" [pretty n; pretty MaxPayload])).
Proof.
  intros Hn. rewrite readFrame_header. rewrite (wrap_small 32 n).
  2: { rewrite MaxPayload_value in Hn. lia. }
  by rewrite (proj2 (Z.ltb_lt _ _)) by lia.
Qed.

Lemma readFrame_oversize_witness :
  (MaxPayload < 1048577 < 2 ^ 32) /\
  readFrame {| rd_data := FrameData :: be_bytes32 1 ++ be_bytes32 1048577 ++ [x41]; rd_end := io_EOF |} =
  ({| rd_data := [x41]; rd_end := io_EOF |},
   Err (Errorf "mux: frame payload %d exceeds max %d" ["1048577"; "1048576"])).
Proof.
  assert (MaxPayload < 1048577 < 2 ^ 32) as H by (vm_compute; split; congruence).
  split; [exact H|]. exact (readFrame_oversize FrameData 1 1048577 [x41] io_EOF H).
Defined.

(** A writer that fails its [n]-th call with [e] and records the others. *)
Record flaky := { fl_done : writes; fl_left : nat; fl_err : error }.
#[export] Instance flaky_writer : Writer flaky := fun w b =>
  match fl_left w with
  | O => (w, Some (fl_err w))
  | S n => ({| fl_done := fl_done w ++ [b]; fl_left := n; fl_err := fl_err w |}, None)
  end.

(** a small frame goes out in exactly one [Write] (one TLS record), a
    larger one in two, and a failed [Write] ends the call with its error and
    nothing further written. *)
Theorem writeFrame_calls typ id payload n e :
  let '(w, err) := writeFrame {| fl_done := []; fl_left := n; fl_err := e |} typ id payload in
  let calls := if zlen payload <=? coalesceMax then 1%nat else 2%nat in
  length (fl_done w) = Nat.min n calls /\
  err = (if (n <? calls)%nat then Some e else None) /\
  ((calls <= n)%nat -> concat (fl_done w) = encode_frame (Frame typ id payload)).
Proof.
  unfold writeFrame, Write, flaky_writer.
  rewrite small_frame_buffer, header_buffer.
  destruct (zlen payload <=? coalesceMax) eqn:Hs.
  - destruct n as [|n]; cbn [fl_left fl_done fl_err]; repeat split; try (simpl; lia).
    intros _. apply app_nil_r.
  - rewrite large_nonempty by done.
    destruct n as [|[|n]]; cbn [fl_left fl_done fl_err]; repeat split; try (simpl; lia).
    intros _. cbn [concat app]. by rewrite app_nil_r.
Qed.
