(* ===== verification/Stream.v ===== *)
(** * One multiplexed stream: internal/mux/stream.go

    The state of a [Stream] and its operations.  An operation of the code takes
    the stream's mutex once or several times; each critical section is a
    definition of its own here, and the operation composes them.  What a stream
    needs from its session (emitting a frame, unregistering itself, knowing that
    the session is gone) is the interface [StreamHost], which Session.v
    implements; Concurrency.v interleaves the same critical sections. *)
From S2P Require Import Prelude Frame.

(** ** Data (stream.go:30) *)

(** [len(make(chan []byte, 16))]. *)
Definition chunkCap : nat := 16.

(** A closed channel is a [true] flag ([eofCh], [aborted]); a [sync.Once] that
    only guards the closing of a channel is that flag ([abortOnce]). *)
Record Stream := mkStream {
  st_id : Z;
  chunks : list (list Byte.byte);
  eofCh : bool;
  cur : list Byte.byte;
  aborted : bool;
  readErr : option error;
  readDone : bool;
  sentClose : bool;
  reset : bool;
  removeOnce : bool
}.

#[export] Instance stream_eq_dec : EqDecision Stream.
Proof. solve_decision. Defined.

(** stream.go:52. *)
Definition newStream (id : Z) : Stream :=
  mkStream id [] false [] false None false false false false.

Definition set_chunks (cs : list (list Byte.byte)) (s : Stream) : Stream :=
  mkStream (st_id s) cs (eofCh s) (cur s) (aborted s) (readErr s) (readDone s)
    (sentClose s) (reset s) (removeOnce s).
Definition set_cur (c : list Byte.byte) (s : Stream) : Stream :=
  mkStream (st_id s) (chunks s) (eofCh s) c (aborted s) (readErr s) (readDone s)
    (sentClose s) (reset s) (removeOnce s).
Definition set_eofCh (s : Stream) : Stream :=
  mkStream (st_id s) (chunks s) true (cur s) (aborted s) (readErr s) (readDone s)
    (sentClose s) (reset s) (removeOnce s).
Definition set_readDone (e : error) (s : Stream) : Stream :=
  mkStream (st_id s) (chunks s) (eofCh s) (cur s) (aborted s) (Some e) true
    (sentClose s) (reset s) (removeOnce s).
Definition set_sentClose (s : Stream) : Stream :=
  mkStream (st_id s) (chunks s) (eofCh s) (cur s) (aborted s) (readErr s) (readDone s)
    true (reset s) (removeOnce s).
Definition set_reset (s : Stream) : Stream :=
  mkStream (st_id s) (chunks s) (eofCh s) (cur s) (aborted s) (readErr s) (readDone s)
    (sentClose s) true (removeOnce s).
Definition set_removeOnce (s : Stream) : Stream :=
  mkStream (st_id s) (chunks s) (eofCh s) (cur s) (aborted s) (readErr s) (readDone s)
    (sentClose s) (reset s) true.

(** ** Operations local to the stream *)

(** stream.go:68: closing [aborted] through [abortOnce]. *)
Definition signalAbort (s : Stream) : Stream :=
  mkStream (st_id s) (chunks s) (eofCh s) (cur s) true (readErr s) (readDone s)
    (sentClose s) (reset s) (removeOnce s).

(** stream.go:79. The possible outcomes of the call: none when it blocks, two
    when the [select] has both room in the buffer and a closed channel.
    [done] is the session's [done] channel. *)
Definition pushData (done : bool) (s : Stream) (p : list Byte.byte) : list Stream :=
  if readDone s then [s]
  else (if (length (chunks s) <? chunkCap)%nat then [set_chunks (chunks s ++ [p]) s] else []) ++
       (if eofCh s || done then [s] else []).

(** stream.go:95, the critical section: [None] when a call has already won. *)
Definition markReadDone_lock (e : error) (s : Stream) : option Stream :=
  if readDone s then None else Some (set_readDone e s).

(** stream.go:95: the critical section, then [close(s.eofCh)]. *)
Definition markReadDone (e : error) (s : Stream) : Stream * bool :=
  match markReadDone_lock e s with
  | None => (s, false)
  | Some s => (set_eofCh s, true)
  end.

(** stream.go:134. *)
Inductive read_result :=
| ReadOk (data : list Byte.byte)
| ReadErr (e : error)
| ReadBlock   (** waits for a chunk, [eofCh] or the session's end *)
| ReadSpin.   (** still looping when the fuel ran out *)

#[export] Instance read_result_eq_dec : EqDecision read_result.
Proof. solve_decision. Defined.

(** The [switch rerr] of stream.go:155. *)
Definition terminal_error (rerr : option error) : error :=
  match rerr with
  | None | Some (Sentinel io_EOF) => io_EOF
  | Some (Sentinel mux_errSessionClosed) => io_ErrUnexpectedEOF
  | Some e => e
  end.

(** The [for] loop of [Read(b)] with [len(b) = n]. When a [select] has a chunk
    and a closed channel ready, taking the chunk first loses nothing: the other
    cases loop back to the same [select], or to the drain below [readDone]. *)
Fixpoint Read_loop (fuel : nat) (done : bool) (s : Stream) (n : nat) : Stream * read_result :=
  match fuel with
  | O => (s, ReadSpin)
  | S fuel =>
      match cur s with
      | _ :: _ => (set_cur (drop n (cur s)) s, ReadOk (take n (cur s)))
      | [] =>
          match chunks s with
          | c :: cs => Read_loop fuel done (set_cur c (set_chunks cs s)) n
          | [] =>
              if readDone s then (s, ReadErr (terminal_error (readErr s)))
              else if eofCh s || done then Read_loop fuel done s n
              else (s, ReadBlock)
          end
      end
  end.

(** Each round before the last consumes a chunk. *)
Definition Read (done : bool) (s : Stream) (n : nat) : Stream * read_result :=
  Read_loop (2 + length (chunks s)) done s n.

(** stream.go:179, the closure [check]. *)
Definition check (s : Stream) : option error :=
  if reset s then Some (Sentinel mux_ErrStreamReset)
  else if sentClose s then Some (Sentinel net_ErrClosed)
  else None.

(** ** What a stream needs from its session *)

Class StreamHost (H : Type) := {
  host_writeFrame : H -> Byte.byte -> Z -> list Byte.byte -> H * option error;
  host_removeStream : H -> Z -> H;
  host_done : H -> bool
}.

Section ops.
Context {H : Type} `{StreamHost H}.
Implicit Types (h : H) (s : Stream) (b : list Byte.byte).

(** stream.go:130. *)
Definition remove h s : H * Stream :=
  if removeOnce s then (h, s) else (host_removeStream h (st_id s), set_removeOnce s).

(** One iteration of the [for len(b) > 0] loop of stream.go:202: the stream's
    flags may have changed since the previous one. *)
Inductive write_next :=
| WriteReturn (total : Z) (e : option error)
| WriteMore (b : list Byte.byte) (total : Z).

Definition write_len b : nat :=
  Z.to_nat (if MaxPayload <? zlen b then MaxPayload else zlen b).

Definition Write_iter h s b (total : Z) : H * write_next :=
  if zlen b <=? 0 then (h, WriteReturn total None)
  else
    match (if 0 <? total then check s else None) with
    | Some e => (h, WriteReturn total (Some e))
    | None =>
        let n := write_len b in
        match host_writeFrame h FrameData (st_id s) (take n b) with
        | (h, Some e) => (h, WriteReturn total (Some e))
        | (h, None) => (h, WriteMore (drop n b) (total + Z.of_nat n))
        end
    end.

Fixpoint Write_loop (fuel : nat) h s b (total : Z) : H * (Z * option error) :=
  match fuel with
  | O => (h, (total, None))
  | S fuel =>
      match Write_iter h s b total with
      | (h, WriteReturn total e) => (h, (total, e))
      | (h, WriteMore b total) => Write_loop fuel h s b total
      end
  end.

(** stream.go:178, run alone on the stream: both [check]s, then the loop. Each
    round takes at least one byte off [b]. *)
Definition Write h s b : H * (Z * option error) :=
  match check s with
  | Some e => (h, (0, Some e))
  | None => Write_loop (S (length b)) h s b 0
  end.

(** stream.go:226, the critical section: [None] when there is nothing to do,
    else the new state and [peerDone]. *)
Definition CloseWrite_lock s : option (Stream * bool) :=
  if sentClose s || reset s then None else Some (set_sentClose s, readDone s).

Definition CloseWrite h s : H * Stream * option error :=
  match CloseWrite_lock s with
  | None => (h, s, None)
  | Some (s, peerDone) =>
      let '(h, err) := host_writeFrame h FrameClose (st_id s) [] in
      let '(h, s) := if peerDone then remove h s else (h, s) in
      (h, s, err)
  end.

(** stream.go:258, the critical section: [None] when already reset, else the
    new state and [finished]. *)
Definition Abort_lock s : option (Stream * bool) :=
  if reset s then None
  else Some (set_sentClose (set_reset s),
             sentClose s && readDone s && bool_decide (readErr s = Some (Sentinel io_EOF))).

Definition Abort h s : H * Stream :=
  match Abort_lock s with
  | None => (h, s)
  | Some (s, finished) =>
      let h := if finished then h else fst (host_writeFrame h FrameReset (st_id s) []) in
      let s := fst (markReadDone mux_ErrStreamReset s) in
      let s := signalAbort s in
      remove h s
  end.

(** stream.go:247 and 280. *)
Definition Reset h s : H * Stream * option error := let '(h, s) := Abort h s in (h, s, None).
Definition Close h s : H * Stream * option error := CloseWrite h s.

(** stream.go:110. *)
Definition remoteClose h s : H * Stream :=
  let s := fst (markReadDone io_EOF s) in
  let both := sentClose s in
  if both then remove h s else (h, s).

(** stream.go:121. *)
Definition remoteReset h s : H * Stream :=
  let s := set_reset s in
  let s := fst (markReadDone mux_ErrStreamReset s) in
  let s := signalAbort s in
  remove h s.

End ops.

(** ** Well-formed streams *)

(** What holds of a stream between two operations. *)
Record stream_ok (s : Stream) : Prop := {
  ok_eof : eofCh s = readDone s;
  ok_err : readDone s = true <-> is_Some (readErr s);
  ok_cap : (length (chunks s) <= chunkCap)%nat;
  ok_reset : reset s = true -> readDone s = true /\ aborted s = true;
  ok_removed : removeOnce s = true -> readDone s = true /\ (sentClose s = true \/ reset s = true)
}.

(** Nothing left to do on a stream: both directions ended, or it was reset. *)
Definition finished (s : Stream) : bool := (sentClose s && readDone s) || reset s.

Ltac stream_crush :=
  repeat match goal with
  | s : Stream |- _ => destruct s
  | H : stream_ok _ |- _ => destruct H; simpl in *
  end;
  try split; simpl in *; try done; try solve [intuition eauto].

Lemma newStream_ok id : stream_ok (newStream id).
Proof. split; simpl; try done; unfold chunkCap; lia. Qed.

Lemma markReadDone_ok e s : stream_ok s -> stream_ok (fst (markReadDone e s)).
Proof.
  intros Hs. unfold markReadDone, markReadDone_lock.
  destruct (readDone s) eqn:Hd; [done|]. stream_crush.
Qed.

Lemma markReadDone_spec e s :
  readDone (fst (markReadDone e s)) = true /\
  readErr (fst (markReadDone e s)) = (if readDone s then readErr s else Some e) /\
  chunks (fst (markReadDone e s)) = chunks s /\ cur (fst (markReadDone e s)) = cur s /\
  st_id (fst (markReadDone e s)) = st_id s /\
  sentClose (fst (markReadDone e s)) = sentClose s /\ reset (fst (markReadDone e s)) = reset s /\
  removeOnce (fst (markReadDone e s)) = removeOnce s /\ aborted (fst (markReadDone e s)) = aborted s.
Proof. unfold markReadDone, markReadDone_lock. by destruct s as [? ? ? ? ? ? []]. Qed.

Lemma signalAbort_ok s : stream_ok s -> stream_ok (signalAbort s).
Proof. intros. stream_crush. Qed.

(** [reset] may be set before the stream is marked done: the marking restores
    the invariant. *)
Lemma reset_stream_ok s :
  stream_ok s -> stream_ok (signalAbort (fst (markReadDone mux_ErrStreamReset (set_reset s)))).
Proof.
  intros Hs. unfold markReadDone, markReadDone_lock. simpl.
  destruct (readDone s) eqn:Hd; stream_crush.
Qed.

Lemma sentClose_ok s : stream_ok s -> stream_ok (set_sentClose s).
Proof. intros. stream_crush. Qed.

Lemma pushData_ok d s p s' : stream_ok s -> s' ∈ pushData d s p -> stream_ok s'.
Proof.
  intros Hs. unfold pushData. case_match; [by intros ->%list_elem_of_singleton|].
  intros [Hin|Hin]%elem_of_app; case_match; try by apply not_elem_of_nil in Hin.
  - apply list_elem_of_singleton in Hin as ->. apply Nat.ltb_lt in H0.
    destruct Hs. split; try done. simpl. rewrite length_app. simpl. lia.
  - by apply list_elem_of_singleton in Hin as ->.
Qed.

Lemma Read_loop_ok fuel d s n : stream_ok s -> stream_ok (fst (Read_loop fuel d s n)).
Proof.
  revert s. induction fuel as [|fuel IH]; intros s Hs; [done|]. simpl.
  destruct (cur s); [|stream_crush].
  destruct (chunks s) as [|c cs] eqn:Hc.
  - case_match; [done|]. case_match; [by apply IH|done].
  - apply IH. destruct Hs as [? ? Hcap ? ?]. split; try done.
    rewrite Hc in Hcap. simpl in *. lia.
Qed.

Section ops_ok.
Context {H : Type} `{StreamHost H}.

Lemma remove_ok (h : H) s :
  stream_ok s -> finished s = true -> readDone s = true -> stream_ok (snd (remove h s)).
Proof.
  intros Hs Hf Hd. unfold remove. case_match; [done|]. unfold finished in Hf. simpl.
  destruct Hs. split; try done. simpl. intros _. split; [done|].
  destruct (reset s); [by right|left]. rewrite orb_false_r in Hf. by apply andb_true_iff in Hf as [].
Qed.

Lemma CloseWrite_ok (h : H) s : stream_ok s -> stream_ok (snd (fst (CloseWrite h s))).
Proof.
  intros Hs. unfold CloseWrite, CloseWrite_lock.
  destruct (sentClose s || reset s); [done|].
  destruct (host_writeFrame _ _ _ _) as [h' err]. destruct (readDone s) eqn:Hd.
  - pose proof (remove_ok h' (set_sentClose s) (sentClose_ok _ Hs)) as Hr.
    destruct (remove _ _) as [h'' s']. apply Hr; [|done].
    unfold finished. simpl. by rewrite Hd.
  - by apply sentClose_ok.
Qed.

Lemma Abort_ok (h : H) s : stream_ok s -> stream_ok (snd (Abort h s)).
Proof.
  intros Hs. unfold Abort, Abort_lock. destruct (reset s); [done|].
  destruct (markReadDone_spec mux_ErrStreamReset (set_sentClose (set_reset s)))
    as (Hd & _ & _ & _ & _ & _ & Hr & _).
  apply remove_ok; [exact (reset_stream_ok _ (sentClose_ok _ Hs))| |exact Hd].
  unfold finished. simpl. rewrite Hr. apply orb_true_r.
Qed.

Lemma remoteClose_ok (h : H) s : stream_ok s -> stream_ok (snd (remoteClose h s)).
Proof.
  intros Hs. unfold remoteClose.
  destruct (markReadDone_spec io_EOF s) as (Hd & _).
  destruct (sentClose (fst (markReadDone io_EOF s))) eqn:Hc; [|by apply markReadDone_ok].
  apply remove_ok; [by apply markReadDone_ok| |done].
  unfold finished. by rewrite Hd, Hc.
Qed.

Lemma remoteReset_ok (h : H) s : stream_ok s -> stream_ok (snd (remoteReset h s)).
Proof.
  intros Hs. unfold remoteReset. apply remove_ok.
  - by apply reset_stream_ok.
  - unfold finished. simpl.
    destruct (markReadDone_spec mux_ErrStreamReset (set_reset s)) as (_&_&_&_&_&_&->&_).
    by rewrite orb_true_r.
  - simpl. apply markReadDone_spec.
Qed.

End ops_ok.

(** ** Progress of a stream

    Flags are only ever set, and the identity never changes. *)
Record stream_le (s s' : Stream) : Prop := {
  le_id : st_id s' = st_id s;
  le_done : readDone s = true -> readDone s' = true /\ readErr s' = readErr s;
  le_aborted : aborted s = true -> aborted s' = true;
  le_sent : sentClose s = true -> sentClose s' = true;
  le_reset : reset s = true -> reset s' = true;
  le_removed : removeOnce s = true -> removeOnce s' = true
}.

#[export] Instance stream_le_preorder : PreOrder stream_le.
Proof. split; [by intros s; split|]. intros s1 s2 s3 [] []. split; intuition congruence. Qed.

Lemma markReadDone_le e s : stream_le s (fst (markReadDone e s)).
Proof. unfold markReadDone, markReadDone_lock. destruct (readDone s) eqn:Hd; split; simpl; intuition congruence. Qed.

Lemma signalAbort_le s : stream_le s (signalAbort s).
Proof. by split. Qed.

Lemma set_reset_le s : stream_le s (set_reset s).
Proof. by split. Qed.

Lemma set_sentClose_le s : stream_le s (set_sentClose s).
Proof. by split. Qed.

Lemma pushData_le d s p s' : s' ∈ pushData d s p -> stream_le s s'.
Proof.
  unfold pushData. case_match; [by intros ->%list_elem_of_singleton|].
  intros [Hin|Hin]%elem_of_app; case_match; try by apply not_elem_of_nil in Hin.
  all: apply list_elem_of_singleton in Hin as ->; by split.
Qed.

Lemma Read_loop_le fuel d s n : stream_le s (fst (Read_loop fuel d s n)).
Proof.
  revert s. induction fuel as [|fuel IH]; intros s; [done|]. cbn [Read_loop].
  destruct (cur s); [|by split].
  destruct (chunks s) as [|c cs].
  - case_match; [done|]. case_match; [apply IH|done].
  - rewrite <-(IH (set_cur c (set_chunks cs s))). by split.
Qed.

Section ops_le.
Context {H : Type} `{StreamHost H}.

Lemma remove_le (h : H) s : stream_le s (snd (remove h s)).
Proof. unfold remove. case_match; by split. Qed.

Lemma CloseWrite_le (h : H) s : stream_le s (snd (fst (CloseWrite h s))).
Proof.
  unfold CloseWrite, CloseWrite_lock. case_match eqn:Hc; [|done].
  destruct (sentClose s || reset s); simplify_eq/=.
  destruct (host_writeFrame _ _ _ _) as [h' err].
  destruct (readDone s); [|apply set_sentClose_le].
  pose proof (remove_le h' (set_sentClose s)). destruct (remove _ _). simpl in *.
  etrans; [apply set_sentClose_le|done].
Qed.

Lemma Abort_le (h : H) s : stream_le s (snd (Abort h s)).
Proof.
  unfold Abort, Abort_lock. destruct (reset s); [done|].
  rewrite <-remove_le, <-signalAbort_le, <-markReadDone_le. by split.
Qed.

Lemma remoteClose_le (h : H) s : stream_le s (snd (remoteClose h s)).
Proof. unfold remoteClose. case_match; [rewrite <-remove_le|]; apply markReadDone_le. Qed.

Lemma remoteReset_le (h : H) s : stream_le s (snd (remoteReset h s)).
Proof.
  unfold remoteReset. rewrite <-remove_le, <-signalAbort_le, <-markReadDone_le. by split.
Qed.

End ops_le.

(** ** Reading *)

(** The bytes already received and not yet read. *)
Definition buffered (s : Stream) : list Byte.byte := cur s ++ concat (chunks s).

(** The loop makes progress: a stream whose session is gone was marked done. *)
Definition readable (done : bool) (s : Stream) : Prop :=
  readDone s = false -> eofCh s = false /\ done = false.

Lemma Read_loop_spec fuel d s n :
  readable d s -> (length (chunks s) < fuel)%nat -> (cur s = [] \/ 0 < fuel)%nat ->
  match Read_loop fuel d s n with
  | (s', ReadOk data) =>
      buffered s = data ++ buffered s' /\ (length data <= n)%nat /\
      (n <> 0%nat -> data <> [])
  | (s', ReadErr e) =>
      buffered s = [] /\ readDone s = true /\ e = terminal_error (readErr s)
  | (s', ReadBlock) => buffered s = [] /\ readDone s = false
  | (s', ReadSpin) => False
  end.
Proof.
  revert s. induction fuel as [|fuel IH]; intros s Hr Hf Hc; [lia|]. cbn [Read_loop].
  destruct (cur s) as [|x c] eqn:Hcur.
  - destruct (chunks s) as [|c cs] eqn:Hch.
    + unfold buffered. rewrite Hcur, Hch. destruct (readDone s) eqn:Hd; [done|].
      destruct (Hr Hd) as [-> ->]. done.
    + specialize (IH (set_cur c (set_chunks cs s))).
      assert (buffered (set_cur c (set_chunks cs s)) = buffered s) as Hb
        by (unfold buffered; simpl; by rewrite Hcur, Hch).
      rewrite Hb in IH. apply IH; [done| |]; simpl in *; [lia|].
      destruct fuel; [simpl in Hf; lia|right; lia].
  - unfold buffered. simpl. rewrite Hcur, app_assoc, take_drop.
    split; [done|]. split; [rewrite length_take; lia|]. by destruct n.
Qed.

(** ** Writing *)

(** The payloads of the DATA frames that carry [b]. *)
Fixpoint split_payload (fuel : nat) (b : list Byte.byte) : list (list Byte.byte) :=
  match fuel, b with
  | S fuel, _ :: _ => take (write_len b) b :: split_payload fuel (drop (write_len b) b)
  | _, _ => []
  end.

(** Emit one DATA frame per payload, stopping at the first error; the total is
    what was handed to the session before it. *)
Fixpoint write_payloads {H} `{StreamHost H} (h : H) (id : Z) (ps : list (list Byte.byte))
    (total : Z) : H * (Z * option error) :=
  match ps with
  | [] => (h, (total, None))
  | p :: ps =>
      match host_writeFrame h FrameData id p with
      | (h, Some e) => (h, (total, Some e))
      | (h, None) => write_payloads h id ps (total + zlen p)
      end
  end.

Lemma write_len_bounds b :
  b <> [] -> (0 < write_len b <= length b)%nat /\ Z.of_nat (write_len b) <= MaxPayload.
Proof.
  intros Hb. assert (0 < length b)%nat by (destruct b; simpl; [done|lia]).
  unfold write_len. rewrite MaxPayload_value. case_match; bool_props; lia.
Qed.

Lemma drop_shorter (b : list Byte.byte) :
  b <> [] -> (length (drop (write_len b) b) < length b)%nat.
Proof. intros Hb. rewrite length_drop. pose proof (write_len_bounds b Hb). lia. Qed.

Lemma split_payload_concat fuel b : (length b <= fuel)%nat -> concat (split_payload fuel b) = b.
Proof.
  revert b. induction fuel as [|fuel IH]; intros b Hf; [by destruct b; simpl in *; [|lia]|].
  destruct b as [|x b]; [done|]. cbn [split_payload concat].
  rewrite IH; [apply take_drop|]. pose proof (drop_shorter (x :: b) ltac:(done)). simpl in *. lia.
Qed.

Lemma split_payload_sizes fuel b :
  Forall (fun p => p <> [] /\ zlen p <= MaxPayload) (split_payload fuel b).
Proof.
  revert b. induction fuel as [|fuel IH]; intros b; [by destruct b|].
  destruct b as [|x b]; [by constructor|]. cbn [split_payload]. constructor; [|apply IH].
  destruct (write_len_bounds (x :: b) ltac:(done)) as [Hl Hm].
  rewrite length_take. split; [|lia].
  destruct (write_len (x :: b)); [lia|done].
Qed.

Lemma split_payload_count fuel b :
  (length b <= fuel)%nat ->
  zlen (split_payload fuel b) = (zlen b + MaxPayload - 1) / MaxPayload.
Proof.
  rewrite MaxPayload_value.
  revert b. induction fuel as [|fuel IH]; intros b Hf; [by destruct b; simpl in *; [|lia]|].
  destruct b as [|x b]; [done|]. cbn [split_payload length]. rewrite Nat2Z.inj_succ.
  pose proof (drop_shorter (x :: b) ltac:(done)) as Hd.
  rewrite IH by (simpl in *; lia). rewrite length_drop.
  pose proof (write_len_bounds (x :: b) ltac:(done)) as Hl.
  change (Z.of_nat (S (length b))) with (zlen (x :: b)).
  remember (zlen (x :: b)) as L eqn:HL.
  assert (Z.of_nat (write_len (x :: b)) = Z.min 1048576 L) as Hw.
  { unfold write_len. rewrite MaxPayload_value, <-HL. case_match; bool_props; lia. }
  replace (Z.of_nat (length (x :: b) - write_len (x :: b))) with (L - Z.min 1048576 L) by lia.
  assert (0 < L) as HL0 by (subst L; simpl; lia). clear -HL0.
  replace (L + 1048576 - 1) with (L - 1 + 1 * 1048576) by lia.
  rewrite Z.div_add by lia.
  destruct (Z.le_gt_cases L 1048576).
  - rewrite Z.min_r, Z.sub_diag, (Z.div_small (L - 1)) by lia. done.
  - rewrite Z.min_l by lia. unfold Z.succ. do 2 f_equal. lia.
Qed.

Lemma split_payload_fuel f1 f2 b :
  (length b <= f1)%nat -> (length b <= f2)%nat -> split_payload f1 b = split_payload f2 b.
Proof.
  revert f2 b. induction f1 as [|f1 IH]; intros f2 b H1 H2.
  - destruct b; simpl in *; [by destruct f2|lia].
  - destruct b as [|x b]; [by destruct f2|]. destruct f2 as [|f2]; [simpl in *; lia|].
    cbn [split_payload]. f_equal.
    pose proof (drop_shorter (x :: b) ltac:(done)). simpl in *. apply IH; simpl; lia.
Qed.

(** The frames of a [Write] of [b]. *)
Definition payloads (b : list Byte.byte) : list (list Byte.byte) := split_payload (length b) b.

Section write.
Context {H : Type} `{StreamHost H}.

Lemma Write_loop_split fuel (h : H) s b total :
  check s = None -> (length b < fuel)%nat ->
  Write_loop fuel h s b total = write_payloads h (st_id s) (payloads b) total.
Proof.
  intros Hc. revert h b total. induction fuel as [|fuel IH]; intros h b total Hf; [lia|].
  cbn [Write_loop]. unfold Write_iter. destruct b as [|x b]; [done|].
  rewrite (proj2 (Z.leb_gt (zlen (x :: b)) 0)) by (simpl; lia).
  rewrite Hc. replace (if 0 <? total then None else None) with (@None error) by (by case_match).
  unfold payloads. cbn [length split_payload write_payloads].
  destruct (host_writeFrame h FrameData (st_id s) (take (write_len (x :: b)) (x :: b)))
    as [h' [e|]]; [done|].
  pose proof (drop_shorter (x :: b) ltac:(done)) as Hd. cbn [length] in Hd, Hf.
  rewrite IH by lia.
  destruct (write_len_bounds (x :: b) ltac:(done)) as [Hl _].
  rewrite length_take, Nat.min_l by lia. unfold payloads.
  by rewrite (split_payload_fuel _ (length b)) by lia.
Qed.

(** on a stream that is neither reset nor closed for writing, [Write(b)]
    hands its session DATA frames whose payloads are non-empty, at most
    [MaxPayload] long, as few as possible, and concatenate to [b]; it stops at
    the first frame the session refuses, reporting the bytes accepted so far. *)
Theorem Write_frames (h : H) s b :
  check s = None ->
  concat (payloads b) = b /\
  Forall (fun p => p <> [] /\ zlen p <= MaxPayload) (payloads b) /\
  zlen (payloads b) = (zlen b + MaxPayload - 1) / MaxPayload /\
  Write h s b = write_payloads h (st_id s) (payloads b) 0.
Proof.
  intros Hc. unfold payloads.
  split; [by apply split_payload_concat|]. split; [apply split_payload_sizes|].
  split; [by apply split_payload_count|].
  unfold Write. rewrite Hc. apply Write_loop_split; [done|lia].
Qed.

End write.

(** A session reduced to what a stream sees of it: the frames it emitted, the
    streams it forgot, and whether it is gone (it then refuses frames). *)
Record wire := { wire_frames : list frame; wire_removed : list Z; wire_done : bool }.

#[export] Instance wire_host : StreamHost wire := {|
  host_writeFrame h typ id p :=
    if wire_done h then (h, Some (Sentinel mux_errSessionClosed))
    else ({| wire_frames := wire_frames h ++ [Frame typ id p];
             wire_removed := wire_removed h; wire_done := wire_done h |}, None);
  host_removeStream h id :=
    {| wire_frames := wire_frames h; wire_removed := wire_removed h ++ [id];
       wire_done := wire_done h |};
  host_done := wire_done
|}.

Definition new_wire : wire := {| wire_frames := []; wire_removed := []; wire_done := false |}.

Lemma Write_frames_witness :
  check (newStream 3) = None /\
  (concat (payloads [Byte.x41; Byte.x42]) = [Byte.x41; Byte.x42] /\
   Forall (fun p => p <> [] /\ zlen p <= MaxPayload) (payloads [Byte.x41; Byte.x42]) /\
   zlen (payloads [Byte.x41; Byte.x42]) = (2 + MaxPayload - 1) / MaxPayload /\
   Write new_wire (newStream 3) [Byte.x41; Byte.x42] =
   write_payloads new_wire 3 (payloads [Byte.x41; Byte.x42]) 0).
Proof.
  split; [reflexivity|].
  exact (Write_frames new_wire (newStream 3) [Byte.x41; Byte.x42] eq_refl).
Defined.

Lemma write_payloads_total (h : wire) id ps total :
  wire_done h = false ->
  write_payloads h id ps total =
  ({| wire_frames := wire_frames h ++ (Frame FrameData id <$> ps);
      wire_removed := wire_removed h; wire_done := false |},
   (total + zlen (concat ps), None)).
Proof.
  revert h total. induction ps as [|p ps IH]; intros h total Hd; simpl.
  - rewrite app_nil_r, Z.add_0_r. destruct h; simpl in *. by subst.
  - rewrite Hd. rewrite IH by done. simpl. rewrite <-app_assoc, length_app. simpl.
    do 2 f_equal. lia.
Qed.

Lemma Read_outcome d s n :
  readable d s ->
  match Read d s n with
  | (s', ReadOk data) =>
      buffered s = data ++ buffered s' /\ (length data <= n)%nat /\ (n <> 0%nat -> data <> [])
  | (s', ReadErr e) =>
      buffered s = [] /\ readDone s = true /\ e = terminal_error (readErr s)
  | (s', ReadBlock) => buffered s = [] /\ readDone s = false
  | (s', ReadSpin) => False
  end.
Proof. intros Hr. unfold Read. apply Read_loop_spec; [done|lia|right; lia]. Qed.



(** A stream nobody marked done, in a session that is gone, spins: every
    round of the loop takes the [<-s.sess.done] case of the [select]. *)
Lemma Read_orphan_spins fuel s n :
  readDone s = false -> cur s = [] -> chunks s = [] ->
  Read_loop fuel true s n = (s, ReadSpin).
Proof.
  intros Hd Hc Hch. induction fuel as [|fuel IH]; [done|].
  cbn [Read_loop]. by rewrite Hc, Hch, Hd, orb_true_r.
Qed.
