(* ===== verification/Session.v ===== *)
(** * The mux session: internal/mux/session.go

    A [Session] multiplexes streams over one connection. Streams are shared
    objects: the session's map holds pointers to them and so do the goroutines
    that serve them, hence a store of streams ([heap]) next to the map. Time is
    the session's monotonic clock, in nanoseconds since [epoch]; every operation
    that reads the clock takes [now]. *)
From S2P Require Import Prelude Frame Stream.
From Stdlib Require Import Strings.Byte.

(** ** Constants (session.go:14-21), in nanoseconds *)

Definition Millisecond : Z := 1000000.
Definition Second : Z := 1000000000.
Definition DefaultPingInterval : Z := 15 * Second.
Definition DefaultIdleTimeout : Z := 45 * Second.
Definition pingTimestamp : Z := 8.

(** The connections [tcpConn] is given: a socket, something around a connection (as
    [tls.Conn]), or another kind. *)
Inductive net_conn :=
| TCPConn (fd : nat)
| NetConn (inner : net_conn)
| OtherConn.

(** session.go:158: the loop ends, since every turn takes a wrapper off. *)
Fixpoint tcpConn (c : net_conn) : option nat :=
  match c with
  | TCPConn fd => Some fd
  | NetConn c => tcpConn c
  | OtherConn => None
  end.

(** A pointer to a stream. *)
Abbreviation loc := nat.

(** session.go:36. [onClose] records the calls of the [OnClose] callback and
    [onStream] the streams handed to the [OnStream] callback; [conn_closed] is
    whether the socket was closed. [closeOnce] and [cbOnce] are [sync.Once]. *)
Record Session (W : Type) := mkSession {
  conn : W;
  conn_closed : bool;
  server : bool;
  streams : gmap Z loc;
  heap : list Stream;
  closed : bool;
  closeErr : option error;
  nextID : Z;
  onStream : list loc;
  onClose : list error;
  PingInterval : Z;
  IdleTimeout : Z;
  lastRecv : Z;
  stalled : bool;
  pongs : list (list Byte.byte);
  done : bool;
  closeOnce : bool;
  cbOnce : bool
}.
Arguments mkSession {W}.
Arguments conn {W}. Arguments conn_closed {W}. Arguments server {W}.
Arguments streams {W}. Arguments heap {W}. Arguments closed {W}.
Arguments closeErr {W}. Arguments nextID {W}. Arguments onStream {W}.
Arguments onClose {W}. Arguments PingInterval {W}. Arguments IdleTimeout {W}.
Arguments lastRecv {W}. Arguments stalled {W}. Arguments pongs {W}.
Arguments done {W}. Arguments closeOnce {W}. Arguments cbOnce {W}.

Section session.
Context {W : Type} `{Writer W}.
Implicit Types (s : Session W).

(** ** Field updates *)

Definition set_conn w s : Session W := mkSession w (conn_closed s) (server s) (streams s) (heap s)
  (closed s) (closeErr s) (nextID s) (onStream s) (onClose s) (PingInterval s) (IdleTimeout s)
  (lastRecv s) (stalled s) (pongs s) (done s) (closeOnce s) (cbOnce s).
Definition set_streams m s : Session W := mkSession (conn s) (conn_closed s) (server s) m (heap s)
  (closed s) (closeErr s) (nextID s) (onStream s) (onClose s) (PingInterval s) (IdleTimeout s)
  (lastRecv s) (stalled s) (pongs s) (done s) (closeOnce s) (cbOnce s).
Definition set_heap h s : Session W := mkSession (conn s) (conn_closed s) (server s) (streams s) h
  (closed s) (closeErr s) (nextID s) (onStream s) (onClose s) (PingInterval s) (IdleTimeout s)
  (lastRecv s) (stalled s) (pongs s) (done s) (closeOnce s) (cbOnce s).
Definition set_nextID n s : Session W := mkSession (conn s) (conn_closed s) (server s) (streams s) (heap s)
  (closed s) (closeErr s) n (onStream s) (onClose s) (PingInterval s) (IdleTimeout s)
  (lastRecv s) (stalled s) (pongs s) (done s) (closeOnce s) (cbOnce s).
Definition set_onStream l s : Session W := mkSession (conn s) (conn_closed s) (server s) (streams s) (heap s)
  (closed s) (closeErr s) (nextID s) l (onClose s) (PingInterval s) (IdleTimeout s)
  (lastRecv s) (stalled s) (pongs s) (done s) (closeOnce s) (cbOnce s).
Definition set_onClose l once s : Session W := mkSession (conn s) (conn_closed s) (server s) (streams s) (heap s)
  (closed s) (closeErr s) (nextID s) (onStream s) l (PingInterval s) (IdleTimeout s)
  (lastRecv s) (stalled s) (pongs s) (done s) (closeOnce s) once.
Definition set_lastRecv t s : Session W := mkSession (conn s) (conn_closed s) (server s) (streams s) (heap s)
  (closed s) (closeErr s) (nextID s) (onStream s) (onClose s) (PingInterval s) (IdleTimeout s)
  t (stalled s) (pongs s) (done s) (closeOnce s) (cbOnce s).
Definition set_stalled b s : Session W := mkSession (conn s) (conn_closed s) (server s) (streams s) (heap s)
  (closed s) (closeErr s) (nextID s) (onStream s) (onClose s) (PingInterval s) (IdleTimeout s)
  (lastRecv s) b (pongs s) (done s) (closeOnce s) (cbOnce s).
Definition set_pongs p s : Session W := mkSession (conn s) (conn_closed s) (server s) (streams s) (heap s)
  (closed s) (closeErr s) (nextID s) (onStream s) (onClose s) (PingInterval s) (IdleTimeout s)
  (lastRecv s) (stalled s) p (done s) (closeOnce s) (cbOnce s).

(** ** Construction (session.go:79-110) *)

Definition newSession (w : W) (srv : bool) : Session W :=
  mkSession w false srv ∅ [] false None 0 [] [] 0 0 0 false [] false false false.

Definition NewServerSession (w : W) : Session W := set_nextID 1 (newSession w true).
Definition NewClientSession (w : W) : Session W := set_nextID 2 (newSession w false).

Definition IsServer s : bool := server s.

(** ** Liveness (session.go:130-157) *)

Definition markRecv (now : Z) s : Session W := set_lastRecv now s.

Definition silence (now : Z) s : Z := now - lastRecv s.

Definition pingInterval s : Z :=
  if 0 <? PingInterval s then PingInterval s else DefaultPingInterval.

Definition Stale (now : Z) s : bool :=
  if stalled s then false
  else let p := pingInterval s in p + p `quot` 2 <? silence now s.

(** The effective idle timeout of session.go:337. *)
Definition idleTimeout s : Z :=
  if IdleTimeout s <=? 0 then DefaultIdleTimeout else IdleTimeout s.

Definition StreamCount s : nat := size (streams s).

(** ** The stream table (session.go:306, 312) *)

Definition getStream s (id : Z) : option loc := streams s !! id.

Definition removeStream s (id : Z) : Session W := set_streams (delete id (streams s)) s.

(** session.go:318: [wmu] makes the whole body one step. *)
Definition writeFrame s (typ : Byte.byte) (id : Z) (payload : list Byte.byte)
    : Session W * option error :=
  if closed s then (s, Some (Sentinel mux_errSessionClosed))
  else let '(w, err) := Frame.writeFrame (conn s) typ id payload in (set_conn w s, err).

#[export] Instance session_host : StreamHost (Session W) := {|
  host_writeFrame := writeFrame;
  host_removeStream := removeStream;
  host_done := done
|}.

(** [new] in Go: the pointer to a fresh stream. *)
Definition alloc s (st : Stream) : Session W * loc :=
  (set_heap (heap s ++ [st]) s, length (heap s)).

(** Apply an operation of Stream.v to the stream a pointer designates. *)
Definition update s (l : loc) (st : Stream) : Session W := set_heap (<[l := st]> (heap s)) s.

Definition on_stream {A} s (l : loc) (op : Session W -> Stream -> Session W * Stream * A)
    (dflt : A) : Session W * A :=
  match heap s !! l with
  | None => (s, dflt)
  | Some st => let '(s, st, a) := op s st in (update s l st, a)
  end.

(** session.go:178. [s.nextID.Add(2) - 2] on a [uint32]: the old value. *)
Definition OpenStream s (meta : list Byte.byte) : Session W * result loc :=
  let id := nextID s in
  let s := set_nextID (u32 (id + 2)) s in
  let '(s, l) := alloc s (newStream id) in
  if closed s then (s, Err mux_errSessionClosed)
  else
    let s := set_streams (<[id := l]> (streams s)) s in
    match writeFrame s FrameOpen id meta with
    | (s, Some err) => (removeStream s id, Err err)
    | (s, None) => (s, Ok l)
    end.

(** ** Shutdown (session.go:389) *)

Definition shutdown_stream (st : Stream) : Stream :=
  signalAbort (fst (markReadDone mux_errSessionClosed st)).

Definition shutdown (err : error) s : Session W :=
  if closeOnce s then s
  else
    let live := (map_to_list (streams s)).*2 in
    let h := foldl (fun h l => alter shutdown_stream l h) (heap s) live in
    mkSession (conn s) true (server s) (streams s) h true (Some err) (nextID s) (onStream s)
      (onClose s) (PingInterval s) (IdleTimeout s) (lastRecv s) (stalled s) (pongs s)
      true true (cbOnce s).

(** session.go:227. *)
Definition fireOnClose (err : error) s : Session W :=
  if cbOnce s then s else set_onClose (onClose s ++ [err]) true s.

Definition CloseWithError (err : error) s : Session W := fireOnClose err (shutdown err s).

Definition Close s : Session W := CloseWithError net_ErrClosed s.

(** session.go:234: [Wait] returns once [done] is closed. *)
Definition Wait s : option (option error) := if done s then Some (closeErr s) else None.

(** The end of [Run] (session.go:206-214), once [readLoop] returned [err]. *)
Definition Run_return (err : error) s : Session W * option error :=
  let s := shutdown err s in
  let err := closeErr s in
  (match err with Some e => fireOnClose e s | None => s end, err).

(** ** The read loop (session.go:248) *)

(** What one frame makes of the loop: go on, block delivering a payload to a
    stream, or return. *)
Inductive loop_next :=
| LoopNext (s : Session W)
| LoopPush (s : Session W) (l : loc) (payload : list Byte.byte)
| LoopReturn (s : Session W) (err : error).

Definition on_remote s (id : Z) (op : Session W -> Stream -> Session W * Stream) : Session W :=
  match getStream s id with
  | None => s
  | Some l =>
      match heap s !! l with
      | None => s
      | Some st => let '(s, st) := op s st in update s l st
      end
  end.

(** The [switch typ] on one frame. *)
Definition dispatch s (f : frame) : loop_next :=
  let '(Frame typ id payload) := f in
  if Byte.eqb typ FrameOpen then
    let '(s, l) := alloc s (newStream id) in
    if closed s then LoopNext s
    else LoopNext (set_onStream (onStream s ++ [l]) (set_streams (<[id := l]> (streams s)) s))
  else if Byte.eqb typ FrameData then
    match getStream s id with
    | None => LoopNext s
    | Some l => LoopPush (set_stalled true s) l payload
    end
  else if Byte.eqb typ FrameClose then LoopNext (on_remote s id remoteClose)
  else if Byte.eqb typ FrameReset then LoopNext (on_remote s id remoteReset)
  else if Byte.eqb typ FramePing then
    LoopNext (if (length (pongs s) <? 1)%nat then set_pongs (pongs s ++ [payload]) s else s)
  else if Byte.eqb typ FramePong then LoopNext s
  else LoopReturn s (Errorf "mux: unknown frame type %s" [frameName typ]).

(** [st.pushData(payload); s.markRecv(); s.stalled.Store(false)]: the ways the
    blocked delivery can end (none while it blocks). *)
Definition push_outcomes s (l : loc) (payload : list Byte.byte) : list (Session W) :=
  match heap s !! l with
  | None => []
  | Some st => (fun st => update s l st) <$> pushData (done s) st payload
  end.

Definition push_finish (now : Z) s : Session W := set_stalled false (markRecv now s).

(** The error [readLoop] returns for a [readFrame] error (session.go:251). *)
Definition readLoop_error (err : error) : error :=
  if bool_decide (err = io_EOF) then io_ErrUnexpectedEOF else err.

(** ** Heartbeat and watchdog (session.go:335-387) *)

(** One case of the pinger's [select]: a tick, or a pending pong. The result
    says whether the goroutine goes on. *)
Definition pinger_tick (unixNano : Z) s : Session W * bool :=
  let '(s, err) := writeFrame s FramePing 0 (PutUint64 (u64 unixNano)) in
  (s, if err is Some _ then false else true).

Definition pinger_pong s : option (Session W * bool) :=
  match pongs s with
  | [] => None
  | p :: rest =>
      let '(s, err) := writeFrame (set_pongs rest s) FramePong 0 p in
      Some (s, if err is Some _ then false else true)
  end.

(** session.go:335: the pinger's loop over what its [select] finds ready, and
    whether it is still running afterwards. *)
Inductive ping_event :=
| PTick (unixNano : Z)      (** the ticker *)
| PPong                     (** a pending pong *)
| PStop.                    (** [stop] or [s.done] is closed *)

Fixpoint pinger (evs : list ping_event) s : Session W * bool :=
  match evs with
  | [] => (s, true)
  | PTick t :: evs => let '(s, go) := pinger_tick t s in if go then pinger evs s else (s, false)
  | PPong :: evs =>
      match pinger_pong s with
      | Some (s, go) => if go then pinger evs s else (s, false)
      | None => pinger evs s
      end
  | PStop :: _ => (s, false)
  end.

Definition watchdog_period (idle : Z) : Z := Z.max (idle `quot` 4) Millisecond.

(** One tick: the new session, and whether the watchdog goes on. *)
Definition watchdog_tick (idle now : Z) s : Session W * bool :=
  if stalled s then (s, true)
  else if idle <? silence now s then (CloseWithError mux_ErrIdleTimeout s, false)
  else (s, true).

End session.

(** ** Well-formed sessions *)

Section invariant.
Context {W : Type} `{Writer W}.
Implicit Types (s : Session W).

Record session_ok s : Prop := {
  sk_streams : forall id l, streams s !! id = Some l ->
    exists st, heap s !! l = Some st /\ st_id st = id;
  sk_heap : Forall stream_ok (heap s);
  sk_once : closed s = closeOnce s /\ done s = closeOnce s /\ conn_closed s = closeOnce s;
  sk_err : closeOnce s = true <-> is_Some (closeErr s);
  sk_dead : closeOnce s = true -> forall id l st, streams s !! id = Some l ->
    heap s !! l = Some st -> readDone st = true /\ aborted st = true;
  sk_id : 0 <= nextID s < 2 ^ 32 /\ Z.odd (nextID s) = server s;
  sk_cb : length (onClose s) = (if cbOnce s then 1 else 0)%nat;
  sk_pongs : (length (pongs s) <= 1)%nat
}.

(** The session seen by a stream operation changes only by writes on the
    connection and by forgetting streams. *)
Definition host_step s s' : Prop :=
  exists w m, m ⊆ streams s /\ s' = set_conn w (set_streams m s).

#[export] Instance host_step_preorder : PreOrder host_step.
Proof.
  split.
  - intros s. exists (conn s), (streams s). split; [done|]. by destruct s.
  - intros s1 s2 s3 (w1 & m1 & Hm1 & ->) (w2 & m2 & Hm2 & ->).
    exists w2, m2. split; [|done]. simpl in Hm2. by etrans.
Qed.

Lemma writeFrame_host s typ id p : host_step s (fst (writeFrame s typ id p)).
Proof.
  unfold writeFrame. case_match; [done|].
  destruct (Frame.writeFrame _ _ _ _) as [w e]. exists w, (streams s). by destruct s.
Qed.

Lemma removeStream_host s id : host_step s (removeStream s id).
Proof. exists (conn s), (delete id (streams s)). split; [apply delete_subseteq|by destruct s]. Qed.

Lemma remove_host s st : host_step s (fst (remove s st)).
Proof. unfold remove. case_match; [done|]. apply removeStream_host. Qed.

Lemma Write_loop_host fuel s st b total : host_step s (fst (Write_loop fuel s st b total)).
Proof.
  revert s b total. induction fuel as [|fuel IH]; intros s b total; [done|].
  cbn [Write_loop]. unfold Write_iter. destruct (zlen b <=? 0); [done|].
  destruct (if 0 <? total then check st else None); [done|].
  pose proof (writeFrame_host s FrameData (st_id st) (take (write_len b) b)) as Hw.
  cbn [host_writeFrame session_host].
  destruct (writeFrame s FrameData _ _) as [s' [e|]]; [done|]. by rewrite <-IH.
Qed.

Lemma Write_host s st b : host_step s (fst (Write s st b)).
Proof. unfold Write. case_match; [done|]. apply Write_loop_host. Qed.

Lemma CloseWrite_host s st : host_step s (fst (fst (CloseWrite s st))).
Proof.
  unfold CloseWrite. destruct (CloseWrite_lock st) as [[st' pd]|]; [|done].
  pose proof (writeFrame_host s FrameClose (st_id st') []) as Hw.
  cbn [host_writeFrame session_host].
  destruct (writeFrame s FrameClose _ _) as [s' err]. simpl in Hw. destruct pd; [|done].
  pose proof (remove_host s' st') as Hr. destruct (remove s' st'). simpl in *. by etrans.
Qed.

Lemma Abort_host s st : host_step s (fst (Abort s st)).
Proof.
  unfold Abort. destruct (Abort_lock st) as [[st' fin]|]; [|done].
  rewrite <-remove_host. destruct fin; [done|]. apply writeFrame_host.
Qed.

Lemma remoteClose_host s st : host_step s (fst (remoteClose s st)).
Proof. unfold remoteClose. case_match; [apply remove_host|done]. Qed.

Lemma remoteReset_host s st : host_step s (fst (remoteReset s st)).
Proof. apply remove_host. Qed.

(** ** Preservation *)

Lemma host_step_ok s s' : session_ok s -> host_step s s' -> session_ok s'.
Proof.
  intros [Hst Hhp Hon Her Hde Hid Hcb Hpg] (w & m & Hm & ->).
  split; try done; simpl.
  - intros id l Hl. apply Hst. by eapply lookup_weaken.
  - intros Hc id l st Hl. apply (Hde Hc id). by eapply lookup_weaken.
Qed.

Lemma update_ok s l st st' :
  session_ok s -> heap s !! l = Some st -> stream_ok st' -> stream_le st st' ->
  session_ok (update s l st').
Proof.
  intros [Hst Hhp Hon Her Hde Hid Hcb Hpg] Hl Hok Hle.
  pose proof (lookup_lt_Some _ _ _ Hl) as Hlt.
  split; try done; simpl.
  - intros id l' Hl'. destruct (Hst id l' Hl') as (st0 & Hst0 & Hid0).
    destruct (decide (l = l')) as [<-|Hne].
    + exists st'. rewrite list_lookup_insert_eq by done. split; [done|].
      rewrite (le_id _ _ Hle). congruence.
    + exists st0. by rewrite list_lookup_insert_ne.
  - by apply Forall_insert.
  - intros Hc id l' st0 Hl' Hst0. destruct (decide (l = l')) as [<-|Hne].
    + rewrite list_lookup_insert_eq in Hst0 by done. simplify_eq.
      destruct (Hde Hc id l st Hl' Hl) as [Hd Ha].
      split; [by apply (le_done _ _ Hle)|by apply (le_aborted _ _ Hle)].
    + rewrite list_lookup_insert_ne in Hst0 by done. by apply (Hde Hc id l').
Qed.

(** An operation of Stream.v applied through a pointer. *)
Lemma op_ok s s' l st st' :
  session_ok s -> heap s !! l = Some st -> host_step s s' -> stream_ok st' -> stream_le st st' ->
  session_ok (update s' l st').
Proof.
  intros Hs Hl Hh Hok Hle. pose proof (host_step_ok _ _ Hs Hh) as Hs'.
  apply (update_ok s' l st); try done.
  destruct Hh as (w & m & Hm & ->). done.
Qed.

Lemma heap_ok s l st : session_ok s -> heap s !! l = Some st -> stream_ok st.
Proof. intros Hs Hl. by eapply Forall_lookup_1; [apply (sk_heap _ Hs)|]. Qed.

Lemma on_remote_ok s id op :
  session_ok s ->
  (forall st, host_step s (fst (op s st))) ->
  (forall st, stream_ok st -> stream_ok (snd (op s st))) ->
  (forall st, stream_le st (snd (op s st))) ->
  session_ok (on_remote s id op).
Proof.
  intros Hs Hh Ho Hl. unfold on_remote. destruct (getStream s id) as [l|]; [|done].
  destruct (heap s !! l) as [st|] eqn:Hst; [|done].
  specialize (Hh st). specialize (Ho st (heap_ok _ _ _ Hs Hst)). specialize (Hl st).
  destruct (op s st) as [s' st']. by apply (op_ok s s' l st).
Qed.

Lemma alloc_ok s st : session_ok s -> stream_ok st -> session_ok (fst (alloc s st)).
Proof.
  intros [Hst Hhp Hon Her Hde Hid Hcb Hpg] Hok. split; try done; simpl.
  - intros id l Hl. destruct (Hst id l Hl) as (st0 & Hst0 & ?). exists st0.
    split; [|done]. by apply lookup_app_l_Some.
  - apply Forall_app_2; [done|]. by constructor.
  - intros Hc id l st0 Hl Hst0. destruct (Hst id l Hl) as (st1 & Hst1 & ?).
    rewrite (lookup_app_l_Some _ _ _ _ Hst1) in Hst0. simplify_eq. by eapply Hde.
Qed.

(** Registering a freshly allocated stream in an open session. *)
Lemma register_ok s id :
  session_ok s -> closed s = false ->
  session_ok (set_streams (<[id := length (heap s)]> (streams s))
                (fst (alloc s (newStream id)))).
Proof.
  intros Hs Hc. pose proof (alloc_ok s (newStream id) Hs (newStream_ok id)) as Ha.
  destruct Ha as [Hst Hhp Hon Her Hde Hid Hcb Hpg]. split; try done; simpl in *.
  - intros id' l [[<- <-]|[Hne Hl]]%lookup_insert_Some; [|by apply Hst].
    exists (newStream id). by rewrite lookup_app_r, Nat.sub_diag by done.
  - intros Hc'. destruct Hon as (Hon & _). congruence.
Qed.

Lemma odd_u32 z : Z.odd (u32 (z + 2)) = Z.odd z.
Proof.
  unfold wrap. change (2 ^ 32) with 4294967296.
  rewrite !Zodd_mod. f_equal. Z.to_euclidean_division_equations; lia.
Qed.

Lemma set_nextID_ok s : session_ok s -> session_ok (set_nextID (u32 (nextID s + 2)) s).
Proof.
  intros [Hst Hhp Hon Her Hde Hid Hcb Hpg]. split; try done; simpl.
  split; [by apply wrap_range|]. rewrite odd_u32. by destruct Hid.
Qed.

Lemma OpenStream_ok s meta : session_ok s -> session_ok (fst (OpenStream s meta)).
Proof.
  intros Hs. unfold OpenStream. pose proof (set_nextID_ok s Hs) as Hn.
  cbn [alloc]. destruct (closed s) eqn:Hc; cbn [closed set_heap set_nextID]; rewrite Hc.
  - apply (alloc_ok _ (newStream (nextID s)) Hn), newStream_ok.
  - pose proof (register_ok _ (nextID s) Hn Hc) as Hr. cbn [alloc fst] in Hr.
    pose proof (writeFrame_host (set_streams (<[nextID s := length (heap s)]> (streams s))
      (set_heap (heap s ++ [newStream (nextID s)]) (set_nextID (u32 (nextID s + 2)) s)))
      FrameOpen (nextID s) meta) as Hw.
    cbn [heap streams set_nextID set_heap] in *.
    destruct (writeFrame _ _ _ _) as [s' [e|]]; simpl in *.
    + apply (host_step_ok s'); [|apply removeStream_host]. by apply (host_step_ok _ _ Hr).
    + by apply (host_step_ok _ _ Hr).
Qed.

Lemma markRecv_ok now s : session_ok s -> session_ok (markRecv now s).
Proof. intros []. by split. Qed.

Lemma set_stalled_ok b s : session_ok s -> session_ok (set_stalled b s).
Proof. intros []. by split. Qed.

Lemma push_finish_ok now s : session_ok s -> session_ok (push_finish now s).
Proof. intros Hs. by apply set_stalled_ok, markRecv_ok. Qed.

Lemma set_onStream_ok l s : session_ok s -> session_ok (set_onStream l s).
Proof. intros []. by split. Qed.

Lemma set_pongs_ok p s : session_ok s -> (length p <= 1)%nat -> session_ok (set_pongs p s).
Proof. intros [] Hp. by split. Qed.

Definition loop_session (r : loop_next (W := W)) : Session W :=
  match r with LoopNext s | LoopPush s _ _ | LoopReturn s _ => s end.

Lemma dispatch_ok s f : session_ok s -> session_ok (loop_session (dispatch s f)).
Proof.
  intros Hs. destruct f as [typ id p]. unfold dispatch. cbn [alloc].
  destruct (Byte.eqb typ FrameOpen).
  { cbn [closed set_heap]. destruct (closed s) eqn:Hc; simpl.
    - apply (alloc_ok s (newStream id) Hs), newStream_ok.
    - apply set_onStream_ok. by apply (register_ok s id). }
  destruct (Byte.eqb typ FrameData).
  { destruct (getStream s id); simpl; [by apply set_stalled_ok|done]. }
  destruct (Byte.eqb typ FrameClose).
  { simpl. apply on_remote_ok; [done|intros; apply remoteClose_host
      |intros; by apply remoteClose_ok|intros; apply remoteClose_le]. }
  destruct (Byte.eqb typ FrameReset).
  { simpl. apply on_remote_ok; [done|intros; apply remoteReset_host
      |intros; by apply remoteReset_ok|intros; apply remoteReset_le]. }
  destruct (Byte.eqb typ FramePing).
  { simpl. destruct (Nat.ltb_spec (length (pongs s)) 1); [|done].
    apply set_pongs_ok; [done|]. rewrite length_app. simpl. lia. }
  by destruct (Byte.eqb typ FramePong).
Qed.

Lemma push_ok s l p s' : session_ok s -> s' ∈ push_outcomes s l p -> session_ok s'.
Proof.
  intros Hs. unfold push_outcomes. destruct (heap s !! l) as [st|] eqn:Hl.
  - intros (st' & -> & Hin)%list_elem_of_fmap.
    apply (update_ok s l st); [done..| |].
    + eapply pushData_ok; [by eapply heap_ok|done].
    + by eapply pushData_le.
  - by intros ?%not_elem_of_nil.
Qed.

(** ** Shutdown *)

Lemma shutdown_stream_idem st : shutdown_stream (shutdown_stream st) = shutdown_stream st.
Proof. unfold shutdown_stream, markReadDone, markReadDone_lock. by destruct st as [? ? ? ? ? ? []]. Qed.

Lemma shutdown_stream_dead st :
  readDone (shutdown_stream st) = true /\ aborted (shutdown_stream st) = true.
Proof. unfold shutdown_stream. simpl. split; [apply markReadDone_spec|done]. Qed.

Lemma shutdown_stream_ok st : stream_ok st -> stream_ok (shutdown_stream st).
Proof. intros. by apply signalAbort_ok, markReadDone_ok. Qed.

Lemma shutdown_stream_le st : stream_le st (shutdown_stream st).
Proof. unfold shutdown_stream. rewrite <-signalAbort_le. apply markReadDone_le. Qed.

Lemma shutdown_heap_lookup ls (h : list Stream) l :
  foldl (fun h l => alter shutdown_stream l h) h ls !! l =
  (if decide (l ∈ ls) then shutdown_stream <$> h !! l else h !! l).
Proof.
  revert h. induction ls as [|l' ls IH]; intros h; [by rewrite decide_False by apply not_elem_of_nil|].
  simpl. rewrite IH. destruct (decide (l = l')) as [->|Hne].
  - rewrite list_lookup_alter_eq.
    rewrite (decide_True _ _ (list_elem_of_here l' ls)).
    case_decide; [|done]. destruct (h !! l'); simpl; [by rewrite shutdown_stream_idem|done].
  - rewrite list_lookup_alter_ne by done. destruct (decide (l ∈ ls)) as [Hl|Hl], (decide (l ∈ l' :: ls)) as [Hl'|Hl'];
      rewrite elem_of_cons in Hl'; intuition.
Qed.

Lemma elem_of_live s id l : streams s !! id = Some l -> l ∈ (map_to_list (streams s)).*2.
Proof. intros Hl. apply list_elem_of_fmap. exists (id, l). by rewrite elem_of_map_to_list. Qed.

Lemma shutdown_ok err s : session_ok s -> session_ok (shutdown err s).
Proof.
  intros Hs. pose proof Hs as [Hst Hhp Hon Her Hde Hid Hcb Hpg].
  unfold shutdown. destruct (closeOnce s) eqn:Hc; [done|].
  split; try done; simpl.
  - intros id l Hl. destruct (Hst id l Hl) as (st & Hst0 & Hid0).
    exists (shutdown_stream st). 
    rewrite shutdown_heap_lookup, decide_True by (by eapply elem_of_live).
    rewrite Hst0. split; [done|].
    by rewrite (le_id _ _ (shutdown_stream_le st)).
  - apply Forall_lookup. intros l st. rewrite shutdown_heap_lookup.
    case_decide.
    + intros (st0 & Hst0 & ->)%fmap_Some. by eapply shutdown_stream_ok, heap_ok.
    + intros. by eapply heap_ok.
  - intros _ id l st Hl. rewrite shutdown_heap_lookup, decide_True by (by eapply elem_of_live).
    intros (st0 & _ & ->)%fmap_Some. apply shutdown_stream_dead.
Qed.

Lemma fireOnClose_ok err s : session_ok s -> session_ok (fireOnClose err s).
Proof.
  intros Hs. unfold fireOnClose. destruct (cbOnce s) eqn:Hc; [done|].
  destruct Hs as [Hst Hhp Hon Her Hde Hid Hcb Hpg]. split; try done; simpl.
  rewrite length_app, Hcb, Hc. done.
Qed.

Lemma CloseWithError_ok err s : session_ok s -> session_ok (CloseWithError err s).
Proof. intros. by apply fireOnClose_ok, shutdown_ok. Qed.

End invariant.

(** ** The session as a transition system

    One transition per operation, in any order: the read loop ([pc] says where
    it stands), the heartbeat, the watchdog, and the goroutines that own
    streams, which call the operations of Stream.v through their pointer. *)

Inductive pc :=
| Idle
| Pushing (l : loc) (payload : list Byte.byte)
| Returned (err : error).

Section transitions.
Context {W : Type} `{Writer W}.
Implicit Types (s : Session W).

Definition next_pc (r : loop_next (W := W)) : pc :=
  match r with
  | LoopNext _ => Idle
  | LoopPush _ l p => Pushing l p
  | LoopReturn _ e => Returned e
  end.

(** The operations goroutines call on a stream they hold, but for [Read]. *)
Inductive call :=
| CWrite (b : list Byte.byte)
| CCloseWrite
| CAbort.

Definition run_call s (c : call) (st : Stream) : Session W * Stream :=
  match c with
  | CWrite b => (fst (Write s st b), st)
  | CCloseWrite => fst (CloseWrite s st)
  | CAbort => Abort s st
  end.

(** The steps that neither take a frame off the connection nor hand bytes to a
    reader. *)
Inductive internal : Session W * pc -> Session W * pc -> Prop :=
| step_recv s p now : internal (s, p) (markRecv now s, p)
| step_read_error s e : internal (s, Idle) (s, Returned (readLoop_error e))
| step_push s l p s' now :
    s' ∈ push_outcomes s l p -> internal (s, Pushing l p) (push_finish now s', Idle)
| step_return s e : internal (s, Returned e) (fst (Run_return e s), Returned e)
| step_call s p l st c :
    heap s !! l = Some st ->
    internal (s, p) (update (fst (run_call s c st)) l (snd (run_call s c st)), p)
| step_open s p meta : internal (s, p) (fst (OpenStream s meta), p)
| step_close s p e : internal (s, p) (CloseWithError e s, p)
| step_ping s p now : internal (s, p) (fst (pinger_tick now s), p)
| step_pong s p s' b : pinger_pong s = Some (s', b) -> internal (s, p) (s', p)
| step_watchdog s p idle now : internal (s, p) (fst (watchdog_tick idle now s), p).

Inductive step : Session W * pc -> Session W * pc -> Prop :=
| step_internal c c' : internal c c' -> step c c'
| step_frame s f : step (s, Idle) (loop_session (dispatch s f), next_pc (dispatch s f))
| step_read s p l st n :
    heap s !! l = Some st -> step (s, p) (update s l (fst (Read (done s) st n)), p).

Lemma run_call_ok s c st :
  host_step s (fst (run_call s c st)) /\
  (stream_ok st -> stream_ok (snd (run_call s c st))) /\ stream_le st (snd (run_call s c st)).
Proof.
  destruct c as [b| |]; cbn [run_call fst snd].
  - split; [apply Write_host|done].
  - split; [apply CloseWrite_host|]. split; [apply CloseWrite_ok|apply CloseWrite_le].
  - split; [apply Abort_host|]. split; [apply Abort_ok|apply Abort_le].
Qed.

Lemma internal_ok c c' : internal c c' -> session_ok (fst c) -> session_ok (fst c').
Proof.
  intros Hstep Hs. destruct Hstep; simpl in *; try done.
  - by apply markRecv_ok.
  - apply push_finish_ok. by eapply push_ok.
  - unfold Run_return. simpl. pose proof (shutdown_ok e s Hs).
    destruct (closeErr _); [by apply fireOnClose_ok|done].
  - destruct (run_call_ok s c st) as (Hh & Ho & Hl).
    eapply op_ok; [done..|by eapply Ho, heap_ok|done].
  - by apply OpenStream_ok.
  - by apply CloseWithError_ok.
  - unfold pinger_tick.
    pose proof (writeFrame_host s FramePing 0 (PutUint64 (u64 now))) as Hw.
    destruct (writeFrame _ _ _ _). by apply (host_step_ok s).
  - unfold pinger_pong in *. destruct (pongs s) as [|q qs] eqn:Hq; [done|].
    pose proof (writeFrame_host (set_pongs qs s) FramePong 0 q) as Hw.
    destruct (writeFrame _ _ _ _) as [s0 e]. simplify_eq/=.
    apply (host_step_ok (set_pongs qs s)); [|done]. apply set_pongs_ok; [done|].
    pose proof (sk_pongs s Hs) as Hp. rewrite Hq in Hp. simpl in Hp. lia.
  - unfold watchdog_tick. case_match; [done|]. case_match; [by apply CloseWithError_ok|done].
Qed.

Lemma step_ok c c' : step c c' -> session_ok (fst c) -> session_ok (fst c').
Proof.
  intros Hstep Hs. destruct Hstep as [c c' Hi|s f|s p l st n Hl]; simpl in *.
  - by eapply internal_ok.
  - by apply dispatch_ok.
  - eapply update_ok; [done..| |apply Read_loop_le]. by eapply Read_loop_ok, heap_ok.
Qed.

Lemma new_session_ok (w : W) (srv : bool) :
  session_ok (set_nextID (if srv then 1 else 2) (newSession w srv)).
Proof. by destruct srv; split; simpl; try done; try lia; try (split; [done|by intros [? ?]]). Qed.

Lemma session_reachable_ok (w : W) (srv : bool) c :
  rtc step (set_nextID (if srv then 1 else 2) (newSession w srv), Idle) c -> session_ok (fst c).
Proof.
  intros Hrtc. pattern c. eapply rtc_ind_r; [|intros ??? Hstep; by eapply step_ok|exact Hrtc].
  apply new_session_ok.
Qed.

(** C3: whatever the order of frames, calls, heartbeats, timeouts and closes,
    the session's map only points to live streams under their own id, every
    stream's flags agree, no inbound buffer exceeds its 16 chunks, at most one
    pong is pending, the callback fired at most once, closing is recorded once
    with its error, every registered stream of a closed session is done and
    aborted, and the next id keeps the side's parity. *)
Theorem session_invariant (w : W) (srv : bool) s p :
  rtc step (set_nextID (if srv then 1 else 2) (newSession w srv), Idle) (s, p) -> session_ok s.
Proof. apply session_reachable_ok. Qed.

(** The pinger's loop is a sequence of the transitions of the heartbeat, and on a
    closed session it ends with the next thing it has to send. *)
Lemma pinger_steps s p evs : rtc internal (s, p) (fst (pinger evs s), p).
Proof.
  revert s. induction evs as [|[t| |] evs IH]; intros s; cbn [pinger]; [done| | |done].
  - pose proof (step_ping s p t) as Hs. destruct (pinger_tick t s) as [s' go]. cbn [fst] in Hs.
    destruct go; [by eapply rtc_l|by apply rtc_once].
  - destruct (pinger_pong s) as [[s' go]|] eqn:Hp; [|apply IH]. pose proof (step_pong s p s' go Hp) as Hs.
    destruct go; [by eapply rtc_l|by apply rtc_once].
Qed.

Lemma pinger_ends s evs t : closed s = true -> snd (pinger (PTick t :: evs) s) = false.
Proof. intros Hc. cbn [pinger]. unfold pinger_tick, writeFrame. by rewrite Hc. Qed.

End transitions.

(** ** Closing *)

Section closing.
Context {W : Type} `{Writer W}.
Implicit Types (s : Session W).

(** the first close wins: later closes, and the read loop's own end, leave
    the session as it is, and [Run], [Wait] and the callback (called exactly
    once) all report the first error. *)
Theorem first_close_wins s err1 err2 :
  closeOnce s = false -> cbOnce s = false ->
  let s1 := CloseWithError err1 s in
  CloseWithError err2 s1 = s1 /\ Run_return err2 s1 = (s1, Some err1) /\
  Wait s1 = Some (Some err1) /\ onClose s1 = onClose s ++ [err1].
Proof.
  intros Hc Hcb. unfold CloseWithError, Run_return, shutdown. rewrite Hc.
  unfold fireOnClose. simpl. rewrite Hcb. done.
Qed.

(** What a registered stream reads after the session closed. *)
Definition post_close_error (st : Stream) : error :=
  if readDone st then terminal_error (readErr st) else io_ErrUnexpectedEOF.

Lemma shutdown_stream_buffered st : buffered (shutdown_stream st) = buffered st.
Proof.
  unfold shutdown_stream, buffered. simpl.
  destruct (markReadDone_spec mux_errSessionClosed st) as (_ & _ & -> & -> & _). done.
Qed.

Lemma shutdown_stream_err st :
  terminal_error (readErr (shutdown_stream st)) = post_close_error st.
Proof.
  unfold shutdown_stream, post_close_error. simpl.
  destruct (markReadDone_spec mux_errSessionClosed st) as (_ & -> & _). by destruct (readDone st).
Qed.

(** closing an open session ends every stream registered in it: the
    stream is aborted, its pending and future reads drain what was received and
    then fail (with [io.ErrUnexpectedEOF] unless the peer had already ended it)
    without ever blocking, writes fail, nothing more goes on the wire, and no
    stream can be opened. *)
Theorem close_ends_streams s err id l st n b meta :
  session_ok s -> closeOnce s = false ->
  streams s !! id = Some l -> heap s !! l = Some st ->
  let s1 := CloseWithError err s in
  exists st1, heap s1 !! l = Some st1 /\ aborted st1 = true /\
    match snd (Read (done s1) st1 n) with
    | ReadOk data => data `prefix_of` buffered st
    | ReadErr e => buffered st = [] /\ e = post_close_error st
    | ReadBlock | ReadSpin => False
    end /\
    fst (Write s1 st1 b) = s1 /\ (b <> [] -> exists e, snd (Write s1 st1 b) = (0, Some e)) /\
    conn (fst (OpenStream s1 meta)) = conn s1 /\
    snd (OpenStream s1 meta) = Err mux_errSessionClosed.
Proof.
  intros Hs Hc Hid Hst s1. exists (shutdown_stream st).
  assert (closed s1 = true /\ done s1 = true /\ conn s1 = conn s) as (Hcl & Hd & Hcn).
  { unfold s1, CloseWithError, fireOnClose, shutdown. rewrite Hc. by case_match. }
  split; [|split; [done|split; [|split; [|split]]]].
  - unfold s1, CloseWithError, fireOnClose, shutdown. rewrite Hc.
    case_match; simpl; by rewrite shutdown_heap_lookup, decide_True, Hst by (by eapply elem_of_live).
  - rewrite Hd. pose proof (shutdown_stream_dead st) as [Hrd _].
    assert (readable true (shutdown_stream st)) as Hrb by (intros ?; congruence).
    pose proof (Read_outcome true (shutdown_stream st) n Hrb) as Hr.
    destruct (Read true (shutdown_stream st) n) as [st2 []]; cbn [snd];
      rewrite ?shutdown_stream_buffered, ?shutdown_stream_err in Hr.
    + exists (buffered st2). apply Hr.
    + by destruct Hr as (? & _ & ?).
    + destruct Hr as (_ & ?). congruence.
    + done.
  - unfold Write. destruct (check _); [done|]. destruct b as [|x b]; [done|].
    cbn [Write_loop]. unfold Write_iter. simpl. unfold writeFrame. by rewrite Hcl.
  - intros Hb. unfold Write. destruct (check _); [by eauto|]. destruct b as [|x b]; [done|].
    cbn [Write_loop]. unfold Write_iter. simpl. unfold writeFrame. rewrite Hcl. by eauto.
  - unfold OpenStream. cbn [alloc]. cbn [closed set_heap set_nextID]. rewrite Hcl. done.
Qed.

End closing.

(** ** Stream ids *)

Section ids.
Context {W : Type} `{Writer W}.
Implicit Types (s : Session W).

Definition opens (metas : list (list Byte.byte)) s : Session W :=
  foldl (fun s meta => fst (OpenStream s meta)) s metas.

Lemma OpenStream_nextID s meta : nextID (fst (OpenStream s meta)) = u32 (nextID s + 2).
Proof.
  unfold OpenStream. cbn [alloc closed set_heap set_nextID]. destruct (closed s); [done|].
  match goal with |- context [writeFrame ?s0 ?t ?i ?m] =>
    pose proof (writeFrame_host s0 t i m) as (w & m0 & _ & Hw);
    destruct (writeFrame s0 t i m) as [s' [e|]] end; simpl in *; by subst.
Qed.

Lemma OpenStream_server s meta : server (fst (OpenStream s meta)) = server s.
Proof.
  unfold OpenStream. cbn [alloc closed set_heap set_nextID]. destruct (closed s); [done|].
  match goal with |- context [writeFrame ?s0 ?t ?i ?m] =>
    pose proof (writeFrame_host s0 t i m) as (w & m0 & _ & Hw);
    destruct (writeFrame s0 t i m) as [s' [e|]] end; simpl in *; by subst.
Qed.

Lemma opens_nextID metas s :
  0 <= nextID s < 2 ^ 32 ->
  nextID (opens metas s) = u32 (nextID s + 2 * zlen metas) /\ server (opens metas s) = server s.
Proof.
  revert s. induction metas as [|meta metas IH]; intros s Hs.
  - simpl. by rewrite Z.add_0_r, wrap_small.
  - destruct (IH (fst (OpenStream s meta))) as [Hn Hsv].
    { rewrite OpenStream_nextID. by apply wrap_range. }
    change (opens (meta :: metas) s) with (opens metas (fst (OpenStream s meta))).
    rewrite Hn, Hsv, OpenStream_nextID, OpenStream_server. split; [|done].
    unfold wrap. rewrite Zplus_mod_idemp_l. f_equal. simpl length. lia.
Qed.

Lemma opened_id s meta s' l st :
  OpenStream s meta = (s', Ok l) -> heap s' !! l = Some st -> st_id st = nextID s.
Proof.
  unfold OpenStream. cbn [alloc closed set_heap set_nextID]. destruct (closed s); [done|].
  match goal with |- context [writeFrame ?s0 ?t ?i ?m] =>
    pose proof (writeFrame_host s0 t i m) as (w & m0 & _ & Hw);
    destruct (writeFrame s0 t i m) as [s0' [e|]] end; [done|].
  simpl in *. intros [= <- <-]. rewrite Hw. simpl.
  rewrite lookup_app_r, Nat.sub_diag by done. by intros [= <-].
Qed.

(** the streams a side opens have odd ids on the server and even ids on
    the client, so the two sides never collide, and any two of its first 2^31
    opens have different ids (the 32-bit counter then wraps around). *)
Theorem open_ids_unique s ms1 m1 ms2 m2 s1 l1 st1 s2 l2 st2 :
  session_ok s ->
  OpenStream (opens ms1 s) m1 = (s1, Ok l1) -> heap s1 !! l1 = Some st1 ->
  OpenStream (opens ms2 s1) m2 = (s2, Ok l2) -> heap s2 !! l2 = Some st2 ->
  zlen ms2 + 1 < 2 ^ 31 ->
  Z.odd (st_id st1) = server s /\ Z.odd (st_id st2) = server s /\ st_id st1 <> st_id st2.
Proof.
  intros Hs Ho1 Hh1 Ho2 Hh2 Hlen.
  destruct (sk_id s Hs) as [Hr Hodd].
  rewrite (opened_id _ _ _ _ _ Ho1 Hh1), (opened_id _ _ _ _ _ Ho2 Hh2).
  destruct (opens_nextID ms1 s Hr) as [Hn1 _].
  assert (nextID s1 = u32 (nextID (opens ms1 s) + 2)) as Hs1.
  { pose proof (OpenStream_nextID (opens ms1 s) m1) as Hx. by rewrite Ho1 in Hx. }
  destruct (opens_nextID ms2 s1) as [Hn2 _].
  { rewrite Hs1. by apply wrap_range. }
  rewrite Hn2, Hs1, Hn1. unfold wrap in *. rewrite <-Hodd.
  change (2 ^ 32) with 4294967296 in *. change (2 ^ 31) with 2147483648 in *.
  rewrite !Zodd_mod. split; [|split].
  - f_equal. Z.to_euclidean_division_equations; lia.
  - f_equal. Z.to_euclidean_division_equations; lia.
  - Z.to_euclidean_division_equations; lia.
Qed.

End ids.

(** ** Liveness *)

Section liveness.
Context {W : Type} `{Writer W}.
Implicit Types (s : Session W).

(** The watchdog goroutine over the times of its ticks. *)
Fixpoint watchdog (idle : Z) (ticks : list Z) s : Session W :=
  match ticks with
  | [] => s
  | t :: ticks =>
      match watchdog_tick idle t s with
      | (s, true) => watchdog idle ticks s
      | (s, false) => s
      end
  end.

Lemma watchdog_quiet idle ticks s :
  stalled s = true \/ Forall (fun t => silence t s <= idle) ticks -> watchdog idle ticks s = s.
Proof.
  intros Hq. induction ticks as [|t ticks IH]; [done|]. simpl. unfold watchdog_tick.
  destruct (stalled s) eqn:Hst; [apply IH; by left|].
  destruct Hq as [?|Hq]; [done|]. apply Forall_cons in Hq as [Ht Hq].
  rewrite (proj2 (Z.ltb_ge _ _)) by done. apply IH. by right.
Qed.

(** a session whose read loop waits for one of our own slow readers is
    never taken for dead: however long the delivery of a DATA frame blocks, no
    tick of the watchdog closes the session and it is not stale; once the
    delivery ends, the whole idle timeout must pass again first. *)
Theorem slow_reader_is_not_silence s f s1 l p s2 idle ticks1 now t1 ticks2 :
  dispatch s f = LoopPush s1 l p ->
  watchdog idle ticks1 s1 = s1 /\ Stale now s1 = false /\
  (s2 ∈ push_outcomes s1 l p ->
   stalled s2 = true /\ watchdog idle ticks1 s2 = s2 /\
   (Forall (fun t => t <= t1 + idle) ticks2 ->
    watchdog idle ticks2 (push_finish t1 s2) = push_finish t1 s2)).
Proof.
  intros Hd. assert (stalled s1 = true) as Hst.
  { destruct f as [typ id q]. unfold dispatch in Hd. cbn [alloc closed set_heap] in Hd.
    destruct (Byte.eqb typ FrameOpen); [by case_match|].
    destruct (Byte.eqb typ FrameData).
    - case_match; simplify_eq. done.
    - repeat case_match; done. }
  split; [apply watchdog_quiet; by left|]. split; [unfold Stale; by rewrite Hst|].
  intros Hin. assert (stalled s2 = true) as Hst2.
  { unfold push_outcomes in Hin. case_match; [|by apply not_elem_of_nil in Hin].
    by apply list_elem_of_fmap in Hin as (st & -> & _). }
  split; [done|]. split; [apply watchdog_quiet; by left|].
  intros Hts. apply watchdog_quiet. right. eapply Forall_impl; [exact Hts|].
  intros t Ht. unfold silence, push_finish, markRecv. simpl. simpl in Ht. lia.
Qed.

(** The ticks of a ticker of period [p] from [a]. *)
Definition ticker (a p : Z) (n : nat) : list Z := (fun k => a + Z.of_nat k * p) <$> seq 0 n.

Lemma watchdog_app idle ts1 ts2 s :
  Forall (fun t => silence t s <= idle) ts1 -> stalled s = false ->
  watchdog idle (ts1 ++ ts2) s = watchdog idle ts2 s.
Proof.
  intros Hts Hst. induction Hts as [|t ts1 Ht Hts IH]; [done|].
  simpl. unfold watchdog_tick. rewrite Hst, (proj2 (Z.ltb_ge _ _)) by done. apply IH.
Qed.


End liveness.

(** ** A peer that opens the same id twice *)

Section duplicate.
Context {W : Type} `{Writer W}.
Implicit Types (s : Session W).

Lemma shutdown_forgets s err l :
  closeOnce s = false -> (forall id, streams s !! id <> Some l) ->
  heap (CloseWithError err s) !! l = heap s !! l /\ done (CloseWithError err s) = true.
Proof.
  intros Hc Hl. unfold CloseWithError, fireOnClose, shutdown. rewrite Hc.
  assert (l ∉ (map_to_list (streams s)).*2) as Hni.
  { intros ([id l'] & -> & Hin)%list_elem_of_fmap. by apply (Hl id), elem_of_map_to_list. }
  case_match; simpl; by rewrite shutdown_heap_lookup, decide_False.
Qed.

(** the read loop accepts a second OPEN for a live id and drops the first
    stream from the table without ending it; when the session then closes,
    nothing marks that stream, and a [Read] on it never returns: it loops on the
    closed [done] channel however many rounds it is given. *)
Theorem duplicate_open_orphans s id meta l st err fuel n :
  session_ok s -> closeOnce s = false ->
  streams s !! id = Some l -> heap s !! l = Some st ->
  readDone st = false -> cur st = [] -> chunks st = [] ->
  let s1 := loop_session (dispatch s (Frame FrameOpen id meta)) in
  let s2 := CloseWithError err s1 in
  heap s2 !! l = Some st /\ Read_loop fuel (done s2) st n = (st, ReadSpin).
Proof.
  intros Hs Hc Hid Hst Hrd Hcur Hch s1 s2.
  destruct (sk_once s Hs) as (Hcl & _). rewrite Hc in Hcl.
  assert (s1 = set_onStream (onStream s ++ [length (heap s)])
    (set_streams (<[id := length (heap s)]> (streams s)) (set_heap (heap s ++ [newStream id]) s))) as Hs1.
  { unfold s1, dispatch. cbn [alloc closed set_heap]. by rewrite Hcl. }
  pose proof (lookup_lt_Some _ _ _ Hst) as Hlt.
  destruct (shutdown_forgets s1 err l) as [Hh Hd].
  { by rewrite Hs1. }
  { intros id'. rewrite Hs1. simpl. intros [[<- Hl]|[Hne Hl]]%lookup_insert_Some; [lia|].
    destruct (sk_streams s Hs id' l Hl) as (st' & Hst' & Hid').
    destruct (sk_streams s Hs id l Hid) as (st'' & Hst'' & Hid''). congruence. }
  unfold s2. rewrite Hh, Hd. split; [|by apply Read_orphan_spins].
  rewrite Hs1. simpl. by apply lookup_app_l_Some.
Qed.

End duplicate.

(** ** Witnesses *)

(** A server session over a recording connection, with one stream open. *)
Definition wit_session : Session writes := fst (OpenStream (NewServerSession ([] : writes)) []).

Lemma wit_session_ok : session_ok wit_session.
Proof. apply OpenStream_ok. exact (new_session_ok ([] : writes) true). Defined.

Lemma session_invariant_witness :
  rtc step (NewServerSession ([] : writes), Idle) (fst (OpenStream (NewServerSession ([] : writes)) []), Idle)
  /\ session_ok wit_session.
Proof.
  assert (rtc step (NewServerSession ([] : writes), Idle)
            (fst (OpenStream (NewServerSession ([] : writes)) []), Idle)) as Hr
    by (apply rtc_once, step_internal, (step_open (NewServerSession ([] : writes)) Idle [])).
  split; [exact Hr|]. exact (session_invariant ([] : writes) true _ Idle Hr).
Defined.

Lemma first_close_wins_witness :
  closeOnce wit_session = false /\ cbOnce wit_session = false /\
  Wait (CloseWithError net_ErrClosed wit_session) = Some (Some (Sentinel net_ErrClosed)).
Proof.
  split; [reflexivity|]. split; [reflexivity|].
  exact (proj1 (proj2 (proj2 (first_close_wins wit_session net_ErrClosed io_EOF eq_refl eq_refl)))).
Defined.

Lemma close_ends_streams_witness :
  session_ok wit_session /\ closeOnce wit_session = false /\
  streams wit_session !! 1 = Some 0%nat /\ heap wit_session !! 0%nat = Some (newStream 1) /\
  exists st1, heap (CloseWithError io_EOF wit_session) !! 0%nat = Some st1 /\ aborted st1 = true.
Proof.
  split; [exact wit_session_ok|]. split; [reflexivity|]. split; [reflexivity|]. split; [reflexivity|].
  destruct (close_ends_streams wit_session io_EOF 1 0%nat (newStream 1) 10 [x41] []
    wit_session_ok eq_refl eq_refl eq_refl) as (st1 & H1 & H2 & _).
  exists st1. split; [exact H1|exact H2].
Defined.

Definition wit_session2 : Session writes := fst (OpenStream wit_session []).

Lemma open_ids_unique_witness :
  session_ok (NewServerSession ([] : writes)) /\
  OpenStream (opens [] (NewServerSession ([] : writes))) [] = (wit_session, Ok 0%nat) /\
  heap wit_session !! 0%nat = Some (newStream 1) /\
  OpenStream (opens [] wit_session) [] = (wit_session2, Ok 1%nat) /\
  heap wit_session2 !! 1%nat = Some (newStream 3) /\
  zlen ([] : list (list Byte.byte)) + 1 < 2 ^ 31 /\
  (Z.odd 1 = true /\ Z.odd 3 = true /\ 1 <> 3).
Proof.
  pose proof (new_session_ok ([] : writes) true) as Hs.
  assert (OpenStream (opens [] (NewServerSession ([] : writes))) [] = (wit_session, Ok 0%nat)) as H1
    by (vm_compute; reflexivity).
  assert (heap wit_session !! 0%nat = Some (newStream 1)) as H2 by (vm_compute; reflexivity).
  assert (OpenStream (opens [] wit_session) [] = (wit_session2, Ok 1%nat)) as H3
    by (vm_compute; reflexivity).
  assert (heap wit_session2 !! 1%nat = Some (newStream 3)) as H4 by (vm_compute; reflexivity).
  assert (zlen ([] : list (list Byte.byte)) + 1 < 2 ^ 31) as H5 by (vm_compute; reflexivity).
  split; [exact Hs|]. split; [exact H1|]. split; [exact H2|]. split; [exact H3|].
  split; [exact H4|]. split; [exact H5|].
  exact (open_ids_unique (NewServerSession ([] : writes)) [] [] [] [] wit_session 0%nat (newStream 1)
    wit_session2 1%nat (newStream 3) Hs H1 H2 H3 H4 H5).
Defined.

Lemma slow_reader_is_not_silence_witness :
  exists s1, dispatch wit_session (Frame FrameData 1 [x41]) = LoopPush s1 0%nat [x41] /\
  watchdog 10 [1000; 2000] s1 = s1 /\ Stale 3000 s1 = false.
Proof.
  eexists. split; [reflexivity|].
  destruct (slow_reader_is_not_silence wit_session (Frame FrameData 1 [x41])
    (set_stalled true wit_session) 0%nat [x41] wit_session 10 [1000; 2000] 3000 0 [] eq_refl)
    as (H1 & H2 & _).
  split; [exact H1|exact H2].
Defined.


Lemma duplicate_open_orphans_witness :
  session_ok wit_session /\ closeOnce wit_session = false /\
  streams wit_session !! 1 = Some 0%nat /\ heap wit_session !! 0%nat = Some (newStream 1) /\
  Read_loop 1000 (done (CloseWithError io_EOF (loop_session
    (dispatch wit_session (Frame FrameOpen 1 []))))) (newStream 1) 10 = (newStream 1, ReadSpin).
Proof.
  split; [exact wit_session_ok|]. split; [reflexivity|]. split; [reflexivity|]. split; [reflexivity|].
  exact (proj2 (duplicate_open_orphans wit_session 1 [] 0%nat (newStream 1) io_EOF 1000 10
    wit_session_ok eq_refl eq_refl eq_refl eq_refl eq_refl eq_refl)).
Defined.
