(* ===== verification/Concurrency.v ===== *)
(** * Concurrent calls on one stream

    internal/mux/stream.go lets any number of goroutines write, close, abort
    and receive on the same stream. Here every call is a thread that runs one
    critical section (or one channel close, or one frame) at a time, in any
    interleaving with the others and with the death of the session; the
    sections are those of Stream.v. Three properties follow: what the peer can
    see on the wire, that no channel is closed twice, and that a stream whose two
    directions ended is always unregistered. *)
From S2P Require Import Prelude Frame Stream.

(** ** Threads *)

(** Where a call stands. The numbers follow the code; a thread in
    [TWrite2]-[TWrite4] or [TClose2] holds the stream's [wmu]. *)
Inductive thread :=
| TWrite0 (b : list Byte.byte)              (** before the first [check] *)
| TWrite1 (b : list Byte.byte)              (** before [wmu.Lock] *)
| TWrite2 (b : list Byte.byte)              (** before the second [check] *)
| TWrite3 (b : list Byte.byte) (total : Z)  (** at the head of the loop *)
| TWrite4 (b : list Byte.byte) (total : Z)  (** about to emit a frame *)
| TClose0
| TClose1 (peerDone : bool)                 (** before [wmu.Lock] *)
| TClose2 (peerDone : bool)                 (** about to emit CLOSE *)
| TClose3 (peerDone : bool)                 (** [if peerDone { remove }] *)
| TAbort0
| TAbort1 (fin : bool)                      (** [if !finished] emit RESET *)
| TAbort2                                   (** [markReadDone], the lock *)
| TAbort3                                   (** ... [close(eofCh)] *)
| TAbort4                                   (** [signalAbort] *)
| TAbort5                                   (** [remove] *)
| TRemClose0                                (** [remoteClose]: the lock *)
| TRemClose1                                (** ... [close(eofCh)] *)
| TRemClose2                                (** reading [sentClose] *)
| TRemClose3 (both : bool)
| TRemReset0                                (** [remoteReset]: setting [reset] *)
| TRemReset1
| TRemReset2
| TRemReset3
| TRemReset4
| TShut0                                    (** [shutdown]: [markReadDone] *)
| TShut1
| TShut2
| TDone.

Record world := mkWorld {
  w_st : Stream;
  w_host : wire;
  w_wmu : bool;        (** the stream's write mutex is held *)
  w_eofs : nat         (** how many times [close(eofCh)] ran *)
}.

Definition with_st (st : Stream) (w : world) : world := mkWorld st (w_host w) (w_wmu w) (w_eofs w).
Definition with_wmu (b : bool) (w : world) : world := mkWorld (w_st w) (w_host w) b (w_eofs w).

(** [close(s.eofCh)]. *)
Definition close_eof (w : world) : world :=
  mkWorld (set_eofCh (w_st w)) (w_host w) (w_wmu w) (S (w_eofs w)).

(** Emit a frame; the refusal of a dead session is returned. *)
Definition emit (typ : Byte.byte) (p : list Byte.byte) (w : world) : world * option error :=
  let '(h, e) := host_writeFrame (w_host w) typ (st_id (w_st w)) p in
  (mkWorld (w_st w) h (w_wmu w) (w_eofs w), e).

Definition do_remove (w : world) : world :=
  let '(h, st) := remove (w_host w) (w_st w) in mkWorld st h (w_wmu w) (w_eofs w).

(** The critical section of [markReadDone], and the thread that goes on when
    this call won or lost. *)
Definition mark (e : error) (won lost : thread) (w : world) : thread * world :=
  match markReadDone_lock e (w_st w) with
  | Some st => (won, with_st st w)
  | None => (lost, w)
  end.

(** One step of a thread; [None] when it waits for [wmu] or is done. *)
Definition tstep (t : thread) (w : world) : option (thread * world) :=
  match t with
  | TWrite0 b => Some (match check (w_st w) with Some _ => TDone | None => TWrite1 b end, w)
  | TWrite1 b => if w_wmu w then None else Some (TWrite2 b, with_wmu true w)
  | TWrite2 b =>
      Some (match check (w_st w) with
            | Some _ => (TDone, with_wmu false w)
            | None => (TWrite3 b 0, w)
            end)
  | TWrite3 b total =>
      Some (if zlen b <=? 0 then (TDone, with_wmu false w)
            else match (if 0 <? total then check (w_st w) else None) with
                 | Some _ => (TDone, with_wmu false w)
                 | None => (TWrite4 b total, w)
                 end)
  | TWrite4 b total =>
      let n := write_len b in
      Some (match emit FrameData (take n b) w with
            | (w, Some _) => (TDone, with_wmu false w)
            | (w, None) => (TWrite3 (drop n b) (total + Z.of_nat n), w)
            end)
  | TClose0 =>
      Some (match CloseWrite_lock (w_st w) with
            | None => (TDone, w)
            | Some (st, peerDone) => (TClose1 peerDone, with_st st w)
            end)
  | TClose1 pd => if w_wmu w then None else Some (TClose2 pd, with_wmu true w)
  | TClose2 pd => Some (TClose3 pd, with_wmu false (fst (emit FrameClose [] w)))
  | TClose3 pd => Some (TDone, if pd then do_remove w else w)
  | TAbort0 =>
      Some (match Abort_lock (w_st w) with
            | None => (TDone, w)
            | Some (st, fin) => (TAbort1 fin, with_st st w)
            end)
  | TAbort1 fin => Some (TAbort2, if fin then w else fst (emit FrameReset [] w))
  | TAbort2 => Some (mark mux_ErrStreamReset TAbort3 TAbort4 w)
  | TAbort3 => Some (TAbort4, close_eof w)
  | TAbort4 => Some (TAbort5, with_st (signalAbort (w_st w)) w)
  | TAbort5 => Some (TDone, do_remove w)
  | TRemClose0 => Some (mark io_EOF TRemClose1 TRemClose2 w)
  | TRemClose1 => Some (TRemClose2, close_eof w)
  | TRemClose2 => Some (TRemClose3 (sentClose (w_st w)), w)
  | TRemClose3 both => Some (TDone, if both then do_remove w else w)
  | TRemReset0 => Some (TRemReset1, with_st (set_reset (w_st w)) w)
  | TRemReset1 => Some (mark mux_ErrStreamReset TRemReset2 TRemReset3 w)
  | TRemReset2 => Some (TRemReset3, close_eof w)
  | TRemReset3 => Some (TRemReset4, with_st (signalAbort (w_st w)) w)
  | TRemReset4 => Some (TDone, do_remove w)
  | TShut0 =>
      if wire_done (w_host w) then Some (mark mux_errSessionClosed TShut1 TShut2 w) else None
  | TShut1 => Some (TShut2, close_eof w)
  | TShut2 => Some (TDone, with_st (signalAbort (w_st w)) w)
  | TDone => None
  end.

(** A call about to start. *)
Definition starts (t : thread) : bool :=
  match t with
  | TWrite0 _ | TClose0 | TAbort0 | TRemClose0 | TRemReset0 | TShut0 => true
  | _ => false
  end.

Definition session_dies (w : world) : world :=
  mkWorld (w_st w)
    {| wire_frames := wire_frames (w_host w); wire_removed := wire_removed (w_host w);
       wire_done := true |} (w_wmu w) (w_eofs w).

Inductive cstep : world * list thread -> world * list thread -> Prop :=
| cstep_thread w ts i t t' w' :
    ts !! i = Some t -> tstep t w = Some (t', w') -> cstep (w, ts) (w', <[i := t']> ts)
| cstep_spawn w ts t : starts t = true -> cstep (w, ts) (w, ts ++ [t])
| cstep_dies w ts : cstep (w, ts) (session_dies w, ts).

Definition initial (id : Z) : world := mkWorld (newStream id) new_wire false 0.

(** A schedule: which thread moves, which call starts, when the session dies. *)
Inductive sched := Move (i : nat) | Spawn (t : thread) | Die.

Definition exec1 (c : world * list thread) (s : sched) : option (world * list thread) :=
  let '(w, ts) := c in
  match s with
  | Move i =>
      match ts !! i with
      | Some t => match tstep t w with Some (t', w') => Some (w', <[i := t']> ts) | None => None end
      | None => None
      end
  | Spawn t => if starts t then Some (w, ts ++ [t]) else None
  | Die => Some (session_dies w, ts)
  end.

Fixpoint exec (c : world * list thread) (ss : list sched) : option (world * list thread) :=
  match ss with
  | [] => Some c
  | s :: ss => match exec1 c s with Some c => exec c ss | None => None end
  end.

Lemma exec1_cstep c s c' : exec1 c s = Some c' -> cstep c c'.
Proof.
  destruct c as [w ts], s as [i|t|]; simpl; intros H.
  - destruct (ts !! i) as [t|] eqn:Hi; [|done].
    destruct (tstep t w) as [[t' w']|] eqn:Ht; [|done]. simplify_eq. by eapply cstep_thread.
  - destruct (starts t) eqn:Ht; simplify_eq. by apply cstep_spawn.
  - simplify_eq. apply cstep_dies.
Qed.

Lemma exec_reachable c ss c' : exec c ss = Some c' -> rtc cstep c c'.
Proof.
  revert c. induction ss as [|s ss IH]; intros c H; simpl in H; simplify_eq; [done|].
  destruct (exec1 c s) as [c1|] eqn:Hs; [|done]. eapply rtc_l; [by eapply exec1_cstep|auto].
Qed.

(** ** Counting threads *)

Fixpoint cnt {A} (P : A -> bool) (l : list A) : nat :=
  match l with
  | [] => 0
  | x :: l => Nat.b2n (P x) + cnt P l
  end.

Lemma cnt_insert {A} (P : A -> bool) l i x y :
  l !! i = Some x -> (cnt P (<[i := y]> l) + Nat.b2n (P x) = cnt P l + Nat.b2n (P y))%nat.
Proof.
  revert i. induction l as [|z l IH]; intros [|i] Hi; simplify_eq/=; [lia|].
  specialize (IH i Hi). lia.
Qed.

Lemma cnt_ge {A} (P : A -> bool) l i x : l !! i = Some x -> (Nat.b2n (P x) <= cnt P l)%nat.
Proof.
  revert i. induction l as [|z l IH]; intros [|i] Hi; simplify_eq/=; [lia|].
  specialize (IH i Hi). lia.
Qed.

Lemma cnt_snoc {A} (P : A -> bool) l x : cnt P (l ++ [x]) = (cnt P l + Nat.b2n (P x))%nat.
Proof. induction l as [|z l IH]; simpl; lia. Qed.

Lemma cnt_le {A} (P Q : A -> bool) l :
  (forall x, P x = true -> Q x = true) -> (cnt P l <= cnt Q l)%nat.
Proof.
  intros HPQ. induction l as [|x l IH]; simpl; [lia|].
  specialize (HPQ x). destruct (P x), (Q x); simpl; lia.
Qed.

Lemma cnt_zero {A} (P : A -> bool) l : cnt P l = 0%nat <-> Forall (fun x => P x = false) l.
Proof.
  induction l as [|x l IH]; simpl; [done|]. rewrite Forall_cons, <-IH.
  destruct (P x); simpl; intuition lia.
Qed.

(** ** What is being counted *)

Definition holds_wmu (t : thread) : bool :=
  match t with TWrite2 _ | TWrite3 _ _ | TWrite4 _ _ | TClose2 _ => true | _ => false end.

(** May still emit a DATA frame without looking at the flags again. *)
Definition past_check (t : thread) : bool :=
  match t with TWrite3 _ total => negb (0 <? total) | TWrite4 _ _ => true | _ => false end.

Definition closing (t : thread) : bool :=
  match t with TClose1 _ | TClose2 _ => true | _ => false end.

Definition resetting (t : thread) : bool :=
  match t with TAbort1 _ => true | _ => false end.

(** Won [markReadDone] and has not closed [eofCh] yet. *)
Definition eof_pending (t : thread) : bool :=
  match t with TAbort3 | TRemClose1 | TRemReset2 | TShut1 => true | _ => false end.

(** Will call [remove] whatever happens. *)
Definition reset_removes (t : thread) : bool :=
  match t with
  | TAbort1 _ | TAbort2 | TAbort3 | TAbort4 | TAbort5
  | TRemReset1 | TRemReset2 | TRemReset3 | TRemReset4 => true
  | _ => false
  end.

(** Will call [remove] once both directions have ended. *)
Definition close_removes (t : thread) : bool :=
  match t with
  | TClose1 pd | TClose2 pd | TClose3 pd => pd
  | TRemClose1 | TRemClose2 => true
  | TRemClose3 both => both
  | _ => reset_removes t
  end.

(** [remoteClose] has marked the reading side. *)
Definition remote_closing (t : thread) : bool :=
  match t with TRemClose1 | TRemClose2 => true | _ => false end.

(** Is committed to calling [remove]. *)
Definition will_remove (t : thread) : bool :=
  match t with
  | TClose1 pd | TClose2 pd | TClose3 pd => pd
  | TRemClose3 both => both
  | _ => reset_removes t
  end.

Definition is_typ (typ : Byte.byte) (f : frame) : bool := Byte.eqb (f_typ f) typ.

(** No DATA frame after a CLOSE frame. *)
Fixpoint close_ends (fs : list frame) : bool :=
  match fs with
  | [] => true
  | f :: fs =>
      (if is_typ FrameClose f then (cnt (is_typ FrameData) fs =? 0)%nat else true) && close_ends fs
  end.

Lemma close_ends_snoc fs f :
  close_ends (fs ++ [f]) =
  close_ends fs && (if is_typ FrameData f then (cnt (is_typ FrameClose) fs =? 0)%nat else true).
Proof.
  induction fs as [|g fs IH]; simpl; [by destruct (is_typ FrameClose f), (is_typ FrameData f)|].
  rewrite IH, cnt_snoc. destruct (is_typ FrameClose g), (is_typ FrameData f); simpl;
    rewrite ?Nat.add_0_r, ?Nat.add_1_r, ?andb_true_r, ?andb_false_r, ?andb_assoc; done.
Qed.

(** The invariant of the interleaved stream. *)
Record cinv (w : world) (ts : list thread) : Prop := {
  ci_mutex : cnt holds_wmu ts = Nat.b2n (w_wmu w);
  ci_eof : (w_eofs w + cnt eof_pending ts)%nat = Nat.b2n (readDone (w_st w));
  ci_close : (cnt (is_typ FrameClose) (wire_frames (w_host w)) + cnt closing ts <=
              Nat.b2n (sentClose (w_st w)))%nat;
  ci_reset : (cnt (is_typ FrameReset) (wire_frames (w_host w)) + cnt resetting ts <=
              Nat.b2n (reset (w_st w)))%nat;
  ci_order : close_ends (wire_frames (w_host w)) = true;
  ci_last : cnt (is_typ FrameClose) (wire_frames (w_host w)) = 0%nat \/ cnt past_check ts = 0%nat;
  ci_removed : length (wire_removed (w_host w)) = Nat.b2n (removeOnce (w_st w));
  ci_rm_reset : (Nat.b2n (reset (w_st w)) <=
    Nat.b2n (wire_done (w_host w)) + Nat.b2n (removeOnce (w_st w)) + cnt reset_removes ts)%nat;
  ci_rm_close : (Nat.b2n (sentClose (w_st w)) + Nat.b2n (readDone (w_st w)) <=
    1 + Nat.b2n (wire_done (w_host w)) + Nat.b2n (removeOnce (w_st w)) + cnt close_removes ts)%nat;
  ci_remote : cnt remote_closing ts = 0%nat \/ (Nat.b2n (readDone (w_st w)) = 1)%nat;
  ci_early : (cnt will_remove ts + Nat.b2n (removeOnce (w_st w)) = 0)%nat \/
    (Nat.b2n (reset (w_st w)) = 1)%nat \/
    (Nat.b2n (sentClose (w_st w)) + Nat.b2n (readDone (w_st w)) = 2)%nat
}.

(** ** Preservation *)

(** Record how each count changes when a thread goes from one point to another. *)
Ltac count_step Hi t' :=
  pose proof (cnt_insert holds_wmu _ _ _ t' Hi);
  pose proof (cnt_insert past_check _ _ _ t' Hi);
  pose proof (cnt_ge past_check _ _ _ Hi);
  pose proof (cnt_ge holds_wmu _ _ _ Hi);
  pose proof (cnt_ge closing _ _ _ Hi);
  pose proof (cnt_ge resetting _ _ _ Hi);
  pose proof (cnt_ge eof_pending _ _ _ Hi);
  pose proof (cnt_ge reset_removes _ _ _ Hi);
  pose proof (cnt_ge close_removes _ _ _ Hi);
  pose proof (cnt_ge will_remove _ _ _ Hi);
  pose proof (cnt_ge remote_closing _ _ _ Hi);
  pose proof (cnt_insert closing _ _ _ t' Hi);
  pose proof (cnt_insert resetting _ _ _ t' Hi);
  pose proof (cnt_insert eof_pending _ _ _ t' Hi);
  pose proof (cnt_insert reset_removes _ _ _ t' Hi);
  pose proof (cnt_insert remote_closing _ _ _ t' Hi);
  pose proof (cnt_insert will_remove _ _ _ t' Hi);
  pose proof (cnt_insert close_removes _ _ _ t' Hi).

Lemma past_check_holds ts : (cnt past_check ts <= cnt holds_wmu ts)%nat.
Proof. apply cnt_le. by intros []. Qed.

Lemma reset_close_removes ts : (cnt reset_removes ts <= cnt close_removes ts)%nat.
Proof. apply cnt_le. by intros []. Qed.

Lemma b2n_le_1 b : (Nat.b2n b <= 1)%nat.
Proof. by destruct b; simpl; lia. Qed.

(** Destruct the boolean the current step tests, and keep the steps it allows. *)
Ltac cases_of_step :=
  repeat match goal with
  | H : Some _ = Some _ |- _ => injection H as H
  | H : (_, _) = (_, _) |- _ => injection H as ? ?
  | H : None = Some _ |- _ => discriminate H
  | H : context [if ?b then _ else _] |- _ => destruct b eqn:?; simpl in *
  end; subst; simpl in *.

Ltac solve_cinv :=
  split; simpl in *; rewrite ?cnt_snoc, ?close_ends_snoc, ?length_app; simpl in *;
  try match goal with E : close_ends _ = true |- _ => rewrite E; simpl end;
  try done; try match goal with |- (_ =? _)%nat = true => apply Nat.eqb_eq end; lia.

Section preservation.
Variables (id : Z) (cs : list (list Byte.byte)) (eof : bool) (cu : list Byte.byte) (ab : bool)
  (er : option error) (rd sc rs ro : bool) (fs : list frame) (rmd : list Z) (dn wm : bool) (eo : nat).
Let w := mkWorld (mkStream id cs eof cu ab er rd sc rs ro)
  {| wire_frames := fs; wire_removed := rmd; wire_done := dn |} wm eo.
Variables (ts : list thread) (i : nat) (t' : thread) (w' : world).
Hypothesis Hinv : cinv w ts.

Ltac start Hi Ht :=
  intros Hi Ht; count_step Hi t'; destruct Hinv as [Hm He Hc Hr Ho Hl Hrm Hrr Hrc Hrem Hearly];
  unfold w in *; clear Hinv w;
  pose proof (past_check_holds (<[i := t']> ts));
  pose proof (reset_close_removes (<[i := t']> ts));
  pose proof (b2n_le_1 wm); pose proof (b2n_le_1 rd); pose proof (b2n_le_1 sc);
  pose proof (b2n_le_1 rs); pose proof (b2n_le_1 ro); pose proof (b2n_le_1 dn);
  unfold tstep, check, CloseWrite_lock, Abort_lock, mark, markReadDone_lock, emit, do_remove, remove,
    with_st, with_wmu, close_eof, set_sentClose, set_reset, set_readDone, set_eofCh,
    signalAbort, set_removeOnce in Ht; simpl in *; cases_of_step;
  try match goal with E : (0 <? _) = _ |- _ => rewrite ?E in *; simpl in * end;
  bool_props; subst; simpl in *.

Lemma TWrite0_cinv b :
  ts !! i = Some (TWrite0 b) -> tstep (TWrite0 b) w = Some (t', w') -> cinv w' (<[i := t']> ts).
Proof. start Hi Ht; solve_cinv. Qed.
Lemma TWrite1_cinv b :
  ts !! i = Some (TWrite1 b) -> tstep (TWrite1 b) w = Some (t', w') -> cinv w' (<[i := t']> ts).
Proof. start Hi Ht; solve_cinv. Qed.
Lemma TWrite2_cinv b :
  ts !! i = Some (TWrite2 b) -> tstep (TWrite2 b) w = Some (t', w') -> cinv w' (<[i := t']> ts).
Proof. start Hi Ht; solve_cinv. Qed.
Lemma TWrite3_cinv b n :
  ts !! i = Some (TWrite3 b n) -> tstep (TWrite3 b n) w = Some (t', w') -> cinv w' (<[i := t']> ts).
Proof. start Hi Ht; solve_cinv. Qed.

Lemma TWrite4_cinv b n :
  ts !! i = Some (TWrite4 b n) -> tstep (TWrite4 b n) w = Some (t', w') -> cinv w' (<[i := t']> ts).
Proof. start Hi Ht; solve_cinv. Qed.
Lemma TClose0_cinv :
  ts !! i = Some TClose0 -> tstep TClose0 w = Some (t', w') -> cinv w' (<[i := t']> ts).
Proof. start Hi Ht; solve_cinv. Qed.
Lemma TClose1_cinv pd :
  ts !! i = Some (TClose1 pd) -> tstep (TClose1 pd) w = Some (t', w') -> cinv w' (<[i := t']> ts).
Proof. start Hi Ht; solve_cinv. Qed.
Lemma TClose2_cinv pd :
  ts !! i = Some (TClose2 pd) -> tstep (TClose2 pd) w = Some (t', w') -> cinv w' (<[i := t']> ts).
Proof. start Hi Ht; solve_cinv. Qed.
Lemma TClose3_cinv pd :
  ts !! i = Some (TClose3 pd) -> tstep (TClose3 pd) w = Some (t', w') -> cinv w' (<[i := t']> ts).
Proof. start Hi Ht; solve_cinv. Qed.
Lemma TAbort0_cinv :
  ts !! i = Some TAbort0 -> tstep TAbort0 w = Some (t', w') -> cinv w' (<[i := t']> ts).
Proof. start Hi Ht; solve_cinv. Qed.
Lemma TAbort1_cinv fin :
  ts !! i = Some (TAbort1 fin) -> tstep (TAbort1 fin) w = Some (t', w') -> cinv w' (<[i := t']> ts).
Proof. start Hi Ht; solve_cinv. Qed.
Lemma TAbort2_cinv :
  ts !! i = Some TAbort2 -> tstep TAbort2 w = Some (t', w') -> cinv w' (<[i := t']> ts).
Proof. start Hi Ht; solve_cinv. Qed.
Lemma TAbort3_cinv :
  ts !! i = Some TAbort3 -> tstep TAbort3 w = Some (t', w') -> cinv w' (<[i := t']> ts).
Proof. start Hi Ht; solve_cinv. Qed.
Lemma TAbort4_cinv :
  ts !! i = Some TAbort4 -> tstep TAbort4 w = Some (t', w') -> cinv w' (<[i := t']> ts).
Proof. start Hi Ht; solve_cinv. Qed.
Lemma TAbort5_cinv :
  ts !! i = Some TAbort5 -> tstep TAbort5 w = Some (t', w') -> cinv w' (<[i := t']> ts).
Proof. start Hi Ht; solve_cinv. Qed.
Lemma TRemClose0_cinv :
  ts !! i = Some TRemClose0 -> tstep TRemClose0 w = Some (t', w') -> cinv w' (<[i := t']> ts).
Proof. start Hi Ht; solve_cinv. Qed.
Lemma TRemClose1_cinv :
  ts !! i = Some TRemClose1 -> tstep TRemClose1 w = Some (t', w') -> cinv w' (<[i := t']> ts).
Proof. start Hi Ht; solve_cinv. Qed.
Lemma TRemClose2_cinv :
  ts !! i = Some TRemClose2 -> tstep TRemClose2 w = Some (t', w') -> cinv w' (<[i := t']> ts).
Proof. start Hi Ht; solve_cinv. Qed.
Lemma TRemClose3_cinv both :
  ts !! i = Some (TRemClose3 both) -> tstep (TRemClose3 both) w = Some (t', w') -> cinv w' (<[i := t']> ts).
Proof. start Hi Ht; solve_cinv. Qed.
Lemma TRemReset0_cinv :
  ts !! i = Some TRemReset0 -> tstep TRemReset0 w = Some (t', w') -> cinv w' (<[i := t']> ts).
Proof. start Hi Ht; solve_cinv. Qed.
Lemma TRemReset1_cinv :
  ts !! i = Some TRemReset1 -> tstep TRemReset1 w = Some (t', w') -> cinv w' (<[i := t']> ts).
Proof. start Hi Ht; solve_cinv. Qed.
Lemma TRemReset2_cinv :
  ts !! i = Some TRemReset2 -> tstep TRemReset2 w = Some (t', w') -> cinv w' (<[i := t']> ts).
Proof. start Hi Ht; solve_cinv. Qed.
Lemma TRemReset3_cinv :
  ts !! i = Some TRemReset3 -> tstep TRemReset3 w = Some (t', w') -> cinv w' (<[i := t']> ts).
Proof. start Hi Ht; solve_cinv. Qed.
Lemma TRemReset4_cinv :
  ts !! i = Some TRemReset4 -> tstep TRemReset4 w = Some (t', w') -> cinv w' (<[i := t']> ts).
Proof. start Hi Ht; solve_cinv. Qed.
Lemma TShut0_cinv :
  ts !! i = Some TShut0 -> tstep TShut0 w = Some (t', w') -> cinv w' (<[i := t']> ts).
Proof. start Hi Ht; solve_cinv. Qed.
Lemma TShut1_cinv :
  ts !! i = Some TShut1 -> tstep TShut1 w = Some (t', w') -> cinv w' (<[i := t']> ts).
Proof. start Hi Ht; solve_cinv. Qed.
Lemma TShut2_cinv :
  ts !! i = Some TShut2 -> tstep TShut2 w = Some (t', w') -> cinv w' (<[i := t']> ts).
Proof. start Hi Ht; solve_cinv. Qed.

End preservation.

#[export] Hint Resolve TWrite0_cinv TWrite1_cinv TWrite2_cinv TWrite3_cinv TWrite4_cinv TClose0_cinv
  TClose1_cinv TClose2_cinv TClose3_cinv TAbort0_cinv TAbort1_cinv TAbort2_cinv TAbort3_cinv
  TAbort4_cinv TAbort5_cinv TRemClose0_cinv TRemClose1_cinv TRemClose2_cinv TRemClose3_cinv
  TRemReset0_cinv TRemReset1_cinv TRemReset2_cinv TRemReset3_cinv TRemReset4_cinv TShut0_cinv
  TShut1_cinv TShut2_cinv : munnel.

Lemma tstep_cinv w ts i t t' w' :
  cinv w ts -> ts !! i = Some t -> tstep t w = Some (t', w') -> cinv w' (<[i := t']> ts).
Proof.
  destruct w as [[id cs eof cu ab er rd sc rs ro] [fs rmd dn] wm eo].
  intros Hinv Hi Ht. destruct t; [eauto with munnel..|discriminate].
Qed.

Lemma spawn_cinv w ts t : starts t = true -> cinv w ts -> cinv w (ts ++ [t]).
Proof.
  intros Ht []. destruct t; try discriminate Ht; split; rewrite ?cnt_snoc; simpl in *; try done; lia.
Qed.

Lemma dies_cinv w ts : cinv w ts -> cinv (session_dies w) ts.
Proof. intros []. pose proof (b2n_le_1 (wire_done (w_host w))). split; simpl in *; try done; lia. Qed.

Lemma cstep_cinv c c' : cstep c c' -> cinv (fst c) (snd c) -> cinv (fst c') (snd c').
Proof.
  intros [] Hinv; simpl in *; [by eapply tstep_cinv|by apply spawn_cinv|by apply dies_cinv].
Qed.

Lemma initial_cinv id : cinv (initial id) [].
Proof. split; simpl; auto; lia. Qed.

Abbreviation reachable id w ts := (rtc cstep (initial id, []) (w, ts)).

Lemma reachable_ind (P : world * list thread -> Prop) id w ts :
  P (initial id, []) -> (forall c c', cstep c c' -> P c -> P c') -> reachable id w ts -> P (w, ts).
Proof. intros H0 HS. apply (rtc_ind_r P); eauto. Qed.

Lemma reachable_cinv id w ts : reachable id w ts -> cinv w ts.
Proof.
  apply (reachable_ind (fun c => cinv (fst c) (snd c))); [apply initial_cinv|apply cstep_cinv].
Qed.

(** The stream only ever unregisters its own id. *)
Definition own_id (id : Z) (w : world) : Prop :=
  st_id (w_st w) = id /\ Forall (eq id) (wire_removed (w_host w)).

Lemma tstep_own_id id t w t' w' : tstep t w = Some (t', w') -> own_id id w -> own_id id w'.
Proof.
  destruct w as [[i cs eof cu ab er rd sc rs ro] [fs rmd dn] wm eo].
  intros Ht [Hi Hr]. simpl in *. subst.
  destruct t; unfold tstep, check, CloseWrite_lock, Abort_lock, mark, markReadDone_lock, emit,
    do_remove, remove, with_st, with_wmu, close_eof in Ht; simpl in *; cases_of_step;
    split; simpl; try done; rewrite Forall_app; auto.
Qed.

Lemma reachable_own_id id w ts : reachable id w ts -> own_id id w.
Proof.
  apply (reachable_ind (fun c => own_id id (fst c))); [by split|].
  intros c c' Hs IH. destruct Hs; simpl in *; [by eapply tstep_own_id|done|done].
Qed.

(** ** Reading the counts *)

Lemma length_filter_typ typ fs :
  length (filter (fun f => f_typ f = typ) fs) = cnt (is_typ typ) fs.
Proof.
  induction fs as [|f fs IH]; [done|]. rewrite filter_cons. simpl. unfold is_typ.
  case_decide as Hf; simpl; rewrite IH.
  - by rewrite Hf, Byte.byte_dec_lb.
  - destruct (Byte.eqb (f_typ f) typ) eqn:E; [|done]. by apply Byte.byte_dec_bl in E.
Qed.

Lemma close_ends_spec l1 f l2 :
  close_ends (l1 ++ f :: l2) = true -> f_typ f = FrameClose ->
  Forall (fun g => f_typ g <> FrameData) l2.
Proof.
  intros Hc Hf. induction l1 as [|g l1 IH]; simpl in Hc; bool_props; [|auto].
  unfold is_typ at 1 in H. rewrite Hf in H. simpl in H. apply Nat.eqb_eq, cnt_zero in H.
  eapply Forall_impl; [exact H|]. intros g Hg Ht. unfold is_typ in Hg. by rewrite Ht in Hg.
Qed.

Lemma cnt_done (P : thread -> bool) ts : P TDone = false -> Forall (eq TDone) ts -> cnt P ts = 0%nat.
Proof. intros HP Hts. apply cnt_zero. eapply Forall_impl; [exact Hts|]. by intros ? <-. Qed.

(** ** Properties *)

(** C2: However the calls on a stream interleave, the frames it puts on the
    wire are well ordered: no DATA follows a CLOSE, and at most one CLOSE and
    one RESET are sent. *)
Theorem wire_well_ordered id w ts :
  reachable id w ts ->
  (forall l1 f l2, wire_frames (w_host w) = l1 ++ f :: l2 -> f_typ f = FrameClose ->
     Forall (fun g => f_typ g <> FrameData) l2) /\
  (length (filter (fun f => f_typ f = FrameClose) (wire_frames (w_host w))) <= 1)%nat /\
  (length (filter (fun f => f_typ f = FrameReset) (wire_frames (w_host w))) <= 1)%nat.
Proof.
  intros [_ _ Hc Hr Ho _ _ _ _ _ _]%reachable_cinv. rewrite !length_filter_typ. split_and!.
  - intros l1 f l2 Hf Ht. rewrite Hf in Ho. by eapply close_ends_spec.
  - pose proof (b2n_le_1 (sentClose (w_st w))). lia.
  - pose proof (b2n_le_1 (reset (w_st w))). lia.
Qed.

(** A writer and a closer meet: the writer has passed its first [check] when
    the closer marks the stream, and the peer's CLOSE arrives meanwhile. *)
Definition race : list sched :=
  [Spawn (TWrite0 [Byte.x41]); Move 0; Move 0; Move 0; Move 0; Spawn TClose0; Move 1; Move 0;
   Spawn TRemClose0; Move 2; Move 0; Move 1; Move 2; Move 2; Move 1; Move 2; Move 1;
   Spawn TAbort0; Move 3; Move 3; Move 3; Move 3; Move 3].

Definition race_end : world * list thread := default (initial 3, []) (exec (initial 3, []) race).

Lemma race_reachable : reachable 3 (fst race_end) (snd race_end).
Proof. apply (exec_reachable _ race). vm_compute. reflexivity. Defined.

Lemma wire_well_ordered_witness :
  wire_frames (w_host (fst race_end)) = [Frame FrameData 3 [Byte.x41]; Frame FrameClose 3 []] /\
  Forall (fun g => f_typ g <> FrameData) [].
Proof.
  assert (E : wire_frames (w_host (fst race_end)) =
              [Frame FrameData 3 [Byte.x41]] ++ Frame FrameClose 3 [] :: [])
    by (vm_compute; reflexivity).
  split; [exact E|].
  exact (proj1 (wire_well_ordered 3 _ _ race_reachable) _ _ _ E eq_refl).
Defined.

(** No interleaving closes the stream's end-of-data channel twice (which
    would panic), and once it is closed the reading side has its error. *)
Theorem eof_closed_once id w ts :
  reachable id w ts ->
  (w_eofs w <= 1)%nat /\ (w_eofs w = 1%nat -> readDone (w_st w) = true).
Proof.
  intros [_ He _ _ _ _ _ _ _ _ _]%reachable_cinv. destruct (readDone (w_st w)); simpl in *; lia.
Qed.

Lemma eof_closed_once_witness :
  w_eofs (fst race_end) = 1%nat /\ readDone (w_st (fst race_end)) = true.
Proof.
  assert (E : w_eofs (fst race_end) = 1%nat) by (vm_compute; reflexivity).
  split; [exact E|]. exact (proj2 (eof_closed_once 3 _ _ race_reachable) E).
Defined.

(** When every call on a stream has returned and both directions have
    ended (or it was reset) on a live session, the stream has been removed from
    the session's table exactly once; and it is never removed earlier. *)
Theorem unregistered_exactly_once id w ts :
  reachable id w ts ->
  (Forall (eq TDone) ts -> finished (w_st w) = true -> wire_done (w_host w) = false ->
   wire_removed (w_host w) = [id]) /\
  (wire_removed (w_host w) <> [] -> finished (w_st w) = true).
Proof.
  intros Hr. pose proof (reachable_own_id _ _ _ Hr) as [_ Hown].
  apply reachable_cinv in Hr as [_ _ _ _ _ _ Hrm Hrr Hrc _ Hearly]. unfold finished. split.
  - intros Hdone Hf Hd. rewrite Hd in *.
    rewrite (cnt_done reset_removes), (cnt_done close_removes) in * by done.
    destruct (wire_removed (w_host w)) as [|x [|y l]]; simpl in *.
    + destruct (sentClose (w_st w)), (readDone (w_st w)), (reset (w_st w)), (removeOnce (w_st w));
        simpl in *; try discriminate; lia.
    + apply Forall_cons in Hown as [-> _]. done.
    + pose proof (b2n_le_1 (removeOnce (w_st w))). lia.
  - intros Hne. destruct (wire_removed (w_host w)) as [|x l]; [done|]. simpl in *.
    destruct (sentClose (w_st w)), (readDone (w_st w)), (reset (w_st w)); simpl in *; try done; lia.
Qed.

Lemma unregistered_exactly_once_witness :
  snd race_end = [TDone; TDone; TDone; TDone] /\ wire_removed (w_host (fst race_end)) = [3].
Proof.
  assert (E : snd race_end = [TDone; TDone; TDone; TDone]) by (vm_compute; reflexivity).
  split; [exact E|].
  refine (proj1 (unregistered_exactly_once 3 _ _ race_reachable) _ _ _).
  - rewrite E. by repeat constructor.
  - vm_compute. reflexivity.
  - vm_compute. reflexivity.
Defined.

(** ** Alone, a thread is the operation *)

Definition alone (c c' : thread * world) : Prop :=
  rtc (fun c c' => tstep (fst c) (snd c) = Some c') c c'.

Definition with_host_st (w : world) (h : wire) (st : Stream) (n : nat) : world :=
  mkWorld st h (w_wmu w) (w_eofs w + n).

Lemma alone_step t w c c' : tstep t w = Some c -> alone c c' -> alone (t, w) c'.
Proof. intros H1 H2. eapply rtc_l; [exact H1|exact H2]. Qed.

Lemma Write_loop_alone fuel b total w :
  (length b < fuel)%nat ->
  alone (TWrite3 b total, with_wmu true w)
        (TDone, mkWorld (w_st w) (fst (Write_loop fuel (w_host w) (w_st w) b total)) false (w_eofs w)).
Proof.
  revert b total w. induction fuel as [|fuel IH]; intros b total w Hf; [lia|].
  destruct w as [st h wm n]. unfold with_wmu. simpl.
  destruct (zlen b <=? 0) eqn:Hb.
  - eapply alone_step; [simpl; by rewrite Hb|]. unfold Write_iter. rewrite Hb. apply rtc_refl.
  - assert (b <> []) by (intros ->; simpl in Hb; bool_props; lia).
    unfold Write_iter. rewrite Hb.
    destruct (if 0 <? total then check st else None) eqn:Hc.
    + eapply alone_step; [simpl; by rewrite Hb, Hc|]. apply rtc_refl.
    + eapply alone_step; [simpl; by rewrite Hb, Hc|].
      destruct (wire_done h) eqn:Hd.
      * eapply alone_step; [simpl; unfold emit; simpl; by rewrite Hd|].
        unfold host_writeFrame; simpl. rewrite Hd. apply rtc_refl.
      * eapply alone_step; [simpl; unfold emit; simpl; by rewrite Hd|].
        unfold host_writeFrame; simpl. rewrite Hd.
        pose proof (drop_shorter b H). 
        refine (IH _ _ (mkWorld st _ wm n) _). lia.
Qed.

(** Destructs the flags that a call tests, and runs it. *)
Ltac run_alone :=
  repeat (eapply alone_step; [reflexivity|]; simpl); apply rtc_refl.


