(* ===== verification/Delivery.v ===== *)
(** * From one end of a stream to the other

    What one side writes on a stream is what the other side reads, in order, once
    and completely when the reader sees the end: the sending side is [Write] and
    [CloseWrite] of Stream.v, the receiving side any execution of the session of
    Session.v, observed as the frames it takes off its connection and the bytes
    its readers get. *)
From S2P Require Import Prelude.
From S2P Require Import Frame.
From S2P Require Import Stream.
From S2P Require Import Session.

(** ** What is observed *)

Inductive event :=
| Got (f : frame)                              (** the read loop took a frame *)
| Handed (l : loc) (data : list Byte.byte).    (** a [Read] through [l] returned *)

Definition frames_of (tr : list event) : list frame :=
  omap (fun e => match e with Got f => Some f | Handed _ _ => None end) tr.

(** The bytes handed to the readers of a stream, in order. *)
Definition handed (l : loc) (tr : list event) : list Byte.byte :=
  concat (omap (fun e => match e with
                         | Handed l' d => if decide (l' = l) then Some d else None
                         | Got _ => None end) tr).

Definition read_data (r : read_result) : list Byte.byte :=
  match r with ReadOk d => d | _ => [] end.

(** The frames of one stream. *)
Definition of_stream (id : Z) (fs : list frame) : list frame :=
  filter (fun f => f_id f = id /\ f_typ f <> FramePing /\ f_typ f <> FramePong) fs.

(** The bytes DATA frames carry, and those before the first CLOSE. *)
Definition payload_of (f : frame) : list Byte.byte :=
  if Byte.eqb (f_typ f) FrameData then f_payload f else [].

Definition data_of (fs : list frame) : list Byte.byte := concat (payload_of <$> fs).

Fixpoint until_close (fs : list frame) : option (list Byte.byte) :=
  match fs with
  | [] => None
  | f :: fs =>
      if Byte.eqb (f_typ f) FrameClose then Some []
      else (fun d => payload_of f ++ d) <$> until_close fs
  end.

Lemma frames_of_app t1 t2 : frames_of (t1 ++ t2) = frames_of t1 ++ frames_of t2.
Proof. apply omap_app. Qed.

Lemma handed_app l t1 t2 : handed l (t1 ++ t2) = handed l t1 ++ handed l t2.
Proof. unfold handed. by rewrite omap_app, concat_app. Qed.

Lemma data_of_app f1 f2 : data_of (f1 ++ f2) = data_of f1 ++ data_of f2.
Proof. unfold data_of. by rewrite fmap_app, concat_app. Qed.

Lemma until_close_app fs f d : until_close fs = Some d -> until_close (fs ++ [f]) = Some d.
Proof.
  revert d. induction fs as [|g fs IH]; intros d; [done|]. simpl. case_match; [done|].
  intros (d' & Hd & ->)%fmap_Some. by rewrite (IH d').
Qed.

Lemma until_close_end fs id b :
  Forall (fun f => f_typ f <> FrameClose) fs ->
  until_close (fs ++ [Frame FrameClose id b]) = Some (data_of fs).
Proof.
  induction 1 as [|f fs Hf _ IH]; [done|]. simpl.
  destruct (Byte.eqb (f_typ f) FrameClose) eqn:E; [by apply Byte.byte_dec_bl in E|]. by rewrite IH.
Qed.

(** ** Executions with their trace *)

Section delivery.
Context {W : Type} `{Writer W}.
Implicit Types (s : Session W) (p : pc) (tr : list event).

Inductive traced (w : W) (srv : bool) : Session W * pc -> list event -> Prop :=
| traced_new : traced w srv (set_nextID (if srv then 1 else 2) (newSession w srv), Idle) []
| traced_internal c c' tr : traced w srv c tr -> internal c c' -> traced w srv c' tr
| traced_frame s f tr :
    traced w srv (s, Idle) tr ->
    traced w srv (loop_session (dispatch s f), next_pc (dispatch s f)) (tr ++ [Got f])
| traced_read s p l st n tr :
    traced w srv (s, p) tr -> heap s !! l = Some st ->
    traced w srv (update s l (fst (Read (done s) st n)), p)
      (tr ++ [Handed l (read_data (snd (Read (done s) st n)))]).

(** Every execution of Session.v has a trace, and only those do. *)
Lemma traced_reachable w srv c :
  (exists tr, traced w srv c tr) <->
  rtc step (set_nextID (if srv then 1 else 2) (newSession w srv), Idle) c.
Proof.
  split.
  - intros [tr Ht]. induction Ht as [|c c' tr _ IH Hi|s f tr _ IH|s p l st n tr _ IH Hl]; [done|..];
      (eapply rtc_r; [exact IH|by constructor]).
  - intros Hrtc. pattern c. eapply rtc_ind_r; [eexists; constructor| |exact Hrtc].
    intros c1 c2 _ Hst [tr Ht]. destruct Hst; eexists;
      [by eapply traced_internal|by apply traced_frame|by apply traced_read].
Qed.

Lemma traced_ok w srv c tr : traced w srv c tr -> session_ok (fst c).
Proof.
  intros Ht. apply (session_reachable_ok w srv), traced_reachable. by exists tr.
Qed.

(** ** What an operation does to the other streams *)

(** An operation on stream [st] only touches the stream itself, and may
    unregister it. *)
Definition op_frame s s' st : Prop :=
  heap s' = heap s /\ closed s' = closed s /\ server s' = server s /\ nextID s' = nextID s /\
  (streams s' = streams s \/ streams s' = delete (st_id st) (streams s)).

Lemma op_frame_refl s st : op_frame s s st.
Proof. by split_and!; try left. Qed.

Lemma writeFrame_op s typ id b st : op_frame s (fst (writeFrame s typ id b)) st.
Proof.
  unfold writeFrame. case_match; [apply op_frame_refl|].
  destruct (Frame.writeFrame _ _ _ _). by split_and!; try left.
Qed.

Lemma remove_op s s0 st st0 :
  op_frame s0 s st0 -> st_id st = st_id st0 -> streams s = streams s0 -> op_frame s0 (fst (remove s st)) st0.
Proof.
  intros (?&?&?&?&_) Hid Hs. unfold remove. case_match; simpl; (split_and!; [done..|]).
  - by left.
  - right. simpl. by rewrite Hid, Hs.
Qed.

Lemma writeFrame_streams s typ id b : streams (fst (writeFrame s typ id b)) = streams s.
Proof. unfold writeFrame. case_match; [done|]. by destruct (Frame.writeFrame _ _ _ _). Qed.

Lemma op_frame_trans s1 s2 s3 st :
  op_frame s1 s2 st -> streams s2 = streams s1 -> op_frame s2 s3 st -> op_frame s1 s3 st.
Proof.
  intros (?&?&?&?&_) Hs (?&?&?&?&Ht). split_and!; [congruence..|].
  destruct Ht as [Ht|Ht]; [left|right]; congruence.
Qed.

Lemma Write_loop_op fuel s st b total :
  op_frame s (fst (Write_loop fuel s st b total)) st /\
  streams (fst (Write_loop fuel s st b total)) = streams s.
Proof.
  revert s b total. induction fuel as [|fuel IH]; intros s b total; [split; [apply op_frame_refl|done]|].
  cbn [Write_loop]. unfold Write_iter.
  destruct (zlen b <=? 0); [split; [apply op_frame_refl|done]|].
  destruct (if 0 <? total then check st else None); [split; [apply op_frame_refl|done]|].
  pose proof (writeFrame_op s FrameData (st_id st) (take (write_len b) b) st) as Hw.
  pose proof (writeFrame_streams s FrameData (st_id st) (take (write_len b) b)) as Hws.
  cbn [host_writeFrame session_host].
  destruct (writeFrame s FrameData _ _) as [s' [e|]]; simpl in Hw, Hws; [done|].
  destruct (IH s' (drop (write_len b) b) (total + Z.of_nat (write_len b))) as [Hi His].
  split; [by eapply op_frame_trans|congruence].
Qed.

(** What an operation, other than a delivery, a read or a clean end of the
    peer, does to the stream itself: its bytes stay, and if it ends the reading
    side, then with an error. *)
Definition quiet st st' : Prop :=
  st_id st' = st_id st /\ buffered st' = buffered st /\
  ((readDone st' = readDone st /\ readErr st' = readErr st) \/
   (readDone st' = true /\ readErr st' <> Some (Sentinel io_EOF))).

Lemma quiet_refl st : quiet st st.
Proof. by split_and!; try left. Qed.

Lemma quiet_mark e st :
  e <> Sentinel io_EOF -> quiet st (fst (markReadDone e st)).
Proof.
  intros He. destruct (markReadDone_spec e st) as (Hd & Hr & Hch & Hcu & Hid & _).
  unfold quiet, buffered. rewrite Hch, Hcu. split_and!; [done..|].
  rewrite Hd, Hr. destruct (readDone st); [by left|]. right. split; [done|]. congruence.
Qed.

Lemma quiet_remove {H'} `{StreamHost H'} (h : H') st st' : quiet st st' -> quiet st (snd (remove h st')).
Proof. unfold remove. by case_match. Qed.

(** The calls of goroutines. *)
Lemma run_call_effect s c st :
  let s' := fst (run_call s c st) in let st' := snd (run_call s c st) in
  op_frame s s' st /\ quiet st st' /\ (streams s' = streams s \/ readDone st' = true).
Proof.
  destruct c as [b| |]; cbn [run_call fst snd].
  - unfold Write. case_match; [split; [apply op_frame_refl|split; [apply quiet_refl|by left]]|].
    destruct (Write_loop_op (S (length b)) s st b 0) as [Ho Hs].
    split; [done|]. split; [apply quiet_refl|by left].
  - unfold CloseWrite, CloseWrite_lock.
    destruct (sentClose st || reset st); [split; [apply op_frame_refl|split; [apply quiet_refl|by left]]|].
    cbn [host_writeFrame session_host].
    pose proof (writeFrame_op s FrameClose (st_id (set_sentClose st)) [] st) as Hw.
    pose proof (writeFrame_streams s FrameClose (st_id (set_sentClose st)) []) as Hws.
    destruct (writeFrame s FrameClose _ _) as [s' e]. simpl in Hw, Hws.
    destruct (readDone st) eqn:Hd.
    + pose proof (remove_op s' s (set_sentClose st) st Hw eq_refl Hws) as Hr.
      pose proof (quiet_remove s' st (set_sentClose st)) as Hq.
      assert (readDone (snd (remove s' (set_sentClose st))) = true) as Hrd by (unfold remove; by case_match).
      destruct (remove s' _) as [s'' st'']. simpl in *. split; [done|]. split; [|by right].
      apply Hq. by split_and!; try left.
    + split; [done|]. split; [by split_and!; try left|by left].
  - unfold Abort, Abort_lock.
    destruct (reset st); [split; [apply op_frame_refl|split; [apply quiet_refl|by left]]|].
    set (fin := sentClose st && _ && _). cbn [host_writeFrame session_host].
    set (st1 := set_sentClose (set_reset st)).
    set (s1 := if fin then s else fst (writeFrame s FrameReset (st_id st1) [])).
    assert (op_frame s s1 st /\ streams s1 = streams s) as [H1 H2].
    { unfold s1. destruct fin; [split; [apply op_frame_refl|done]|].
      split; [apply writeFrame_op|apply writeFrame_streams]. }
    set (st2 := signalAbort (fst (markReadDone mux_ErrStreamReset st1))).
    assert (st_id st2 = st_id st) as Hid
      by (unfold st2; simpl; by destruct (markReadDone_spec mux_ErrStreamReset st1) as (_&_&_&_&->&_)).
    split; [by apply remove_op|]. split.
    + apply quiet_remove. change (quiet st1 st2). by apply quiet_mark.
    + right. assert (readDone st2 = true) by (unfold st2; simpl; apply markReadDone_spec).
      unfold remove. by case_match.
Qed.

(** What a step does to one stream, seen from the session: [l] is the only
    pointer to a stream of its id, and the step is no delivery to it. *)
Definition effect s s' (l : loc) st : Prop :=
  exists st', heap s' !! l = Some st' /\ quiet st st' /\
    (readDone st' = false -> streams s !! st_id st = Some l \/ closed s = true ->
     streams s' !! st_id st = streams s !! st_id st /\ closed s' = closed s).

(** No stream of id [id] appears. *)
Definition no_new s s' (id : Z) : Prop :=
  forall l st', heap s' !! l = Some st' -> st_id st' = id ->
    exists st, heap s !! l = Some st /\ st_id st = id.

Definition only s (l : loc) (id : Z) : Prop :=
  forall l' st', heap s !! l' = Some st' -> st_id st' = id -> l' = l.

(** Steps that leave the heap and the table alone. *)
Definition same_table s s' : Prop :=
  heap s' = heap s /\ closed s' = closed s /\ server s' = server s /\ streams s' = streams s.

Lemma same_effect s s' l st : same_table s s' -> heap s !! l = Some st -> effect s s' l st.
Proof.
  intros (Hh & Hc & _ & Ht) Hl. exists st. rewrite Hh, Hc, Ht. split; [done|].
  split; [apply quiet_refl|done].
Qed.

Lemma same_no_new s s' id : same_table s s' -> no_new s s' id.
Proof. intros (Hh & _) l st'. rewrite Hh. by exists st'. Qed.

Lemma writeFrame_same s typ id b : same_table s (fst (writeFrame s typ id b)).
Proof. unfold writeFrame. case_match; [done|]. by destruct (Frame.writeFrame _ _ _ _). Qed.

(** An operation through another pointer, and one through this pointer. *)
Lemma other_effect s s' l st l2 st2 st2' :
  heap s !! l = Some st -> heap s !! l2 = Some st2 -> l2 <> l -> only s l (st_id st) ->
  op_frame s s' st2 -> effect s (update s' l2 st2') l st.
Proof.
  intros Hl Hl2 Hne Hu (Hh & Hc & _ & _ & Ht). exists st. simpl. rewrite Hh, Hc.
  rewrite list_lookup_insert_ne by done. split; [done|]. split; [apply quiet_refl|].
  intros _ _. split; [|done]. destruct Ht as [->| ->]; [done|].
  apply lookup_delete_ne. intros Hid. apply Hne. by eapply Hu.
Qed.

Lemma own_effect s s' l st st' :
  heap s !! l = Some st -> op_frame s s' st -> quiet st st' ->
  (streams s' = streams s \/ readDone st' = true) -> effect s (update s' l st') l st.
Proof.
  intros Hl (Hh & Hc & _) Hq Hd. exists st'. simpl. rewrite Hh, Hc.
  rewrite list_lookup_insert_eq by (by eapply lookup_lt_Some). split; [done|]. split; [done|].
  intros Hf _. split; [|done]. destruct Hd as [->|Hd]; [done|congruence].
Qed.

Lemma update_no_new s s' l2 st2 st2' id :
  heap s !! l2 = Some st2 -> heap s' = heap s -> st_id st2' = st_id st2 -> no_new s (update s' l2 st2') id.
Proof.
  intros Hl Hh Hid l st'. simpl. rewrite Hh.
  intros [(-> & -> & _)|[_ Hs]]%list_lookup_insert_Some Hi; [exists st2|by exists st'].
  split; [done|congruence].
Qed.

Lemma shutdown_effect e s l st :
  session_ok s -> heap s !! l = Some st -> effect s (shutdown e s) l st.
Proof.
  intros Hs Hl. unfold shutdown. destruct (closeOnce s) eqn:Hc; [by apply same_effect|].
  exists (if decide (l ∈ (map_to_list (streams s)).*2) then shutdown_stream st else st).
  simpl. rewrite shutdown_heap_lookup, Hl. split; [by case_decide|]. case_decide as Hd.
  - split.
    + destruct (quiet_mark mux_errSessionClosed st) as (Hi & Hb & Hr); [done|]. by split_and!.
    + intros Hf. exfalso. pose proof (shutdown_stream_dead st) as [Ht _]. congruence.
  - split; [apply quiet_refl|]. intros _ [Ht|Ht]; [by apply elem_of_live in Ht|].
    destruct (sk_once _ Hs) as (Hon & _). congruence.
Qed.

Lemma shutdown_no_new e s id : no_new s (shutdown e s) id.
Proof.
  unfold shutdown. destruct (closeOnce s); [by apply same_no_new|]. intros l st'. simpl.
  rewrite shutdown_heap_lookup. case_decide; [|by exists st'].
  intros (st & Hst & ->)%fmap_Some Hid. exists st. split; [done|].
  by rewrite (le_id _ _ (shutdown_stream_le st)) in Hid.
Qed.

Lemma effect_same_r s s1 s2 l st : effect s s1 l st -> same_table s1 s2 -> effect s s2 l st.
Proof. intros (st' & Hl & Hq & Ht) (Hh & Hc & _ & Hs). exists st'. by rewrite Hh, Hc, Hs. Qed.

Lemma no_new_same_r s s1 s2 id : no_new s s1 id -> same_table s1 s2 -> no_new s s2 id.
Proof. intros Hn (Hh & _) l st'. rewrite Hh. apply Hn. Qed.

Lemma fireOnClose_same e s : same_table s (fireOnClose e s).
Proof. unfold fireOnClose. by case_match. Qed.

Lemma Run_return_same e s : same_table (shutdown e s) (fst (Run_return e s)).
Proof. unfold Run_return. simpl. case_match; [apply fireOnClose_same|done]. Qed.

Lemma shutdown_server e s : server (shutdown e s) = server s.
Proof. unfold shutdown. by case_match. Qed.

Lemma CloseWithError_server e s : server (CloseWithError e s) = server s.
Proof.
  destruct (fireOnClose_same e (shutdown e s)) as (_ & _ & Hsv & _). by rewrite <-(shutdown_server e s).
Qed.

(** Opening a stream of our own parity. *)
Lemma OpenStream_table s meta :
  let s' := fst (OpenStream s meta) in
  heap s' = heap s ++ [newStream (nextID s)] /\ closed s' = closed s /\ server s' = server s /\
  forall id, id <> nextID s -> streams s' !! id = streams s !! id.
Proof.
  unfold OpenStream. cbn [alloc closed set_heap set_nextID]. destruct (closed s) eqn:Hc; simpl; [by rewrite Hc|].
  match goal with |- context [writeFrame ?x ?t ?i ?m] =>
    pose proof (writeFrame_same x t i m) as (Hh & Hc' & Hsv & Hst); destruct (writeFrame x t i m) as [s1 [e|]] end;
    simpl in *; rewrite Hh, Hc', Hsv, Hst, Hc; (split_and!; [done..|]); intros id Hid.
  - by rewrite lookup_delete_ne, lookup_insert_ne.
  - by rewrite lookup_insert_ne.
Qed.

Lemma OpenStream_effect s meta l st :
  heap s !! l = Some st -> nextID s <> st_id st -> effect s (fst (OpenStream s meta)) l st.
Proof.
  intros Hl Hne. destruct (OpenStream_table s meta) as (Hh & Hc & _ & Ht). exists st.
  rewrite Hh, Hc, Ht by done. split; [by apply lookup_app_l_Some|]. split; [apply quiet_refl|done].
Qed.

Lemma OpenStream_no_new s meta id : nextID s <> id -> no_new s (fst (OpenStream s meta)) id.
Proof.
  intros Hne l st'. destruct (OpenStream_table s meta) as (-> & _).
  intros [Hx|(_ & Hx)]%lookup_app_Some Hid; [by exists st'|].
  by apply list_lookup_singleton_Some in Hx as [_ <-].
Qed.

(** The outcome of a delivery to a stream. *)
Lemma push_cases d st b st' :
  st' ∈ pushData d st b ->
  st' = st /\ (readDone st = true \/ eofCh st || d = true) \/
  st' = set_chunks (chunks st ++ [b]) st /\ readDone st = false.
Proof.
  unfold pushData. destruct (readDone st).
  { intros ->%list_elem_of_singleton. left. split; [done|by left]. }
  intros [Hin|Hin]%elem_of_app; case_match; try by apply not_elem_of_nil in Hin.
  - apply list_elem_of_singleton in Hin as ->. by right.
  - apply list_elem_of_singleton in Hin as ->. left. split; [done|by right].
Qed.

Lemma push_id d st b st' : st' ∈ pushData d st b -> st_id st' = st_id st.
Proof. by intros [[-> _]|[-> _]]%push_cases. Qed.

Lemma push_finish_same now s : same_table s (push_finish now s).
Proof. done. Qed.

Lemma pong_same s s' b : pinger_pong s = Some (s', b) -> same_table s s'.
Proof.
  unfold pinger_pong. destruct (pongs s) as [|q qs]; [done|].
  pose proof (writeFrame_same (set_pongs qs s) FramePong 0 q) as Hw.
  by destruct (writeFrame _ _ _ _); intros [= <- _].
Qed.

Lemma ping_same now s : same_table s (fst (pinger_tick now s)).
Proof.
  unfold pinger_tick. pose proof (writeFrame_same s FramePing 0 (PutUint64 (u64 now))) as Hw.
  by destruct (writeFrame _ _ _ _).
Qed.

(** The payload the read loop is about to deliver to a stream. *)
Definition target (l : loc) (p : pc) : option (list Byte.byte) :=
  match p with Pushing l' d => if decide (l' = l) then Some d else None | _ => None end.

(** An internal step delivers to the stream, or is quiet for it. *)
Lemma internal_effect s p s' p' l st :
  internal (s, p) (s', p') -> session_ok s -> heap s !! l = Some st -> only s l (st_id st) ->
  Z.odd (st_id st) <> server s ->
  (effect s s' l st /\ target l p' = target l p) \/
  (exists d st', p = Pushing l d /\ p' = Idle /\ st' ∈ pushData (done s) st d /\
     same_table (update s l st') s').
Proof.
  intros Hi Hs Hl Hu Hodd. inversion Hi; subst; clear Hi; try (left; split; [|done]).
  - by apply same_effect.
  - by apply same_effect.
  - unfold push_outcomes in *. destruct (heap s !! l0) as [st0|] eqn:Hl0; [|by apply not_elem_of_nil in H1].
    apply list_elem_of_fmap in H1 as (st1 & -> & Hin).
    destruct (decide (l0 = l)) as [->|Hne]; [right; simplify_eq; by eexists _, st1|].
    left. simpl. rewrite decide_False by done. split; [|done].
    eapply effect_same_r; [|apply push_finish_same].
    eapply (other_effect s s); [done|exact Hl0|done|done|apply (op_frame_refl _ st0)].
  - eapply effect_same_r; [by apply shutdown_effect|apply Run_return_same].
  - destruct (run_call_effect s c st0) as (Ho & Hq & Hd).
    destruct (decide (l0 = l)) as [->|Hne]; [simplify_eq; by apply own_effect|by eapply other_effect].
  - apply OpenStream_effect; [done|]. intros He. apply Hodd. rewrite <-He. apply (sk_id _ Hs).
  - eapply effect_same_r; [by apply shutdown_effect|apply fireOnClose_same].
  - apply same_effect; [apply ping_same|done].
  - apply same_effect; [by eapply pong_same|done].
  - unfold watchdog_tick. case_match; [by apply same_effect|]. case_match; [|by apply same_effect].
    eapply effect_same_r; [by apply shutdown_effect|apply fireOnClose_same].
Qed.

Lemma internal_no_new s p s' p' id :
  internal (s, p) (s', p') -> session_ok s -> Z.odd id <> server s ->
  no_new s s' id /\ server s' = server s.
Proof.
  intros Hi Hs Hodd. inversion Hi; subst; clear Hi.
  - by split; [apply same_no_new|].
  - by split; [apply same_no_new|].
  - unfold push_outcomes in *. destruct (heap s !! l) as [st0|] eqn:Hl0; [|by apply not_elem_of_nil in H1].
    apply list_elem_of_fmap in H1 as (st1 & -> & Hin). split; [|done].
    eapply no_new_same_r; [|apply push_finish_same]. eapply (update_no_new s s); [done..|by eapply push_id].
  - split; [eapply no_new_same_r; [apply shutdown_no_new|apply Run_return_same]|].
    destruct (Run_return_same e s) as (_ & _ & Hsv & _). by rewrite <-(shutdown_server e s).
  - destruct (run_call_effect s c st) as ((Hh & _ & Hsv & _) & (Hid & _) & _).
    split; [by eapply update_no_new|done].
  - split; [|apply OpenStream_table]. apply OpenStream_no_new. intros <-. apply Hodd, (sk_id _ Hs).
  - split; [eapply no_new_same_r; [apply shutdown_no_new|apply fireOnClose_same]|].
    apply CloseWithError_server.
  - split; [apply same_no_new, ping_same|]. by destruct (ping_same now s) as (_ & _ & Hsv & _).
  - split; [by eapply same_no_new, pong_same|]. by destruct (pong_same _ _ _ H1) as (_ & _ & Hsv & _).
  - unfold watchdog_tick. case_match; [by split; [apply same_no_new|]|].
    case_match; [|by split; [apply same_no_new|]].
    split; [eapply no_new_same_r; [apply shutdown_no_new|apply fireOnClose_same]|].
    apply CloseWithError_server.
Qed.

(** ** The invariant of one stream

    [rest] is what came for the stream after its OPEN. *)


Definition no_typ (t : Byte.byte) (fs : list frame) : Prop := Forall (fun f => f_typ f <> t) fs.

Record flow s p tr (rest : list frame) (l : loc) st : Prop := {
  fl_prefix : handed l tr ++ buffered st `prefix_of` data_of rest;
  fl_end : readErr st = Some (Sentinel io_EOF) -> until_close rest = Some (handed l tr ++ buffered st);
  fl_live : readDone st = false ->
    (streams s !! st_id st = Some l /\ closed s = false /\ no_typ FrameClose rest /\
     handed l tr ++ buffered st ++ default [] (target l p) = data_of rest) \/
    (streams s !! st_id st = None /\ closed s = true /\ target l p = None)
}.

Definition carried s p tr (rest : list frame) (id : Z) : Prop :=
  exists l st, heap s !! l = Some st /\ st_id st = id /\ only s l id /\ flow s p tr rest l st.

Lemma only_no_new s s' l id : only s l id -> no_new s s' id -> only s' l id.
Proof. intros Ho Hn l' st' Hl Hid. destruct (Hn l' st' Hl Hid) as (st & Hst & Hi). by eapply Ho. Qed.

(** A step that is quiet for the stream keeps the flow. *)
Lemma flow_effect s p s' p' tr tr' rest l st :
  flow s p tr rest l st -> effect s s' l st -> target l p' = target l p -> handed l tr' = handed l tr ->
  exists st', heap s' !! l = Some st' /\ st_id st' = st_id st /\ flow s' p' tr' rest l st'.
Proof.
  intros [Hpre Hend Hlive] (st' & Hl & (Hid & Hb & Hq) & Ht) Htg Hh. exists st'.
  split; [done|]. split; [done|]. split; rewrite ?Hh, ?Hb, ?Htg, ?Hid; [done|..].
  - intros He. destruct Hq as [[_ Hr]|[_ Hr]]; [|done]. apply Hend. congruence.
  - intros Hd. destruct Hq as [[Hr _]|[Hr _]]; [|congruence].
    destruct (Hlive ltac:(congruence)) as [(H1 & H2 & H3 & H4)|(H1 & H2 & H3)].
    + destruct (Ht Hd (or_introl H1)) as [-> ->]. by left.
    + destruct (Ht Hd (or_intror H2)) as [-> ->]. by right.
Qed.

Lemma carried_effect s p s' p' tr tr' rest id :
  carried s p tr rest id ->
  (forall l st, heap s !! l = Some st -> st_id st = id -> only s l id ->
     effect s s' l st /\ target l p' = target l p /\ handed l tr' = handed l tr) ->
  no_new s s' id -> carried s' p' tr' rest id.
Proof.
  intros (l & st & Hl & Hid & Ho & Hf) He Hn. destruct (He l st Hl Hid Ho) as (H1 & H2 & H3).
  destruct (flow_effect s p s' p' tr tr' rest l st Hf H1 H2 H3) as (st' & Hl' & Hid' & Hf').
  exists l, st'. split_and!; [done|congruence|by eapply only_no_new|done].
Qed.

(** More frames for a stream that takes none of them. *)
Lemma flow_more s p tr rest l st f :
  flow s p tr rest l st -> (f_typ f <> FrameClose /\ payload_of f = []) \/ readDone st = true \/
    streams s !! st_id st <> Some l ->
  flow s p tr (rest ++ [f]) l st.
Proof.
  intros [Hpre Hend Hlive] Hc. split; rewrite ?data_of_app.
  - by apply prefix_app_r.
  - intros He. by apply until_close_app, Hend.
  - intros Hd. destruct (Hlive Hd) as [(H1 & H2 & H3 & H4)|H1]; [|by right]. left.
    destruct Hc as [[Hc1 Hc2]|[Hc|Hc]]; [|congruence|done]. split_and!; [done..| |].
    + apply Forall_app. split; [done|by constructor].
    + rewrite H4. unfold data_of at 3. simpl. by rewrite Hc2, !app_nil_r.
Qed.

(** A delivery to the stream. *)
Lemma flow_push s tr rest l st d st' :
  session_ok s -> heap s !! l = Some st -> flow s (Pushing l d) tr rest l st ->
  st' ∈ pushData (done s) st d -> flow (update s l st') Idle tr rest l st'.
Proof.
  intros Hs Hl [Hpre Hend Hlive] Hin. pose proof (heap_ok _ _ _ Hs Hl) as Hok.
  simpl in Hlive. rewrite decide_True in Hlive by done.
  assert (readDone st = false -> done s = false /\ eofCh st = false /\
    streams s !! st_id st = Some l /\ closed s = false /\ no_typ FrameClose rest /\
    handed l tr ++ buffered st ++ d = data_of rest) as Hf.
  { intros Hd. destruct (Hlive Hd) as [(H1 & H2 & H3 & H4)|(_ & _ & ?)]; [|done].
    split; [destruct (sk_once _ Hs) as (Hon1 & Hon2 & _); congruence|].
    split; [by rewrite (ok_eof _ Hok)|done]. }
  destruct (push_cases _ _ _ _ Hin) as [[-> Hd]|[-> Hd]].
  - assert (readDone st = true) as Hrd.
    { destruct (readDone st); [done|]. destruct (Hf eq_refl) as (H1 & H2 & _).
      rewrite H1, H2 in Hd. by destruct Hd. }
    split; [done..|]. intros. congruence.
  - destruct (Hf Hd) as (_ & _ & H1 & H2 & H3 & H4).
    assert (handed l tr ++ buffered (set_chunks (chunks st ++ [d]) st) = data_of rest) as Ha.
    { rewrite <-H4. unfold buffered. simpl. by rewrite concat_app; simpl; rewrite app_nil_r, !app_assoc. }
    split; [by rewrite Ha| |].
    + intros He. simpl in He. assert (readDone st = true); [|congruence]. apply (ok_err _ Hok). by rewrite He.
    + intros _. left. simpl. split_and!; [done..|]. by rewrite app_nil_r.
Qed.

(** A read takes bytes off the buffer and changes nothing else. *)
Lemma Read_loop_bytes fuel d st n :
  let r := Read_loop fuel d st n in
  buffered st = read_data (snd r) ++ buffered (fst r) /\ st_id (fst r) = st_id st /\
  readDone (fst r) = readDone st /\ readErr (fst r) = readErr st.
Proof.
  revert st. induction fuel as [|fuel IH]; intros st; [done|]. cbn [Read_loop].
  destruct (cur st) as [|x c] eqn:Hc.
  - destruct (chunks st) as [|c cs] eqn:Hch.
    + destruct (readDone st) eqn:Hd; [by rewrite <-Hd|]. rewrite <-Hd. case_match; [apply IH|done].
    + destruct (IH (set_cur c (set_chunks cs st))) as (Hb & H1). split; [|exact H1].
      rewrite <-Hb. unfold buffered. simpl. by rewrite Hc, Hch.
  - simpl. unfold buffered. simpl. rewrite Hc, app_assoc. split; [|done]. by rewrite take_drop.
Qed.

Lemma Read_eof fuel d st n :
  snd (Read_loop fuel d st n) = ReadErr io_EOF ->
  buffered st = [] /\ readDone st = true /\ terminal_error (readErr st) = io_EOF.
Proof.
  revert st. induction fuel as [|fuel IH]; intros st; [done|]. cbn [Read_loop].
  destruct (cur st) as [|x c] eqn:Hc; [|done]. destruct (chunks st) as [|c cs] eqn:Hch.
  - destruct (readDone st) eqn:Hd; [|by case_match; [intros (_ & ? & _)%IH; congruence|]].
    simpl. intros [= ->]. unfold buffered. by rewrite Hc, Hch.
  - intros (Hb & Hr)%IH. split; [|exact Hr]. revert Hb. unfold buffered. simpl. by rewrite Hc, Hch.
Qed.

Lemma flow_read s p tr rest l st n :
  heap s !! l = Some st -> flow s p tr rest l st ->
  let r := Read (done s) st n in
  flow (update s l (fst r)) p (tr ++ [Handed l (read_data (snd r))]) rest l (fst r).
Proof.
  intros Hl [Hpre Hend Hlive] r. destruct (Read_loop_bytes (2 + length (chunks st)) (done s) st n) as (Hb & Hi & Hd & He).
  fold (Read (done s) st n) in *. fold r in Hb, Hi, Hd, He.
  assert (handed l (tr ++ [Handed l (read_data (snd r))]) = handed l tr ++ read_data (snd r)) as Hh.
  { rewrite handed_app. unfold handed at 2. simpl.
    rewrite decide_True by done. simpl. by rewrite app_nil_r. }
  split; rewrite ?Hh, ?Hi, ?Hd, ?He, <-?app_assoc.
  - by rewrite <-Hb.
  - by rewrite <-Hb.
  - rewrite (app_assoc (read_data _)), <-Hb. exact Hlive.
Qed.

(** Pointers stay valid. *)
Definition keeps s s' : Prop := forall l, is_Some (heap s !! l) -> is_Some (heap s' !! l).

Lemma same_keeps s s' : same_table s s' -> keeps s s'.
Proof. intros (Hh & _) l. by rewrite Hh. Qed.

Lemma update_keeps s s' l st : heap s' = heap s -> keeps s (update s' l st).
Proof.
  intros Hh l' Hl. apply lookup_lt_is_Some in Hl. apply lookup_lt_is_Some. simpl.
  by rewrite length_insert, Hh.
Qed.

Lemma shutdown_keeps e s : keeps s (shutdown e s).
Proof.
  unfold shutdown. destruct (closeOnce s); [by apply same_keeps|]. intros l [st Hl]. simpl.
  rewrite shutdown_heap_lookup, Hl. case_decide; by eexists.
Qed.

Lemma keeps_same_r s s1 s2 : keeps s s1 -> same_table s1 s2 -> keeps s s2.
Proof. intros Hk (Hh & _) l. rewrite Hh. apply Hk. Qed.

Lemma internal_keeps s p s' p' : internal (s, p) (s', p') -> keeps s s'.
Proof.
  intros Hi. inversion Hi; subst; clear Hi; try by apply same_keeps.
  - unfold push_outcomes in *. destruct (heap s !! l) as [st0|] eqn:Hl0; [|by apply not_elem_of_nil in H1].
    apply list_elem_of_fmap in H1 as (st1 & -> & Hin). by apply (update_keeps s s).
  - eapply keeps_same_r; [apply shutdown_keeps|apply Run_return_same].
  - apply update_keeps. by destruct (run_call_effect s c st) as ((Hh & _) & _).
  - intros l [st Hl]. destruct (OpenStream_table s meta) as (-> & _). exists st. by apply lookup_app_l_Some.
  - eapply keeps_same_r; [apply shutdown_keeps|apply fireOnClose_same].
  - apply same_keeps, ping_same.
  - eapply same_keeps, pong_same. done.
  - unfold watchdog_tick. case_match; [by apply same_keeps|]. case_match; [|by apply same_keeps].
    eapply keeps_same_r; [apply shutdown_keeps|apply fireOnClose_same].
Qed.

(** ** The frames of the read loop *)

(** What the peer's CLOSE ([remoteClose]) and RESET ([remoteReset]) do to a
    stream: the reading side ends, with [e] if it had not ended already. *)
Definition ends (e : error) s s' st st' : Prop :=
  op_frame s s' st /\ st_id st' = st_id st /\ buffered st' = buffered st /\ readDone st' = true /\
  readErr st' = if readDone st then readErr st else Some e.

Lemma mark_ends e st :
  let st' := fst (markReadDone e st) in
  st_id st' = st_id st /\ buffered st' = buffered st /\ readDone st' = true /\
  readErr st' = if readDone st then readErr st else Some e.
Proof.
  destruct (markReadDone_spec e st) as (Hd & Hr & Hch & Hcu & Hid & _).
  unfold buffered. by rewrite Hch, Hcu.
Qed.

Lemma remove_ends e s s1 st st1 :
  op_frame s s1 st -> streams s1 = streams s ->
  (st_id st1 = st_id st /\ buffered st1 = buffered st /\ readDone st1 = true /\
   readErr st1 = if readDone st then readErr st else Some e) ->
  ends e s (fst (remove s1 st1)) st (snd (remove s1 st1)).
Proof.
  intros Ho Hs (Hi & Hr). split; [by apply remove_op|]. unfold remove.
  by destruct (removeOnce st1).
Qed.

Lemma remoteClose_ends s st : ends io_EOF s (fst (remoteClose s st)) st (snd (remoteClose s st)).
Proof.
  unfold remoteClose. pose proof (mark_ends io_EOF st) as Hm. cbv zeta in Hm.
  destruct (sentClose _); [|split; [apply op_frame_refl|exact Hm]].
  apply remove_ends; [apply op_frame_refl|done|exact Hm].
Qed.

Lemma remoteReset_ends s st : ends mux_ErrStreamReset s (fst (remoteReset s st)) st (snd (remoteReset s st)).
Proof.
  unfold remoteReset. apply remove_ends; [apply op_frame_refl|done|].
  exact (mark_ends mux_ErrStreamReset (set_reset st)).
Qed.

Lemma on_remote_other s id (op : Session W -> Stream -> Session W * Stream) e l st :
  (forall st, ends e s (fst (op s st)) st (snd (op s st))) ->
  session_ok s -> heap s !! l = Some st -> only s l (st_id st) -> id <> st_id st ->
  effect s (on_remote s id op) l st.
Proof.
  intros Hop Hs Hl Ho Hne. unfold on_remote. destruct (getStream s id) as [l2|] eqn:Hg; [|by apply same_effect].
  destruct (sk_streams _ Hs _ _ Hg) as (st2 & Hl2 & Hid2). rewrite Hl2.
  destruct (Hop st2) as (Hf & _). destruct (op s st2) as [s' st2'].
  eapply other_effect; [done|exact Hl2| |done|exact Hf]. intros ->. congruence.
Qed.

Lemma on_remote_no_new s id0 (op : Session W -> Stream -> Session W * Stream) e id :
  (forall st, ends e s (fst (op s st)) st (snd (op s st))) ->
  no_new s (on_remote s id0 op) id /\ server (on_remote s id0 op) = server s /\ keeps s (on_remote s id0 op).
Proof.
  intros Hop. unfold on_remote.
  destruct (getStream s id0) as [l2|]; [|split; [by apply same_no_new|split; [done|by apply same_keeps]]].
  destruct (heap s !! l2) as [st2|] eqn:Hl2; [|split; [by apply same_no_new|split; [done|by apply same_keeps]]].
  destruct (Hop st2) as ((Hh & _ & Hsv & _) & Hi & _). destruct (op s st2) as [s' st2'].
  split; [by eapply update_no_new|]. split; [done|by apply update_keeps].
Qed.

(** A frame that is not for the stream. *)
Lemma dispatch_other s f l st :
  session_ok s -> heap s !! l = Some st -> only s l (st_id st) ->
  f_id f <> st_id st \/ f_typ f = FramePing \/ f_typ f = FramePong ->
  effect s (loop_session (dispatch s f)) l st /\ target l (next_pc (dispatch s f)) = None.
Proof.
  intros Hs Hl Ho Hf. destruct f as [typ id d]. simpl in Hf. unfold dispatch. cbn [alloc].
  destruct (Byte.eqb typ FrameOpen) eqn:E1; [|destruct (Byte.eqb typ FrameData) eqn:E2;
    [|destruct (Byte.eqb typ FrameClose) eqn:E3; [|destruct (Byte.eqb typ FrameReset) eqn:E4]]].
  all: try match goal with E : Byte.eqb ?t _ = true |- _ => apply Byte.byte_dec_bl in E; subst t;
    destruct Hf as [Hne|[Hf|Hf]]; [|done..] end.
  - cbn [closed set_heap]. destruct (closed s) eqn:Hc; simpl; (split; [|done]); exists st; simpl;
      (split; [by apply lookup_app_l_Some|]); (split; [apply quiet_refl|]); [done|].
    intros _ _. by rewrite lookup_insert_ne.
  - destruct (getStream s id) as [l2|] eqn:Hg; simpl; [|split; [by apply same_effect|done]].
    split; [by apply same_effect|]. apply decide_False. intros ->.
    destruct (sk_streams _ Hs _ _ Hg) as (st2 & Hl2 & Hid). simplify_eq.
  - split; [|done]. eapply on_remote_other; [intros; apply remoteClose_ends|done..].
  - split; [|done]. eapply on_remote_other; [intros; apply remoteReset_ends|done..].
  - destruct (Byte.eqb typ FramePing); [split; [|done]; simpl; case_match; by apply same_effect|].
    destruct (Byte.eqb typ FramePong); (split; [by apply same_effect|done]).
Qed.

Lemma dispatch_table s f id :
  session_ok s ->
  server (loop_session (dispatch s f)) = server s /\ keeps s (loop_session (dispatch s f)) /\
  (f_typ f <> FrameOpen \/ f_id f <> id -> no_new s (loop_session (dispatch s f)) id).
Proof.
  intros Hs. destruct f as [typ id0 d]. unfold dispatch. cbn [alloc f_typ f_id].
  destruct (Byte.eqb typ FrameOpen) eqn:E1.
  - apply Byte.byte_dec_bl in E1. subst typ.
    assert (forall s' : Session W, heap s' = heap s ++ [newStream id0] ->
      keeps s s' /\ (FrameOpen <> FrameOpen \/ id0 <> id -> no_new s s' id)) as Ha.
    { intros s' Hh. split.
      - intros l [st Hl]. rewrite Hh. exists st. by apply lookup_app_l_Some.
      - intros [?|Hne] l st; [done|]. rewrite Hh. intros [Hx|(_ & Hx)]%lookup_app_Some Hid; [by exists st|].
        by apply list_lookup_singleton_Some in Hx as [_ <-]. }
    destruct (closed _); (split; [done|by apply Ha]).
  - destruct (Byte.eqb typ FrameData).
    { destruct (getStream s id0); (split; [done|]); (split; [by apply same_keeps|intros _; by apply same_no_new]). }
    destruct (Byte.eqb typ FrameClose).
    { destruct (on_remote_no_new s id0 remoteClose io_EOF id) as (H1 & H2 & H3);
        [intros; apply remoteClose_ends|by split_and!]. }
    destruct (Byte.eqb typ FrameReset).
    { destruct (on_remote_no_new s id0 remoteReset mux_ErrStreamReset id) as (H1 & H2 & H3);
        [intros; apply remoteReset_ends|by split_and!]. }
    destruct (Byte.eqb typ FramePing); [|destruct (Byte.eqb typ FramePong)]; simpl; try case_match;
      (split; [done|]); (split; [by apply same_keeps|intros _; by apply same_no_new]).
Qed.

(** ** The frames of the stream *)

Lemma flow_data s tr rest l st f :
  flow s Idle tr rest l st -> streams s !! st_id st = Some l -> f_typ f = FrameData ->
  flow (set_stalled true s) (Pushing l (f_payload f)) tr (rest ++ [f]) l st.
Proof.
  intros [Hpre Hend Hlive] Ht Hf. split; rewrite ?data_of_app.
  - by apply prefix_app_r.
  - intros He. by apply until_close_app, Hend.
  - intros Hd. destruct (Hlive Hd) as [(H1 & H2 & H3 & H4)|(H1 & _)]; [|congruence]. left.
    split_and!; [done..| |].
    + apply Forall_app. split; [done|]. by repeat constructor; rewrite Hf.
    + simpl in *. rewrite decide_True by done. simpl. rewrite app_nil_r in H4. rewrite app_assoc, H4.
      f_equal. unfold data_of, payload_of. simpl. by rewrite Hf, app_nil_r.
Qed.

(** The end of the reading side, by CLOSE or RESET, in the session's table. *)
Lemma flow_ends e s tr rest l st s' st' f :
  heap s !! l = Some st -> flow s Idle tr rest l st -> ends e s s' st st' ->
  streams s !! st_id st = Some l ->
  f_typ f = FrameClose /\ e = Sentinel io_EOF \/ e <> Sentinel io_EOF ->
  exists st2, heap (update s' l st') !! l = Some st2 /\ st_id st2 = st_id st /\
    flow (update s' l st') Idle tr (rest ++ [f]) l st2.
Proof.
  intros Hl [Hpre Hend Hlive] ((Hh & _) & Hi & Hb & Hd & He) Ht Hf. exists st'.
  split; [simpl; rewrite list_lookup_insert_eq; [done|rewrite Hh; by eapply lookup_lt_Some]|].
  split; [done|]. split; rewrite ?data_of_app, ?Hb; [by apply prefix_app_r| |congruence].
  rewrite He. destruct (readDone st) eqn:Hrd; [intros; by apply until_close_app, Hend|].
  intros [= ->]. destruct Hf as [[Hf _]|]; [|done].
  destruct (Hlive eq_refl) as [(_ & _ & H3 & H4)|(H1 & _)]; [|congruence].
  simpl in H4. rewrite app_nil_r in H4. rewrite H4. clear -H3 Hf.
  induction H3 as [|g rest Hg _ IH]; simpl; [by rewrite Hf|].
  destruct (Byte.eqb (f_typ g) FrameClose) eqn:E; [by apply Byte.byte_dec_bl in E|]. by rewrite IH.
Qed.

Lemma on_remote_flow e (op : Session W -> Stream -> Session W * Stream) s tr rest l st f :
  (forall st, ends e s (fst (op s st)) st (snd (op s st))) ->
  session_ok s -> heap s !! l = Some st -> only s l (st_id st) -> flow s Idle tr rest l st ->
  f_typ f = FrameClose /\ e = Sentinel io_EOF \/ e <> Sentinel io_EOF ->
  exists st', heap (on_remote s (st_id st) op) !! l = Some st' /\ st_id st' = st_id st /\
    flow (on_remote s (st_id st) op) Idle tr (rest ++ [f]) l st'.
Proof.
  intros Hop Hs Hl Ho Hf He. unfold on_remote. destruct (getStream s (st_id st)) as [l2|] eqn:Hg.
  - destruct (sk_streams _ Hs _ _ Hg) as (st2 & Hl2 & Hid2). rewrite Hl2.
    assert (l2 = l) as -> by (by eapply Ho). simplify_eq. specialize (Hop st).
    destruct (op s st) as [s' st']. by eapply flow_ends.
  - exists st. split; [done|]. split; [done|]. apply flow_more; [done|]. right. right.
    unfold getStream in Hg. congruence.
Qed.

Lemma dispatch_own s f tr rest l st :
  session_ok s -> heap s !! l = Some st -> only s l (st_id st) -> flow s Idle tr rest l st ->
  f_id f = st_id st -> f_typ f <> FrameOpen -> f_typ f <> FramePing -> f_typ f <> FramePong ->
  exists st', heap (loop_session (dispatch s f)) !! l = Some st' /\ st_id st' = st_id st /\
    flow (loop_session (dispatch s f)) (next_pc (dispatch s f)) tr (rest ++ [f]) l st'.
Proof.
  intros Hs Hl Ho Hf Hid H1 H2 H3. destruct f as [typ id d]. simpl in Hid, H1, H2, H3. subst id.
  unfold dispatch. cbn [alloc].
  destruct (Byte.eqb typ FrameOpen) eqn:E; [by apply Byte.byte_dec_bl in E|clear E].
  destruct (Byte.eqb typ FrameData) eqn:E.
  { apply Byte.byte_dec_bl in E. subst typ. exists st.
    destruct (getStream s (st_id st)) as [l2|] eqn:Hg; simpl; (split; [done|]); (split; [done|]).
    - destruct (sk_streams _ Hs _ _ Hg) as (st2 & Hl2 & Hid2).
      assert (l2 = l) as -> by (by eapply Ho). by apply (flow_data s tr rest l st (Frame FrameData (st_id st) d)).
    - apply flow_more; [done|]. right. right. unfold getStream in Hg. congruence. }
  destruct (Byte.eqb typ FrameClose) eqn:E2.
  { apply Byte.byte_dec_bl in E2. subst typ.
    eapply (on_remote_flow io_EOF); [intros; apply remoteClose_ends|done..|by left]. }
  destruct (Byte.eqb typ FrameReset) eqn:E3.
  { eapply (on_remote_flow mux_ErrStreamReset); [intros; apply remoteReset_ends|done..|by right]. }
  destruct (Byte.eqb typ FramePing) eqn:E4; [by apply Byte.byte_dec_bl in E4|].
  destruct (Byte.eqb typ FramePong) eqn:E5; [by apply Byte.byte_dec_bl in E5|].
  exists st. split; [done|]. split; [done|]. simpl.
  destruct (flow_more s Idle tr rest l st (Frame typ (st_id st) d) Hf) as [G1 G2 G3]; [left|by split].
   simpl. unfold payload_of. simpl. rewrite E. split; [|done]. intros ->. by vm_compute in E2.
Qed.

(** ** The invariant of an execution *)

Record carries (srv : bool) (id : Z) s p tr : Prop := {
  cr_server : server s = srv;
  cr_handed : forall l, ~ is_Some (heap s !! l) -> handed l tr = [];
  cr_none : of_stream id (frames_of tr) = [] -> forall l st, heap s !! l = Some st -> st_id st <> id;
  cr_flow : forall o rest, of_stream id (frames_of tr) = o :: rest ->
    f_typ o = FrameOpen -> no_typ FrameOpen rest -> carried s p tr rest id
}.

Lemma handed_got l tr f : handed l (tr ++ [Got f]) = handed l tr.
Proof. rewrite handed_app. unfold handed at 2. simpl. by rewrite app_nil_r. Qed.

Lemma frames_got tr f : frames_of (tr ++ [Got f]) = frames_of tr ++ [f].
Proof. by rewrite frames_of_app. Qed.

Lemma frames_handed tr l d : frames_of (tr ++ [Handed l d]) = frames_of tr.
Proof. rewrite frames_of_app. apply app_nil_r. Qed.

Lemma handed_other l l2 tr d : l2 <> l -> handed l (tr ++ [Handed l2 d]) = handed l tr.
Proof.
  intros Hne. rewrite handed_app. unfold handed at 2. simpl. rewrite decide_False by done. apply app_nil_r.
Qed.

Lemma of_stream_app id fs f :
  of_stream id (fs ++ [f]) = of_stream id fs ++
    (if decide (f_id f = id /\ f_typ f <> FramePing /\ f_typ f <> FramePong) then [f] else []).
Proof. unfold of_stream. by rewrite filter_app. Qed.

Lemma carries_new w srv id :
  carries srv id (set_nextID (if srv then 1 else 2) (newSession w srv)) Idle [].
Proof. by split. Qed.

Lemma flow_same s s' p tr rest l st : same_table s s' -> flow s p tr rest l st -> flow s' p tr rest l st.
Proof. intros (_ & Hc & _ & Ht) [H1 H2 H3]. split; [done..|]. by rewrite Hc, Ht. Qed.

Lemma carries_internal srv id s p s' p' tr :
  internal (s, p) (s', p') -> session_ok s -> Z.odd id <> srv ->
  carries srv id s p tr -> carries srv id s' p' tr.
Proof.
  intros Hi Hs Hodd [Hsv Hh Hn Hf]. rewrite <-Hsv in Hodd.
  destruct (internal_no_new s p s' p' id Hi Hs Hodd) as [Hnn Hsv'].
  pose proof (internal_keeps _ _ _ _ Hi) as Hk.
  split; [congruence|intros l Hl; apply Hh; by intros ?%Hk|..].
  - intros He l st' Hl Hid. destruct (Hnn l st' Hl Hid) as (st & Hst & Hi'). by eapply Hn.
  - intros o rest Ho Hot Hrest. destruct (Hf o rest Ho Hot Hrest) as (l & st & Hl & <- & Hu & Hfl).
    assert (exists st', heap s' !! l = Some st' /\ st_id st' = st_id st /\ flow s' p' tr rest l st')
      as (st' & ? & ? & ?); [|exists l, st'; split_and!; [done..|by eapply only_no_new|done]].
    destruct (internal_effect s p s' p' l st Hi Hs Hl Hu Hodd) as [[He Ht]|(d & st' & -> & -> & Hin & Hsm)].
    + by eapply flow_effect.
    + exists st'. split_and!; [|by eapply push_id|].
      * destruct Hsm as (-> & _). apply list_lookup_insert_eq. by eapply lookup_lt_Some.
      * eapply flow_same; [exact Hsm|]. by eapply flow_push.
Qed.

Lemma carries_read srv id s p l0 st0 n tr :
  heap s !! l0 = Some st0 -> carries srv id s p tr ->
  carries srv id (update s l0 (fst (Read (done s) st0 n))) p
    (tr ++ [Handed l0 (read_data (snd (Read (done s) st0 n)))]).
Proof.
  intros Hl0 [Hsv Hh Hn Hf]. destruct (Read_loop_bytes (2 + length (chunks st0)) (done s) st0 n) as (_ & Hi & _).
  fold (Read (done s) st0 n) in Hi.
  pose proof (update_keeps s s l0 (fst (Read (done s) st0 n)) eq_refl) as Hk.
  split; rewrite ?frames_handed; [done|..].
  - intros l Hl. destruct (decide (l0 = l)) as [->|Hne]; [|rewrite handed_other by done; apply Hh; by intros ?%Hk].
    destruct Hl. by apply Hk; eexists.
  - intros He l st' Hl Hid. destruct (update_no_new s s l0 st0 _ id Hl0 eq_refl Hi l st' Hl Hid) as (st & Hst & Hi').
    by eapply Hn.
  - intros o rest Ho Hot Hrest. destruct (Hf o rest Ho Hot Hrest) as (l & st & Hl & <- & Hu & Hfl).
    assert (only (update s l0 (fst (Read (done s) st0 n))) l (st_id st)) as Hu'
      by (eapply only_no_new; [done|by apply (update_no_new s s l0 st0)]).
    destruct (decide (l0 = l)) as [->|Hne].
    + simplify_eq. eexists l, _. split_and!; [|exact Hi|done|by apply flow_read].
      apply list_lookup_insert_eq. by eapply lookup_lt_Some.
    + edestruct (flow_effect s p (update s l0 (fst (Read (done s) st0 n))) p tr) as (st' & ? & ? & ?);
        [exact Hfl|by eapply (other_effect s s), (op_frame_refl _ st0)|done|by apply handed_other|].
      by exists l, st'.
Qed.

(** The OPEN that creates the stream. *)
Lemma open_carried srv id s p tr d :
  session_ok s -> carries srv id s p tr -> of_stream id (frames_of tr) = [] ->
  carried (loop_session (dispatch s (Frame FrameOpen id d))) Idle (tr ++ [Got (Frame FrameOpen id d)]) [] id.
Proof.
  intros Hs [_ Hh Hn _] He. specialize (Hn He).
  assert (streams s !! id = None) as Hnone.
  { destruct (streams s !! id) as [l|] eqn:Hl; [|done].
    destruct (sk_streams _ Hs _ _ Hl) as (st & Hst & Hid). by destruct (Hn l st Hst). }
  set (s' := loop_session _).
  assert (heap s' = heap s ++ [newStream id] /\
    (streams s' !! id = Some (length (heap s)) /\ closed s' = false \/ streams s' !! id = None /\ closed s' = true))
    as [Hhp Htab].
  { unfold s', dispatch. cbn [alloc Byte.eqb]. simpl. destruct (closed s) eqn:Hc; simpl; (split; [done|]).
    - by right. - left. by rewrite lookup_insert_eq. }
  exists (length (heap s)), (newStream id). rewrite Hhp, lookup_app_r, Nat.sub_diag by done. split_and!; [done|done|..].
  - intros l st. rewrite Hhp. intros [Hl|[? Hl]]%lookup_app_Some Hid; [by destruct (Hn l st Hl)|].
    apply list_lookup_singleton_Some in Hl as [Hl2 _].
    match goal with Hge : (length (heap s) <= l)%nat |- _ => lia end.
  - split; rewrite ?handed_got, ?Hh by (by rewrite lookup_lt_is_Some; lia); [done|done|].
    intros _. destruct Htab as [[H1 H2]|[H1 H2]]; [left|right]; split_and!; by try constructor.
Qed.

Lemma carries_frame srv id s f tr :
  session_ok s -> carries srv id s Idle tr ->
  carries srv id (loop_session (dispatch s f)) (next_pc (dispatch s f)) (tr ++ [Got f]).
Proof.
  intros Hs Hc. pose proof Hc as [Hsv Hh Hn Hf].
  destruct (dispatch_table s f id Hs) as (Hsv' & Hk & Hnn).
  split; rewrite ?frames_got, ?of_stream_app; [congruence|..].
  - intros l Hl. rewrite handed_got. apply Hh. by intros ?%Hk.
  - case_decide as Hd; [by intros []%app_eq_nil|]. rewrite app_nil_r. intros He l st' Hl Hid.
    assert (f_typ f <> FrameOpen \/ f_id f <> id) as Hno.
    { destruct (decide (f_typ f = FrameOpen)) as [Ht|]; [|by left]. right. intros Hi. apply Hd. by rewrite Ht. }
    destruct (Hnn Hno l st' Hl Hid) as (st & Hst & Hi). by eapply Hn.
  - intros o rest. case_decide as Hd.
    + destruct (of_stream id (frames_of tr)) as [|o' r] eqn:Ho; intros [= <- <-] Hot Hrest.
      * destruct f as [typ i d]. destruct Hd as [Hi _]. simpl in Hi, Hot. subst typ i.
        pose proof (open_carried _ _ _ _ _ d Hs Hc Ho) as Hcar.
        replace (next_pc (dispatch s (Frame FrameOpen id d))) with Idle; [exact Hcar|].
        unfold dispatch. cbn [alloc]. simpl. by destruct (closed s).
      * apply Forall_app in Hrest as [Hrest Hlast]. rewrite Forall_singleton in Hlast.
        destruct (Hf o' r eq_refl Hot Hrest) as (l & st & Hl & <- & Hu & Hfl).
        destruct Hd as (Hi & Hp1 & Hp2).
        destruct (dispatch_own s f tr r l st) as (st' & Hl' & Hid' & Hfl'); try done.
        exists l, st'. split_and!; [done..| |].
        -- eapply only_no_new; [done|]. apply Hnn. by left.
        -- destruct Hfl' as [G1 G2 G3]. by split; rewrite ?handed_got.
    + rewrite app_nil_r. intros Ho Hot Hrest.
      destruct (Hf o rest Ho Hot Hrest) as (l & st & Hl & <- & Hu & Hfl).
      assert (f_id f <> st_id st \/ f_typ f = FramePing \/ f_typ f = FramePong) as Hother.
      { destruct (decide (f_id f = st_id st)) as [Hi|]; [|by left]. right.
        destruct (decide (f_typ f = FramePing)); [by left|]. right.
        destruct (decide (f_typ f = FramePong)); [done|]. by destruct Hd. }
      destruct (dispatch_other s f l st Hs Hl Hu Hother) as [He Ht].
      edestruct (flow_effect s Idle (loop_session (dispatch s f)) (next_pc (dispatch s f)) tr (tr ++ [Got f]))
        as (st' & ? & ? & ?); [exact Hfl|exact He|by rewrite Ht|apply handed_got|].
      exists l, st'. split_and!; [done..| |done]. eapply only_no_new; [done|]. apply Hnn.
      destruct Hother as [Ho'|[Ho'|Ho']]; [by right|left; by rewrite Ho'..].
Qed.

Lemma traced_carries w srv id c tr :
  Z.odd id <> srv -> traced w srv c tr -> carries srv id (fst c) (snd c) tr.
Proof.
  intros Hodd Ht. induction Ht as [|[s p] [s' p'] tr Ht IH Hi|s f tr Ht IH|s p l st n tr Ht IH Hl]; simpl in *.
  - apply carries_new.
  - eapply carries_internal; [done| |done..]. by apply traced_ok in Ht.
  - apply carries_frame; [|done]. by apply traced_ok in Ht.
  - by apply carries_read.
Qed.

(** What a reader of the stream gets, whatever else the session does. *)
Lemma delivered_flow w srv s p tr id o rest :
  traced w srv (s, p) tr -> Z.odd id <> srv ->
  of_stream id (frames_of tr) = o :: rest -> f_typ o = FrameOpen -> no_typ FrameOpen rest ->
  exists l st, heap s !! l = Some st /\ st_id st = id /\ only s l id /\
    handed l tr ++ buffered st `prefix_of` data_of rest /\
    (closed s = false -> readDone st = false -> no_typ FrameClose rest) /\
    (readErr st = Some (Sentinel io_EOF) -> until_close rest = Some (handed l tr ++ buffered st)) /\
    (forall n, snd (Read (done s) st n) = ReadErr io_EOF -> until_close rest = Some (handed l tr)).
Proof.
  intros Ht Hodd Ho Hot Hr. pose proof (traced_ok _ _ _ _ Ht) as Hs. simpl in Hs.
  destruct (cr_flow _ _ _ _ _ (traced_carries _ _ _ _ _ Hodd Ht) o rest Ho Hot Hr) as (l & st & Hl & <- & Hu & Hf).
  destruct Hf as [Hpre Hend Hlive]. cbn [fst snd] in *. exists l, st. split_and!; try done.
  - intros Hc Hd. destruct (Hlive Hd) as [(_ & _ & ? & _)|(_ & ? & _)]; [done|congruence].
  - intros n HR. destruct (Read_eof (2 + length (chunks st)) (done s) st n HR) as (Hb & Hd & He).
    rewrite Hend, Hb, app_nil_r; [done|]. destruct (proj1 (ok_err _ (heap_ok _ _ _ Hs Hl)) Hd) as [e Hre].
    rewrite Hre in *. by destruct e as [[]| | |].
Qed.

End delivery.

(** ** The sending side *)

(** The frames of a stream that writes [bs], one [Write] each, and closes. *)
Definition sent (id : Z) (bs : list (list Byte.byte)) : list frame :=
  wire_frames (fst (fst (CloseWrite
    (foldl (fun h b => fst (Write h (newStream id) b)) new_wire bs) (newStream id)))).

Lemma Write_wire (h : wire) id b :
  wire_done h = false ->
  fst (Write h (newStream id) b) =
  {| wire_frames := wire_frames h ++ (Frame FrameData id <$> payloads b);
     wire_removed := wire_removed h; wire_done := false |}.
Proof.
  intros Hd. unfold Write. change (check (newStream id)) with (@None error). cbv iota.
  rewrite Write_loop_split by (try done; lia). by rewrite write_payloads_total.
Qed.

Lemma writes_wire id bs (h : wire) :
  wire_done h = false ->
  foldl (fun h b => fst (Write h (newStream id) b)) h bs =
  {| wire_frames := wire_frames h ++ (Frame FrameData id <$> concat (payloads <$> bs));
     wire_removed := wire_removed h; wire_done := false |}.
Proof.
  revert h. induction bs as [|b bs IH]; intros h Hd; cbn [foldl].
  - simpl. rewrite app_nil_r. destruct h; simpl in *. by subst.
  - rewrite Write_wire, IH by done. simpl. by rewrite fmap_app, app_assoc.
Qed.

Lemma sent_frames id bs :
  sent id bs = (Frame FrameData id <$> concat (payloads <$> bs)) ++ [Frame FrameClose id []].
Proof. unfold sent. by rewrite writes_wire. Qed.

Lemma data_of_writes id bs : data_of (Frame FrameData id <$> concat (payloads <$> bs)) = concat bs.
Proof.
  unfold data_of. rewrite <-list_fmap_compose.
  transitivity (concat (concat (payloads <$> bs))); [f_equal; apply list_fmap_id|].
  induction bs as [|b bs IH]; [done|]. rewrite fmap_cons. cbn [concat].
  rewrite concat_app, IH. f_equal.
  apply split_payload_concat. lia.
Qed.

Lemma no_close_writes id bs : no_typ FrameClose (Frame FrameData id <$> concat (payloads <$> bs)).
Proof. apply Forall_fmap, Forall_true. by intros ?. Qed.

Lemma data_of_sent id bs : data_of (sent id bs) = concat bs.
Proof. rewrite sent_frames, data_of_app, data_of_writes. apply app_nil_r. Qed.

Lemma until_close_more fs k d : until_close fs = Some d -> until_close (fs ++ k) = Some d.
Proof.
  revert fs. induction k as [|f k IH]; intros fs Hd; [by rewrite app_nil_r|].
  rewrite cons_middle, app_assoc. by apply IH, until_close_app.
Qed.

Lemma until_close_sent id bs rest d :
  rest `prefix_of` sent id bs -> until_close rest = Some d -> d = concat bs.
Proof.
  intros [k Hk] Hd. apply (until_close_more _ k) in Hd. rewrite <-Hk, sent_frames in Hd.
  rewrite until_close_end in Hd by apply no_close_writes. simplify_eq. apply data_of_writes.
Qed.

(** What is known of a stream whose peer sends [sent id bs], or has got as far as
    [rest]. *)
Lemma delivered_sent {W} `{Writer W} (w : W) srv s p tr id m bs rest :
  traced w srv (s, p) tr -> Z.odd id <> srv ->
  of_stream id (frames_of tr) = Frame FrameOpen id m :: rest -> rest `prefix_of` sent id bs ->
  exists l st, heap s !! l = Some st /\ st_id st = id /\ only s l id /\
    handed l tr ++ buffered st `prefix_of` concat bs /\
    (closed s = false -> readDone st = false -> no_typ FrameClose rest) /\
    (readErr st = Some (Sentinel io_EOF) -> handed l tr ++ buffered st = concat bs) /\
    (forall n, snd (Read (done s) st n) = ReadErr io_EOF -> handed l tr = concat bs).
Proof.
  intros Ht Hodd Ho Hpre.
  assert (no_typ FrameOpen rest) as Hno.
  { destruct Hpre as [k Hk]. apply (Forall_app _ rest k). rewrite <-Hk, sent_frames.
    apply Forall_app. split; [apply Forall_fmap, Forall_true; by intros ?|by repeat constructor]. }
  destruct (delivered_flow w srv s p tr id _ rest Ht Hodd Ho eq_refl Hno)
    as (l & st & Hl & Hid & Hu & Hdata & Hopen & Hend & HR).
  exists l, st. split_and!; [done..| |done| |].
  - etrans; [exact Hdata|]. rewrite <-(data_of_sent id bs). destruct Hpre as [k ->].
    rewrite data_of_app. by eexists.
  - intros He. by eapply until_close_sent, Hend.
  - intros n Hn. by eapply until_close_sent, HR.
Qed.

(** C1: If the peer opens a stream, writes [bs] and closes, and the frames of that
    stream that have arrived are a prefix of those, then, whatever else the
    session does (other streams, local calls, timeouts, closes), exactly one
    stream carries the id; what its readers were handed followed by what waits in
    its buffer is a prefix of the bytes written: nothing is lost, repeated or
    reordered; a reader that sees [io.EOF] has got all of them; and once the CLOSE
    has been taken in an open session the reading side has ended, with [io.EOF]
    only if every byte is there. *)
Theorem end_to_end {W} `{Writer W} (w : W) srv s p tr id m bs rest :
  traced w srv (s, p) tr -> Z.odd id <> srv ->
  of_stream id (frames_of tr) = Frame FrameOpen id m :: rest -> rest `prefix_of` sent id bs ->
  exists l st, heap s !! l = Some st /\ st_id st = id /\
    (forall l' st', heap s !! l' = Some st' -> st_id st' = id -> l' = l) /\
    handed l tr ++ buffered st `prefix_of` concat bs /\
    (forall n, snd (Read (done s) st n) = ReadErr io_EOF -> handed l tr = concat bs) /\
    (rest = sent id bs -> closed s = false ->
     exists e, readErr st = Some e /\ (e = Sentinel io_EOF -> handed l tr ++ buffered st = concat bs)).
Proof.
  intros Ht Hodd Ho Hpre.
  destruct (delivered_sent w srv s p tr id m bs rest Ht Hodd Ho Hpre) as (l & st & Hl & Hid & Hu & Hdata & Hopen & Hend & HR).
  exists l, st. split_and!; [done..|].
  intros -> Hc. assert (readDone st = true) as Hd.
  { destruct (readDone st); [done|]. specialize (Hopen Hc eq_refl). rewrite sent_frames in Hopen.
    apply Forall_app in Hopen as [_ Hlast]. rewrite Forall_singleton in Hlast. by destruct Hlast. }
  pose proof (traced_ok _ _ _ _ Ht) as Hs.
  destruct (proj1 (ok_err _ (heap_ok _ _ _ Hs Hl)) Hd) as [e He]. exists e. split; [done|].
  intros ->. by apply Hend.
Qed.

(** ** An execution *)

(** A stream is opened, takes [d] in one frame and is closed; a reader asks for [n]
    bytes. *)
Definition sample_open : Session writes :=
  loop_session (dispatch (NewServerSession ([] : writes)) (Frame FrameOpen 2 [])).
Definition sample_push (d : list Byte.byte) : Session writes :=
  push_finish 5 (update (loop_session (dispatch sample_open (Frame FrameData 2 d))) 0
    (set_chunks [d] (newStream 2))).
Definition sample_closed (d : list Byte.byte) : Session writes := loop_session (dispatch (sample_push d) (Frame FrameClose 2 [])).
Definition sample_stream (d : list Byte.byte) : Stream := default (newStream 2) (heap (sample_closed d) !! 0%nat).
Definition sample_reading (d : list Byte.byte) (n : nat) : Stream * read_result :=
  Read (done (sample_closed d)) (sample_stream d) n.
Definition sample_read (d : list Byte.byte) (n : nat) : Session writes := update (sample_closed d) 0 (fst (sample_reading d n)).
Definition sample_trace (d : list Byte.byte) (n : nat) : list event :=
  [Got (Frame FrameOpen 2 []); Got (Frame FrameData 2 d); Got (Frame FrameClose 2 []);
   Handed 0 (read_data (snd (sample_reading d n)))].

Lemma sample_traced d n : traced ([] : writes) true (sample_read d n, Idle) (sample_trace d n).
Proof.
  apply (traced_read ([] : writes) true (sample_closed d) Idle 0 (sample_stream d) n
    [Got (Frame FrameOpen 2 []); Got (Frame FrameData 2 d); Got (Frame FrameClose 2 [])]);
    [|reflexivity].
  apply (traced_frame ([] : writes) true (sample_push d) (Frame FrameClose 2 [])
    [Got (Frame FrameOpen 2 []); Got (Frame FrameData 2 d)]).
  apply (traced_internal ([] : writes) true
    (loop_session (dispatch sample_open (Frame FrameData 2 d)), Pushing 0 d)).
  - apply (traced_frame ([] : writes) true sample_open (Frame FrameData 2 d) [Got (Frame FrameOpen 2 [])]).
    apply (traced_frame ([] : writes) true (NewServerSession ([] : writes)) (Frame FrameOpen 2 []) []).
    apply (traced_new ([] : writes) true).
  - apply step_push. apply list_elem_of_here.
Defined.

Lemma end_to_end_witness :
  let d := [Byte.x41; Byte.x42] in
  exists l st, heap (sample_read d 10) !! l = Some st /\ handed l (sample_trace d 10) = d.
Proof.
  intros d. destruct (end_to_end ([] : writes) true (sample_read d 10) Idle (sample_trace d 10) 2 [] [d]
    [Frame FrameData 2 d; Frame FrameClose 2 []] (sample_traced d 10) ltac:(discriminate) eq_refl
    ltac:(vm_compute; exists []; reflexivity)) as (l & st & Hl & Hid & Hu & _ & HR & _).
  pose proof (Hu 0%nat (default (newStream 2) (heap (sample_read d 10) !! 0%nat)) eq_refl eq_refl) as <-.
  exists 0%nat, st. split; [exact Hl|]. apply (HR 1%nat).
  vm_compute in Hl. injection Hl as <-. reflexivity.
Defined.
