(* ===== verification/GoStr.v ===== *)
(** * The Go standard library's string functions

    What the program uses of [strings], [unicode], [net.SplitHostPort] and
    [bufio.Scanner], on strings of octets.  Everything is exact, except that the
    lower case of a string with non-ASCII characters is the operation of a class
    ([UnicodeLower]): the Unicode tables are not reproduced. *)
From S2P Require Import Prelude.
From Stdlib Require Import Ascii.

#[global] Open Scope string_scope.
#[global] Open Scope list_scope.
#[global] Open Scope Z_scope.

#[global] Arguments String.append : simpl nomatch.

(** ** Characters *)

Definition ord (c : ascii) : Z := Z.of_N (N_of_ascii c).

Definition in_range (lo hi : Z) (c : ascii) : bool := (lo <=? ord c) && (ord c <=? hi).

Definition is_lower (c : ascii) : bool := in_range 97 122 c.
Definition is_upper (c : ascii) : bool := in_range 65 90 c.
Definition is_digit (c : ascii) : bool := in_range 48 57 c.

Definition lower_char (c : ascii) : ascii :=
  if is_upper c then ascii_of_N (N_of_ascii c + 32) else c.

Fixpoint smap (f : ascii -> ascii) (s : string) : string :=
  match s with
  | "" => ""
  | String c s => String (f c) (smap f s)
  end.

Fixpoint sall (p : ascii -> bool) (s : string) : bool :=
  match s with
  | "" => true
  | String c s => p c && sall p s
  end.

Fixpoint selem (c : ascii) (s : string) : bool :=
  match s with
  | "" => false
  | String d s => Ascii.eqb c d || selem c s
  end.

Fixpoint srev_app (s t : string) : string :=
  match s with
  | "" => t
  | String c s => srev_app s (String c t)
  end.

Definition srev (s : string) : string := srev_app s "".

(** ** Prefixes, suffixes and cutting *)

(** [strings.CutPrefix(s, p)]: what follows [p], if [s] starts with it. *)
Fixpoint CutPrefix (s p : string) {struct p} : option string :=
  match p, s with
  | "", _ => Some s
  | String c p, String d s => if Ascii.eqb c d then CutPrefix s p else None
  | String _ _, "" => None
  end.

Definition HasPrefix (s p : string) : bool := if CutPrefix s p is Some _ then true else false.
Definition TrimPrefix (s p : string) : string := default s (CutPrefix s p).

Definition CutSuffix (s suf : string) : option string :=
  match CutPrefix (srev s) (srev suf) with Some t => Some (srev t) | None => None end.

Definition HasSuffix (s suf : string) : bool := if CutSuffix s suf is Some _ then true else false.
Definition TrimSuffix (s suf : string) : string := default s (CutSuffix s suf).

(** [strings.IndexByte] with the slices on both sides of the index. *)
Fixpoint cut_byte (c : ascii) (s : string) : option (string * string) :=
  match s with
  | "" => None
  | String d s =>
      if Ascii.eqb c d then Some ("", s)
      else match cut_byte c s with Some (a, b) => Some (String d a, b) | None => None end
  end.

(** The same with [strings.LastIndexByte]. *)
Definition cut_last (c : ascii) (s : string) : option (string * string) :=
  match cut_byte c (srev s) with Some (b, a) => Some (srev a, srev b) | None => None end.

(** [strings.Split(s, c)] for a separator of one byte. *)
Fixpoint split_byte (c : ascii) (s : string) : list string :=
  match s with
  | "" => [""]
  | String d s =>
      if Ascii.eqb c d then "" :: split_byte c s
      else match split_byte c s with
           | t :: ts => String d t :: ts
           | [] => [String d ""]
           end
  end.

(** [strings.Contains]. *)
Fixpoint Contains (s sub : string) : bool :=
  HasPrefix s sub || match s with "" => false | String _ s => Contains s sub end.

(** [strings.ReplaceAll(s, c, d)] for single bytes. *)
Definition replace_byte (c d : ascii) : string -> string :=
  smap (fun x => if Ascii.eqb x c then d else x).

Fixpoint sjoin (sep : string) (l : list string) : string :=
  match l with
  | [] => ""
  | [s] => s
  | s :: l => s +:+ sep +:+ sjoin sep l
  end.

(** ** White space

    [unicode.IsSpace] of the character at the head, as the number of octets of
    its UTF-8 encoding (0 when it is no space). *)
Definition head_is (s p : string) : bool := HasPrefix s p.

Definition bytes3 (a b c : Z) : string :=
  String (ascii_of_N (Z.to_N a)) (String (ascii_of_N (Z.to_N b)) (String (ascii_of_N (Z.to_N c)) "")).
Definition bytes2 (a b : Z) : string :=
  String (ascii_of_N (Z.to_N a)) (String (ascii_of_N (Z.to_N b)) "").

(** Tab to carriage return, and the space. *)
Definition ascii_space (c : ascii) : bool := in_range 9 13 c || in_range 32 32 c.

(** U+0085, U+00A0. *)
Definition spaces2 : list string := [bytes2 194 133; bytes2 194 160].

(** U+1680, U+2000 to U+200A, U+2028, U+2029, U+202F, U+205F, U+3000. *)
Definition spaces3 : list string :=
  bytes3 225 154 128 ::
  ((fun k => bytes3 226 128 k) <$> [128; 129; 130; 131; 132; 133; 134; 135; 136; 137; 138;
                                    168; 169; 175]) ++
  [bytes3 226 129 159; bytes3 227 128 128].

Definition space_width_of (rev : string -> string) (s : string) : nat :=
  match s with
  | "" => 0
  | String c _ =>
      if ascii_space c then 1
      else if existsb (fun p => HasPrefix s (rev p)) spaces2 then 2
      else if existsb (fun p => HasPrefix s (rev p)) spaces3 then 3
      else 0
  end.

Definition space_width : string -> nat := space_width_of id.
Definition space_width_rev : string -> nat := space_width_of srev.

Fixpoint trim_while (width : string -> nat) (skip : nat) (s : string) : string :=
  match s with
  | "" => ""
  | String _ s' =>
      match skip with
      | S k => trim_while width k s'
      | O => match width s with O => s | S k => trim_while width k s' end
      end
  end.

Definition TrimLeftSpace (s : string) : string := trim_while space_width 0 s.
Definition TrimRightSpace (s : string) : string := srev (trim_while space_width_rev 0 (srev s)).

(** [strings.TrimSpace]. *)
Definition TrimSpace (s : string) : string := TrimRightSpace (TrimLeftSpace s).

(** [strings.TrimRight(s, c)] for one ASCII character. *)
Definition TrimRight_byte (c : ascii) (s : string) : string :=
  srev (trim_while (fun s => match s with String d _ => if Ascii.eqb c d then 1%nat else 0%nat | "" => 0%nat end) 0 (srev s)).

(** [strings.FieldsFunc(s, f)]: the maximal runs without a separator. *)
Fixpoint fields_while (width : string -> nat) (skip : nat) (cur : string) (s : string) : list string :=
  let flush := if String.eqb cur "" then [] else [srev cur] in
  match s with
  | "" => flush
  | String c s' =>
      match skip with
      | S k => fields_while width k cur s'
      | O => match width s with
             | O => fields_while width 0 (String c cur) s'
             | S k => flush ++ fields_while width k "" s'
             end
      end
  end.

Definition FieldsFunc (width : string -> nat) (s : string) : list string :=
  fields_while width 0 "" s.

(** ** Case *)

Definition is_ascii (c : ascii) : bool := ord c <? 128.

Class UnicodeLower := nonascii_lower : string -> string.

(** [strings.ToLower]. *)
Definition ToLower `{UnicodeLower} (s : string) : string :=
  if sall is_ascii s then smap lower_char s else nonascii_lower s.

(** Simple case folding towards ASCII: besides the ASCII letters only U+017F
    (long s) and U+212A (the Kelvin sign) fold to an ASCII letter. [skip] octets
    were consumed by the previous character. *)
Fixpoint fold_ascii (skip : nat) (s : string) : string :=
  match s with
  | "" => ""
  | String c t =>
      match skip with
      | S skip => fold_ascii skip t
      | O =>
          if head_is s (bytes2 197 191) then String "s" (fold_ascii 1 t)
          else if head_is s (bytes3 226 132 170) then String "k" (fold_ascii 2 t)
          else String (lower_char c) (fold_ascii 0 t)
      end
  end.

(** [strings.EqualFold(s, t)] for a constant [t] of ASCII characters. *)
Definition EqualFold (s t : string) : bool := String.eqb (fold_ascii 0 s) (smap lower_char t).

(** ** net.SplitHostPort: [None] for every error *)
Definition SplitHostPort (hostport : string) : option (string * string) :=
  match cut_last ":" hostport with
  | None => None
  | Some (before, port) =>
      match hostport with
      | String "[" rest =>
          match cut_byte "]" rest with
          | None => None
          | Some (host, after) =>
              (* the first ']' must be right before the last ':' *)
              if String.eqb after (String ":" port) then
                if selem "[" rest || selem "]" after then None else Some (host, port)
              else None
          end
      | _ =>
          if selem ":" before || selem "[" hostport || selem "]" hostport then None
          else Some (before, port)
      end
  end.

(** net.JoinHostPort. *)
Definition JoinHostPort (host port : string) : string :=
  if selem ":" host || selem "%" host then "[" +:+ host +:+ "]:" +:+ port
  else host +:+ ":" +:+ port.

(** ** bufio.Scanner over lines *)

Definition newline : ascii := ascii_of_N 10.
Definition carriage_return : ascii := ascii_of_N 13.

(** One trailing carriage return is dropped. *)
Definition dropCR (s : string) : string := TrimSuffix s (String carriage_return "").

(** [bufio.MaxScanTokenSize]: the buffer holds that many octets, and a line
    that fills it is refused. *)
Definition MaxScanTokenSize : Z := 65536.

Fixpoint drop_last_empty (l : list string) : list string :=
  match l with
  | [] => []
  | [s] => if String.eqb s "" then [] else [s]
  | s :: l => s :: drop_last_empty l
  end.

Fixpoint scan_tokens (l : list string) (readErr : option error) : list string * option error :=
  match l with
  | [] => ([], readErr)
  | s :: l =>
      if MaxScanTokenSize <=? zslen s then ([], Some (Sentinel bufio_ErrTooLong))
      else let '(ts, e) := scan_tokens l readErr in (dropCR s :: ts, e)
  end.

(** The tokens [Scan] delivers and what [Err] returns then, for a reader that
    holds [content] and ends with [readErr] ([None] for end of file). *)
Definition Scanner (content : string) (readErr : option error) : list string * option error :=
  scan_tokens (drop_last_empty (split_byte newline content)) readErr.

(** ** Lemmas *)

Lemma sapp_nil_r s : s +:+ "" = s.
Proof. induction s as [|c s IH]; simpl; [done|]. by rewrite IH. Qed.

Lemma sapp_assoc s t u : s +:+ (t +:+ u) = (s +:+ t) +:+ u.
Proof. induction s as [|c s IH]; simpl; [done|]. by rewrite IH. Qed.

Lemma slen_app s t : String.length (s +:+ t) = (String.length s + String.length t)%nat.
Proof. induction s as [|c s IH]; simpl; [done|]. by rewrite IH. Qed.

Lemma srev_app_spec s t : srev_app s t = srev s +:+ t.
Proof.
  unfold srev. revert t. induction s as [|c s IH]; intros t; simpl; [done|].
  rewrite IH, (IH (String c "")), <-sapp_assoc. done.
Qed.

Lemma srev_cons c s : srev (String c s) = srev s +:+ String c "".
Proof. unfold srev at 1. simpl. apply srev_app_spec. Qed.

Lemma srev_append s t : srev (s +:+ t) = srev t +:+ srev s.
Proof.
  induction s as [|c s IH]; simpl; [by rewrite sapp_nil_r|].
  by rewrite !srev_cons, IH, sapp_assoc.
Qed.

Lemma srev_involutive s : srev (srev s) = s.
Proof. induction s as [|c s IH]; [done|]. by rewrite srev_cons, srev_append, IH. Qed.

Lemma CutPrefix_spec s p t : CutPrefix s p = Some t <-> s = p +:+ t.
Proof.
  revert s. induction p as [|c p IH]; intros s.
  - destruct s; simpl; naive_solver.
  - destruct s as [|d s]; simpl; [naive_solver|]. destruct (Ascii.eqb_spec c d) as [<-|Hne].
    + rewrite IH. naive_solver.
    + naive_solver.
Qed.

Lemma CutPrefix_app p t : CutPrefix (p +:+ t) p = Some t.
Proof. by apply CutPrefix_spec. Qed.

Lemma HasPrefix_spec s p : HasPrefix s p = true <-> exists t, s = p +:+ t.
Proof.
  unfold HasPrefix. destruct (CutPrefix s p) as [t|] eqn:E.
  - apply CutPrefix_spec in E. naive_solver.
  - split; [done|]. intros [t ->]. by rewrite CutPrefix_app in E.
Qed.

Lemma CutSuffix_spec s suf t : CutSuffix s suf = Some t <-> s = t +:+ suf.
Proof.
  unfold CutSuffix. destruct (CutPrefix (srev s) (srev suf)) as [u|] eqn:E.
  - apply CutPrefix_spec in E. apply (f_equal srev) in E.
    rewrite srev_append, !srev_involutive in E. subst. split; [naive_solver|].
    intros H. apply (f_equal srev) in H. rewrite !srev_append, srev_involutive in H.
    f_equal. rewrite <-(srev_involutive t). f_equal.
    assert (forall a b c, a +:+ b = a +:+ c -> b = c) as Hinj.
    { intros a. induction a as [|x a IH]; intros b c; simpl; [done|]. intros [= ?]. auto. }
    by apply Hinj in H.
  - split; [done|]. intros ->. by rewrite srev_append, CutPrefix_app in E.
Qed.

Lemma HasSuffix_spec s suf : HasSuffix s suf = true <-> exists t, s = t +:+ suf.
Proof.
  unfold HasSuffix. destruct (CutSuffix s suf) as [t|] eqn:E.
  - apply CutSuffix_spec in E. naive_solver.
  - split; [done|]. intros [t H]. by apply CutSuffix_spec in H as ?; simplify_eq.
Qed.

Lemma cut_byte_spec c s a b :
  cut_byte c s = Some (a, b) <-> s = a +:+ String c b /\ selem c a = false.
Proof.
  revert a b. induction s as [|d s IH]; intros a b; simpl.
  - split; [done|]. intros [H _]. by destruct a.
  - destruct (Ascii.eqb_spec c d) as [<-|Hne].
    + split; [naive_solver|]. intros [H Ha]. destruct a as [|x a]; simplify_eq/=; [done|].
      by rewrite Ascii.eqb_refl in Ha.
    + destruct (cut_byte c s) as [[a' b']|] eqn:E.
      * destruct (proj1 (IH a' b') eq_refl) as [-> Ha'].
        split; [intros; simplify_eq/=; split; [done|]|].
        { by destruct (Ascii.eqb_spec c d). }
        intros [H Ha]. destruct a as [|x a]; simplify_eq/=. apply orb_false_iff in Ha as [_ Ha].
        assert (Some (a', b') = Some (a, b)) as ?; [|by simplify_eq].
        apply IH. naive_solver.
      * split; [done|]. intros [H Ha]. destruct a as [|x a]; simplify_eq/=.
        apply orb_false_iff in Ha as [_ Ha].
        assert (None = Some (a, b)) by (apply IH; naive_solver). done.
Qed.

Lemma cut_byte_app c a b : selem c a = false -> cut_byte c (a +:+ String c b) = Some (a, b).
Proof. intros Ha. by apply cut_byte_spec. Qed.

Lemma sall_app p s t : sall p (s +:+ t) = sall p s && sall p t.
Proof. induction s as [|c s IH]; simpl; [done|]. by rewrite IH, andb_assoc. Qed.

Lemma selem_app c s t : selem c (s +:+ t) = selem c s || selem c t.
Proof. induction s as [|d s IH]; simpl; [done|]. by rewrite IH, orb_assoc. Qed.

Lemma sall_impl (p q : ascii -> bool) s :
  (forall c, p c = true -> q c = true) -> sall p s = true -> sall q s = true.
Proof.
  intros Hpq. induction s as [|c s IH]; simpl; [done|]. rewrite !andb_true_iff. naive_solver.
Qed.

Lemma sall_srev p s : sall p (srev s) = sall p s.
Proof.
  induction s as [|c s IH]; [done|]. rewrite srev_cons, sall_app, IH. simpl.
  by rewrite andb_true_r, andb_comm.
Qed.

Lemma sall_selem p c s : sall p s = true -> p c = false -> selem c s = false.
Proof.
  intros Hs Hc. induction s as [|d s IH]; simpl in *; [done|]. bool_props.
  destruct (Ascii.eqb_spec c d) as [<-|]; [congruence|auto].
Qed.

(** A string of visible ASCII characters has no space to trim. *)
Definition visible (c : ascii) : bool := in_range 33 126 c.

Lemma no_space_head (rev : string -> string) (l : list string) c s :
  visible c = true ->
  forallb (fun p => match rev p with String x _ => 128 <=? ord x | "" => false end) l = true ->
  existsb (fun p => HasPrefix (String c s) (rev p)) l = false.
Proof.
  intros Hc Hl. induction l as [|p l IH]; simpl in *; [done|]. bool_props.
  apply orb_false_iff; split; [|auto]. destruct (rev p) as [|x q]; [done|]. bool_props.
  unfold HasPrefix. simpl. destruct (Ascii.eqb_spec x c) as [->|]; [|done].
  unfold visible, in_range in Hc. bool_props. lia.
Qed.

Lemma visible_width rev s c :
  (rev = id \/ rev = srev) -> visible c = true -> space_width_of rev (String c s) = 0%nat.
Proof.
  intros Hrev Hc. unfold space_width_of.
  assert (ascii_space c = false) as ->.
  { unfold visible, ascii_space, in_range in *. bool_props.
    apply orb_false_iff; split; apply andb_false_iff; rewrite !Z.leb_gt; lia. }
  rewrite !no_space_head; try done; destruct Hrev as [-> | ->]; by vm_compute.
Qed.

Lemma trim_while_visible rev s :
  (rev = id \/ rev = srev) -> sall visible s = true -> trim_while (space_width_of rev) 0 s = s.
Proof.
  intros Hrev Hs. destruct s as [|c s]; [done|]. simpl in Hs. bool_props.
  cbn [trim_while]. by rewrite visible_width.
Qed.

Lemma TrimSpace_visible s : sall visible s = true -> TrimSpace s = s.
Proof.
  intros Hs. unfold TrimSpace, TrimRightSpace, TrimLeftSpace, space_width, space_width_rev.
  rewrite (trim_while_visible id) by auto.
  rewrite (trim_while_visible srev) by (rewrite ?sall_srev; auto). apply srev_involutive.
Qed.

(** ** Samples *)

Example TrimSpace_sample : TrimSpace (bytes2 194 160 +:+ " a b" +:+ bytes3 226 128 137) = "a b".
Proof. reflexivity. Qed.

Example SplitHostPort_sample :
  SplitHostPort <$> ["a.b:80"; "[::1]:80"; "[::]"; "a:b:80"; "a"; "[a]x:1"; ":7001"] =
  [Some ("a.b", "80"); Some ("::1", "80"); None; None; None; None; Some ("", "7001")].
Proof. reflexivity. Qed.

Example FieldsFunc_sample : FieldsFunc space_width " hop  tok_1 " = ["hop"; "tok_1"].
Proof. reflexivity. Qed.

(** ** strconv *)

Fixpoint digits_value (acc : Z) (s : string) : option Z :=
  match s with
  | "" => Some acc
  | String c s => if is_digit c then digits_value (acc * 10 + (ord c - 48)) s else None
  end.

(** A decimal integer with an optional sign, in the range of [w] bits signed:
    [strconv.ParseInt(s, 10, w)], and [strconv.Atoi] with [w = 64]. *)
Definition ParseInt (w : Z) (s : string) : option Z :=
  let '(neg, body) := match s with
                      | String c t => if Ascii.eqb c "-" then (true, t)
                                      else if Ascii.eqb c "+" then (false, t) else (false, s)
                      | "" => (false, "")
                      end in
  if String.eqb body "" then None
  else match digits_value 0 body with
       | None => None
       | Some v =>
           let v := if neg : bool then - v else v in
           if (- 2 ^ (w - 1) <=? v) && (v <? 2 ^ (w - 1)) then Some v else None
       end.

Example ParseInt_sample :
  ParseInt 64 <$> ["42"; "-7"; "+3"; ""; "1x"; "9223372036854775808"] =
  [Some 42; Some (-7); Some 3; None; None; None].
Proof. reflexivity. Qed.

(** What [strconv.ParseInt(s, 10, 64)] and [strconv.Atoi] return: a value, or an
    error and the value that comes with it (0, or the nearest bound). *)
Inductive number := NumOk (v : Z) | NumSyntax | NumRange (v : Z).

Definition num_value (n : number) : Z :=
  match n with NumOk v | NumRange v => v | NumSyntax => 0 end.

(** [ParseUint]: the overflow of 64 bits is noticed before what follows. *)
Fixpoint uint_digits (acc : Z) (s : string) : number :=
  match s with
  | "" => NumOk acc
  | String c s =>
      if is_digit c then
        let v := acc * 10 + (ord c - 48) in
        if 2 ^ 64 <=? v then NumRange (2 ^ 64 - 1) else uint_digits v s
      else NumSyntax
  end.

Definition split_sign (s : string) : bool * string :=
  match s with
  | String c t => if Ascii.eqb c "-" then (true, t)
                  else if Ascii.eqb c "+" then (false, t) else (false, s)
  | "" => (false, "")
  end.

Definition clip (neg : bool) (n : number) : number :=
  match n with
  | NumSyntax => NumSyntax
  | NumOk v | NumRange v =>
      if negb neg && (2 ^ 63 <=? v) then NumRange (2 ^ 63 - 1)
      else if neg && (2 ^ 63 <? v) then NumRange (- 2 ^ 63)
      else NumOk (if neg then - v else v)
  end.

Definition Atoi (s : string) : number :=
  let '(neg, body) := split_sign s in
  if String.eqb body "" then NumSyntax else clip neg (uint_digits 0 body).

Example Atoi_sample :
  Atoi <$> ["42"; "-7"; ""; "-"; "1x"; "9223372036854775808"; "99999999999999999999x"; "-99999999999999999999"] =
  [NumOk 42; NumOk (-7); NumSyntax; NumSyntax; NumSyntax; NumRange (2 ^ 63 - 1); NumRange (2 ^ 63 - 1);
   NumRange (- 2 ^ 63)].
Proof. reflexivity. Qed.

(** [strconv.ParseBool]. *)
Definition ParseBool (s : string) : option bool :=
  if existsb (String.eqb s) ["1"; "t"; "T"; "true"; "TRUE"; "True"] then Some true
  else if existsb (String.eqb s) ["0"; "f"; "F"; "false"; "FALSE"; "False"] then Some false
  else None.

(** *** [strconv.ParseInt(s, 0, 64)]: a base prefix, and underscores between digits *)

Definition lower_bit (c : ascii) : Z := Z.lor (ord c) 32.

Definition base_prefix (s : string) : Z * string :=
  match s with
  | String "0" (String b (String _ _ as t)) =>
      let l := lower_bit b in
      if l =? 98 then (2, t) else if l =? 111 then (8, t) else if l =? 120 then (16, t)
      else (8, String b t)
  | String "0" t => (8, t)
  | _ => (10, s)
  end.

Definition digit_of (c : ascii) : option Z :=
  if is_digit c then Some (ord c - 48)
  else if (97 <=? lower_bit c) && (lower_bit c <=? 122) then Some (lower_bit c - 87) else None.

Fixpoint base_digits (base acc : Z) (s : string) : option Z :=
  match s with
  | "" => Some acc
  | String c s =>
      if Ascii.eqb c "_" then base_digits base acc s
      else match digit_of c with
           | Some d => if base <=? d then None
                       else if 2 ^ 64 <=? acc * base + d then None else base_digits base (acc * base + d) s
           | None => None
           end
  end.

(** [underscoreOK], from its loop: [prev] is '0' after a digit or a base prefix,
    '_' after an underscore, and another character at the start. *)
Fixpoint underscores_ok (hex : bool) (prev : ascii) (s : string) : bool :=
  match s with
  | "" => negb (Ascii.eqb prev "_")
  | String c s =>
      if is_digit c || (hex && (97 <=? lower_bit c) && (lower_bit c <=? 102)) then underscores_ok hex "0" s
      else if Ascii.eqb c "_" then if Ascii.eqb prev "0" then underscores_ok hex "_" s else false
      else if Ascii.eqb prev "_" then false else underscores_ok hex "!" s
  end.

Definition underscoreOK (s : string) : bool :=
  match s with
  | String "0" (String b t) =>
      let l := lower_bit b in
      if (l =? 98) || (l =? 111) || (l =? 120) then underscores_ok (l =? 120) "0" t
      else underscores_ok false "^" s
  | _ => underscores_ok false "^" s
  end.

Definition ParseInt0 (s : string) : option Z :=
  let '(neg, body) := split_sign s in
  if String.eqb body "" then None
  else
    let '(base, ds) := base_prefix body in
    match base_digits base 0 ds with
    | None => None
    | Some v =>
        if selem "_" body && negb (underscoreOK body) then None
        else match clip neg (NumOk v) with NumOk v => Some v | _ => None end
    end.

Example ParseInt0_sample :
  ParseInt0 <$> ["32"; "-0x1F"; "0b101"; "017"; "1_000"; "1__0"; "0x"; "08"; "0"; "_1"; "0_7"; "1e3"] =
  [Some 32; Some (-31); Some 5; Some 15; Some 1000; None; None; None; Some 0; None; Some 7; None].
Proof. reflexivity. Qed.
