(* ===== verification/GoFmt.v ===== *)
(** * Formatting: the Go standard library's fmt, time and unicode/utf8

    The verbs and widths the terminal interface and the commands print with:
    [%-Ns] and [%Nd], clock times, durations of whole seconds, and the runes of a
    string, which the widths of [fmt] count. *)
From S2P Require Import Prelude GoStr.
From Stdlib Require Import Ascii.

(** ** Runes *)

Definition cont (c : ascii) : bool := in_range 128 191 c.

(** [utf8.DecodeRuneInString]: the number of octets of the rune at the head; an
    octet that starts no valid sequence counts as one rune. *)
Definition rune_width (s : string) : nat :=
  match s with
  | "" => 0%nat
  | String a t =>
      if is_ascii a then 1%nat
      else match t with
           | "" => 1%nat
           | String b t =>
               if in_range 194 223 a then if cont b then 2%nat else 1%nat
               else match t with
                    | "" => 1%nat
                    | String c t =>
                        if in_range 224 239 a then
                          let ok := if ord a =? 224 then in_range 160 191 b
                                    else if ord a =? 237 then in_range 128 159 b else cont b in
                          if ok && cont c then 3%nat else 1%nat
                        else match t with
                             | "" => 1%nat
                             | String d t =>
                                 let ok := if ord a =? 240 then in_range 144 191 b
                                           else if ord a =? 244 then in_range 128 143 b else cont b in
                                 if in_range 240 244 a && ok && cont c && cont d then 4%nat else 1%nat
                             end
                    end
           end
  end.

(** [skip] octets of the current rune are left. *)
Fixpoint rune_count (skip : nat) (s : string) : nat :=
  match s with
  | "" => O
  | String c t =>
      match skip with
      | S k => rune_count k t
      | O => S (rune_count (pred (rune_width s)) t)
      end
  end.

Definition RuneCountInString (s : string) : nat := rune_count 0 s.

Example RuneCountInString_sample :
  RuneCountInString <$> ["abc"; "→ ●"; "é"; bytes2 226 134; bytes2 195 40] = [3; 3; 1; 2; 2]%nat.
Proof. reflexivity. Qed.

(** ** Padding *)

(** [strings.Repeat(" ", n)]. *)
Fixpoint blanks (n : nat) : string := match n with O => "" | S n => String " " (blanks n) end.

(** [fmt]'s [%-ws] and [%ws]. *)
Definition pad_right (w : nat) (s : string) : string := s +:+ blanks (w - RuneCountInString s).
Definition pad_left (w : nat) (s : string) : string := blanks (w - RuneCountInString s) +:+ s.

(** [%0wd] of a number that is not negative. *)
Fixpoint zeros (n : nat) : string := match n with O => "" | S n => String "0" (zeros n) end.
Definition pad_zero (w : nat) (n : Z) : string := zeros (w - String.length (pretty n)) +:+ pretty n.

(** ** Times *)

(** The offset of local time from UTC, in seconds, at an instant. *)
Class LocalTime := local_offset : Z -> Z.

(** [t.Format("15:04:05")] of a time in nanoseconds. *)
Definition clock_text `{LocalTime} (t : Z) : string :=
  let s := (t / 1000000000 + local_offset t) mod 86400 in
  pad_zero 2 (s / 3600) +:+ ":" +:+ pad_zero 2 (s / 60 mod 60) +:+ ":" +:+ pad_zero 2 (s mod 60).

(** [time.ParseDuration]. *)
Class ParseDuration := parse_duration : string -> result Z.

(** [d.Round(time.Second)]: the nearest multiple, away from zero on a tie. *)
Definition Round_second (d : Z) : Z :=
  let m := 1000000000 in
  let r := Z.rem d m in
  if d <? 0 then (if - r + - r <? m then d - r else Z.max (d - m - r) (- 2 ^ 63))
  else (if r + r <? m then d - r else Z.min (d + m - r) (2 ^ 63 - 1)).

(** [d.String()] of a whole number [n] of seconds. *)
Definition seconds_text (n : Z) : string :=
  let sign := if n <? 0 then "-" else "" in
  let u := Z.abs n in
  let secs := pretty (u mod 60) +:+ "s" in
  let mins := u / 60 in
  sign +:+ (if mins =? 0 then secs
            else if mins / 60 =? 0 then pretty mins +:+ "m" +:+ secs
            else pretty (mins / 60) +:+ "h" +:+ pretty (mins mod 60) +:+ "m" +:+ secs).

(** The fraction of a unit, without the zeros at its end. *)
Fixpoint strip_zeros (s : string) : string :=
  match s with
  | "" => ""
  | String c s =>
      let t := strip_zeros s in
      if Ascii.eqb c "0" && String.eqb t "" then "" else String c t
  end.
Definition frac_text (prec : nat) (n : Z) : string :=
  let t := strip_zeros (pad_zero prec n) in if String.eqb t "" then "" else "." +:+ t.

(** [d.String()]. *)
Definition Duration_String (d : Z) : string :=
  let u := Z.abs d in
  let sign := if d <? 0 then "-" else "" in
  let secs := pretty (u / 1000000000 mod 60) +:+ frac_text 9 (u mod 1000000000) +:+ "s" in
  let mins := u / 60000000000 in
  if u =? 0 then "0s"
  else sign +:+
    (if u <? 1000 then pretty u +:+ "ns"
     else if u <? 1000000 then pretty (u / 1000) +:+ frac_text 3 (u mod 1000) +:+ "µs"
     else if u <? 1000000000 then pretty (u / 1000000) +:+ frac_text 6 (u mod 1000000) +:+ "ms"
     else if mins =? 0 then secs
     else if mins / 60 =? 0 then pretty mins +:+ "m" +:+ secs
     else pretty (mins / 60) +:+ "h" +:+ pretty (mins mod 60) +:+ "m" +:+ secs).

Example Duration_String_sample :
  Duration_String <$> [0; 1; 1100; 2200000; 300000000; 1500000000; 60000000000; 3723000000001; -5000000000] =
    ["0s"; "1ns"; "1.1µs"; "2.2ms"; "300ms"; "1.5s"; "1m0s"; "1h2m3.000000001s"; "-5s"].
Proof. vm_compute. reflexivity. Qed.

(** [strconv.Quote], which is [%q]. *)
Class Quote := go_quote : string -> string.

Example seconds_text_sample :
  seconds_text <$> [0; 10; 60; 3600; 90061; -5] = ["0s"; "10s"; "1m0s"; "1h0m0s"; "25h1m1s"; "-5s"].
Proof. reflexivity. Qed.

Example clock_text_sample :
  @clock_text (fun _ => 3600) 1700000000000000000 = "23:13:20" /\
  Round_second <$> [1499999999; 1500000000; -1500000000; -400000000] = [1000000000; 2000000000; -2000000000; 0].
Proof. split; reflexivity. Qed.

(** ** Lemmas *)

Lemma slen_blanks n : String.length (blanks n) = n.
Proof. induction n; simpl; congruence. Qed.

Lemma slen_blanks_rune n t : rune_count 0 (blanks n +:+ t) = (n + rune_count 0 t)%nat.
Proof. induction n as [|n IH]; [done|]. simpl. by rewrite IH. Qed.

(** ASCII text has a rune per octet, whatever follows. *)
Lemma rune_count_ascii s t : sall is_ascii s = true -> rune_count 0 (s +:+ t) = (String.length s + rune_count 0 t)%nat.
Proof.
  induction s as [|c s IH]; [done|]. cbn [sall]. intros [Hc Hs]%andb_true_iff.
  cbn [String.append rune_count rune_width]. rewrite Hc. simpl. by rewrite IH.
Qed.

Lemma sall_substring p n s : sall p s = true -> sall p (String.substring 0 n s) = true.
Proof.
  revert n. induction s as [|c s IH]; intros [|n]; try done. simpl.
  intros [-> Hs]%andb_true_iff. by rewrite IH.
Qed.

Lemma slen_substring n s : (n <= String.length s)%nat -> String.length (String.substring 0 n s) = n.
Proof. revert n. induction s as [|c s IH]; intros [|n] Hn; simpl in *; try lia. by rewrite IH by lia. Qed.

Lemma RuneCount_ascii s : sall is_ascii s = true -> RuneCountInString s = String.length s.
Proof.
  intros Hs. unfold RuneCountInString. induction s as [|c s IH]; [done|]. simpl in Hs.
  apply andb_true_iff in Hs as [Hc Hs]. cbn [rune_count rune_width]. rewrite Hc. simpl. by rewrite IH.
Qed.

Lemma blanks_ascii n : sall is_ascii (blanks n) = true.
Proof. by induction n. Qed.

(** A printed integer has only digits and a sign. *)
Definition number_char (c : ascii) : bool := is_digit c || Ascii.eqb c "-".

Lemma pretty_N_chars n : sall number_char (pretty (n : N)) = true.
Proof.
  assert (forall x s, sall number_char s = true -> sall number_char (pretty_N_go x s) = true) as Hgo.
  { intros x. induction (N.lt_wf_0 x) as [x _ IH]. intros s Hs.
    assert (x = 0 \/ 0 < x)%N as [->|Hx] by lia; [by rewrite pretty_N_go_0|].
    rewrite pretty_N_go_step by done. apply IH; [by apply N.div_lt|]. cbn [sall]. rewrite Hs, andb_true_r.
    unfold pretty_N_char. by repeat case_match. }
  unfold pretty, pretty_N. case_decide; [done|]. by apply Hgo.
Qed.

Lemma pretty_Z_chars (z : Z) : sall number_char (pretty z) = true.
Proof.
  unfold pretty, pretty_Z. destruct z as [|p|p]; [done|apply (pretty_N_chars (N.pos p))|].
  cbn [String.append sall]. by rewrite (pretty_N_chars (N.pos p) : sall number_char (pretty p) = true).
Qed.

(** Numbers with a separator behind each are read unambiguously. *)
Lemma number_sep_inj c (z1 z2 : Z) s1 s2 :
  number_char c = false -> pretty z1 +:+ String c s1 = pretty z2 +:+ String c s2 -> z1 = z2 /\ s1 = s2.
Proof.
  intros Hc Heq. assert (forall z : Z, selem c (pretty z) = false) as Hno
    by (intros z; apply (sall_selem number_char); [apply pretty_Z_chars|done]).
  pose proof (cut_byte_app c (pretty z1) s1 (Hno z1)) as H1. rewrite Heq, cut_byte_app in H1 by apply Hno.
  injection H1 as Hp ->. split; [|done]. symmetry. by apply (inj pretty).
Qed.
