(* ===== verification/GoText.v ===== *)
(** * Lines and white space: lemmas on the Go string functions

    For ASCII text, [strings.TrimSpace] is dropping the six space characters at
    both ends; and splitting a text at line feeds and joining the lines are
    inverse to each other. *)
From Stdlib Require Import Ascii.
From S2P Require Import Prelude GoStr.

(** ** Trimming ASCII text *)

Fixpoint drop_spaces (s : string) : string :=
  match s with
  | "" => ""
  | String c t => if ascii_space c then drop_spaces t else s
  end.

Lemma ascii_head (rev : string -> string) (l : list string) c s :
  is_ascii c = true ->
  forallb (fun p => match rev p with String x _ => 128 <=? ord x | "" => false end) l = true ->
  existsb (fun p => HasPrefix (String c s) (rev p)) l = false.
Proof.
  intros Hc Hl. induction l as [|p l IH]; simpl in *; [done|]. bool_props.
  apply orb_false_iff; split; [|auto]. destruct (rev p) as [|x q]; [done|]. bool_props.
  unfold HasPrefix. simpl. destruct (Ascii.eqb_spec x c) as [->|]; [|done].
  unfold is_ascii in Hc. bool_props. lia.
Qed.

Lemma ascii_width rev c s :
  (rev = id \/ rev = srev) -> is_ascii c = true ->
  space_width_of rev (String c s) = if ascii_space c then 1%nat else 0%nat.
Proof.
  intros Hrev Hc. unfold space_width_of. destruct (ascii_space c); [done|].
  rewrite !ascii_head; try done; destruct Hrev as [-> | ->]; by vm_compute.
Qed.

Lemma trim_ascii rev s :
  (rev = id \/ rev = srev) -> sall is_ascii s = true -> trim_while (space_width_of rev) 0 s = drop_spaces s.
Proof.
  intros Hrev. induction s as [|c s IH]; [done|]. cbn [sall]. intros [Hc Hs]%andb_true_iff.
  cbn [trim_while drop_spaces]. rewrite ascii_width by done. destruct (ascii_space c); [by apply IH|done].
Qed.

Lemma drop_spaces_all p s : sall p s = true -> sall p (drop_spaces s) = true.
Proof.
  induction s as [|c s IH]; [done|]. cbn [sall drop_spaces]. intros [Hc Hs]%andb_true_iff.
  destruct (ascii_space c); [auto|]. cbn [sall]. by rewrite Hc, Hs.
Qed.

Definition trim_right (s : string) : string := srev (drop_spaces (srev s)).

Lemma TrimSpace_ascii s : sall is_ascii s = true -> TrimSpace s = trim_right (drop_spaces s).
Proof.
  intros Hs. unfold TrimSpace, TrimRightSpace, TrimLeftSpace, space_width, space_width_rev, trim_right.
  rewrite (trim_ascii id) by auto. rewrite (trim_ascii srev); [done|by right|].
  rewrite sall_srev. by apply drop_spaces_all.
Qed.

Lemma TrimSpace_all s : sall is_ascii s = true -> sall is_ascii (TrimSpace s) = true.
Proof.
  intros Hs. rewrite TrimSpace_ascii by done. unfold trim_right. rewrite sall_srev.
  apply drop_spaces_all. rewrite sall_srev. by apply drop_spaces_all.
Qed.

(** Case does not matter to trimming. *)
Lemma lower_char_space c : ascii_space (lower_char c) = ascii_space c.
Proof. destruct c as [[] [] [] [] [] [] [] []]; reflexivity. Qed.

Lemma lower_char_ascii c : is_ascii (lower_char c) = is_ascii c.
Proof. destruct c as [[] [] [] [] [] [] [] []]; reflexivity. Qed.

Lemma smap_app f s t : smap f (s +:+ t) = smap f s +:+ smap f t.
Proof. induction s as [|c s IH]; [done|]. cbn [String.append smap]. by rewrite IH. Qed.

Lemma smap_srev f s : smap f (srev s) = srev (smap f s).
Proof. induction s as [|c s IH]; [done|]. cbn [smap]. by rewrite !srev_cons, smap_app, IH. Qed.

Lemma drop_spaces_lower s : drop_spaces (smap lower_char s) = smap lower_char (drop_spaces s).
Proof.
  induction s as [|c s IH]; [done|]. cbn [smap drop_spaces]. rewrite lower_char_space.
  by destruct (ascii_space c).
Qed.

Lemma smap_lower_ascii s : sall is_ascii (smap lower_char s) = sall is_ascii s.
Proof. induction s as [|c s IH]; [done|]. cbn [smap sall]. by rewrite lower_char_ascii, IH. Qed.

Lemma TrimSpace_lower s :
  sall is_ascii s = true -> TrimSpace (smap lower_char s) = smap lower_char (TrimSpace s).
Proof.
  intros Hs. rewrite !TrimSpace_ascii by (by rewrite ?smap_lower_ascii). unfold trim_right.
  by rewrite drop_spaces_lower, <-smap_srev, drop_spaces_lower, smap_srev.
Qed.

(** A space at the end does not matter. *)
Lemma drop_spaces_snoc s c :
  ascii_space c = true ->
  drop_spaces (s +:+ String c "") = "" /\ drop_spaces s = "" \/
  drop_spaces (s +:+ String c "") = drop_spaces s +:+ String c "".
Proof.
  intros Hc. induction s as [|d s IH]; cbn [String.append drop_spaces]; [rewrite Hc; by left|].
  destruct (ascii_space d); [done|by right].
Qed.

Lemma TrimSpace_snoc s c :
  sall is_ascii s = true -> ascii_space c = true -> is_ascii c = true -> TrimSpace (s +:+ String c "") = TrimSpace s.
Proof.
  intros Hs Hc Ha. rewrite !TrimSpace_ascii; [|done|by rewrite sall_app, Hs; cbn [sall]; rewrite Ha].
  destruct (drop_spaces_snoc s c Hc) as [[-> ->]| ->]; [done|]. unfold trim_right.
  rewrite srev_append. change (srev (String c "")) with (String c ""). cbn [String.append drop_spaces]. by rewrite Hc.
Qed.

Lemma dropCR_cases s : dropCR s = s \/ s = dropCR s +:+ String carriage_return "".
Proof.
  unfold dropCR, TrimSuffix. destruct (CutSuffix s _) as [t|] eqn:Ht; [|by left].
  apply CutSuffix_spec in Ht. by right.
Qed.

Lemma TrimSpace_dropCR s : sall is_ascii s = true -> TrimSpace (dropCR s) = TrimSpace s.
Proof.
  intros Hs. destruct (dropCR_cases s) as [->|Heq]; [done|]. rewrite Heq at 2. rewrite TrimSpace_snoc; try done.
  rewrite Heq, sall_app in Hs. by apply andb_true_iff in Hs as [? _].
Qed.

(** ** Lower case and folding of ASCII text *)

Lemma ToLower_ascii `{UnicodeLower} s : sall is_ascii s = true -> ToLower s = smap lower_char s.
Proof. unfold ToLower. by intros ->. Qed.

Lemma fold_ascii_ascii s : sall is_ascii s = true -> fold_ascii 0 s = smap lower_char s.
Proof.
  induction s as [|c s IH]; [done|]. cbn [sall]. intros [Hc Hs]%andb_true_iff. cbn [fold_ascii smap]. unfold head_is.
  assert (forall x t, ord x >= 128 -> HasPrefix (String c s) (String x t) = false) as Hno.
  { intros x t Hx. unfold HasPrefix. simpl. destruct (Ascii.eqb_spec x c) as [->|]; [|done].
    unfold is_ascii in Hc. bool_props. lia. }
  unfold bytes2, bytes3. rewrite !Hno by (vm_compute; done). by rewrite IH.
Qed.

(** ** Lines *)

Lemma split_byte_ne c s : split_byte c s <> [].
Proof. destruct s as [|d s]; simpl; [done|]. destruct (Ascii.eqb c d); [done|]. by destruct (split_byte c s). Qed.

Lemma split_byte_app c a b : split_byte c (a +:+ String c b) = split_byte c a ++ split_byte c b.
Proof.
  induction a as [|d a IH]; cbn [String.append split_byte].
  - by rewrite Ascii.eqb_refl.
  - rewrite IH. destruct (Ascii.eqb c d); [done|]. pose proof (split_byte_ne c a). by destruct (split_byte c a).
Qed.

Lemma split_byte_none c s : selem c s = false -> split_byte c s = [s].
Proof.
  induction s as [|d s IH]; [done|]. cbn [selem split_byte]. intros [Hd Hs]%orb_false_iff. by rewrite Hd, IH.
Qed.

Lemma split_byte_lines c s : Forall (fun l => selem c l = false) (split_byte c s).
Proof.
  induction s as [|d s IH]; cbn [split_byte]; [by repeat constructor|].
  destruct (Ascii.eqb c d) eqn:Hd; [by constructor|]. destruct IH as [|l ls Hl Hls].
  - constructor; [|done]. cbn [selem]. by rewrite Hd.
  - constructor; [|done]. cbn [selem]. by rewrite Hd.
Qed.

Lemma split_byte_all c p s : sall p s = true -> Forall (fun l => sall p l = true) (split_byte c s).
Proof.
  induction s as [|d s IH]; cbn [split_byte sall]; [by repeat constructor|]. intros [Hd Hs]%andb_true_iff.
  specialize (IH Hs). destruct (Ascii.eqb c d); [by constructor|]. destruct IH as [|l ls Hl Hls].
  - constructor; [|done]. cbn [sall]. by rewrite Hd.
  - constructor; [|done]. cbn [sall]. by rewrite Hd.
Qed.

Lemma split_join c ls :
  ls <> [] -> Forall (fun l => selem c l = false) ls -> split_byte c (sjoin (String c "") ls) = ls.
Proof.
  intros Hne Hl. induction Hl as [|l ls Hl Hls IH]; [done|]. destruct ls as [|l' ls]; [by apply split_byte_none|].
  change (sjoin (String c "") (l :: l' :: ls)) with (l +:+ String c "" +:+ sjoin (String c "") (l' :: ls)).
  change (String c "" +:+ sjoin (String c "") (l' :: ls)) with (String c (sjoin (String c "") (l' :: ls))).
  rewrite split_byte_app, IH by done. by rewrite split_byte_none.
Qed.

(** [strings.TrimRight] of a character only takes that character. *)
Fixpoint srepeat (c : ascii) (n : nat) : string := match n with O => "" | S n => String c (srepeat c n) end.

Lemma srev_srepeat c n : srev (srepeat c n) = srepeat c n.
Proof.
  assert (forall m, srepeat c m +:+ String c "" = String c (srepeat c m)) as Hs
    by (intros m; induction m as [|m IH]; cbn [srepeat String.append]; [done|by rewrite IH]).
  induction n as [|n IH]; [done|]. cbn [srepeat]. by rewrite srev_cons, IH, Hs.
Qed.

Lemma TrimRight_byte_spec c s : exists n, s = TrimRight_byte c s +:+ srepeat c n.
Proof.
  unfold TrimRight_byte. set (w := fun s : string => _).
  assert (forall t, exists n, t = srepeat c n +:+ trim_while w 0 t) as Ht.
  { induction t as [|d t [n IH]]; [by exists 0%nat|]. cbn [trim_while].
    assert (w (String d t) = if Ascii.eqb c d then 1%nat else 0%nat) as -> by done.
    destruct (Ascii.eqb_spec c d) as [<-|]; [|by exists 0%nat]. exists (S n). cbn [srepeat String.append]. by rewrite <-IH. }
  destruct (Ht (srev s)) as [n Hn]. exists n. apply (f_equal srev) in Hn.
  by rewrite srev_involutive, srev_append, srev_srepeat in Hn.
Qed.

Lemma split_srepeat c s n : split_byte c (s +:+ srepeat c n) = split_byte c s ++ replicate n "".
Proof.
  revert s. induction n as [|n IH]; intros s; cbn [srepeat replicate]; [by rewrite sapp_nil_r, app_nil_r|].
  rewrite split_byte_app. specialize (IH ""). cbn [String.append split_byte] in IH. by rewrite IH.
Qed.

(** ** The scanner on lines that are short enough *)

Definition short (s : string) : Prop := zslen s < MaxScanTokenSize.

Lemma scan_tokens_short ls e : Forall short ls -> scan_tokens ls e = (dropCR <$> ls, e).
Proof.
  induction 1 as [|l ls Hl _ IH]; [done|]. cbn [scan_tokens]. rewrite IH. unfold short in Hl.
  by rewrite (proj2 (Z.leb_gt _ _)).
Qed.

Lemma drop_last_empty_cases ls : drop_last_empty ls = ls \/ ls = drop_last_empty ls ++ [""].
Proof.
  induction ls as [|l ls IH]; [by left|]. destruct ls as [|l' ls].
  - cbn [drop_last_empty]. destruct (String.eqb_spec l "") as [->|]; [by right|by left].
  - change (drop_last_empty (l :: l' :: ls)) with (l :: drop_last_empty (l' :: ls)).
    destruct IH as [IH|IH]; [left|right]; [by rewrite IH|]. cbn [app]. by rewrite <-IH.
Qed.
