(* ===== verification/Encoding.v ===== *)
(** * Encodings of the Go standard library

    [base64.RawURLEncoding], [hex.EncodeToString], and the interfaces of what is
    not reproduced here: HMAC-SHA256 ([Hmac]) and [encoding/json] ([JSON]), of
    which only the round trip on encodable values is used ([JSONLaws]). *)
From S2P Require Import Prelude GoStr.
From Stdlib Require Import Ascii.

(** ** Base64, unpadded, URL alphabet *)

Definition b64_char (z : Z) : ascii :=
  ascii_of_N (Z.to_N (if z <? 26 then 65 + z
                      else if z <? 52 then 97 + (z - 26)
                      else if z <? 62 then 48 + (z - 52)
                      else if z =? 62 then 45 else 95)).

Definition b64_value (c : ascii) : option Z :=
  if is_upper c then Some (ord c - 65)
  else if is_lower c then Some (ord c - 97 + 26)
  else if is_digit c then Some (ord c - 48 + 52)
  else if ord c =? 45 then Some 62
  else if ord c =? 95 then Some 63
  else None.

(** The six-bit groups of a sequence of bytes. *)
Fixpoint sextets (b : list Byte.byte) : list Z :=
  match b with
  | [] => []
  | [x] => let v := byte_to_Z x * 65536 in [v / 262144; v / 4096 mod 64]
  | [x; y] =>
      let v := byte_to_Z x * 65536 + byte_to_Z y * 256 in
      [v / 262144; v / 4096 mod 64; v / 64 mod 64]
  | x :: y :: z :: b =>
      let v := byte_to_Z x * 65536 + byte_to_Z y * 256 + byte_to_Z z in
      [v / 262144; v / 4096 mod 64; v / 64 mod 64; v mod 64] ++ sextets b
  end.

(** A group of two or three characters ends the text, its spare bits ignored;
    one of a single character is an error. *)
Fixpoint unsextets (l : list Z) : option (list Byte.byte) :=
  match l with
  | [] => Some []
  | [_] => None
  | [p; q] => let v := p * 262144 + q * 4096 in Some [byte_of_Z (v / 65536)]
  | [p; q; r] =>
      let v := p * 262144 + q * 4096 + r * 64 in
      Some [byte_of_Z (v / 65536); byte_of_Z (v / 256)]
  | p :: q :: r :: s :: l =>
      let v := p * 262144 + q * 4096 + r * 64 + s in
      match unsextets l with
      | Some b => Some (byte_of_Z (v / 65536) :: byte_of_Z (v / 256) :: byte_of_Z v :: b)
      | None => None
      end
  end.

Fixpoint chars_of (l : list Z) : string :=
  match l with
  | [] => ""
  | z :: l => String (b64_char z) (chars_of l)
  end.

(** Line ends are skipped wherever they are. *)
Fixpoint values_of (s : string) : option (list Z) :=
  match s with
  | "" => Some []
  | String c s =>
      if (ord c =? 10) || (ord c =? 13) then values_of s
      else match b64_value c, values_of s with
           | Some z, Some l => Some (z :: l)
           | _, _ => None
           end
  end.

Definition EncodeToString (b : list Byte.byte) : string := chars_of (sextets b).

Definition CorruptInputError : error := errors_New "illegal base64 data".

Definition DecodeString (s : string) : result (list Byte.byte) :=
  match values_of s with
  | Some l => match unsextets l with Some b => Ok b | None => Err CorruptInputError end
  | None => Err CorruptInputError
  end.

(** ** Hexadecimal *)

Definition hex_char (z : Z) : ascii :=
  ascii_of_N (Z.to_N (if z <? 10 then 48 + z else 97 + (z - 10))).

Fixpoint hex_EncodeToString (b : list Byte.byte) : string :=
  match b with
  | [] => ""
  | x :: b => String (hex_char (byte_to_Z x / 16)) (String (hex_char (byte_to_Z x mod 16))
                (hex_EncodeToString b))
  end.

(** ** Parameters *)

(** HMAC-SHA256 of a message under a key. *)
Class Hmac := hmac_sha256 : list Byte.byte -> list Byte.byte -> list Byte.byte.

(** [json.Marshal] and [json.Unmarshal] at one Go type. *)
Class JSON (A : Type) := {
  json_Marshal : A -> result (list Byte.byte);
  json_Unmarshal : list Byte.byte -> result A
}.

(** What is relied on: [json_valid] values (every string is valid UTF-8) survive
    the round trip, the text has no line feed, and white space after it is
    ignored. *)
Class JSONLaws (A : Type) `{JSON A} (json_valid : A -> Prop) := {
  json_roundtrip a : json_valid a ->
    exists b, json_Marshal a = Ok b /\ json_Unmarshal b = Ok a /\ Byte.x0a ∉ b;
  json_trailing b : json_Unmarshal (b ++ [Byte.x0a]) = json_Unmarshal b
}.

(** An instance for the samples: any countable type, as binary digits. *)
Fixpoint digits_of (p : positive) : list Byte.byte :=
  match p with
  | xH => [Byte.x31]
  | xO p => Byte.x30 :: digits_of p
  | xI p => Byte.x31 :: digits_of p
  end.

Fixpoint of_digits (l : list Byte.byte) : option positive :=
  match l with
  | [] => None
  | x :: l =>
      if decide (x = Byte.x0a) then of_digits l
      else match of_digits l with
           | Some p => Some (if decide (x = Byte.x30) then xO p else xI p)
           | None => if decide (x = Byte.x31) then Some xH else None
           end
  end.

Definition countable_json {A} `{Countable A} : JSON A := {|
  json_Marshal a := Ok (digits_of (encode a));
  json_Unmarshal b :=
    match of_digits b ≫= decode with
    | Some a => Ok a
    | None => Err (errors_New "unexpected end of JSON input")
    end
|}.

(** ** Lemmas *)

Lemma of_digits_of p : of_digits (digits_of p) = Some p.
Proof. induction p as [p IH|p IH|]; simpl; [by rewrite IH..|done]. Qed.

Lemma of_digits_trailing l : of_digits (l ++ [Byte.x0a]) = of_digits l.
Proof. induction l as [|x l IH]; simpl; [done|]. by rewrite IH. Qed.

Lemma digits_no_newline p : Byte.x0a ∉ digits_of p.
Proof. induction p; simpl; rewrite ?not_elem_of_cons; split_and?; try done; apply not_elem_of_nil. Qed.

Lemma countable_json_laws {A} `{Countable A} : @JSONLaws A countable_json (fun _ => True).
Proof.
  split.
  - intros a _. exists (digits_of (encode a)). split_and!; [done| |apply digits_no_newline].
    simpl. rewrite of_digits_of. simpl. by rewrite decode_encode.
  - intros b. simpl. by rewrite of_digits_trailing.
Qed.

Definition is_b64 (c : ascii) : bool := if b64_value c is Some _ then true else false.

Lemma all_sextets (P : Z -> bool) :
  forallb P (seqZ 0 64) = true -> forall z, 0 <= z < 64 -> P z = true.
Proof.
  intros H z Hz. rewrite forallb_forall in H. apply H, list_elem_of_In, elem_of_seqZ. lia.
Qed.

Lemma b64_char_value z :
  0 <= z < 64 ->
  b64_value (b64_char z) = Some z /\ ord (b64_char z) <> 10 /\ ord (b64_char z) <> 13.
Proof.
  intros Hz.
  pose proof (all_sextets (fun z =>
    match b64_value (b64_char z) with Some v => v =? z | None => false end &&
    negb (ord (b64_char z) =? 10) && negb (ord (b64_char z) =? 13))
    ltac:(vm_compute; reflexivity) z Hz) as H. cbv beta in H.
  bool_props. destruct (b64_value (b64_char z)); [|done]. bool_props. by subst.
Qed.

Lemma values_of_chars l : Forall (fun z => 0 <= z < 64) l -> values_of (chars_of l) = Some l.
Proof.
  induction 1 as [|z l Hz _ IH]; [done|]. cbn [chars_of values_of].
  destruct (b64_char_value z Hz) as (Hv & H1 & H2).
  apply Z.eqb_neq in H1, H2. by rewrite H1, H2, Hv, IH.
Qed.

(** Induction by groups of three. *)
Lemma list_ind3 {A} (P : list A -> Prop) :
  P [] -> (forall x, P [x]) -> (forall x y, P [x; y]) ->
  (forall x y z l, P l -> P (x :: y :: z :: l)) -> forall l, P l.
Proof.
  intros H0 H1 H2 H3.
  exact (fix IH l := match l with
                     | [] => H0 | [x] => H1 x | [x; y] => H2 x y
                     | x :: y :: z :: l => H3 x y z l (IH l)
                     end).
Qed.

Ltac byte_ranges :=
  repeat match goal with
  | x : Byte.byte |- _ =>
      lazymatch goal with
      | _ : 0 <= byte_to_Z x < 256 |- _ => fail
      | _ => pose proof (byte_to_Z_range x)
      end
  end.

Lemma sextets_range b : Forall (fun z => 0 <= z < 64) (sextets b).
Proof.
  induction b as [|x|x y|x y z b IH] using list_ind3; cbn [sextets app];
    byte_ranges; repeat (constructor; [Z.div_mod_to_equations; lia|]); done.
Qed.

Lemma byte_of_Z_eq x v : v = byte_to_Z x -> byte_of_Z v = x.
Proof. intros ->. apply byte_of_to_Z. Qed.

Lemma byte_of_Z_mod x v : v mod 256 = byte_to_Z x -> byte_of_Z v = x.
Proof. intros H. rewrite <-(byte_of_to_Z x), <-H, <-byte_to_of_Z. by rewrite byte_of_to_Z. Qed.

Lemma unsextets_sextets b : unsextets (sextets b) = Some b.
Proof.
  induction b as [|x|x y|x y z b IH] using list_ind3; cbn [sextets unsextets app];
    byte_ranges; rewrite ?IH;
    repeat match goal with
    | |- Some _ = Some _ => f_equal
    | |- _ :: _ = _ :: _ => apply f_equal2
    | |- byte_of_Z _ = _ => apply byte_of_Z_mod; Z.div_mod_to_equations; lia
    | |- _ => done
    end.
Qed.

Lemma DecodeString_EncodeToString b : DecodeString (EncodeToString b) = Ok b.
Proof.
  unfold DecodeString, EncodeToString. rewrite values_of_chars by apply sextets_range.
  by rewrite unsextets_sextets.
Qed.

Lemma EncodeToString_no_dot b : selem "." (EncodeToString b) = false.
Proof.
  unfold EncodeToString. pose proof (sextets_range b) as H.
  induction H as [|z l Hz _ IH]; [done|]. cbn [chars_of selem]. rewrite IH, orb_false_r.
  pose proof (all_sextets (fun z => negb (Ascii.eqb "." (b64_char z)))
    ltac:(vm_compute; reflexivity) z Hz) as Hd. cbv beta in Hd. by apply negb_true_iff in Hd.
Qed.
