(* ===== verification/Http.v ===== *)
(** * The part of net/http the handlers use

    Headers, requests as the handlers see them (already parsed), and the replies
    they give. A header is an association list with distinct canonical keys;
    Go ranges over it in an unspecified order, so a list stands for any order. *)
From S2P Require Import Prelude GoStr.
From Stdlib Require Import Ascii.

Definition header := list (string * list string).

Fixpoint h_values (h : header) (k : string) : list string :=
  match h with
  | [] => []
  | (k', vs) :: h => if String.eqb k' k then vs else h_values h k
  end.

(** [h.Get(k)]. *)
Definition h_Get (h : header) (k : string) : string :=
  match h_values h k with v :: _ => v | [] => "" end.

(** [h.Del(k)]. *)
Definition h_Del (h : header) (k : string) : header := List.filter (fun p => negb (String.eqb (fst p) k)) h.

(** [h.Set(k, v)]. *)
Definition h_Set (h : header) (k v : string) : header := h_Del h k ++ [(k, [v])].

(** [h.Add(k, v)]. *)
Definition h_Add (h : header) (k v : string) : header := h_Del h k ++ [(k, h_values h k ++ [v])].

(** [http.CanonicalHeaderKey]: of a key made of token characters; other keys are
    left alone. *)
Definition token_char (c : ascii) : bool :=
  is_lower c || is_upper c || is_digit c ||
  existsb (Ascii.eqb c) ["!"; "#"; "$"; "%"; "&"; "'"; "*"; "+"; "-"; "."; "^"; "_"; "`"; "|"; "~"]%char.

Definition upper_char (c : ascii) : ascii :=
  if is_lower c then ascii_of_N (N_of_ascii c - 32) else c.

Fixpoint canonical (up : bool) (s : string) : string :=
  match s with
  | "" => ""
  | String c s => String (if up then upper_char c else lower_char c) (canonical (Ascii.eqb c "-") s)
  end.

Definition CanonicalHeaderKey (s : string) : string :=
  if sall token_char s then canonical true s else s.

(** A request. [q_Query] and [q_Form] are the parsed query and form, [q_Body]
    what reading the body gives ([None] for a nil body). *)
Record Request := mkRequest {
  q_Method : string;
  q_Host : string;
  q_Path : string;                            (** URL.Path *)
  q_RequestURI : string;                      (** URL.RequestURI() *)
  q_Query : string -> option string;          (** URL.Query(): the first value *)
  q_Form : result (string -> string);         (** ParseForm, FormValue *)
  q_Header : header;
  q_Cookies : list (string * string);
  q_ContentLength : Z;
  q_Body : option (string * option error);
  q_RemoteAddr : string;
  q_TLS : bool
}.

Definition with_header (h : header) (r : Request) : Request :=
  mkRequest (q_Method r) (q_Host r) (q_Path r) (q_RequestURI r) (q_Query r) (q_Form r) h
    (q_Cookies r) (q_ContentLength r) (q_Body r) (q_RemoteAddr r) (q_TLS r).

(** [r.FormValue(k)]: a form that does not parse has no values. *)
Definition FormValue (r : Request) (k : string) : string :=
  match q_Form r with Ok f => f k | Err _ => "" end.

(** [r.URL.Query().Get(k)] and [Has(k)]. *)
Definition Query_Get (r : Request) (k : string) : string := default "" (q_Query r k).
Definition Query_Has (r : Request) (k : string) : bool := if q_Query r k is Some _ then true else false.

(** [r.Cookie(name)]: the first one. *)
Definition Cookie (r : Request) (name : string) : option string :=
  snd <$> find (fun p => String.eqb (fst p) name) (q_Cookies r).

(** [io.ReadAll(io.LimitReader(r.Body, n))]. *)
Definition read_limited (n : Z) (body : string * option error) : result string :=
  let '(data, err) := body in
  if n <=? zslen data then Ok (String.substring 0 (Z.to_nat n) data)
  else match err with Some e => Err e | None => Ok data end.

Definition is_unreserved (c : ascii) : bool :=
  is_lower c || is_upper c || is_digit c || existsb (Ascii.eqb c) ["-"; "_"; "."; "~"]%char.

Definition upper_hex (z : Z) : ascii := ascii_of_N (Z.to_N (if z <? 10 then 48 + z else 55 + z)).

(** [url.QueryEscape]. *)
Fixpoint QueryEscape (s : string) : string :=
  match s with
  | "" => ""
  | String c s =>
      if is_unreserved c then String c (QueryEscape s)
      else if Ascii.eqb c " " then String "+" (QueryEscape s)
      else String "%" (String (upper_hex (ord c / 16)) (String (upper_hex (ord c mod 16)) (QueryEscape s)))
  end.

(** The characters that [html.EscapeString] and the server's [esc] replace. *)
Definition escape_char (quote apos : string) (c : ascii) : string :=
  if Ascii.eqb c "&" then "&amp;"
  else if Ascii.eqb c "<" then "&lt;"
  else if Ascii.eqb c ">" then "&gt;"
  else if ord c =? 34 then quote
  else if Ascii.eqb c "'" then apos
  else String c "".

Fixpoint escape (quote apos : string) (s : string) : string :=
  match s with
  | "" => ""
  | String c s => escape_char quote apos c +:+ escape quote apos s
  end.

Definition html_EscapeString : string -> string := escape "&#34;" "&#39;".

(** [http.StatusText]. *)
Definition status_texts : list (Z * string) :=
  [(100, "Continue"); (101, "Switching Protocols"); (102, "Processing"); (103, "Early Hints"); (200, "OK");
   (201, "Created"); (202, "Accepted"); (203, "Non-Authoritative Information"); (204, "No Content");
   (205, "Reset Content"); (206, "Partial Content"); (207, "Multi-Status"); (208, "Already Reported");
   (226, "IM Used"); (300, "Multiple Choices"); (301, "Moved Permanently"); (302, "Found"); (303, "See Other");
   (304, "Not Modified"); (305, "Use Proxy"); (307, "Temporary Redirect"); (308, "Permanent Redirect");
   (400, "Bad Request"); (401, "Unauthorized"); (402, "Payment Required"); (403, "Forbidden");
   (404, "Not Found"); (405, "Method Not Allowed"); (406, "Not Acceptable");
   (407, "Proxy Authentication Required"); (408, "Request Timeout"); (409, "Conflict"); (410, "Gone");
   (411, "Length Required"); (412, "Precondition Failed"); (413, "Request Entity Too Large");
   (414, "Request URI Too Long"); (415, "Unsupported Media Type"); (416, "Requested Range Not Satisfiable");
   (417, "Expectation Failed"); (418, "I'm a teapot"); (421, "Misdirected Request");
   (422, "Unprocessable Entity"); (423, "Locked"); (424, "Failed Dependency"); (425, "Too Early");
   (426, "Upgrade Required"); (428, "Precondition Required"); (429, "Too Many Requests");
   (431, "Request Header Fields Too Large"); (451, "Unavailable For Legal Reasons");
   (500, "Internal Server Error"); (501, "Not Implemented"); (502, "Bad Gateway");
   (503, "Service Unavailable"); (504, "Gateway Timeout"); (505, "HTTP Version Not Supported");
   (506, "Variant Also Negotiates"); (507, "Insufficient Storage"); (508, "Loop Detected");
   (510, "Not Extended"); (511, "Network Authentication Required")].

Definition StatusText (code : Z) : string :=
  match List.find (fun p => fst p =? code) status_texts with Some (_, t) => t | None => "" end.

(** What a handler writes: the status, the header fields it sets, the body. *)
Record http_reply := mkReply { hr_Status : Z; hr_Header : header; hr_Body : string }.

(** ** Lemmas on headers *)

Lemma h_Del_values h k k' : h_values (h_Del h k) k' = if String.eqb k k' then [] else h_values h k'.
Proof.
  induction h as [|[k0 vs] h IH]; simpl; [by case_match|].
  destruct (String.eqb_spec k0 k) as [->|Hne]; simpl.
  - rewrite IH. destruct (String.eqb_spec k k'); done.
  - destruct (String.eqb_spec k0 k') as [->|Hne']; [|done].
    by rewrite (proj2 (String.eqb_neq _ _)) by congruence.
Qed.

Lemma h_values_app h1 h2 k :
  h_values h1 k = [] -> (forall p, p ∈ h1 -> fst p <> k) -> h_values (h1 ++ h2) k = h_values h2 k.
Proof.
  induction h1 as [|[k0 vs] h1 IH]; intros Hv Hn; [done|]. simpl in *.
  rewrite (proj2 (String.eqb_neq _ _)) in * by (apply (Hn (k0, vs)); left).
  apply IH; [done|]. intros p Hp. apply Hn. by right.
Qed.

Lemma h_Del_keys h k p : p ∈ h_Del h k -> fst p <> k.
Proof.
  unfold h_Del. intros Hp. apply list_elem_of_In, filter_In in Hp as [_ Hp].
  apply negb_true_iff, String.eqb_neq in Hp. done.
Qed.

Lemma h_values_app_r h1 h2 k : h_values h1 k <> [] -> h_values (h1 ++ h2) k = h_values h1 k.
Proof.
  induction h1 as [|[k0 vs] h1 IH]; intros Hv; [done|]. simpl in *.
  by destruct (String.eqb k0 k); [|apply IH].
Qed.

Lemma h_Set_values h k v k' : k' <> k ->
  h_values (h_Set h k v) k' = h_values h k'.
Proof.
  intros Hne. unfold h_Set.
  assert (forall l, h_values (l ++ [(k, [v])]) k' = h_values l k') as Happ.
  { induction l as [|[k0 vs] l IH]; simpl; [|by rewrite IH].
    by rewrite (proj2 (String.eqb_neq _ _)) by congruence. }
  rewrite Happ, h_Del_values. by rewrite (proj2 (String.eqb_neq _ _)) by congruence.
Qed.

Lemma h_Set_same h k v : h_values (h_Set h k v) k = [v].
Proof.
  unfold h_Set. rewrite h_values_app; [simpl; by rewrite String.eqb_refl| |].
  - rewrite h_Del_values. by rewrite String.eqb_refl.
  - intros p. apply h_Del_keys.
Qed.

(** Dropping some keys. *)
Lemma h_filter_values (p : string -> bool) (h : header) k :
  h_values (List.filter (fun x => p (fst x)) h) k = if p k then h_values h k else [].
Proof.
  induction h as [|[k0 vs] h IH]; [by destruct (p k)|]. cbn [List.filter fst h_values].
  destruct (String.eqb_spec k0 k) as [->|Hne].
  - destruct (p k); [|by rewrite IH]. cbn [h_values]. by rewrite String.eqb_refl.
  - destruct (p k0); [|done]. cbn [h_values]. by rewrite (proj2 (String.eqb_neq _ _) Hne).
Qed.

(** The keys of a header are distinct, and stay so. *)
Lemma h_filter_nodup (p : string * list string -> bool) (h : header) : NoDup h.*1 -> NoDup (List.filter p h).*1.
Proof.
  induction h as [|[k vs] h IH]; [done|]. cbn [List.filter fmap list_fmap fst]. intros [Hnin Hnd]%NoDup_cons.
  destruct (p (k, vs)); [|by apply IH]. cbn [fmap list_fmap fst]. apply NoDup_cons. split; [|by apply IH].
  intros ([k' vs'] & Hk & Hin)%list_elem_of_fmap. apply Hnin, list_elem_of_fmap. exists (k', vs'). split; [done|].
  by apply list_elem_of_In, filter_In in Hin as [Hin%list_elem_of_In _].
Qed.

Lemma h_push_nodup (h : header) k vs : NoDup h.*1 -> NoDup (h_Del h k ++ [(k, vs)]).*1.
Proof.
  intros Hnd. rewrite fmap_app. cbn [fmap list_fmap fst]. apply NoDup_app. split_and!; [by apply h_filter_nodup| |apply NoDup_singleton].
  intros x (p & -> & Hin)%list_elem_of_fmap. intros Heq%list_elem_of_singleton. by apply (h_Del_keys h k p).
Qed.
