(* ===== verification/GoHtml.v ===== *)
(** * Pages: [fmt.Sprintf], [html/template], and what escaping is worth

    The program makes its pages by filling templates: with [fmt] and escaped text,
    or with [html/template], which escapes by itself. The templates are Go raw
    strings, which cannot hold a backquote: here a backquote stands for the double
    quote, and [raw] puts it back. *)
From S2P Require Import Prelude GoStr GoFmt Http.
From Stdlib Require Import Ascii.

Definition double_quote : ascii := ascii_of_N 34.

Definition raw : string -> string := replace_byte "`" double_quote.

Definition line_feed : string := String newline "".

(** ** [fmt.Sprintf] with [%d], [%s] and [%%] *)

Inductive operand :=
| OpS (s : string)
| OpD (n : Z).

Definition op_text (o : operand) : string := match o with OpS s => s | OpD n => pretty n end.

(** [%s] takes a string and [%d] a number; the texts for the other cases are those
    of [fmt]. *)
Definition verb_text (verb : ascii) (o : operand) : string :=
  match o, Ascii.eqb verb "s", Ascii.eqb verb "d" with
  | OpS s, true, _ => s
  | OpD n, _, true => pretty n
  | OpS s, _, _ => "%!" +:+ String verb "(string=" +:+ s +:+ ")"
  | OpD n, _, _ => "%!" +:+ String verb "(int=" +:+ pretty n +:+ ")"
  end.

(** For as many operands as the format uses, or fewer. *)
Fixpoint Sprintf (format : string) (args : list operand) : string :=
  match format with
  | "" => ""
  | String c format =>
      if Ascii.eqb c "%" then
        match format with
        | "" => "%!(NOVERB)"
        | String v format =>
            if Ascii.eqb v "%" then String "%" (Sprintf format args)
            else match args with
                 | [] => "%!" +:+ String v "(MISSING)" +:+ Sprintf format []
                 | o :: args => verb_text v o +:+ Sprintf format args
                 end
        end
      else String c (Sprintf format args)
  end.

(** ** [html/template] with fields in the text of elements *)

(** The escaper of element text. *)
Definition htmlescape_char (c : ascii) : string :=
  if Ascii.eqb c "000" then String (ascii_of_N 239) (String (ascii_of_N 191) (String (ascii_of_N 189) ""))
  else if Ascii.eqb c double_quote then "&#34;"
  else if Ascii.eqb c "&" then "&amp;"
  else if Ascii.eqb c "'" then "&#39;"
  else if Ascii.eqb c "+" then "&#43;"
  else if Ascii.eqb c "<" then "&lt;"
  else if Ascii.eqb c ">" then "&gt;"
  else String c "".

Fixpoint htmlescaper (s : string) : string :=
  match s with "" => "" | String c s => htmlescape_char c +:+ htmlescaper s end.

(** The template with its actions [{{.Name}}] replaced; [name] is what has been
    read of the one being read. *)
Fixpoint execute (data : string -> string) (name : option string) (s : string) : string :=
  match s with
  | "" => ""
  | String c s1 =>
      match name with
      | None =>
          match s1 with
          | String d (String e s3) =>
              if Ascii.eqb c "{" && Ascii.eqb d "{" && Ascii.eqb e "." then execute data (Some "") s3
              else String c (execute data None s1)
          | _ => String c (execute data None s1)
          end
      | Some n =>
          match s1 with
          | String d s2 =>
              if Ascii.eqb c "}" && Ascii.eqb d "}" then htmlescaper (data n) +:+ execute data None s2
              else execute data (Some (n +:+ String c "")) s1
          | "" => execute data (Some (n +:+ String c "")) s1
          end
      end
  end.

(** ** Replies of net/http *)

(** [http.Error]. *)
Definition http_Error (msg : string) (status : Z) : http_reply :=
  mkReply status [("Content-Type", ["text/plain; charset=utf-8"]); ("X-Content-Type-Options", ["nosniff"])] (msg +:+ line_feed).

(** [http.Redirect] of a GET request to a clean absolute path. *)
Definition http_Redirect (url : string) (status : Z) : http_reply :=
  mkReply status [("Location", [url]); ("Content-Type", ["text/html; charset=utf-8"])]
    (raw "<a href=`" +:+ escape "&#34;" "&#39;" url +:+ raw "`>" +:+ StatusText status +:+ "</a>." +:+ line_feed +:+ line_feed).

(** ** Markup

    The characters that delimit tags and attributes. A page whose text has none is
    text to a browser, whatever surrounds it. *)

Definition is_markup (c : ascii) : bool :=
  Ascii.eqb c "<" || Ascii.eqb c ">" || Ascii.eqb c double_quote || Ascii.eqb c "'".

Fixpoint markup (s : string) : string :=
  match s with "" => "" | String c s => if is_markup c then String c (markup s) else markup s end.

Lemma markup_app s t : markup (s +:+ t) = markup s +:+ markup t.
Proof. induction s as [|c s IH]; [done|]. cbn. rewrite IH. by destruct (is_markup c). Qed.

Lemma markup_escape q a s : markup q = "" -> markup a = "" -> markup (escape q a s) = "".
Proof.
  intros Hq Ha. induction s as [|c s IH]; [done|]. cbn [escape]. rewrite markup_app, IH. unfold escape_char.
  destruct (Ascii.eqb_spec c "&"); [done|]. destruct (Ascii.eqb_spec c "<"); [done|].
  destruct (Ascii.eqb_spec c ">"); [done|]. destruct (ord c =? 34) eqn:H34; [by rewrite Hq|].
  destruct (Ascii.eqb_spec c "'"); [by rewrite Ha|]. cbn [markup]. unfold is_markup.
  rewrite !(proj2 (Ascii.eqb_neq c _)); [done|done| |done..].
  intros ->. by vm_compute in H34.
Qed.

Lemma markup_htmlescaper s : markup (htmlescaper s) = "".
Proof.
  induction s as [|c s IH]; [done|]. cbn [htmlescaper]. rewrite markup_app, IH. by destruct c as [[] [] [] [] [] [] [] []].
Qed.

Lemma markup_sall s : sall (fun c => negb (is_markup c)) s = true -> markup s = "".
Proof.
  induction s as [|c s IH]; [done|]. cbn. intros [Hc Hs]%andb_true_iff. apply negb_true_iff in Hc. by rewrite Hc, IH.
Qed.

Lemma markup_pretty (n : Z) : markup (pretty n) = "".
Proof.
  apply markup_sall. eapply sall_impl; [|apply pretty_Z_chars]. intros c. by destruct c as [[] [] [] [] [] [] [] []].
Qed.

(** The verbs of a format are not markup. *)
Fixpoint plain_verbs (format : string) : bool :=
  match format with
  | "" => true
  | String c format =>
      if Ascii.eqb c "%" then match format with "" => true | String v format => negb (is_markup v) && plain_verbs format end
      else plain_verbs format
  end.

(** The markup of a page that is made of plain texts is that of its template. *)
Lemma markup_Sprintf format args :
  plain_verbs format = true -> Forall (fun o => markup (op_text o) = "") args ->
  markup (Sprintf format args) = markup format.
Proof.
  revert format args. fix IH 1. intros [|c format] args Hv Ha; [done|]. cbn [Sprintf plain_verbs markup] in *.
  destruct (Ascii.eqb_spec c "%") as [->|Hc].
  2:{ cbn [markup]. by rewrite (IH format args Hv Ha). }
  destruct format as [|v format]; [done|]. apply andb_true_iff in Hv as [Hp%negb_true_iff Hv]. cbn [markup]. rewrite Hp.
  change (is_markup "%") with false. cbn iota. destruct (Ascii.eqb_spec v "%") as [->|Hne].
  { cbn [markup]. exact (IH format args Hv Ha). }
  destruct args as [|o args].
  - cbn [String.append markup]. rewrite Hp. exact (IH format [] Hv Ha).
  - apply Forall_cons in Ha as [Ho Ha]. rewrite markup_app, (IH format args Hv Ha).
    enough (markup (verb_text v o) = "") as -> by done. unfold verb_text.
    destruct o as [t|n]; cbn [op_text] in Ho; destruct (Ascii.eqb v "s"), (Ascii.eqb v "d"); try exact Ho;
      cbn [String.append markup]; rewrite Hp; change (is_markup "%") with false; change (is_markup "!") with false; cbn iota;
      by rewrite !markup_app, Ho.
Qed.

(** Whatever the fields hold. *)
Lemma markup_execute data name s :
  markup (execute data name s) = markup (execute (fun _ => "") name s).
Proof.
  assert (forall k s name, (String.length s < k)%nat ->
    markup (execute data name s) = markup (execute (fun _ => "") name s)) as Hall; [|apply (Hall (S (String.length s))); lia].
  clear. induction k as [|k IH]; intros [|c s] [n|] Hk; cbn [String.length] in Hk; try lia; try done; cbn [execute].
  - destruct s as [|d s]; [done|]. cbn [String.length] in Hk.
    destruct (Ascii.eqb c "}" && Ascii.eqb d "}"); [|apply IH; cbn [String.length]; lia].
    rewrite !markup_app, !markup_htmlescaper, (IH s) by lia. done.
  - destruct s as [|d [|e s]]; cbn [String.length] in Hk.
    + done.
    + cbn [markup]. by rewrite IH by (cbn [String.length]; lia).
    + destruct (_ && _); [apply IH; lia|]. cbn [markup]. by rewrite IH by (cbn [String.length]; lia).
Qed.
