(* ===== verification/Pages.v ===== *)
(** * The pages of the public side: internal/server/proxy.go and landing.go

    The error page and the landing page, with the text they are filled with. The
    theorem says that nothing a visitor sends becomes markup in either. *)
From S2P Require Import Prelude GoStr GoFmt Http GoHtml.
From Stdlib Require Import Ascii.

(** ** The error page (proxy.go:442-460, 498-511) *)

Definition errorPageTpl : string := raw
"<!DOCTYPE html><html lang=`en` class=`dark`><head>
<meta charset=`utf-8`><meta name=`viewport` content=`width=device-width,initial-scale=1`>
<title>%d %s — munnel</title>
<style>
:root{color-scheme:dark}
body{margin:0;min-height:100vh;display:grid;place-items:center;background:#0e0c0d;color:#e8e6e3;font-family:ui-monospace,SFMono-Regular,Menlo,monospace}
.card{text-align:center;padding:2rem}
h1{font-size:1.4rem;font-weight:600;margin:.2rem 0;color:#c8b6ff}
p{color:#a09a92;font-size:.9rem;max-width:34rem}
code{background:#1c1917;padding:.1rem .4rem;border-radius:.3rem}
</style></head><body><div class=`card`>
<h1>%s</h1><p><code>%d</code> · %s</p>
</div></body></html>".

(** proxy.go:449. *)
Definition statusText (code : Z) : string := let t := StatusText code in if String.eqb t "" then "error" else t.

(** proxy.go:457. *)
Definition esc : string -> string := escape "&quot;" "&#39;".

Definition html_type : header := [("Content-Type", ["text/html; charset=utf-8"])].

(** proxy.go:443. *)
Definition errorPage (status : Z) (title detail : string) : http_reply :=
  mkReply status html_type
    (Sprintf errorPageTpl [OpD status; OpS (statusText status); OpS (esc title); OpD status; OpS (esc detail)]).

(** ** The landing page (landing.go) *)

Definition landingPage : string := raw
"<!DOCTYPE html>
<html lang=`en` class=`dark`>
<head>
<meta charset=`utf-8`>
<meta name=`viewport` content=`width=device-width,initial-scale=1`>
<title>munnel — your localhost, on the public internet</title>
<meta name=`description` content=`self-hosted tunneling: expose localhost with a binary multiplexer, live terminal TUI, and request inspector.`>
<style>
:root{color-scheme:dark}
*{box-sizing:border-box}
body{margin:0;background:#0e0c0d;color:#e8e6e3;font-family:ui-monospace,SFMono-Regular,Menlo,Consolas,monospace;-webkit-font-smoothing:antialiased}
a{color:#c8b6ff;text-decoration:none}
a:hover{text-decoration:underline}
.wrap{max-width:46rem;margin:0 auto;padding:4rem 1.5rem 5rem}
header{display:flex;align-items:baseline;gap:.75rem}
h1{font-size:2.4rem;margin:0;letter-spacing:-.03em}
.tag{color:#a09a92}
.term{margin:2.5rem 0;background:#161213;border:1px solid #2a2320;border-radius:.75rem;padding:1.25rem 1.5rem;font-size:.9rem;line-height:1.9;box-shadow:0 20px 60px -30px rgba(200,182,255,.25)}
.term .p{color:#5eead4;user-select:none}
.term .c{color:#e8e6e3}
.term .o{color:#a09a92}
.term .u{color:#c8b6ff}
.grid{display:grid;grid-template-columns:1fr 1fr;gap:1rem;margin-top:2.5rem}
@media(max-width:640px){.grid{grid-template-columns:1fr}}
.card{border:1px solid #2a2320;border-radius:.75rem;padding:1.25rem;background:#121010}
.card h3{margin:0 0 .4rem;font-size:.95rem;color:#f3ede6}
.card p{margin:0;font-size:.82rem;color:#a09a92;line-height:1.6}
footer{margin-top:3.5rem;color:#57504a;font-size:.78rem}
code{background:#1c1917;padding:.12rem .4rem;border-radius:.3rem;font-size:.85em}
</style>
</head>
<body>
<div class=`wrap`>
<header><h1>munnel</h1><span class=`tag`>your localhost, on the public internet</span></header>

<div class=`term`>
<div><span class=`p`>$</span> <span class=`c`>munnel 3000</span></div>
<div class=`o`>connecting…</div>
<div><span class=`o`>tunnel live</span> <span class=`u`>{{.Scheme}}://myapp.{{.Domain}}</span> <span class=`o`>→ http://127.0.0.1:3000</span></div>
<div class=`o`>GET  /api/health   200  14ms</div>
<div class=`o`>POST /webhook      200  31ms</div>
</div>

<div class=`grid`>
<div class=`card`><h3>binary multiplexer</h3><p>hundreds of concurrent streams over one TCP socket with a 9-byte frame header. zero head-of-line surprises.</p></div>
<div class=`card`><h3>request inspector + replay</h3><p>live web inspector on <code>localhost:4040</code>. inspect headers and payloads, replay webhooks with one click.</p></div>
<div class=`card`><h3>terminal tui</h3><p>live request stream, latency, and tunnel status directly in your shell.</p></div>
<div class=`card`><h3>self-hosted</h3><p>your server, your domain, your tokens. no accounts, no rate limits, no third-party cloud.</p></div>
</div>

<div class=`term`>
<div><span class=`p`>$</span> <span class=`c`>munnel 3000 -s myapp --server {{.ControlAddr}}</span></div>
<div class=`o`># claim a subdomain on this server</div>
</div>

<footer>powered by munnel · binary multiplexer over a single tcp connection</footer>
</div>
</body>
</html>".

(** landing.go:20: the control address shown to visitors. *)
Definition landing_control (domain controlAddr : string) : string :=
  if HasPrefix controlAddr ":" then domain +:+ controlAddr
  else match SplitHostPort controlAddr with
       | Some (h, p) =>
           if String.eqb h "" || String.eqb h "0.0.0.0" || String.eqb h "[::]" then domain +:+ ":" +:+ p else controlAddr
       | None => controlAddr
       end.

(** An address that listens everywhere over IPv6 is shown as it is. *)
Example landing_control_ipv6 : landing_control "t.example" "[::]:7001" = "[::]:7001".
Proof. reflexivity. Qed.

(** landing.go:11: the fields of the template; the last two are never set. *)
Record landingData := mkLanding { ld_Domain : string; ld_ControlAddr : string; ld_Scheme : string; ld_ControlHost : string;
  ld_HostDisplay : string }.

Definition landing_field (d : landingData) (name : string) : string :=
  if String.eqb name "Domain" then ld_Domain d
  else if String.eqb name "ControlAddr" then ld_ControlAddr d
  else if String.eqb name "Scheme" then ld_Scheme d
  else if String.eqb name "ControlHost" then ld_ControlHost d
  else if String.eqb name "HostDisplay" then ld_HostDisplay d
  else "".

(** landing.go:20. *)
Definition landingHTML (domain controlAddr scheme : string) : string :=
  execute (landing_field (mkLanding domain (landing_control domain controlAddr) scheme "" "")) None landingPage.

(** ** What is in them *)

Lemma markup_StatusText code : markup (statusText code) = markup (StatusText code).
Proof. unfold statusText. by destruct (String.eqb_spec (StatusText code) "") as [->|]. Qed.

(** The tags and attributes of an error page are those of its template, whatever
    it tells, but for the apostrophe of a teapot. *)
Lemma errorPage_markup status title detail :
  status <> 418 -> markup (hr_Body (errorPage status title detail)) = markup errorPageTpl.
Proof.
  intros Hne. unfold errorPage. cbn [hr_Body]. apply markup_Sprintf; [vm_compute; reflexivity|].
  assert (markup (statusText status) = "") as Hs.
  { rewrite markup_StatusText. unfold StatusText. destruct (List.find _ _) as [[c t]|] eqn:Hf; [|done].
    apply find_some in Hf as [Hin%list_elem_of_In Hc%Z.eqb_eq]. cbn [fst] in Hc. subst c.
    assert (Forall (fun p => fst p = 418 \/ markup (snd p) = "") status_texts) as Hall
      by (apply (bool_decide_unpack _); vm_compute; exact I).
    rewrite Forall_forall in Hall. by destruct (Hall _ Hin). }
  repeat constructor; cbn [op_text]; try apply markup_pretty; try done; by apply markup_escape.
Qed.

Lemma landingHTML_markup domain controlAddr scheme :
  markup (landingHTML domain controlAddr scheme) = markup landingPage.
Proof. unfold landingHTML. rewrite markup_execute. vm_compute. reflexivity. Qed.

(** What the landing page shows. *)
Example landing_shown :
  Contains (landingHTML "t.example" ":7001" "https") "https://myapp.t.example" = true /\
  Contains (landingHTML "t.example" ":7001" "https") "--server t.example:7001" = true.
Proof. by vm_compute. Qed.

(** The host of a request may hold any character that is allowed in a URL's host. *)
Example hostile_host :
  Contains (hr_Body (errorPage 404 "unknown host" "<script>")) "&lt;script&gt;" = true.
Proof. by vm_compute. Qed.
