(* ===== verification/GoUrl.v ===== *)
(** * The part of net/url a request's target goes through

    The target of a request ([ParseRequestURI]) and its way back to text
    ([RequestURI]). A target that is not a path (an absolute URI, or the authority
    of CONNECT) is a parameter: the program's own requests have none. *)
From S2P Require Import Prelude GoStr Http.
From Stdlib Require Import Ascii.

(** [u_Host] is empty for a target that is a path. *)
Record URL := mkURL { u_Host : string; u_Path : string; u_RawPath : string; u_RawQuery : string; u_ForceQuery : bool }.

Definition unhex (c : ascii) : option Z :=
  if is_digit c then Some (ord c - 48)
  else if in_range 97 102 c then Some (ord c - 87)
  else if in_range 65 70 c then Some (ord c - 55)
  else None.

(** [unescape(s, encodePath)]. *)
Fixpoint unescape (s : string) : option string :=
  match s with
  | "" => Some ""
  | String c t =>
      if Ascii.eqb c "%" then
        match t with
        | String a (String b t) =>
            match unhex a, unhex b with
            | Some x, Some y => String (ascii_of_N (Z.to_N (x * 16 + y))) <$> unescape t
            | _, _ => None
            end
        | _ => None
        end
      else String c <$> unescape t
  end.

(** The characters [escape(s, encodePath)] leaves as they are. *)
Definition path_safe (c : ascii) : bool :=
  is_unreserved c || existsb (Ascii.eqb c) ["$"; "&"; "+"; ","; "/"; ":"; ";"; "="; "@"]%char.

Fixpoint escape_path (s : string) : string :=
  match s with
  | "" => ""
  | String c s =>
      if path_safe c then String c (escape_path s)
      else String "%" (String (upper_hex (ord c / 16)) (String (upper_hex (ord c mod 16)) (escape_path s)))
  end.

Definition encoded_char (c : ascii) : bool :=
  path_safe c || existsb (Ascii.eqb c) ["!"; "'"; "("; ")"; "*"; "["; "]"; "%"]%char.

Definition validEncoded : string -> bool := sall encoded_char.

(** [u.EscapedPath()]. *)
Definition EscapedPath (u : URL) : string :=
  if negb (String.eqb (u_RawPath u) "") && validEncoded (u_RawPath u) &&
     bool_decide (unescape (u_RawPath u) = Some (u_Path u))
  then u_RawPath u
  else if String.eqb (u_Path u) "*" then "*" else escape_path (u_Path u).

(** [u.RequestURI()] of an URL that has no opaque part. *)
Definition RequestURI (u : URL) : string :=
  let p := EscapedPath u in
  (if String.eqb p "" then "/" else p) +:+
  (if u_ForceQuery u || negb (String.eqb (u_RawQuery u) "") then String "?" (u_RawQuery u) else "").

Definition is_ctl (c : ascii) : bool := (ord c <? 32) || (ord c =? 127).

Class OtherURI := parse_other : string -> result URL.

(** The path, the query, and whether there is a question mark without one. *)
Definition split_query (s : string) : string * string * bool :=
  match cut_byte "?" s with
  | None => (s, "", false)
  | Some (p, q) => (p, q, String.eqb q "")
  end.

(** [url.ParseRequestURI]; the texts of its errors are shortened. *)
Definition ParseRequestURI `{OtherURI} (s : string) : result URL :=
  if negb (sall (fun c => negb (is_ctl c)) s) then Err (Errorf "parse %q: net/url: invalid control character in URL" [s])
  else if String.eqb s "" then Err (Errorf "parse %q: empty url" [s])
  else if String.eqb s "*" then Ok (mkURL "" "*" "" "" false)
  else if HasPrefix s "/" then
    let '(p, q, force) := split_query s in
    match unescape p with
    | None => Err (Errorf "parse %q: invalid URL escape" [s])
    | Some path => Ok (mkURL "" path (if String.eqb (escape_path path) p then "" else p) q force)
    end
  else parse_other s.

(** ** Lemmas *)

Lemma unhex_upper c :
  unhex (upper_hex (ord c / 16)) = Some (ord c / 16) /\ unhex (upper_hex (ord c mod 16)) = Some (ord c mod 16).
Proof. by destruct c as [[] [] [] [] [] [] [] []]. Qed.

Lemma unescape_escape s : unescape (escape_path s) = Some s.
Proof.
  induction s as [|c s IH]; [done|]. cbn [escape_path]. destruct (path_safe c) eqn:Hc; cbn [unescape].
  - destruct (Ascii.eqb_spec c "%") as [->|]; [done|]. by rewrite IH.
  - destruct (unhex_upper c) as [-> ->]. rewrite IH. cbn. do 2 f_equal.
    by destruct c as [[] [] [] [] [] [] [] []].
Qed.

Lemma escape_path_safe s : sall path_safe s = true -> escape_path s = s.
Proof.
  induction s as [|c s IH]; [done|]. cbn [sall escape_path]. intros [Hc Hs]%andb_true_iff.
  by rewrite Hc, IH.
Qed.

(** An escaped path has only characters of a path, and the escapes. *)
Lemma escape_path_chars s : sall (fun c => path_safe c || Ascii.eqb c "%") (escape_path s) = true.
Proof.
  induction s as [|c s IH]; [done|]. cbn [escape_path]. destruct (path_safe c) eqn:Hc; cbn [sall]; rewrite ?IH, ?Hc.
  - done.
  - by destruct c as [[] [] [] [] [] [] [] []].
Qed.

Lemma path_char_facts c : encoded_char c = true -> is_ctl c = false /\ Ascii.eqb "?" c = false /\ Ascii.eqb " " c = false.
Proof. by destruct c as [[] [] [] [] [] [] [] []]. Qed.

Lemma encoded_text s : validEncoded s = true ->
  sall (fun c => negb (is_ctl c)) s = true /\ selem "?" s = false /\ selem " " s = false.
Proof.
  unfold validEncoded. induction s as [|c s IH]; [done|]. cbn [sall selem]. intros [Hc Hs]%andb_true_iff.
  destruct (path_char_facts c Hc) as (-> & -> & ->). by apply IH in Hs.
Qed.

Lemma escape_path_encoded s : validEncoded (escape_path s) = true.
Proof.
  eapply sall_impl; [|apply escape_path_chars]. intros c. unfold encoded_char. intros [-> |Hc]%orb_true_iff; [done|].
  apply Ascii.eqb_eq in Hc as ->. done.
Qed.

(** The escaped path of an URL that was parsed from a path. *)
Lemma EscapedPath_spec p path q f :
  HasPrefix p "/" = true -> unescape p = Some path ->
  let u := mkURL "" path (if String.eqb (escape_path path) p then "" else p) q f in
  validEncoded (EscapedPath u) = true /\ unescape (EscapedPath u) = Some path /\ HasPrefix (EscapedPath u) "/" = true /\
  (EscapedPath u = escape_path path \/ EscapedPath u = p /\ escape_path path <> p).
Proof.
  intros [t ->]%HasPrefix_spec Hp u. cbn [String.append unescape Ascii.eqb Bool.eqb] in Hp.
  destruct (unescape t) as [path'|] eqn:Ht; [|done]. injection Hp as <-.
  assert (HasPrefix (escape_path (String "/" path')) "/" = true) as Hpre by (apply HasPrefix_spec; by eexists).
  set (path := String "/" path') in *. change ("/" +:+ t) with (String "/" t) in *. set (p := String "/" t) in *.
  assert (EscapedPath u = escape_path path \/ EscapedPath u = p /\ escape_path path <> p /\ validEncoded p = true) as Hcase.
  { unfold EscapedPath. cbn [u u_RawPath u_Path]. destruct (String.eqb_spec (escape_path path) p) as [Heq|Hne]; [by left|].
    destruct (negb _ && validEncoded p && _) eqn:Hv; [|by left].
    apply andb_true_iff in Hv as [[_ Hv]%andb_true_iff _]. by right. }
  destruct Hcase as [-> |(-> & Hne & Hv)].
  - split_and!; [apply escape_path_encoded|apply unescape_escape|done|by left].
  - split_and!; [done| |done|by right]. subst p path. cbn [unescape Ascii.eqb Bool.eqb]. by rewrite Ht.
Qed.

(** Text of a target that was parsed, parsed again: nothing changes any more. *)
Lemma ParseRequestURI_stable `{OtherURI} s u :
  ParseRequestURI s = Ok u -> HasPrefix s "/" = true \/ s = "*" ->
  exists u', ParseRequestURI (RequestURI u) = Ok u' /\ RequestURI u' = RequestURI u /\ u_Path u' = u_Path u /\
    u_RawQuery u' = u_RawQuery u /\ u_ForceQuery u' = u_ForceQuery u /\ EscapedPath u' = EscapedPath u /\ u_Host u' = "".
Proof.
  intros Hs [Hpre| ->]; [|injection Hs as <-; by exists (mkURL "" "*" "" "" false)].
  unfold ParseRequestURI in Hs. destruct (negb (sall _ s)) eqn:Hctl; [done|]. apply negb_false_iff in Hctl.
  destruct (String.eqb_spec s "") as [->|]; [done|]. destruct (String.eqb_spec s "*") as [->|]; [done|].
  rewrite Hpre in Hs. destruct (split_query s) as [[p q] f] eqn:Hsp.
  destruct (unescape p) as [path|] eqn:Hp; [|done]. injection Hs as <-.
  assert (HasPrefix p "/" = true /\ sall (fun c => negb (is_ctl c)) q = true /\ f = (f && String.eqb q "")) as (Hpp & Hq & Hf).
  { unfold split_query in Hsp. destruct (cut_byte "?" s) as [[a b]|] eqn:Hcut; simplify_eq; [|done].
    apply cut_byte_spec in Hcut as [-> _]. rewrite sall_app in Hctl. cbn [sall] in Hctl.
    apply andb_true_iff in Hctl as [_ Hq]. split_and!; [|done|by destruct (String.eqb q "")].
    apply HasPrefix_spec in Hpre as [t Ht]. destruct p as [|c p]; [done|]. apply HasPrefix_spec. exists p.
    by injection Ht as -> _. }
  set (u := mkURL "" path _ q f).
  destruct (EscapedPath_spec p path q f Hpp Hp) as (Hv & Hu & He & Hcase). fold u in Hv, Hu, He, Hcase.
  destruct (encoded_text _ Hv) as (Hnc & Hnq & _).
  set (suffix := if f || negb (String.eqb q "") then String "?" q else "").
  assert (RequestURI u = EscapedPath u +:+ suffix) as Huri.
  { unfold RequestURI. destruct (String.eqb_spec (EscapedPath u) "") as [H0|]; [by rewrite H0 in He|done]. }
  assert (split_query (EscapedPath u +:+ suffix) = (EscapedPath u, q, f)) as Hsplit.
  { unfold suffix, split_query. destruct f; cbn [orb andb] in *.
    - rewrite cut_byte_app by done. by rewrite <-Hf.
    - destruct (String.eqb_spec q "") as [->|Hne]; cbn [negb].
      + rewrite sapp_nil_r. destruct (cut_byte "?" (EscapedPath u)) as [[a b]|] eqn:Hcut; [|done].
        apply cut_byte_spec in Hcut as [Heq _]. rewrite Heq, selem_app in Hnq. cbn in Hnq. by rewrite orb_true_r in Hnq.
      + rewrite cut_byte_app by done. by rewrite (proj2 (String.eqb_neq q "")). }
  exists (mkURL "" path (if String.eqb (escape_path path) (EscapedPath u) then "" else EscapedPath u) q f).
  assert (EscapedPath (mkURL "" path (if String.eqb (escape_path path) (EscapedPath u) then "" else EscapedPath u) q f) =
    EscapedPath u) as Hsame.
  { unfold EscapedPath at 1. cbn [u_RawPath u_Path].
    destruct (String.eqb_spec (escape_path path) (EscapedPath u)) as [Heq|Hne].
    - cbn. destruct (String.eqb_spec path "*") as [->|]; [|done].
      rewrite <-Heq in He. by vm_compute in He.
    - rewrite Hv, bool_decide_eq_true_2 by done. destruct (String.eqb_spec (EscapedPath u) "") as [H0|]; [by rewrite H0 in He|done]. }
  rewrite Huri. unfold ParseRequestURI.
  assert (sall (fun c => negb (is_ctl c)) (EscapedPath u +:+ suffix) = true) as ->.
  { rewrite sall_app, Hnc. unfold suffix. destruct (f || _); cbn [sall]; [by rewrite Hq|done]. }
  cbn [negb]. apply HasPrefix_spec in He as [t Ht]. rewrite Ht in Hsplit, Hu |- *. cbn [String.append String.eqb Ascii.eqb Bool.eqb] in *.
  change (HasPrefix (String "/" (t +:+ suffix)) "/") with true. cbn iota. rewrite Hsplit.
  rewrite Hu. split; [done|]. rewrite Ht in Hsame. split_and!; try done.
  unfold RequestURI. by rewrite Hsame.
Qed.

(** What was parsed from a path. *)
Lemma ParseRequestURI_shape `{OtherURI} s u :
  ParseRequestURI s = Ok u -> HasPrefix s "/" = true \/ s = "*" ->
  validEncoded (EscapedPath u) = true /\ (u_ForceQuery u = true -> u_RawQuery u = "") /\
  forall c, selem c s = false -> selem c (u_RawQuery u) = false.
Proof.
  intros Hs [Hpre| ->]; [|by injection Hs as <-].
  unfold ParseRequestURI in Hs. destruct (negb (sall _ s)); [done|]. destruct (String.eqb_spec s "") as [->|]; [done|].
  destruct (String.eqb_spec s "*") as [->|]; [done|]. rewrite Hpre in Hs. unfold split_query in Hs.
  destruct (cut_byte "?" s) as [[p q]|] eqn:Hcut.
  - apply cut_byte_spec in Hcut as [-> Hp]. destruct (unescape p) as [path|] eqn:Hu; [|done]. injection Hs as <-.
    assert (HasPrefix p "/" = true) as Hpp.
    { apply HasPrefix_spec in Hpre as [t Ht]. destruct p as [|c p]; [done|]. apply HasPrefix_spec. exists p. by injection Ht as -> _. }
    split_and!; [by apply EscapedPath_spec|by intros Hq%String.eqb_eq|].
    intros c. rewrite selem_app. cbn [selem u_RawQuery]. by intros [_ [_ ?]%orb_false_iff]%orb_false_iff.
  - destruct (unescape s) as [path|] eqn:Hu; [|done]. injection Hs as <-. split_and!; [by apply EscapedPath_spec|done|done].
Qed.

(** The text of a target has only the characters of what was parsed. *)
Lemma RequestURI_none c u :
  validEncoded (EscapedPath u) = true -> encoded_char c = false -> Ascii.eqb c "?" = false ->
  selem c (u_RawQuery u) = false -> selem c (RequestURI u) = false.
Proof.
  intros Hv Hc Hq Hr. unfold RequestURI. rewrite selem_app.
  assert (selem c (if String.eqb (EscapedPath u) "" then "/" else EscapedPath u) = false) as ->.
  { destruct (String.eqb _ ""); [|by apply (sall_selem encoded_char)]. cbn.
    destruct (Ascii.eqb_spec c "/") as [->|]; [by vm_compute in Hc|done]. }
  destruct (u_ForceQuery u || _); [|done]. cbn [selem orb]. by rewrite Hq, Hr.
Qed.

(** Without the question mark that stands alone. *)
Lemma RequestURI_unforced u :
  (u_ForceQuery u = true -> u_RawQuery u = "") ->
  RequestURI u = RequestURI (mkURL "" (u_Path u) (u_RawPath u) (u_RawQuery u) false) +:+ (if u_ForceQuery u then "?" else "").
Proof.
  intros Hf. unfold RequestURI. change (EscapedPath (mkURL "" (u_Path u) (u_RawPath u) (u_RawQuery u) false)) with (EscapedPath u).
  cbn [u_ForceQuery u_RawQuery orb]. destruct (u_ForceQuery u) eqn:Hfq.
  - rewrite (Hf eq_refl). cbn [String.eqb negb orb]. by rewrite sapp_nil_r.
  - by rewrite sapp_nil_r.
Qed.

Example uri_sample :
  RequestURI <$> (match @ParseRequestURI (fun _ => Err io_EOF) "/a%2fb%20c/[x]?q=1?" with Ok u => Some u | _ => None end) =
  Some "/a%2fb%20c/[x]?q=1?".
Proof. reflexivity. Qed.
