(* ===== verification/HttpRead.v ===== *)
(** * [http.ReadRequest]

    What the client uses of net/http and net/textproto to read a request off a
    stream: the request line, the header lines (continued ones included), the
    rules for Host, Pragma and Content-Length, and the body. The text is the whole
    of what the stream will give, with the error it ends with. A body that is
    transfer-encoded is a parameter. *)
From S2P Require Import Prelude GoStr GoText GoFmt Http GoUrl.
From Stdlib Require Import Ascii.

(** ** Lines *)

Definition nl : string := String newline "".
Definition cr : string := String carriage_return "".

Definition blank (c : ascii) : bool := Ascii.eqb c " " || (ord c =? 9).

Fixpoint drop_while (p : ascii -> bool) (s : string) : string :=
  match s with
  | "" => ""
  | String c t => if p c then drop_while p t else s
  end.

Definition trim (p : ascii -> bool) (s : string) : string := srev (drop_while p (srev (drop_while p s))).

(** [textproto.TrimString]. *)
Definition TrimString : string -> string := trim (fun c => blank c || (ord c =? 10) || (ord c =? 13)).

(** The end of the input where more was expected. *)
Definition unexpected (e : error) : error :=
  if bool_decide (e = Sentinel io_EOF) then Sentinel io_ErrUnexpectedEOF else e.

(** ** The header *)

Definition value_char (c : ascii) : bool := (32 <=? ord c) && negb (ord c =? 127) || (ord c =? 9).

(** The key of a header line: keys with spaces are accepted as they are. *)
Definition header_key (k : string) : option string :=
  if String.eqb k "" then None
  else if sall token_char k then Some (canonical true k)
  else if sall (fun c => token_char c || Ascii.eqb c " ") k then Some k
  else None.

Definition malformed_line (l : string) : error := Errorf "malformed MIME header line: %s" [l].

(** A whole line goes into the header. *)
Definition add_field (l : string) (h : header) : result header :=
  match cut_byte ":" l with
  | None => Err (malformed_line l)
  | Some (k, v) =>
      match header_key k with
      | None => Err (malformed_line l)
      | Some k => if sall value_char v then Ok (h_Add h k (drop_while blank v)) else Err (malformed_line l)
      end
  end.

Definition flush (cur : option string) (h : header) : result header :=
  match cur with Some l => add_field l h | None => Ok h end.

(** A line that begins a field has a colon. *)
Definition start_line (l : string) : result string :=
  if selem ":" l then Ok (trim blank l) else Err (Errorf "malformed MIME header: missing colon: %q" [l]).

Definition starts_blank (l : string) : bool := match l with String c _ => blank c | "" => false end.

(** The lines of a header, of which [cur] has been read and may be continued. The
    last element of [lines] is what stands behind the last line feed. *)
Fixpoint header_of (e : error) (lines : list string) (cur : option string) (h : header) : result (header * list string) :=
  match lines with
  | [] => Err (unexpected e)
  | [l] =>
      if String.eqb l "" then flush cur h ≫= fun _ => Err (unexpected e)
      else match starts_blank l, cur with
           | true, Some c => add_field (c +:+ " " +:+ trim blank l) h ≫= fun _ => Err (unexpected e)
           | true, None => Err (Errorf "malformed MIME header initial line: %s" [l])
           | false, _ => flush cur h ≫= fun h => start_line l ≫= fun l => add_field l h ≫= fun _ => Err (unexpected e)
           end
  | l :: lines =>
      let l := dropCR l in
      match starts_blank l, cur with
      | true, Some c => header_of e lines (Some (c +:+ " " +:+ trim blank l)) h
      | true, None => Err (Errorf "malformed MIME header initial line: %s" [l])
      | false, _ =>
          flush cur h ≫= fun h =>
          if String.eqb l "" then Ok (h, lines)
          else start_line l ≫= fun l => header_of e lines (Some l) h
      end
  end.

(** ** The body *)

(** [strconv.ParseUint(s, 10, 63)]. *)
Definition ParseUint63 (s : string) : option Z :=
  if String.eqb s "" then None
  else match digits_value 0 s with Some v => if v <? 2 ^ 63 then Some v else None | None => None end.

(** The length of the body, and the header without repetitions of it. *)
Definition fixLength (h : header) : result (header * Z) :=
  match h_values h "Content-Length" with
  | [] => Ok (h, 0)
  | v :: vs =>
      let first := TrimString v in
      if existsb (fun x => negb (String.eqb (TrimString x) first)) vs then
        Err (Errorf "http: message cannot contain multiple Content-Length headers; got %q" (v :: vs))
      else
        match ParseUint63 first with
        | None => Err (Errorf "bad Content-Length %q" [first])
        | Some n => Ok (if vs is [] then h else h_Set h "Content-Length" first, n)
        end
  end.

(** What reading a body of [n] octets gives, from what follows the header. *)
Definition body_of (n : Z) (rest : string) (e : error) : string * error :=
  (String.substring 0 (Z.to_nat n) rest, if n <=? zslen rest then Sentinel io_EOF else unexpected e).

(** ** Requests *)

Record request := mkRequest {
  rq_Method : string;
  rq_URL : URL;
  rq_Host : string;
  rq_Header : header;
  rq_Body : string * error;      (** what reading the body gives, and how it ends *)
  rq_Eager : bool;               (** the last octet comes together with the end *)
  rq_Rest : string               (** everything behind the header *)
}.

(** A transfer-encoded body: the header, the body, and whether its end comes with
    its last octet. *)
Class OtherBody := read_encoded : header -> string -> error -> result (header * (string * error) * bool).

Definition http_version (s : string) : bool :=
  match CutPrefix s "HTTP/" with
  | Some (String a (String "." (String b ""))) => is_digit a && is_digit b
  | _ => false
  end.

Definition fixPragmaCacheControl (h : header) : header :=
  if String.eqb (h_Get h "Pragma") "no-cache" && (if h_values h "Cache-Control" is [] then true else false)
  then h_Set h "Cache-Control" "no-cache" else h.

Section read.
Context `{OtherURI, OtherBody}.

Definition target (method uri : string) : result URL :=
  if String.eqb method "CONNECT" && negb (HasPrefix uri "/") then parse_other uri else ParseRequestURI uri.

(** The request line. *)
Definition request_line (l : string) : result (string * URL) :=
  match cut_byte " " l with
  | None => Err (Errorf "malformed HTTP request %q" [l])
  | Some (method, rest) =>
      match cut_byte " " rest with
      | None => Err (Errorf "malformed HTTP request %q" [l])
      | Some (uri, proto) =>
          if String.eqb method "" || negb (sall token_char method) then Err (Errorf "invalid method %q" [method])
          else if negb (http_version proto) then Err (Errorf "malformed HTTP version %q" [proto])
          else target method uri ≫= fun u => Ok (method, u)
      end
  end.

(** Everything behind the request line. *)
Definition read_rest (method : string) (u : URL) (e : error) (lines : list string) : result request :=
  header_of e lines None [] ≫= fun '(h, lines) =>
  let rest := sjoin nl lines in
  if (1 <? length (h_values h "Host"))%nat then Err (errors_New "too many Host headers")
  else
    let host := if String.eqb (u_Host u) "" then h_Get h "Host" else u_Host u in
    let h := fixPragmaCacheControl h in
    if (if h_values h "Transfer-Encoding" is [] then true else false) then
      fixLength h ≫= fun '(h, n) => Ok (mkRequest method u host (h_Del h "Host") (body_of n rest e) true rest)
    else
      read_encoded h rest e ≫= fun '(h, b, eager) => Ok (mkRequest method u host (h_Del h "Host") b eager rest).

(** [http.ReadRequest] of a stream that gives [s] and then [e]. *)
Definition ReadRequest (s : string) (e : error) : result request :=
  match split_byte newline s with
  | [] | [""] => Err e
  | [l] => request_line l ≫= fun '(m, u) => read_rest m u e [""]
  | l :: lines => request_line (dropCR l) ≫= fun '(m, u) => read_rest m u e lines
  end.

End read.

(** ** Lemmas *)

Definition head_ok (s : string) : bool := match s with String c _ => negb (blank c) | "" => true end.

(** A field as it is sent: a canonical key, and a value without control
    characters and without blanks around it. *)
Definition field_ok (f : string * string) : bool :=
  negb (String.eqb f.1 "") && sall token_char f.1 && String.eqb (canonical true f.1) f.1 &&
  sall value_char f.2 && head_ok f.2 && head_ok (srev f.2).

Lemma drop_while_head s : head_ok s = true -> drop_while blank s = s.
Proof. destruct s as [|c s]; [done|]. cbn. by destruct (blank c). Qed.

Lemma trim_ok s : head_ok s = true -> head_ok (srev s) = true -> trim blank s = s.
Proof. intros H1 H2. unfold trim. rewrite (drop_while_head s) by done. rewrite drop_while_head by done. apply srev_involutive. Qed.

Lemma dropCR_cr l : dropCR (l +:+ cr) = l.
Proof.
  unfold dropCR, TrimSuffix. assert (CutSuffix (l +:+ cr) (String carriage_return "") = Some l) as ->
    by (by apply CutSuffix_spec). done.
Qed.

Lemma token_facts c : token_char c = true -> blank c = false /\ Ascii.eqb ":" c = false /\ Ascii.eqb " " c = false /\ Ascii.eqb newline c = false.
Proof. by destruct c as [[] [] [] [] [] [] [] []]. Qed.

Lemma value_facts c : value_char c = true -> Ascii.eqb newline c = false.
Proof. by destruct c as [[] [] [] [] [] [] [] []]. Qed.

Lemma selem_none (p : ascii -> bool) c s : (forall d, p d = true -> Ascii.eqb c d = false) -> sall p s = true -> selem c s = false.
Proof. intros Hp. induction s as [|d s IH]; cbn; [done|]. intros [Hd Hs]%andb_true_iff. by rewrite Hp, IH. Qed.

Lemma field_ok_inv k v :
  field_ok (k, v) = true ->
  k <> "" /\ sall token_char k = true /\ canonical true k = k /\ sall value_char v = true /\
  head_ok v = true /\ head_ok (srev v) = true.
Proof.
  unfold field_ok. cbn [fst snd].
  intros [[[[[Hk%negb_true_iff%String.eqb_neq Ht]%andb_true_iff Hc%String.eqb_eq]%andb_true_iff Hv]%andb_true_iff Hh]%andb_true_iff Hr]%andb_true_iff.
  by split_and!.
Qed.

Lemma sapp_cons c s t : String c s +:+ t = String c (s +:+ t).
Proof. done. Qed.

Lemma srev_head (k v : string) : v <> "" -> head_ok (srev v) = true -> head_ok (srev (k +:+ v)) = true.
Proof.
  intros Hne Hr. rewrite srev_append. destruct (srev v) as [|c t] eqn:Hs; [|done].
  destruct Hne. by rewrite <-(srev_involutive v), Hs.
Qed.

(** A clean line gives its field. *)
Lemma clean_line k v h :
  field_ok (k, v) = true ->
  let l := k +:+ ": " +:+ v in
  starts_blank l = false /\ l <> "" /\ selem newline (l +:+ cr) = false /\
  exists t, start_line l = Ok t /\ add_field t h = Ok (h_Add h k v).
Proof.
  intros (Hne & Ht & Hc & Hv & Hh & Hr)%field_ok_inv l.
  assert (selem ":" k = false) as Hcol by (apply (selem_none token_char); [apply token_facts|done]).
  destruct k as [|c k]; [done|]. pose proof Ht as Hct. cbn [sall] in Hct. apply andb_true_iff in Hct as [Hct _].
  split_and!.
  - unfold l. cbn. by apply token_facts.
  - done.
  - unfold l. rewrite !selem_app.
    rewrite (selem_none token_char newline (String c k)) by (apply token_facts || done).
    by rewrite (selem_none value_char newline v) by (apply value_facts || done).
  - unfold start_line. assert (selem ":" l = true) as -> by (unfold l; rewrite selem_app; cbn; by rewrite orb_true_r).
    eexists. split; [done|].
    assert (head_ok l = true) as Hl by (unfold l; cbn; by destruct (token_facts c Hct) as (-> & _)).
    assert (exists w, trim blank l = String c k +:+ String ":" w /\ drop_while blank w = v /\ sall value_char w = true)
      as (w & -> & Hw & Hwv).
    { destruct (String.eqb_spec v "") as [->|Hv0].
      - exists "". split_and!; [|done|done]. unfold trim. rewrite (drop_while_head l) by done. unfold l.
        generalize (String c k). intros K. rewrite srev_append.
        change (drop_while blank (srev (": " +:+ "") +:+ srev K)) with (srev ":" +:+ srev K).
        by rewrite <-srev_append, srev_involutive.
      - exists (String " " v). split_and!; [|cbn; by apply drop_while_head|cbn; by rewrite Hv].
        apply trim_ok; [done|]. unfold l.
        generalize (String c k). intros K.
        change (String ":" (String " " v)) with (": " +:+ v). rewrite sapp_assoc. by apply srev_head. }
    unfold add_field. rewrite cut_byte_app by done. unfold header_key. cbn [String.eqb]. rewrite Ht, Hc, Hwv.
    by rewrite Hw.
Qed.

(** The header of a list of fields. *)
Definition adds (h : header) (fs : list (string * string)) : header := foldl (fun h f => h_Add h f.1 f.2) h fs.

Definition field_line (f : string * string) : string := f.1 +:+ ": " +:+ f.2 +:+ cr.

Lemma field_line_cr f : field_line f = (f.1 +:+ ": " +:+ f.2) +:+ cr.
Proof. unfold field_line. by rewrite !sapp_assoc. Qed.

Lemma header_of_cons e l lines cur h :
  lines <> [] ->
  header_of e (l :: lines) cur h =
    match starts_blank (dropCR l), cur with
    | true, Some c => header_of e lines (Some (c +:+ " " +:+ trim blank (dropCR l))) h
    | true, None => Err (Errorf "malformed MIME header initial line: %s" [dropCR l])
    | false, _ =>
        flush cur h ≫= fun h =>
        if String.eqb (dropCR l) "" then Ok (h, lines)
        else start_line (dropCR l) ≫= fun l => header_of e lines (Some l) h
    end.
Proof. by destruct lines. Qed.

Lemma header_of_fields e fs rest cur h h0 :
  Forall (fun f => field_ok f = true) fs -> rest <> [] -> flush cur h = Ok h0 ->
  header_of e ((field_line <$> fs) ++ cr :: rest) cur h = Ok (adds h0 fs, rest).
Proof.
  intros Hf Hrest. revert cur h h0. induction Hf as [|[k v] fs Hk _ IH]; intros cur h h0 Hcur.
  - cbn [fmap list_fmap app]. rewrite header_of_cons by done. change (dropCR cr) with "". cbn [starts_blank]. by rewrite Hcur.
  - destruct (clean_line k v h0 Hk) as (Hb & Hne & _ & t & Hs & Ha).
    cbn [fmap list_fmap app]. rewrite header_of_cons by (by destruct fs).
    rewrite field_line_cr, dropCR_cr. cbn [fst snd]. rewrite Hb, Hcur. cbn [result_bind mbind result_mbind].
    rewrite (proj2 (String.eqb_neq _ _) Hne), Hs. cbn [result_bind mbind result_mbind]. by apply IH.
Qed.

Lemma h_Add_values h k v k' :
  h_values (h_Add h k v) k' = if String.eqb k k' then h_values h k ++ [v] else h_values h k'.
Proof.
  unfold h_Add. destruct (String.eqb_spec k k') as [->|Hne].
  - rewrite h_values_app; [cbn; by rewrite String.eqb_refl| |by intros p; apply h_Del_keys].
    rewrite h_Del_values. by rewrite String.eqb_refl.
  - assert (forall l, h_values (l ++ [(k, h_values h k ++ [v])]) k' = h_values l k') as ->.
    { induction l as [|[k0 vs] l IH]; simpl; [|by rewrite IH]. by rewrite (proj2 (String.eqb_neq _ _)). }
    rewrite h_Del_values. by rewrite (proj2 (String.eqb_neq _ _)).
Qed.

(** The values of a key among a list of fields, in order. *)
Definition field_values (fs : list (string * string)) (k : string) : list string :=
  omap (fun f => if String.eqb f.1 k then Some f.2 else None) fs.

Lemma field_values_app fs gs k : field_values (fs ++ gs) k = field_values fs k ++ field_values gs k.
Proof. apply omap_app. Qed.

Lemma adds_values h fs k : h_values (adds h fs) k = h_values h k ++ field_values fs k.
Proof.
  unfold field_values. revert h. induction fs as [|[k0 v] fs IH]; intros h; [by rewrite app_nil_r|].
  unfold adds in *. cbn [foldl fst snd omap list_omap]. rewrite IH, h_Add_values.
  destruct (String.eqb_spec k0 k) as [->|]; [by rewrite <-app_assoc|done].
Qed.

Lemma adds_nodup h fs : NoDup h.*1 -> NoDup (adds h fs).*1.
Proof. revert h. induction fs as [|f fs IH]; intros h Hnd; [done|]. by apply IH, h_push_nodup. Qed.

Lemma digits_value_pretty (n : N) : digits_value 0 (pretty n) = Some (Z.of_N n).
Proof.
  assert (forall x s, digits_value 0 (pretty_N_go x s) = digits_value (Z.of_N x) s) as Hgo.
  { intros x. induction (N.lt_wf_0 x) as [x _ IH]. intros s.
    assert (x = 0 \/ 0 < x)%N as [->|Hx] by lia; [by rewrite pretty_N_go_0|].
    rewrite pretty_N_go_step, IH by (done || by apply N.div_lt). cbn [digits_value].
    assert (is_digit (pretty_N_char (x mod 10)) = true /\ ord (pretty_N_char (x mod 10)) - 48 = Z.of_N (x mod 10)) as [-> ->].
    { assert (x mod 10 < 10)%N as Hlt by (by apply N.mod_lt). revert Hlt. generalize (x mod 10)%N. intros d Hd.
      assert (d = 0 \/ d = 1 \/ d = 2 \/ d = 3 \/ d = 4 \/ d = 5 \/ d = 6 \/ d = 7 \/ d = 8 \/ d = 9)%N as Hcases by lia.
      by destruct Hcases as [->|[->|[->|[->|[->|[->|[->|[->|[->| ->]]]]]]]]]. }
    f_equal. pose proof (N.div_mod x 10 ltac:(done)). lia. }
  unfold pretty, pretty_N. case_decide; [by subst|]. by rewrite Hgo.
Qed.

Lemma ParseUint63_pretty n : 0 <= n < 2 ^ 63 -> ParseUint63 (pretty n) = Some n.
Proof.
  intros Hn. unfold ParseUint63. assert (pretty n = pretty (Z.to_N n)) as ->.
  { destruct n as [|p|p]; [done| |lia]. done. }
  rewrite digits_value_pretty, Z2N.id by lia. rewrite (proj2 (Z.ltb_lt _ _)) by lia.
  destruct (String.eqb_spec (pretty (Z.to_N n)) "") as [He|]; [|done].
  pose proof (digits_value_pretty (Z.to_N n)) as Hd. rewrite He in Hd. injection Hd as Hd.
  assert (Z.to_N n = 0)%N as Hz by lia. by rewrite Hz in He.
Qed.

Lemma TrimString_pretty (n : Z) : TrimString (pretty n) = pretty n.
Proof.
  assert (forall s, sall number_char s = true -> drop_while (fun c => blank c || (ord c =? 10) || (ord c =? 13)) s = s) as Hd.
  { intros [|c s]; [done|]. cbn. intros [Hc _]%andb_true_iff. revert Hc.
    by destruct c as [[] [] [] [] [] [] [] []]. }
  unfold TrimString, trim. rewrite (Hd (pretty n)) by apply pretty_Z_chars. rewrite Hd; [apply srev_involutive|].
  rewrite sall_srev. apply pretty_Z_chars.
Qed.

(** Any number of equal decimal lengths are one. *)
Lemma fixLength_equal h n :
  0 <= n < 2 ^ 63 -> Forall (fun v => v = pretty n) (h_values h "Content-Length") ->
  (h_values h "Content-Length" = [] -> n = 0) ->
  exists h', fixLength h = Ok (h', n) /\
    (NoDup h.*1 -> NoDup h'.*1) /\
    forall k, h_values h' k = if String.eqb k "Content-Length" then take 1 (h_values h k) else h_values h k.
Proof.
  intros Hn Hall Hnil. unfold fixLength. destruct (h_values h "Content-Length") as [|v vs] eqn:Hv.
  - exists h. rewrite Hnil by done. split; [done|]. split; [done|]. intros k. destruct (String.eqb_spec k "Content-Length") as [->|]; [|done].
    by rewrite Hv.
  - apply Forall_cons in Hall as [-> Hvs]. rewrite !TrimString_pretty.
    assert (existsb (fun x => negb (String.eqb (TrimString x) (pretty n))) vs = false) as ->.
    { clear -Hvs. induction Hvs as [|x vs -> _ IH]; [done|]. cbn [existsb]. rewrite TrimString_pretty, String.eqb_refl. by apply IH. }
    rewrite ParseUint63_pretty by done. eexists. split; [done|].
    split; [by destruct vs; [|apply h_push_nodup]|]. intros k.
    destruct (String.eqb_spec k "Content-Length") as [->|Hne].
    + rewrite Hv. destruct vs; [by rewrite Hv|]. by rewrite h_Set_same.
    + destruct vs; [done|]. by rewrite h_Set_values.
Qed.

(** *** A request whose lines are clean *)

Definition sconcat (l : list string) : string := foldr String.append "" l.

Lemma sconcat_app l1 l2 : sconcat (l1 ++ l2) = sconcat l1 +:+ sconcat l2.
Proof. induction l1 as [|s l1 IH]; [done|]. cbn [app sconcat foldr]. fold (sconcat (l1 ++ l2)). by rewrite IH, sapp_assoc. Qed.

Lemma split_lines ls s :
  Forall (fun l => selem newline l = false) ls ->
  split_byte newline (sconcat ((fun l => l +:+ nl) <$> ls) +:+ s) = ls ++ split_byte newline s.
Proof.
  induction 1 as [|l ls Hl _ IH]; [done|]. cbn [fmap list_fmap sconcat foldr app].
  fold (sconcat ((fun l => l +:+ nl) <$> ls)). rewrite <-!sapp_assoc.
  change (nl +:+ ?x) with (String newline x). rewrite split_byte_app, split_byte_none by done.
  by rewrite IH.
Qed.

Lemma join_split s : sjoin nl (split_byte newline s) = s.
Proof.
  induction s as [|c s IH]; [done|]. cbn [split_byte]. pose proof (split_byte_ne newline s) as Hne.
  destruct (Ascii.eqb_spec newline c) as [<-|].
  - destruct (split_byte newline s) as [|t ts]; [done|].
    change (sjoin nl ("" :: t :: ts)) with (String newline (sjoin nl (t :: ts))). by rewrite IH.
  - destruct (split_byte newline s) as [|t [|t' ts]]; [done|by rewrite <-IH|].
    change (sjoin nl (String c t :: t' :: ts)) with (String c (sjoin nl (t :: t' :: ts))). by rewrite IH.
Qed.

Lemma substring_app s t : String.substring 0 (String.length s) (s +:+ t) = s.
Proof. induction s as [|c s IH]; [by destruct t|]. cbn. by rewrite IH. Qed.

(** The fields of a header, key by key. *)
Definition header_fields (h : header) : list (string * string) := h ≫= fun '(k, vs) => (fun v => (k, v)) <$> vs.

Lemma pair_values k0 k (vs : list string) :
  field_values ((fun v => (k0, v)) <$> vs) k = if String.eqb k0 k then vs else [].
Proof.
  unfold field_values. induction vs as [|v vs IH]; [by destruct (String.eqb k0 k)|].
  cbn [fmap list_fmap omap list_omap fst snd] in *. destruct (String.eqb k0 k); [by rewrite IH|done].
Qed.

Lemma h_values_absent (h : header) k : k ∉ h.*1 -> h_values h k = [].
Proof.
  induction h as [|[k0 vs] h IH]; [done|]. cbn [fmap list_fmap fst h_values]. intros [Hne Hin]%not_elem_of_cons.
  rewrite (proj2 (String.eqb_neq k0 k)) by congruence. by apply IH.
Qed.

Lemma header_fields_values h k : NoDup h.*1 -> field_values (header_fields h) k = h_values h k.
Proof.
  induction h as [|[k0 vs] h IH]; [done|]. cbn [fmap list_fmap fst]. intros [Hnin Hnd]%NoDup_cons.
  unfold header_fields. cbn [mbind list_bind]. fold (header_fields h). rewrite field_values_app, pair_values, (IH Hnd).
  cbn [h_values]. destruct (String.eqb_spec k0 k) as [<-|]; [|done]. rewrite h_values_absent by done. apply app_nil_r.
Qed.

Lemma elem_of_header_fields h k v : (k, v) ∈ header_fields h <-> exists vs, (k, vs) ∈ h /\ v ∈ vs.
Proof.
  unfold header_fields. rewrite list_elem_of_bind. split.
  - intros ([k0 vs] & (v' & Heq & Hv)%list_elem_of_fmap & Hin). simplify_eq. by exists vs.
  - intros (vs & Hin & Hv). exists (k, vs). split; [|done]. apply list_elem_of_fmap. by exists v.
Qed.

Lemma h_values_elem (h : header) k vs : NoDup h.*1 -> (k, vs) ∈ h -> h_values h k = vs.
Proof.
  induction h as [|[k0 vs0] h IH]; [by intros _ ?%elem_of_nil|]. cbn [fmap list_fmap fst h_values].
  intros [Hnin Hnd]%NoDup_cons [Heq|Hin]%elem_of_cons; [simplify_eq; by rewrite String.eqb_refl|].
  destruct (String.eqb_spec k0 k) as [->|]; [|by apply IH].
  destruct Hnin. apply list_elem_of_fmap. by exists (k, vs).
Qed.

Lemma elem_of_field_values fs k v : v ∈ field_values fs k <-> (k, v) ∈ fs.
Proof.
  unfold field_values. rewrite list_elem_of_omap. split.
  - intros ([k0 v0] & Hin & Hf). cbn [fst snd] in Hf. destruct (String.eqb_spec k0 k); by simplify_eq.
  - intros Hin. exists (k, v). split; [done|]. cbn [fst snd]. by rewrite String.eqb_refl.
Qed.

(** A header all of whose values come from clean fields is clean. *)
Lemma header_fields_ok (h : header) fs :
  NoDup h.*1 -> Forall (fun f => field_ok f = true) fs -> (forall k v, v ∈ h_values h k -> v ∈ field_values fs k) ->
  Forall (fun f => field_ok f = true) (header_fields h).
Proof.
  intros Hnd Hf Hv. apply Forall_forall. intros [k v] (vs & Hin & Hvs)%elem_of_header_fields.
  rewrite Forall_forall in Hf. apply Hf, elem_of_field_values, Hv. by rewrite (h_values_elem _ _ _ Hnd Hin).
Qed.

Lemma visible_value s : sall visible s = true -> sall value_char s = true /\ head_ok s = true /\ head_ok (srev s) = true.
Proof.
  intros Hs. assert (forall c, visible c = true -> value_char c = true /\ blank c = false) as Hc
    by (intros c; by destruct c as [[] [] [] [] [] [] [] []]).
  assert (forall s, sall visible s = true -> head_ok s = true) as Hh.
  { intros [|c t]; [done|]. cbn. intros [Hv _]%andb_true_iff. by rewrite (proj2 (Hc c Hv)). }
  split_and!; [|by apply Hh|by apply Hh; rewrite sall_srev]. eapply sall_impl; [|exact Hs]. intros c Hv. by apply Hc.
Qed.

Lemma field_ok_intro k v :
  k <> "" -> sall token_char k = true -> canonical true k = k -> sall value_char v = true -> head_ok v = true ->
  head_ok (srev v) = true -> field_ok (k, v) = true.
Proof.
  intros Hk Ht Hc Hv Hh Hr. unfold field_ok. cbn [fst snd]. rewrite Ht, Hv, Hh, Hr.
  by rewrite (proj2 (String.eqb_neq _ _) Hk), (proj2 (String.eqb_eq _ _) Hc).
Qed.

Lemma visible_field k v :
  negb (String.eqb k "") && sall token_char k && String.eqb (canonical true k) k = true ->
  sall visible v = true -> field_ok (k, v) = true.
Proof.
  intros [[Hk%negb_true_iff%String.eqb_neq Ht]%andb_true_iff Hc%String.eqb_eq]%andb_true_iff (Hv & Hh & Hr)%visible_value.
  by apply field_ok_intro.
Qed.

(** The text of a message with this first line and these fields. *)
Definition message_text (l : string) (fs : list (string * string)) (rest : string) : string :=
  sconcat ((fun l => l +:+ nl) <$> (l +:+ cr) :: (field_line <$> fs) ++ [cr]) +:+ rest.

Definition put_field (f : string * string) : string := field_line f +:+ nl.

Lemma message_lines l fs ls :
  sconcat ((l +:+ cr +:+ nl) :: (put_field <$> fs) ++ (cr +:+ nl) :: ls) = message_text l fs (sconcat ls).
Proof.
  unfold message_text. change ((cr +:+ nl) :: ls) with ([cr +:+ nl] ++ ls).
  rewrite app_assoc, app_comm_cons, sconcat_app. do 2 f_equal.
  rewrite fmap_cons, fmap_app, sapp_assoc. do 2 f_equal. rewrite <-list_fmap_compose. by apply list_fmap_ext.
Qed.

Lemma split_message l fs rest :
  selem newline l = false -> Forall (fun f => field_ok f = true) fs ->
  split_byte newline (message_text l fs rest) = (l +:+ cr) :: (field_line <$> fs) ++ cr :: split_byte newline rest.
Proof.
  intros Hl Hf. unfold message_text. rewrite split_lines; [by rewrite <-app_comm_cons, <-app_assoc|]. constructor.
  - by rewrite selem_app, Hl.
  - apply Forall_app. split; [|by repeat constructor]. apply Forall_fmap. eapply Forall_impl; [exact Hf|].
    intros [k v] Hk. cbn [compose]. rewrite field_line_cr. by apply (clean_line k v []).
Qed.

(** No rewriting of Pragma is due. *)
Definition pragma_ok (fs : list (string * string)) : Prop :=
  default "" (head (field_values fs "Pragma")) = "no-cache" -> field_values fs "Cache-Control" <> [].

(** A header that net/http has already been through is left alone. *)
Lemma fixPragma_same h fs :
  (forall k, h_values h k = field_values fs k) -> pragma_ok fs -> fixPragmaCacheControl h = h.
Proof.
  intros Hv Hp. unfold fixPragmaCacheControl, h_Get. rewrite !Hv. unfold pragma_ok in Hp.
  destruct (field_values fs "Pragma") as [|p ps]; [done|]. cbn [default head] in Hp.
  destruct (String.eqb_spec p "no-cache") as [->|]; [|done]. by destruct (field_values fs "Cache-Control"); [destruct (Hp eq_refl)|].
Qed.

(** The text of a request. *)
Definition request_text (m uri : string) (fs : list (string * string)) (rest : string) : string :=
  message_text (m +:+ " " +:+ uri +:+ " HTTP/1.1") fs rest.

Section facts.
Context `{OtherURI, OtherBody}.

(** A request line that is well formed. *)
Definition line_ok (m uri : string) : Prop :=
  m <> "" /\ sall token_char m = true /\ selem " " uri = false /\ selem newline uri = false.

Lemma request_line_ok m uri : line_ok m uri -> request_line (m +:+ " " +:+ uri +:+ " HTTP/1.1") = target m uri ≫= fun u => Ok (m, u).
Proof.
  intros (Hm & Ht & Hu & _). unfold request_line.
  assert (selem " " m = false) as Hms by (apply (selem_none token_char); [apply token_facts|done]).
  change (" " +:+ uri +:+ " HTTP/1.1") with (String " " (uri +:+ " HTTP/1.1")). rewrite cut_byte_app by done.
  change (uri +:+ " HTTP/1.1") with (uri +:+ String " " "HTTP/1.1"). rewrite cut_byte_app by done.
  by rewrite (proj2 (String.eqb_neq _ _) Hm), Ht.
Qed.

(** The header tells the length of the body, if at all. *)
Definition length_told (fs : list (string * string)) (body : string) : Prop :=
  zslen body < 2 ^ 63 /\ Forall (fun v => v = pretty (zslen body)) (field_values fs "Content-Length") /\
  (field_values fs "Content-Length" = [] -> body = "").

(** What is read of a message with these fields, whatever part [b] of its body is
    there. *)
Lemma read_rest_any m u e fs body b host :
  u_Host u = "" -> Forall (fun f => field_ok f = true) fs -> field_values fs "Host" = [host] ->
  field_values fs "Transfer-Encoding" = [] -> pragma_ok fs -> length_told fs body ->
  exists req, read_rest m u e ((field_line <$> fs) ++ cr :: split_byte newline b) = Ok req /\
    rq_Method req = m /\ rq_URL req = u /\ rq_Host req = host /\ rq_Body req = body_of (zslen body) b e /\ rq_Eager req = true /\ rq_Rest req = b /\
    NoDup (rq_Header req).*1 /\
    forall k, h_values (rq_Header req) k =
      if String.eqb k "Host" then [] else if String.eqb k "Content-Length" then take 1 (field_values fs k)
      else field_values fs k.
Proof.
  intros Hu Hf Hhost Hte Hp (Hlen & Hcl & Hnil). unfold read_rest.
  rewrite (header_of_fields e fs _ None [] []) by (done || apply split_byte_ne). cbn [result_bind mbind result_mbind].
  set (h := adds [] fs).
  assert (forall k, h_values h k = field_values fs k) as Hv by (intros k; unfold h; by rewrite adds_values).
  rewrite join_split, Hv, Hhost. cbn [length Nat.ltb Nat.leb]. rewrite Hu. cbn [String.eqb].
  rewrite (fixPragma_same h fs) by done.
  rewrite Hv, Hte. destruct (fixLength_equal h (zslen body)) as (h' & -> & Hnd & Hh'); rewrite ?Hv; try done; try lia.
  { intros Hn. by rewrite (Hnil Hn). }
  cbn [result_bind mbind result_mbind]. eexists. split; [done|]. cbn [rq_Method rq_URL rq_Host rq_Body rq_Eager rq_Rest rq_Header].
  split_and!; try done.
  - unfold h_Get. by rewrite Hv, Hhost.
  - apply h_filter_nodup, Hnd, adds_nodup, NoDup_nil_2.
  - intros k. rewrite h_Del_values, Hh', Hv. rewrite String.eqb_sym. done.
Qed.

Lemma request_line_one m uri : line_ok m uri -> selem newline (m +:+ " " +:+ uri +:+ " HTTP/1.1") = false.
Proof.
  intros (_ & Ht & _ & Hn). rewrite !selem_app, Hn. by rewrite (selem_none token_char newline m) by (apply token_facts || done).
Qed.

Lemma ReadRequest_any m uri u e fs body b host :
  line_ok m uri -> target m uri = Ok u ->
  u_Host u = "" -> Forall (fun f => field_ok f = true) fs -> field_values fs "Host" = [host] ->
  field_values fs "Transfer-Encoding" = [] -> pragma_ok fs -> length_told fs body ->
  exists req,
    ReadRequest (request_text m uri fs b) e = Ok req /\
    rq_Method req = m /\ rq_URL req = u /\ rq_Host req = host /\ rq_Body req = body_of (zslen body) b e /\ rq_Eager req = true /\ rq_Rest req = b /\
    NoDup (rq_Header req).*1 /\
    forall k, h_values (rq_Header req) k =
      if String.eqb k "Host" then [] else if String.eqb k "Content-Length" then take 1 (field_values fs k)
      else field_values fs k.
Proof.
  intros Hline Hu Hh Hf Hhost Hte Hp Hl.
  destruct (read_rest_any m u e fs body b host Hh Hf Hhost Hte Hp Hl) as (req & Hr & Hreq). exists req. split; [|done].
  unfold ReadRequest, request_text. rewrite split_message by (done || by apply request_line_one).
  destruct ((field_line <$> fs) ++ cr :: split_byte newline b) as [|x xs] eqn:Hx; [by destruct fs|].
  rewrite dropCR_cr, request_line_ok, Hu by done. cbn [result_bind mbind result_mbind]. rewrite Hr.
  by destruct ((m +:+ " " +:+ uri +:+ " HTTP/1.1") +:+ cr).
Qed.

Lemma ReadRequest_ok m uri u e fs body extra host :
  line_ok m uri -> target m uri = Ok u ->
  u_Host u = "" -> Forall (fun f => field_ok f = true) fs -> field_values fs "Host" = [host] ->
  field_values fs "Transfer-Encoding" = [] -> pragma_ok fs -> length_told fs body ->
  exists req,
    ReadRequest (request_text m uri fs (body +:+ extra)) e = Ok req /\
    rq_Method req = m /\ rq_URL req = u /\ rq_Host req = host /\ rq_Body req = (body, Sentinel io_EOF) /\ rq_Eager req = true /\ rq_Rest req = body +:+ extra /\
    NoDup (rq_Header req).*1 /\
    forall k, h_values (rq_Header req) k =
      if String.eqb k "Host" then [] else if String.eqb k "Content-Length" then take 1 (field_values fs k)
      else field_values fs k.
Proof.
  intros Hline Hu Hh Hf Hhost Hte Hp Hl.
  destruct (ReadRequest_any m uri u e fs body (body +:+ extra) host Hline Hu Hh Hf Hhost Hte Hp Hl)
    as (req & Hr & Hm & Hru & Hq & Hb & Hreq).
  exists req. split_and!; try done; try apply Hreq. rewrite Hb. unfold body_of. rewrite Nat2Z.id, substring_app, slen_app.
  by rewrite (proj2 (Z.leb_le _ _)) by lia.
Qed.

(** *** A message that is cut short *)

Lemma unexpected_not_eof e : unexpected e <> Sentinel io_EOF.
Proof. unfold unexpected. by case_bool_decide. Qed.

Lemma header_of_cut e ls q cur h :
  Forall (fun l => dropCR l <> "") ls -> exists err, header_of e (ls ++ [q]) cur h = Err err.
Proof.
  intros Hl. revert cur h. induction Hl as [|l ls Hl _ IH]; intros cur h.
  - cbn [app header_of]. destruct (String.eqb q ""); [destruct (flush cur h); by eexists|].
    destruct (starts_blank q); [destruct cur as [c|]; [destruct (add_field _ h); by eexists|by eexists]|].
    destruct (flush cur h) as [h'|]; [|by eexists]. cbn [result_bind mbind result_mbind].
    destruct (start_line q) as [l|]; [|by eexists]. cbn [result_bind mbind result_mbind]. destruct (add_field l h'); by eexists.
  - rewrite <-app_comm_cons, header_of_cons by (by destruct ls).
    destruct (starts_blank (dropCR l)); [destruct cur as [c|]; [apply IH|by eexists]|].
    destruct (flush cur h) as [h'|]; [|by eexists]. cbn [result_bind mbind result_mbind].
    rewrite (proj2 (String.eqb_neq _ _) Hl). destruct (start_line (dropCR l)) as [l'|]; [apply IH|by eexists].
Qed.

Lemma prefix_cases a b p t :
  a +:+ b = p +:+ t ->
  (exists q, p = a +:+ q /\ b = q +:+ t) \/ (exists q, a = p +:+ q /\ q <> "" /\ t = q +:+ b).
Proof.
  revert p. induction a as [|c a IH]; intros p Heq; [left; by exists p|].
  destruct p as [|d p].
  - right. by exists (String c a).
  - injection Heq as -> Heq. destruct (IH p Heq) as [(q & -> & ->)|(q & -> & Hq & ->)]; [left|right]; by exists q.
Qed.

(** A beginning of a text ends in one of its lines, or behind them. *)
Lemma cut_lines ls rest p t :
  Forall (fun l => selem newline l = false) ls ->
  sconcat ((fun l => l +:+ nl) <$> ls) +:+ rest = p +:+ t ->
  (exists q, p = sconcat ((fun l => l +:+ nl) <$> ls) +:+ q /\ rest = q +:+ t) \/
  (exists i q, (i < length ls)%nat /\ split_byte newline p = take i ls ++ [q]).
Proof.
  intros Hl. revert p. induction Hl as [|l ls Hl Hls IH]; intros p Heq; [left; by exists p|].
  cbn [fmap list_fmap sconcat foldr] in *. fold (sconcat ((fun l => l +:+ nl) <$> ls)) in *.
  rewrite <-sapp_assoc in Heq. apply prefix_cases in Heq as [(q & -> & Heq)|(q & Heq & Hq & _)].
  - destruct (IH q Heq) as [(q' & -> & ->)|(i & q' & Hi & Hs)].
    + left. exists q'. by rewrite sapp_assoc.
    + right. exists (S i), q'. split; [simpl; lia|]. cbn [take]. rewrite <-sapp_assoc.
      change (nl +:+ q) with (String newline q). by rewrite split_byte_app, split_byte_none, Hs.
  - right. exists 0%nat, p. split; [simpl; lia|]. cbn [take app]. apply split_byte_none.
    apply prefix_cases in Heq as [(q' & -> & Heq)|(q' & -> & _)].
    + destruct q' as [|c q']; [by rewrite sapp_nil_r|]. injection Heq as _ Heq. by destruct q', q.
    + rewrite selem_app in Hl. by apply orb_false_iff in Hl as [? _].
Qed.

(** Of a request that is cut short nothing is read that ends well. *)
Lemma ReadRequest_cut m uri u e fs body host p t :
  line_ok m uri -> target m uri = Ok u ->
  u_Host u = "" -> Forall (fun f => field_ok f = true) fs -> field_values fs "Host" = [host] ->
  field_values fs "Transfer-Encoding" = [] -> pragma_ok fs -> length_told fs body ->
  request_text m uri fs body = p +:+ t -> t <> "" ->
  (exists err, ReadRequest p e = Err err) \/
  exists req, ReadRequest p e = Ok req /\ snd (rq_Body req) <> Sentinel io_EOF /\
    forall k, k <> "Host" -> k <> "Content-Length" -> h_values (rq_Header req) k = field_values fs k.
Proof.
  intros Hline Hu Hh Hf Hhost Hte Hp Hl Heq Hne.
  unfold request_text, message_text in Heq. set (ls := (_ +:+ cr) :: (field_line <$> fs) ++ [cr]) in Heq.
  assert (Forall (fun l => selem newline l = false) ls) as Hls.
  { unfold ls. constructor; [by rewrite selem_app, request_line_one|]. apply Forall_app. split; [|by repeat constructor].
    apply Forall_fmap. eapply Forall_impl; [exact Hf|]. intros [k v] Hk. cbn [compose]. rewrite field_line_cr.
    by apply (clean_line k v []). }
  destruct (cut_lines ls body p t Hls Heq) as [(b & -> & Hb)|(i & q & Hi & Hs)].
  - right. destruct (ReadRequest_any m uri u e fs body b host Hline Hu Hh Hf Hhost Hte Hp Hl)
      as (req & Hr & _ & _ & _ & Hbody & _ & _ & _ & Hv).
    exists req. split_and!; [exact Hr| |].
    + rewrite Hbody. unfold body_of. cbn [snd]. rewrite (proj2 (Z.leb_gt _ _)); [apply unexpected_not_eof|].
      rewrite Hb, slen_app. destruct t; [done|]. cbn [String.length]. lia.
    + intros k H1' H2'. by rewrite Hv, !(proj2 (String.eqb_neq k _)).
  - left. unfold ReadRequest. rewrite Hs. destruct i as [|i].
    { cbn [take app]. destruct q as [|c q]; [by eexists|]. destruct (request_line (String c q)) as [[m' u']|] eqn:Hrl; eexists; cbn; rewrite Hrl; reflexivity. }
    unfold ls at 1. cbn [take app]. set (l0 := _ +:+ cr). set (more := take i ((field_line <$> fs) ++ [cr]) ++ [q]).
    assert (forall m' u', exists err, read_rest m' u' e more = Err err) as Hmore.
    { intros m' u'. unfold read_rest. destruct (header_of_cut e (take i ((field_line <$> fs) ++ [cr])) q None []) as [err Herr].
      - rewrite take_app_le by (unfold ls in Hi; rewrite length_cons, length_app in Hi; simpl in Hi; lia).
        apply Forall_take, Forall_fmap. eapply Forall_impl; [exact Hf|]. intros [k v] Hk. cbn [compose].
        rewrite field_line_cr, dropCR_cr. by apply (clean_line k v []).
      - unfold more. rewrite Herr. by eexists. }
    destruct more as [|x xs] eqn:Hx; [unfold more in Hx; by destruct (take i _)|].
    destruct (request_line (dropCR l0)) as [[m' u']|err] eqn:Hrl; [destruct (Hmore m' u') as [err Herr]|];
      exists err; by destruct l0.
Qed.

End facts.
