(* ===== verification/HttpResponse.v ===== *)
(** * [http.Response]: writing one, reading one

    What the two ends of a stream use of net/http for a response: the client
    writes the one it got from the local service ([Response.Write]), the server
    reads it ([http.ReadResponse]). The framing of the body is chosen by the
    writer: a length, chunks, or the end of the stream. Trailers are left out: the
    writer has none to write, and how the reader takes those of another writer is
    a parameter. *)
From S2P Require Import Prelude GoStr GoText GoFmt Http GoUrl HttpRead.
From stdpp Require Import sorting.
From Stdlib Require Import Ascii.
#[local] Open Scope Z_scope.

(** ** Hexadecimal lengths *)

Definition hex_digit (d : N) : ascii := ascii_of_N (if (d <? 10)%N then 48 + d else 87 + d).

Fixpoint hex_go (fuel : nat) (n : N) (s : string) : string :=
  match fuel with
  | O => s
  | S fuel =>
      let s := String (hex_digit (n mod 16)) s in
      if (n <? 16)%N then s else hex_go fuel (n / 16) s
  end.

(** [%x] of a length: as many digits as there are bits are enough. *)
Definition hex_of (n : N) : string := hex_go (S (N.size_nat n)) n "".

Definition hex_value (c : ascii) : option N :=
  if is_digit c then Some (N_of_ascii c - 48)%N
  else if in_range 97 102 c then Some (N_of_ascii c - 87)%N
  else if in_range 65 70 c then Some (N_of_ascii c - 55)%N
  else None.

Fixpoint hex_digits (i : nat) (acc : N) (s : string) : result N :=
  match s with
  | "" => Ok acc
  | String c s =>
      match hex_value c with
      | None => Err (errors_New "invalid byte in chunk length")
      | Some d =>
          if (i =? 16)%nat then Err (errors_New "http chunk length too large") else hex_digits (S i) (acc * 16 + d) s
      end
  end.

(** [parseHexUint]. *)
Definition parseHexUint (s : string) : result N :=
  if String.eqb s "" then Err (errors_New "empty hex number for chunk length") else hex_digits 0 0 s.

(** ** Writing *)

(** A response as the client has it: protocol, status line, header, framing, the
    method it answers, and what reading the body gives, read by read. *)
Record message := mkMessage {
  ms_Major : Z;
  ms_Minor : Z;
  ms_Status : string;
  ms_Code : Z;
  ms_Header : header;
  ms_ContentLength : Z;
  ms_Chunked : bool;
  ms_Close : bool;
  ms_Uncompressed : bool;
  ms_Method : string;
  ms_Reads : list string;
  ms_End : error
}.

Definition ProtoAtLeast11 (major minor : Z) : bool := (1 <? major) || ((major =? 1) && (1 <=? minor)).

Definition bodyAllowedForStatus (code : Z) : bool :=
  negb ((100 <=? code) && (code <=? 199)) && negb (code =? 204) && negb (code =? 304).

Definition token_boundary (c : ascii) : bool := blank c || Ascii.eqb c ",".

(** [hasToken(v, token)], for a lower-case token. *)
Fixpoint hasToken_from (start : bool) (v token : string) : bool :=
  match v with
  | "" => false
  | String c t =>
      start &&
      match CutPrefix (smap lower_char v) token with
      | Some rest => (String.eqb rest "" || token_boundary (match rest with String d _ => d | "" => "000"%char end))
      | None => false
      end
      || hasToken_from (token_boundary c) t token
  end.
Definition hasToken : string -> string -> bool := hasToken_from true.

(** The keys in order, as a map is written. *)
Definition key_le (p q : string * list string) : Prop := String.leb (fst p) (fst q) = true.
#[export] Instance key_le_dec : RelDecision key_le.
Proof. intros p q. unfold key_le. apply _. Defined.

Definition in_order (h : header) : header := merge_sort key_le h.

Definition respExclude (k : string) : bool := existsb (String.eqb k) ["Content-Length"; "Transfer-Encoding"; "Trailer"].

Definition status_text_of (m : message) : string := TrimPrefix (ms_Status m) (pretty (ms_Code m) +:+ " ").

Definition status_line (m : message) : string :=
  "HTTP/" +:+ pretty (ms_Major m) +:+ "." +:+ pretty (ms_Minor m) +:+ " " +:+ pad_zero 3 (ms_Code m) +:+ " " +:+ status_text_of m.

(** The length is not known to be zero when a byte can be read. *)
Definition write_length (m : message) : Z :=
  if (ms_ContentLength m =? 0) && negb (bool_decide (ms_Reads m = [])) then -1 else ms_ContentLength m.

Definition to_head (m : message) : bool := String.eqb (ms_Method m) "HEAD".

Definition write_chunked (m : message) : bool :=
  ms_Chunked m && (to_head m || ProtoAtLeast11 (ms_Major m) (ms_Minor m)).

Definition send_length (m : message) (len : Z) : bool :=
  if write_chunked m then false
  else if 0 <? len then true
  else if len <? 0 then false
  else existsb (String.eqb (ms_Method m)) ["POST"; "PUT"; "PATCH"].

(** What stands between the status line and the header. *)
Definition framing_fields (m : message) : list (string * string) :=
  let len0 := write_length m in
  let len := if write_chunked m then -1 else len0 in
  let close := ms_Close m || (len0 =? -1) && ProtoAtLeast11 (ms_Major m) (ms_Minor m) && negb (ms_Chunked m) && negb (ms_Uncompressed m) in
  (if close && negb (hasToken (h_Get (ms_Header m) "Connection") "close") then [("Connection", "close")] else []) ++
  (if send_length m len then [("Content-Length", pretty len)]
   else if write_chunked m then [("Transfer-Encoding", "chunked")] else []).

Definition zero_length_fields (m : message) : list (string * string) :=
  if (write_length m =? 0) && negb (write_chunked m) && negb (send_length m 0) && bodyAllowedForStatus (ms_Code m)
  then [("Content-Length", "0")] else [].

Definition written_fields (m : message) : list (string * string) :=
  framing_fields m ++ header_fields (in_order (List.filter (fun p => negb (respExclude (fst p))) (ms_Header m))) ++
  zero_length_fields m.

(** One chunk per read. *)
Definition chunk (s : string) : string := hex_of (N.of_nat (String.length s)) +:+ cr +:+ nl +:+ s +:+ cr +:+ nl.

Definition last_chunk : string := "0" +:+ cr +:+ nl +:+ cr +:+ nl.

(** The body as it is written, and the error it ends with. *)
Definition written_body (m : message) : list string * option error :=
  let ended := if bool_decide (ms_End m = Sentinel io_EOF) then None else Some (ms_End m) in
  if to_head m then ([], None)
  else if write_chunked m then
    ((chunk <$> ms_Reads m) ++ (if ended is None then [last_chunk] else []), ended)
  else
    let len := write_length m in
    if len =? -1 then (ms_Reads m, ended)
    else
      let data := sconcat (ms_Reads m) in
      ([String.substring 0 (Z.to_nat len) data],
       match ended with
       | Some e => Some e
       | None => if zslen data =? len then None
                 else Some (Errorf "http: ContentLength=%d with Body length %d" [pretty len; pretty (zslen data)])
       end).

(** [Response.Write]: what is written, if everything is taken, and the error it
    returns. *)
Definition Response_Write (m : message) : list string * option error :=
  let head := status_line m +:+ cr +:+ nl in
  if (ms_ContentLength m =? 0) && bool_decide (ms_Reads m = []) && negb (bool_decide (ms_End m = Sentinel io_EOF))
  then ([head], Some (ms_End m))
  else
    let '(body, err) := written_body m in
    (head :: (put_field <$> written_fields m) ++ (cr +:+ nl) :: body, err).

(** ** Reading *)

(** What [http.ReadResponse] gives: the status, the header, the length (-1 if it
    is not known), and what reading the body gives and how it ends. *)
Record incoming := mkIncoming {
  in_Status : string;
  in_Code : Z;
  in_Header : header;
  in_ContentLength : Z;
  in_Body : string * error
}.

(** What follows the last chunk, when it is not the empty line. *)
Class OtherTrailer := read_trailer : string -> error -> error.

Definition malformed_response (l : string) : error := Errorf "malformed HTTP response %q" [l].

Definition version (s : string) : option (Z * Z) :=
  match CutPrefix s "HTTP/" with
  | Some (String a (String "." (String b ""))) => if is_digit a && is_digit b then Some (ord a - 48, ord b - 48) else None
  | _ => None
  end.

(** The status line: status, code and version. *)
Definition read_status (l : string) : result (string * Z * (Z * Z)) :=
  match cut_byte " " l with
  | None => Err (malformed_response l)
  | Some (proto, status) =>
      let status := drop_while (Ascii.eqb " ") status in
      let code := match cut_byte " " status with Some (c, _) => c | None => status end in
      if negb (String.length code =? 3)%nat then Err (Errorf "malformed HTTP status code %q" [code])
      else match Atoi code with
           | NumOk n => if n <? 0 then Err (Errorf "malformed HTTP status code %q" [code])
                        else match version proto with
                             | None => Err (Errorf "malformed HTTP version %q" [proto])
                             | Some v => Ok (status, n, v)
                             end
           | _ => Err (Errorf "malformed HTTP status code %q" [code])
           end
  end.

(** [parseTransferEncoding]: the header, and whether the body comes in chunks. *)
Definition transfer_encoding (v : Z * Z) (h : header) : result (header * bool) :=
  match h_values h "Transfer-Encoding" with
  | [] => Ok (h, false)
  | raw =>
      let h := h_Del h "Transfer-Encoding" in
      if negb (ProtoAtLeast11 (fst v) (snd v)) then Ok (h, false)
      else match raw with
           | [t] => if EqualFold t "chunked" then Ok (h, true) else Err (Errorf "unsupported transfer encoding: %q" [t])
           | _ => Err (Errorf "too many transfer encodings: %q" raw)
           end
  end.

(** [fixLength] of a response to a request with this method: the header and the
    length, -1 if there is none. *)
Definition fixLength_response (h : header) (code : Z) (method : string) (chunked : bool) : result (header * Z) :=
  fixLength h ≫= fun '((h', n) : header * Z) =>
  if String.eqb method "HEAD" || negb (bodyAllowedForStatus code) then Ok (h', 0)
  else if chunked then Ok (h_Del h' "Content-Length", -1)
  else if (if h_values h "Content-Length" is [] then true else false) then Ok (h', -1)
  else Ok (h', n).

(** The length a header tells (-1 for none), which is what a HEAD response has. *)
Definition told (h : header) : Z :=
  match h_values h "Content-Length" with
  | [] => -1
  | v :: _ => default (-1) (ParseUint63 (TrimString v))
  end.

Definition maxLineLength : Z := 4096.

(** [readChunkLine], without the line break. *)
Definition chunk_line (s : string) (e : error) : result (string * string) :=
  match cut_byte newline s with
  | None => Err (if zslen s <? maxLineLength then unexpected e else errors_New "header line too long")
  | Some (l, rest) =>
      if maxLineLength <? zslen l + 1 then Err (errors_New "header line too long")
      else match cut_byte carriage_return l with
           | None => Err (errors_New "chunked line ends with bare LF")
           | Some (l, "") => if maxLineLength <=? zslen l then Err (errors_New "header line too long") else Ok (l, rest)
           | Some _ => Err (errors_New "invalid CR in chunked line")
           end
  end.

(** Without trailing white space and extensions. *)
Definition chunk_length (l : string) : result N :=
  let l := srev (drop_while (fun c => blank c || (ord c =? 10) || (ord c =? 13)) (srev l)) in
  parseHexUint (match cut_byte ";" l with Some (a, _) => a | None => l end).

Definition sdrop (n : nat) (s : string) : string := String.substring n (String.length s - n) s.

Section read.
Context `{OtherTrailer}.

(** A body in chunks: its data, and the error it ends with. Each round takes at
    least a line. *)
Fixpoint dechunk (fuel : nat) (excess : Z) (s : string) (e : error) : string * error :=
  match fuel with
  | O => ("", e)
  | S fuel =>
      match (chunk_line s e ≫= fun '(l, rest) => chunk_length l ≫= fun n => Ok (l, n, rest)) : result (string * N * string) with
      | Err err => ("", err)
      | Ok (l, n, rest) =>
          let excess := Z.max 0 (excess + zslen l + 2 - (16 + 2 * Z.of_N n)) in
          if (n =? 0)%N then
            ("", if HasPrefix rest (cr +:+ nl) then Sentinel io_EOF else read_trailer rest e)
          else if 16 * 1024 <? excess then ("", errors_New "chunked encoding contains too much non-data")
          else if zslen rest <? Z.of_N n then (rest, unexpected e)
          else
            let data := String.substring 0 (N.to_nat n) rest in
            match sdrop (N.to_nat n) rest with
            | String a (String b rest) =>
                if Ascii.eqb a carriage_return && Ascii.eqb b newline then
                  let '(more, err) := dechunk fuel excess rest e in (data +:+ more, err)
                else (data, errors_New "malformed chunked encoding")
            | _ => (data, unexpected e)
            end
      end
  end.

(** The framing and the body, behind the header [h]. *)
Definition read_framed (status : string) (code : Z) (v : Z * Z) (method : string) (e : error) (h : header) (rest : string)
    : result incoming :=
  transfer_encoding v h ≫= fun '((h, chunked) : header * bool) =>
  fixLength_response h code method chunked ≫= fun '((h', n) : header * Z) =>
  let len := if String.eqb method "HEAD" then told h else n in
  Ok (mkIncoming status code h' len
        (if String.eqb method "HEAD" || negb (bodyAllowedForStatus code) then ("", Sentinel io_EOF)
         else if chunked then dechunk (S (String.length rest)) 0 rest e
         else if n =? 0 then ("", Sentinel io_EOF)
         else if 0 <? n then body_of n rest e
         else (rest, e))).

(** Everything behind the status line. *)
Definition read_response_rest (status : string) (code : Z) (v : Z * Z) (method : string) (e : error) (lines : list string)
    : result incoming :=
  header_of e lines None [] ≫= fun '((h, lines) : header * list string) =>
  read_framed status code v method e (fixPragmaCacheControl h) (sjoin nl lines).

(** [http.ReadResponse] of a stream that gives [s] and then [e]. *)
Definition ReadResponse (s : string) (e : error) (method : string) : result incoming :=
  match split_byte newline s with
  | [] | [""] => Err (unexpected e)
  | [l] => read_status l ≫= fun '((status, code, v) : string * Z * (Z * Z)) => read_response_rest status code v method e [""]
  | l :: lines => read_status (dropCR l) ≫= fun '((status, code, v) : string * Z * (Z * Z)) => read_response_rest status code v method e lines
  end.

End read.

(** ** Lemmas *)

(** *** Chunks *)

Definition hex_char (c : ascii) : bool := is_digit c || in_range 97 102 c.

Lemma hex_digit_facts d :
  (d < 16)%N -> hex_value (hex_digit d) = Some d /\ hex_char (hex_digit d) = true.
Proof.
  intros Hd. assert (Forall (fun d => hex_value (hex_digit d) = Some d /\ hex_char (hex_digit d) = true)
    (N.of_nat <$> seq 0 16)) as Hall by (repeat constructor).
  rewrite Forall_forall in Hall. apply Hall. apply list_elem_of_fmap. exists (N.to_nat d).
  split; [by rewrite N2Nat.id|]. apply elem_of_seq. lia.
Qed.

Lemma hex_step i acc d s :
  (d < 16)%N -> (i < 16)%nat -> hex_digits i acc (String (hex_digit d) s) = hex_digits (S i) (acc * 16 + d) s.
Proof.
  intros Hd Hi. cbn [hex_digits]. destruct (hex_digit_facts d Hd) as [-> _].
  by rewrite (proj2 (Nat.eqb_neq i 16)) by lia.
Qed.

Lemma hex_go_digits fuel n s k :
  (n < 16 ^ N.of_nat fuel)%N -> (n < 16 ^ N.of_nat (S k))%N -> (k < 16)%nat ->
  exists d, (d <= S k)%nat /\ hex_digits 0 0 (hex_go fuel n s) = hex_digits d n s.
Proof.
  revert n s k. induction fuel as [|fuel IH]; intros n s k Hf Hk Hle.
  - exists 0%nat. simpl in Hf. assert (n = 0)%N as -> by lia. split; [lia|done].
  - cbn [hex_go]. assert (n mod 16 < 16)%N as Hmod by (by apply N.mod_lt). pose proof (N.div_mod n 16 ltac:(done)) as Hdiv.
    rewrite Nat2N.inj_succ, N.pow_succ_r' in Hf, Hk.
    destruct (N.ltb_spec n 16) as [Hlt|Hge].
    + exists 1%nat. split; [lia|]. rewrite hex_step by (done || lia). f_equal. rewrite N.mod_small by done. lia.
    + destruct k as [|k]; [simpl in Hk; lia|].
      destruct (IH (n / 16)%N (String (hex_digit (n mod 16)) s) k) as (d & Hd & Heq); [apply N.Div0.div_lt_upper_bound; lia..|lia|].
      exists (S d). split; [lia|]. rewrite Heq, hex_step by (done || lia). f_equal. lia.
Qed.

Lemma hex_go_all fuel n s : sall hex_char s = true -> sall hex_char (hex_go fuel n s) = true.
Proof.
  revert n s. induction fuel as [|fuel IH]; intros n s Hs; [done|]. cbn [hex_go].
  assert (sall hex_char (String (hex_digit (n mod 16)) s) = true) as Hs'.
  { cbn [sall]. rewrite Hs. destruct (hex_digit_facts (n mod 16)) as [_ ->]; [by apply N.mod_lt|done]. }
  destruct (n <? 16)%N; [done|by apply IH].
Qed.

Lemma hex_go_length fuel n s k :
  (n < 16 ^ N.of_nat (S k))%N -> (String.length (hex_go fuel n s) <= S k + String.length s)%nat.
Proof.
  revert n s k. induction fuel as [|fuel IH]; intros n s k Hk; [simpl; lia|]. cbn [hex_go].
  rewrite Nat2N.inj_succ, N.pow_succ_r' in Hk. destruct (N.ltb_spec n 16); [simpl; lia|].
  destruct k as [|k]; [simpl in Hk; lia|].
  etrans; [apply (IH _ _ k); apply N.Div0.div_lt_upper_bound; lia|]. simpl. lia.
Qed.

Lemma hex_go_ne fuel n s : s <> "" -> hex_go fuel n s <> "".
Proof. revert n s. induction fuel as [|fuel IH]; intros n s Hs; [done|]. cbn [hex_go]. by destruct (n <? 16)%N; [|apply IH]. Qed.

Lemma size_nat_size n : N.of_nat (N.size_nat n) = N.size n.
Proof. destruct n as [|p]; [done|]. cbn. induction p as [p IH|p IH|]; cbn [Pos.size_nat Pos.size]; [|..|done]; rewrite Nat2N.inj_succ, IH; done. Qed.

(** The length of a chunk reads back. *)
Lemma hex_of_spec n :
  (n < 2 ^ 64)%N ->
  parseHexUint (hex_of n) = Ok n /\ sall hex_char (hex_of n) = true /\ (String.length (hex_of n) <= 16)%nat.
Proof.
  intros Hn. assert (n < 16 ^ N.of_nat 16)%N as H16 by exact Hn. split_and!.
  - unfold parseHexUint, hex_of. rewrite (proj2 (String.eqb_neq _ _)).
    + destruct (hex_go_digits (S (N.size_nat n)) n "" 15) as (d & _ & ->); [|done|lia|done].
      pose proof (N.size_gt n). rewrite Nat2N.inj_succ, N.pow_succ_r'.
      rewrite size_nat_size.
      assert (2 ^ N.size n <= 16 ^ N.size n)%N by (apply N.pow_le_mono_l; lia). lia.
    + cbn [hex_go]. destruct (n <? 16)%N; [done|by apply hex_go_ne].
  - by apply hex_go_all.
  - etrans; [by apply (hex_go_length _ _ _ 15)|]. simpl. lia.
Qed.

Lemma hex_char_facts c :
  hex_char c = true ->
  blank c = false /\ (ord c =? 10) || (ord c =? 13) = false /\ Ascii.eqb ";" c = false /\
  Ascii.eqb newline c = false /\ Ascii.eqb carriage_return c = false.
Proof. by destruct c as [[] [] [] [] [] [] [] []]. Qed.

Lemma chunk_line_ok l rest e :
  sall hex_char l = true -> (String.length l <= 16)%nat ->
  chunk_line (l +:+ cr +:+ nl +:+ rest) e = Ok (l, rest).
Proof.
  intros Hl Hlen. unfold chunk_line. rewrite sapp_assoc. change (nl +:+ rest) with (String newline rest).
  rewrite cut_byte_app.
  - rewrite slen_app. unfold maxLineLength. change (String.length cr) with 1%nat.
    rewrite (proj2 (Z.ltb_ge _ _)) by lia. change cr with (String carriage_return "").
    rewrite cut_byte_app by (by apply (selem_none hex_char); [apply hex_char_facts|]).
    by rewrite (proj2 (Z.leb_gt _ _)) by lia.
  - rewrite selem_app, (selem_none hex_char) by (apply hex_char_facts || done). done.
Qed.

Lemma chunk_length_ok n : (n < 2 ^ 64)%N -> chunk_length (hex_of n) = Ok n.
Proof.
  intros (Hp & Hall & _)%hex_of_spec. unfold chunk_length.
  assert (forall s, sall hex_char s = true -> drop_while (fun c => blank c || (ord c =? 10) || (ord c =? 13)) s = s) as Hd.
  { intros [|c s]; [done|]. cbn. intros [Hc _]%andb_true_iff. destruct (hex_char_facts c Hc) as (-> & Ho & _).
    cbn [orb]. by rewrite Ho. }
  rewrite Hd by (by rewrite sall_srev). rewrite srev_involutive.
  assert (cut_byte ";" (hex_of n) = None) as ->; [|done].
  assert (selem ";" (hex_of n) = false) as Hs by (by apply (selem_none hex_char); [apply hex_char_facts|]).
  clear -Hs. induction (hex_of n) as [|c s IH]; [done|]. cbn in *. apply orb_false_iff in Hs as [Hc Hs]. by rewrite Hc, IH.
Qed.

Lemma substring_take s t : String.substring 0 (String.length s) (s +:+ t) = s.
Proof. apply substring_app. Qed.

Lemma substring_all s : String.substring 0 (String.length s) s = s.
Proof. rewrite <-(sapp_nil_r s) at 2. apply substring_app. Qed.

Lemma substring_more n s : (String.length s <= n)%nat -> String.substring 0 n s = s.
Proof. revert n. induction s as [|c s IH]; intros [|n] Hn; simpl in *; try done; [lia|]. by rewrite IH by lia. Qed.

Lemma sdrop_app s t : sdrop (String.length s) (s +:+ t) = t.
Proof.
  unfold sdrop. rewrite slen_app. replace (String.length s + String.length t - String.length s)%nat with (String.length t) by lia.
  induction s as [|c s IH]; [apply substring_all|]. exact IH.
Qed.

Lemma sdrop_split n s :
  String.substring 0 n s +:+ sdrop n s = s /\ String.length (sdrop n s) = (String.length s - n)%nat.
Proof.
  revert s. induction n as [|n IH]; intros [|c s]; [done|by unfold sdrop; rewrite Nat.sub_0_r, substring_all|done|].
  destruct (IH s) as [Heq Hlen]. change (sdrop (S n) (String c s)) with (sdrop n s).
  change (String.substring 0 (S n) (String c s)) with (String c (String.substring 0 n s)).
  cbn [String.append String.length]. split; [|exact Hlen]. by f_equal.
Qed.

Section chunks.
Context `{OtherTrailer}.

(** What is not empty and can be counted. *)
Definition readable (s : string) : Prop := s <> "" /\ zslen s < 2 ^ 63.

Lemma dechunk_one fuel s rest e :
  readable s ->
  dechunk (S fuel) 0 (chunk s +:+ rest) e = (s +:+ fst (dechunk fuel 0 rest e), snd (dechunk fuel 0 rest e)).
Proof.
  intros [Hne Hlt]. set (n := N.of_nat (String.length s)). assert (n < 2 ^ 64)%N as Hn by (unfold n; lia).
  destruct (hex_of_spec n Hn) as (_ & Hall & Hlen). unfold chunk. fold n. rewrite <-!sapp_assoc. cbn [dechunk].
  rewrite chunk_line_ok by done. cbn [result_bind mbind result_mbind]. rewrite chunk_length_ok by done. cbn [result_bind mbind result_mbind].
  assert (n <> 0)%N as Hn0 by (unfold n; destruct s; [done|simpl; lia]).
  rewrite (proj2 (N.eqb_neq n 0)) by done.
  replace (Z.max 0 (0 + zslen (hex_of n) + 2 - (16 + 2 * Z.of_N n))) with 0 by lia.
  rewrite (proj2 (Z.ltb_ge (16 * 1024) 0)) by lia. rewrite (proj2 (Z.ltb_ge _ _)) by (rewrite slen_app; unfold n; lia).
  replace (N.to_nat n) with (String.length s) by (unfold n; lia). rewrite substring_take, sdrop_app.
  change (cr +:+ nl +:+ rest) with (String carriage_return (String newline rest)). cbn iota.
  rewrite !Ascii.eqb_refl. cbn [andb]. by destruct (dechunk fuel 0 rest e).
Qed.

Lemma dechunk_reads reads rest e fuel :
  Forall readable reads -> (length reads < fuel)%nat ->
  exists fuel', (0 < fuel')%nat /\ dechunk fuel 0 (sconcat (chunk <$> reads) +:+ rest) e =
    (sconcat reads +:+ fst (dechunk fuel' 0 rest e), snd (dechunk fuel' 0 rest e)).
Proof.
  intros Hr. revert fuel. induction Hr as [|s reads Hs _ IH]; intros fuel Hf.
  - exists fuel. split; [simpl in Hf; lia|]. change (sconcat (chunk <$> []) +:+ rest) with rest.
    change (sconcat [] +:+ ?x) with x. apply surjective_pairing.
  - destruct fuel as [|fuel]; [simpl in Hf; lia|]. destruct (IH fuel) as (fuel' & Hpos & Heq); [simpl in Hf; lia|].
    exists fuel'. split; [done|]. cbn [fmap list_fmap sconcat foldr]. fold (sconcat (chunk <$> reads)). fold (sconcat reads).
    rewrite <-sapp_assoc, dechunk_one, Heq by done. cbn [fst snd]. by rewrite sapp_assoc.
Qed.

Lemma chunk_length_lower s : (0 < String.length (chunk s))%nat.
Proof. unfold chunk. rewrite slen_app. change (cr +:+ ?x) with (String carriage_return x). simpl. lia. Qed.

(** A body in chunks reads back, and ends well only if it was ended. *)
Lemma dechunk_body reads (ended : bool) :
  Forall readable reads ->
  let text := sconcat ((chunk <$> reads) ++ if ended then [last_chunk] else []) in
  dechunk (S (String.length text)) 0 text (Sentinel io_EOF) =
    (sconcat reads, if ended then Sentinel io_EOF else Sentinel io_ErrUnexpectedEOF).
Proof.
  intros Hr text. assert (text = sconcat (chunk <$> reads) +:+ (if ended then last_chunk else "")) as Ht.
  { unfold text. rewrite sconcat_app. by destruct ended; cbn [sconcat foldr]; rewrite ?sapp_nil_r. }
  assert (length reads <= String.length (sconcat (chunk <$> reads)))%nat as Hlen.
  { clear. induction reads as [|s reads IH]; [simpl; lia|]. cbn [fmap list_fmap sconcat foldr length].
    fold (sconcat (chunk <$> reads)). rewrite slen_app. pose proof (chunk_length_lower s). lia. }
  destruct (dechunk_reads reads (if ended then last_chunk else "") (Sentinel io_EOF) (S (String.length text)) Hr)
    as (fuel' & Hpos & Heq); [rewrite Ht, slen_app; lia|].
  rewrite Ht at 2. rewrite Heq. destruct fuel' as [|fuel']; [lia|].
  assert (dechunk (S fuel') 0 (if ended then last_chunk else "") (Sentinel io_EOF) =
    ("", if ended then Sentinel io_EOF else Sentinel io_ErrUnexpectedEOF)) as -> by (by destruct ended).
  cbn [fst snd]. by rewrite sapp_nil_r.
Qed.

End chunks.

(** *** The status line and the header *)

Definition code_ok (n : Z) : bool :=
  (String.length (pretty n) =? 3)%nat && (if Atoi (pretty n) is NumOk v then v =? n else false) &&
  sall visible (pretty n) && String.eqb (pad_zero 3 n) (pretty n).

Lemma code_facts n : 200 <= n <= 999 -> code_ok n = true.
Proof.
  intros Hn. assert (forallb (fun i => code_ok (200 + Z.of_nat i)) (seq 0 800) = true) as Hall by (vm_compute; reflexivity).
  rewrite forallb_forall in Hall. specialize (Hall (Z.to_nat (n - 200))).
  rewrite Z2Nat.id in Hall by lia. replace (200 + (n - 200)) with n in Hall by lia. apply Hall.
  apply in_seq. lia.
Qed.

Definition version_ok (m : message) : Prop := ms_Major m = 1 /\ (ms_Minor m = 0 \/ ms_Minor m = 1).

Lemma visible_space c : visible c = true -> Ascii.eqb " " c = false.
Proof. by destruct c as [[] [] [] [] [] [] [] []]. Qed.

Lemma read_status_line m :
  version_ok m -> 200 <= ms_Code m <= 999 ->
  read_status (status_line m) =
    Ok (pretty (ms_Code m) +:+ " " +:+ status_text_of m, ms_Code m, (ms_Major m, ms_Minor m)).
Proof.
  intros [Hmaj Hmin] Hc. pose proof (code_facts _ Hc) as Hok. unfold code_ok in Hok.
  apply andb_true_iff in Hok as [[[Hlen%Nat.eqb_eq Ha]%andb_true_iff Hv]%andb_true_iff Hp%String.eqb_eq].
  destruct (Atoi (pretty (ms_Code m))) as [v| |] eqn:Hat; [|done..]. apply Z.eqb_eq in Ha as ->.
  unfold status_line. rewrite Hmaj, Hp. generalize (status_text_of m). intros t.
  set (c := pretty (ms_Code m)) in *. clearbody c.
  assert (forall s, "HTTP/" +:+ pretty 1 +:+ "." +:+ pretty (ms_Minor m) +:+ " " +:+ s =
    ("HTTP/1." +:+ pretty (ms_Minor m)) +:+ String " " s) as -> by (intros s; by destruct Hmin as [-> | ->]).
  assert (selem " " c = false) as Hsp by (apply (selem_none visible); [apply visible_space|done]).
  unfold read_status. rewrite cut_byte_app by (by destruct Hmin as [-> | ->]).
  assert (drop_while (Ascii.eqb " ") (c +:+ " " +:+ t) = c +:+ " " +:+ t) as ->.
  { destruct c as [|a c]; [done|]. cbn in Hsp |- *. apply orb_false_iff in Hsp as [-> _]. done. }
  change (" " +:+ t) with (String " " t). rewrite cut_byte_app by done. rewrite Hlen. cbn [Nat.eqb negb]. rewrite Hat.
  rewrite (proj2 (Z.ltb_ge _ _)) by lia. by destruct Hmin as [-> | ->].
Qed.

Section reads.
Context `{OtherTrailer}.

Lemma ReadResponse_message l fs rest e method status code v :
  read_status l = Ok (status, code, v) -> selem newline l = false -> Forall (fun f => field_ok f = true) fs ->
  pragma_ok fs ->
  ReadResponse (message_text l fs rest) e method = read_framed status code v method e (adds [] fs) rest.
Proof.
  intros Hs Hn Hf Hp. unfold ReadResponse. rewrite split_message by done.
  destruct ((field_line <$> fs) ++ cr :: split_byte newline rest) as [|x xs] eqn:Hx; [by destruct fs|].
  rewrite dropCR_cr, Hs. cbn [result_bind mbind result_mbind].
  transitivity (read_response_rest status code v method e (x :: xs)); [by destruct (l +:+ cr)|].
  rewrite <-Hx. unfold read_response_rest.
  rewrite (header_of_fields e fs _ None [] []) by (done || apply split_byte_ne). cbn [result_bind mbind result_mbind].
  rewrite join_split, (fixPragma_same _ fs); [done| |done]. intros k. by rewrite adds_values.
Qed.

End reads.

(** *** The fields *)

Lemma h_values_perm (h h' : header) k : NoDup h.*1 -> h ≡ₚ h' -> h_values h k = h_values h' k.
Proof.
  intros Hnd Hp. assert (NoDup h'.*1) as Hnd' by (by rewrite <-Hp).
  destruct (decide (k ∈ h.*1)) as [Hin|Hn].
  - apply list_elem_of_fmap in Hin as ([k' vs] & -> & Hin). cbn [fst].
    rewrite (h_values_elem h k' vs) by done. symmetry. apply h_values_elem; [done|]. by rewrite <-Hp.
  - rewrite !h_values_absent; [done| |done]. by rewrite <-Hp.
Qed.

Definition kept_header (m : message) : header := List.filter (fun p => negb (respExclude (fst p))) (ms_Header m).

Lemma kept_values m k :
  NoDup (ms_Header m).*1 ->
  field_values (header_fields (in_order (kept_header m))) k = if respExclude k then [] else h_values (ms_Header m) k.
Proof.
  intros Hnd. assert (NoDup (kept_header m).*1) as Hk by (by apply h_filter_nodup).
  assert (in_order (kept_header m) ≡ₚ kept_header m) as Hp by (apply merge_sort_Permutation).
  rewrite header_fields_values by (by rewrite Hp). rewrite <-(h_values_perm (kept_header m)) by done.
  unfold kept_header. rewrite (h_filter_values (fun x => negb (respExclude x))). by destruct (respExclude k).
Qed.

(** What [http.Transport] guarantees of a response (its headers are canonical and
    clean, its framing headers have been read, a body of known length has at most
    that length and is only complete with it, nothing follows a response without
    a body), and what the forwarder makes of it leaves unchanged. *)
Definition body_expected (m : message) : bool := negb (to_head m) && bodyAllowedForStatus (ms_Code m).

Record response_ok (m : message) : Prop := {
  ro_version : version_ok m;
  ro_code : 200 <= ms_Code m <= 999;
  ro_status : selem newline (status_text_of m) = false;
  ro_keys : NoDup (ms_Header m).*1;
  ro_fields : Forall (fun f => field_ok f = true) (header_fields (ms_Header m));
  ro_pragma : h_Get (ms_Header m) "Pragma" = "no-cache" -> h_values (ms_Header m) "Cache-Control" <> [];
  ro_length : -1 <= ms_ContentLength m < 2 ^ 63;
  ro_chunked : ms_Chunked m = true -> ms_Minor m = 1 /\ (body_expected m = true -> ms_ContentLength m = -1);
  ro_reads : Forall readable (ms_Reads m);
  ro_body : if body_expected m then
      0 <= ms_ContentLength m ->
      if bool_decide (ms_End m = Sentinel io_EOF) then zslen (sconcat (ms_Reads m)) = ms_ContentLength m
      else zslen (sconcat (ms_Reads m)) < ms_ContentLength m
    else ms_Reads m = [] /\ ms_End m = Sentinel io_EOF /\ (to_head m = false -> ms_ContentLength m = 0)
}.

Lemma sconcat_length_ne reads : Forall readable reads -> zslen (sconcat reads) = 0 -> reads = [].
Proof.
  intros [|s l [Hs _] _]; [done|]. cbn [sconcat foldr]. rewrite slen_app. destruct s; [done|]. simpl. lia.
Qed.

Lemma no_length_ended m :
  response_ok m -> ms_ContentLength m = 0 -> ms_Reads m = [] /\ ms_End m = Sentinel io_EOF.
Proof.
  intros [_ _ _ _ _ _ _ _ Hr Hb] Hz. destruct (body_expected m); [|by destruct Hb as (? & ? & _)].
  rewrite Hz in Hb. specialize (Hb ltac:(lia)). case_bool_decide; [|lia]. split; [|done]. by apply sconcat_length_ne.
Qed.

Lemma write_length_ok m : response_ok m -> write_length m = ms_ContentLength m.
Proof.
  intros Hok. unfold write_length. destruct (Z.eqb_spec (ms_ContentLength m) 0) as [Hz|]; [|done].
  destruct (no_length_ended m Hok Hz) as [-> _]. by rewrite Hz.
Qed.

Lemma write_chunked_ok m : response_ok m -> write_chunked m = ms_Chunked m.
Proof.
  intros [[Hmaj _] _ _ _ _ _ _ Hc _ _]. unfold write_chunked. destruct (ms_Chunked m); [|done].
  destruct Hc as [-> _]; [done|]. rewrite Hmaj. by destruct (to_head m).
Qed.

(** The length field that is written, in either of its two places. *)
Definition length_sent (m : message) : bool :=
  negb (ms_Chunked m) && ((0 <? ms_ContentLength m) || (ms_ContentLength m =? 0) &&
    (existsb (String.eqb (ms_Method m)) ["POST"; "PUT"; "PATCH"] || bodyAllowedForStatus (ms_Code m))).

Lemma written_values m k :
  response_ok m -> k <> "Connection" ->
  field_values (written_fields m) k =
    if String.eqb k "Content-Length" then if length_sent m then [pretty (ms_ContentLength m)] else []
    else if String.eqb k "Transfer-Encoding" then if ms_Chunked m then ["chunked"] else []
    else if String.eqb k "Trailer" then [] else h_values (ms_Header m) k.
Proof.
  intros Hok Hk. pose proof Hok as [_ _ _ Hnd _ _ Hlen _ _ _]. unfold written_fields. fold (kept_header m).
  unfold framing_fields, zero_length_fields, send_length, length_sent.
  rewrite !field_values_app, kept_values by done.
  rewrite write_length_ok, write_chunked_ok by done.
  match goal with |- context [if ?c && negb ?t then [("Connection", "close")] else []] => generalize (c && negb t) end. intros cl.
  assert (field_values (if cl then [("Connection", "close")] else []) k = []) as Hcl.
  { destruct cl; [|done]. unfold field_values. cbn [omap list_omap fst]. by rewrite (proj2 (String.eqb_neq "Connection" k)). }
  rewrite Hcl. cbn [app]. generalize (existsb (String.eqb (ms_Method m)) ["POST"; "PUT"; "PATCH"]). intros post.
  unfold respExclude, field_values. cbn [existsb].
  destruct (ms_Chunked m).
  - rewrite andb_false_r. cbn [omap list_omap fst snd andb negb app]. rewrite (String.eqb_sym "Transfer-Encoding" k).
    destruct (String.eqb_spec k "Content-Length") as [->|]; [done|].
    destruct (String.eqb_spec k "Transfer-Encoding") as [->|]; [done|]. cbn [orb].
    destruct (String.eqb k "Trailer"); by rewrite ?app_nil_r.
  - cbn [andb negb]. rewrite andb_true_r. destruct (Z.ltb_spec 0 (ms_ContentLength m)) as [Hp|Hp].
    + rewrite (proj2 (Z.eqb_neq _ 0)) by lia. cbn [omap list_omap fst snd andb negb orb app].
      rewrite (String.eqb_sym "Content-Length" k). destruct (String.eqb_spec k "Content-Length") as [->|]; [done|].
      destruct (String.eqb_spec k "Transfer-Encoding") as [->|]; [done|]. cbn [orb].
      destruct (String.eqb k "Trailer"); by rewrite ?app_nil_r.
    + destruct (Z.ltb_spec (ms_ContentLength m) 0) as [Hn|Hn].
      * rewrite (proj2 (Z.eqb_neq _ 0)) by lia. cbn [omap list_omap fst snd andb negb orb app].
        destruct (String.eqb_spec k "Content-Length") as [->|]; [done|].
        destruct (String.eqb_spec k "Transfer-Encoding") as [->|]; [done|]. cbn [orb].
        destruct (String.eqb k "Trailer"); by rewrite ?app_nil_r.
      * assert (ms_ContentLength m = 0) as -> by lia. cbn [Z.eqb Z.ltb Z.compare andb].
        destruct post; cbn [negb orb andb]; [|destruct (bodyAllowedForStatus (ms_Code m))];
          cbn [omap list_omap fst snd app]; rewrite ?(String.eqb_sym "Content-Length" k);
          (destruct (String.eqb_spec k "Content-Length") as [->|]; [done|]);
          (destruct (String.eqb_spec k "Transfer-Encoding") as [->|]; [done|]); cbn [orb];
          destruct (String.eqb k "Trailer"); by rewrite ?app_nil_r.
Qed.

Lemma written_fields_ok m : response_ok m -> Forall (fun f => field_ok f = true) (written_fields m).
Proof.
  intros Hok. pose proof Hok as [_ _ _ Hnd Hf _ Hlen _ _ _]. unfold written_fields, framing_fields, zero_length_fields.
  assert (forall n, 0 <= n -> field_ok ("Content-Length", pretty n) = true) as Hcl.
  { intros n Hn. apply visible_field; [done|]. eapply sall_impl; [|apply pretty_Z_chars].
    intros c. by destruct c as [[] [] [] [] [] [] [] []]. }
  repeat apply Forall_app_2.
  - by destruct (_ && negb _); repeat constructor; apply visible_field.
  - unfold send_length. destruct (write_chunked m); [by repeat constructor; apply visible_field|].
    destruct (Z.ltb_spec 0 (write_length m)); [repeat constructor; apply Hcl; lia|].
    destruct (Z.ltb_spec (write_length m) 0); [done|]. destruct (existsb _ _); [|done]. repeat constructor. apply Hcl. lia.
  - apply Forall_forall. intros [k v] (vs & Hin & Hv)%elem_of_header_fields. rewrite Forall_forall in Hf. apply Hf.
    apply elem_of_header_fields. exists vs. split; [|done].
    unfold in_order in Hin. rewrite (merge_sort_Permutation key_le) in Hin. by apply list_elem_of_In, filter_In in Hin as [Hin%list_elem_of_In _].
  - destruct (_ && bodyAllowedForStatus _); [|done]. repeat constructor.
Qed.

Lemma written_pragma m : response_ok m -> pragma_ok (written_fields m).
Proof.
  intros Hok. unfold pragma_ok. rewrite !written_values by done. cbn [String.eqb]. intros Hp. apply (ro_pragma _ Hok).
  unfold h_Get. by destruct (h_values (ms_Header m) "Pragma").
Qed.

(** *** Writing and reading back *)

(** The length the reader learns. *)
Definition relayed_length (m : message) : Z :=
  if to_head m then if length_sent m then ms_ContentLength m else -1
  else ms_ContentLength m.

(** A body of unknown length without chunks ends with the stream. *)
Definition close_delimited (m : message) : bool :=
  body_expected m && negb (ms_Chunked m) && (ms_ContentLength m =? -1).

Section roundtrip.
Context `{OtherTrailer}.

(** What the reader makes of the framing fields that are written. *)
Lemma read_lengths h n :
  0 <= n < 2 ^ 63 -> h_values h "Content-Length" = [pretty n] -> fixLength h = Ok (h, n) /\ told h = n.
Proof.
  intros Hn Hcl. unfold fixLength, told. rewrite Hcl. cbn [existsb].
  by rewrite TrimString_pretty, ParseUint63_pretty by done.
Qed.

Lemma read_no_length h : h_values h "Content-Length" = [] -> fixLength h = Ok (h, 0) /\ told h = -1.
Proof. intros Hcl. unfold fixLength, told. by rewrite Hcl. Qed.

Lemma read_encoding m h :
  response_ok m -> h_values h "Transfer-Encoding" = (if ms_Chunked m then ["chunked"] else []) ->
  transfer_encoding (ms_Major m, ms_Minor m) h = Ok (if ms_Chunked m then h_Del h "Transfer-Encoding" else h, ms_Chunked m).
Proof.
  intros [[Hmaj _] _ _ _ _ _ _ Hch _ _] Hte. unfold transfer_encoding. rewrite Hte. destruct (ms_Chunked m); [|done].
  destruct Hch as [Hmin _]; [done|]. cbn [fst snd]. rewrite Hmaj, Hmin. done.
Qed.

Lemma length_sent_pos m : length_sent m = true -> 0 <= ms_ContentLength m.
Proof.
  intros [_ [Hs%Z.ltb_lt|[Hs%Z.eqb_eq _]%andb_true_iff]%orb_true_iff]%andb_true_iff; lia.
Qed.

(** The length the reader takes the body to have. *)
Lemma read_length m h :
  response_ok m ->
  h_values h "Content-Length" = (if length_sent m then [pretty (ms_ContentLength m)] else []) ->
  exists h' n, fixLength_response h (ms_Code m) (ms_Method m) (ms_Chunked m) = Ok (h', n) /\
    (if to_head m then told h else n) = relayed_length m /\ (body_expected m = true -> n = ms_ContentLength m) /\
    (forall k, k <> "Content-Length" -> h_values h' k = h_values h k) /\ (NoDup h.*1 -> NoDup h'.*1) /\
    (relayed_length m < 0 -> h_values h' "Content-Length" = []).
Proof.
  intros Hok Hcl. pose proof Hok as [_ _ _ _ _ _ Hlen Hch _ Hbody].
  assert (exists n, fixLength h = Ok (h, n) /\ told h = (if length_sent m then ms_ContentLength m else -1) /\
    (length_sent m = true -> n = ms_ContentLength m)) as (n & Hfix & Htold & Hn).
  { destruct (length_sent m) eqn:Hs; [|destruct (read_no_length h Hcl) as [? ?]; by exists 0].
    exists (ms_ContentLength m). destruct (read_lengths h (ms_ContentLength m)) as [? ?]; [|done|by split_and!].
    pose proof (length_sent_pos m Hs). lia. }
  pose proof (length_sent_pos m) as Hpos.
  unfold fixLength_response. rewrite Hfix. cbn [result_bind mbind result_mbind]. fold (to_head m).
  unfold relayed_length. rewrite Htold, Hcl. unfold body_expected in *.
  destruct (to_head m); cbn [negb andb orb] in *.
  { eexists _, _. split_and!; try done. intros Hlt. destruct (length_sent m); [specialize (Hpos eq_refl); lia|done]. }
  destruct (bodyAllowedForStatus (ms_Code m)) eqn:Ha; cbn [negb] in *.
  2:{ destruct Hbody as (_ & _ & Hz). rewrite Hz by done. by eexists _, _; split_and!. }
  destruct (ms_Chunked m) eqn:Hc.
  - destruct Hch as [_ Hc1]; [done|]. rewrite Hc1 by done. eexists _, _. split_and!; try done; [|apply h_filter_nodup|].
    + intros k Hk. rewrite h_Del_values. by rewrite (proj2 (String.eqb_neq _ _)) by congruence.
    + by rewrite h_Del_values.
  - destruct (length_sent m) eqn:Hs; [rewrite Hn by done; eexists _, _; split_and!; try done; specialize (Hpos eq_refl); lia|].
    eexists _, _. split; [done|]. unfold length_sent in Hs. rewrite Hc, Ha in Hs. cbn [negb andb] in Hs.
    rewrite orb_true_r, andb_true_r in Hs. apply orb_false_iff in Hs as [Hp%Z.ltb_ge Hz%Z.eqb_neq].
    assert (ms_ContentLength m = -1) as -> by lia. by split_and!.
Qed.

(** The framing fields among others, as the reader takes them. *)
Lemma read_framed_ok m status e h rest :
  response_ok m ->
  h_values h "Transfer-Encoding" = (if ms_Chunked m then ["chunked"] else []) ->
  h_values h "Content-Length" = (if length_sent m then [pretty (ms_ContentLength m)] else []) ->
  exists h', read_framed status (ms_Code m) (ms_Major m, ms_Minor m) (ms_Method m) e h rest =
    Ok (mkIncoming status (ms_Code m) h' (relayed_length m)
      (if negb (body_expected m) then ("", Sentinel io_EOF)
       else if ms_Chunked m then dechunk (S (String.length rest)) 0 rest e
       else if ms_ContentLength m =? 0 then ("", Sentinel io_EOF)
       else if 0 <? ms_ContentLength m then body_of (ms_ContentLength m) rest e
       else (rest, e))) /\
    (forall k, k <> "Transfer-Encoding" -> k <> "Content-Length" -> h_values h' k = h_values h k) /\
    (NoDup h.*1 -> NoDup h'.*1) /\ (relayed_length m < 0 -> h_values h' "Content-Length" = []).
Proof.
  intros Hok Hte Hcl. unfold read_framed. rewrite read_encoding by done. cbn [result_bind mbind result_mbind].
  set (h1 := if ms_Chunked m then _ else _).
  assert (forall k, k <> "Transfer-Encoding" -> h_values h1 k = h_values h k) as Hh1.
  { intros k Hk. unfold h1. destruct (ms_Chunked m); [|done]. rewrite h_Del_values.
    by rewrite (proj2 (String.eqb_neq _ _)) by congruence. }
  destruct (read_length m h1) as (h' & n & -> & Hlen & Hn & Hv & Hnd & Hneg); [done|by rewrite Hh1|].
  cbn [result_bind mbind result_mbind]. fold (to_head m). rewrite Hlen. exists h'. split_and!.
  - do 3 f_equal. unfold body_expected in *. destruct (to_head m); [done|]. cbn [orb negb andb] in *.
    destruct (bodyAllowedForStatus (ms_Code m)); [|done]. by rewrite Hn.
  - intros k H1' H2'. by rewrite Hv, Hh1.
  - intros Hh. apply Hnd. unfold h1. destruct (ms_Chunked m); [by apply h_filter_nodup|done].
  - done.
Qed.

Lemma Response_Write_text m :
  response_ok m ->
  sconcat (fst (Response_Write m)) = message_text (status_line m) (written_fields m) (sconcat (fst (written_body m))) /\
  snd (Response_Write m) = snd (written_body m).
Proof.
  intros Hok. unfold Response_Write.
  assert ((ms_ContentLength m =? 0) && bool_decide (ms_Reads m = []) && negb (bool_decide (ms_End m = Sentinel io_EOF)) = false) as ->.
  { destruct (Z.eqb_spec (ms_ContentLength m) 0) as [Hz|]; [|done]. destruct (no_length_ended m Hok Hz) as [_ ->].
    by rewrite (bool_decide_eq_true_2 (_ = Sentinel io_EOF)), andb_false_r by done. }
  destruct (written_body m) as [body err]. split; [|done]. apply message_lines.
Qed.

Lemma status_line_one m : response_ok m -> selem newline (status_line m) = false.
Proof.
  intros [[Hmaj Hmin] Hc Ht _ _ _ _ _ _ _]. pose proof (code_facts _ Hc) as Hok. unfold code_ok in Hok.
  apply andb_true_iff in Hok as [[_ Hv]%andb_true_iff Hp%String.eqb_eq].
  unfold status_line. rewrite Hmaj, Hp, !selem_app, Ht.
  rewrite (selem_none visible newline (pretty (ms_Code m))); [by destruct Hmin as [-> | ->]| |done].
  intros c. by destruct c as [[] [] [] [] [] [] [] []].
Qed.

(** The body that is written reads back: all of it, and well ended exactly when it
    was, unless only the end of the stream ends it. *)
Lemma body_reads_back m :
  response_ok m ->
  let rest := sconcat (fst (written_body m)) in
  (if negb (body_expected m) then ("", Sentinel io_EOF)
   else if ms_Chunked m then dechunk (S (String.length rest)) 0 rest (Sentinel io_EOF)
   else if ms_ContentLength m =? 0 then ("", Sentinel io_EOF)
   else if 0 <? ms_ContentLength m then body_of (ms_ContentLength m) rest (Sentinel io_EOF)
   else (rest, Sentinel io_EOF)) =
  (sconcat (ms_Reads m),
   if close_delimited m || bool_decide (ms_End m = Sentinel io_EOF) then Sentinel io_EOF else Sentinel io_ErrUnexpectedEOF) /\
  (snd (written_body m) = None <-> ms_End m = Sentinel io_EOF).
Proof.
  intros Hok. pose proof Hok as [_ _ _ _ _ _ Hlen Hch Hreads Hbody]. unfold written_body, close_delimited.
  rewrite write_chunked_ok, write_length_ok by done. unfold body_expected in *.
  destruct (to_head m); cbn [negb andb] in *; [destruct Hbody as (-> & -> & _); by rewrite bool_decide_eq_true_2|].
  destruct (bodyAllowedForStatus (ms_Code m)) eqn:Ha; cbn [negb andb] in *.
  2:{ destruct Hbody as (-> & -> & Hz). rewrite Hz, bool_decide_eq_true_2 by done. by destruct (ms_Chunked m). }
  destruct (ms_Chunked m); cbn [negb andb orb].
  - cbn [fst snd]. pose proof (dechunk_body (ms_Reads m) (bool_decide (ms_End m = Sentinel io_EOF)) Hreads) as Hd.
    case_bool_decide; cbn iota in *; (split; [exact Hd|]); naive_solver.
  - destruct (Z.eqb_spec (ms_ContentLength m) (-1)) as [->|Hn1]; cbn [fst snd orb].
    { split; [done|]. case_bool_decide; naive_solver. }
    specialize (Hbody ltac:(lia)). cbn [sconcat foldr]. rewrite sapp_nil_r.
    destruct (Z.eqb_spec (ms_ContentLength m) 0) as [Hz|Hz].
    { destruct (no_length_ended m Hok Hz) as [-> He]. rewrite He, Hz, bool_decide_eq_true_2 by done. done. }
    rewrite (proj2 (Z.ltb_lt 0 _)) by lia.
    assert (String.substring 0 (Z.to_nat (ms_ContentLength m)) (sconcat (ms_Reads m)) = sconcat (ms_Reads m)) as Hall.
    { apply substring_more. case_bool_decide; lia. }
    rewrite Hall. unfold body_of. rewrite Hall. case_bool_decide.
    + rewrite Hbody, Z.leb_refl, Z.eqb_refl. by split.
    + rewrite (proj2 (Z.leb_gt _ _)) by lia. split; [done|]. naive_solver.
Qed.

(** What one end writes is what the other reads: the status, the header but for the
    fields of the framing, the length, and the body. *)
Lemma response_read m :
  response_ok m ->
  exists inc, ReadResponse (sconcat (fst (Response_Write m))) (Sentinel io_EOF) (ms_Method m) = Ok inc /\
    in_Code inc = ms_Code m /\ in_ContentLength inc = relayed_length m /\
    in_Body inc = (sconcat (ms_Reads m),
      if close_delimited m || bool_decide (ms_End m = Sentinel io_EOF) then Sentinel io_EOF
      else Sentinel io_ErrUnexpectedEOF) /\
    (snd (Response_Write m) = None <-> ms_End m = Sentinel io_EOF) /\ NoDup (in_Header inc).*1 /\
    (relayed_length m < 0 -> h_values (in_Header inc) "Content-Length" = []) /\
    forall k, ~ k ∈ ["Connection"; "Content-Length"; "Transfer-Encoding"; "Trailer"] ->
      h_values (in_Header inc) k = h_values (ms_Header m) k.
Proof.
  intros Hok. destruct (Response_Write_text m Hok) as [-> ->]. destruct (body_reads_back m Hok) as [Hbody Hend].
  rewrite (ReadResponse_message _ _ _ _ _ _ _ _ (read_status_line m (ro_version _ Hok) (ro_code _ Hok)))
    by (by apply status_line_one || by apply written_fields_ok || by apply written_pragma).
  assert (forall k, h_values (adds [] (written_fields m)) k = field_values (written_fields m) k) as Hv
    by (intros k; by rewrite adds_values).
  destruct (read_framed_ok m (pretty (ms_Code m) +:+ " " +:+ status_text_of m) (Sentinel io_EOF)
    (adds [] (written_fields m)) (sconcat (fst (written_body m))) Hok) as (h' & -> & Hh' & Hnd & Hneg);
    [by rewrite Hv, written_values..|].
  rewrite Hbody. eexists. split; [done|]. cbn [in_Code in_ContentLength in_Body in_Header].
  split_and!; try done; [apply Hnd, adds_nodup, NoDup_nil_2|].
  intros k Hk. rewrite Hh' by set_solver. rewrite Hv, written_values by (done || set_solver).
  rewrite !(proj2 (String.eqb_neq k _)) by set_solver. done.
Qed.

End roundtrip.
