(* ===== verification/Proto.v ===== *)
(** * The control-plane messages: internal/proto/message.go

    The handshake messages, their framing as one JSON line each, and the rules
    for subdomain names. *)
From S2P Require Import Prelude Frame GoStr Encoding.
From Stdlib Require Import Ascii.

(** ** Messages *)

Definition ControlVersion : Z := 1.
Definition TypeHello : string := "hello".
Definition TypeAck : string := "ack".
Definition CodeTLSRequired : string := "tls_required".

Record Hello := mkHello {
  h_Type : string;
  h_Version : Z;
  h_Token : string;
  h_Subdomain : string;
  h_Protected : bool
}.

Record Ack := mkAck {
  a_Type : string;
  a_OK : bool;
  a_Subdomain : string;
  a_PublicURL : string;
  a_Error : string;
  a_Code : string
}.

(** The payload of a FrameOpen. *)
Record OpenMeta := mkOpenMeta { om_Host : string; om_RemoteAddr : string }.

#[export] Instance hello_eq_dec : EqDecision Hello.
Proof. solve_decision. Defined.
#[export] Instance ack_eq_dec : EqDecision Ack.
Proof. solve_decision. Defined.

#[export] Instance hello_countable : Countable Hello.
Proof.
  refine (inj_countable' (fun h => (h_Type h, h_Version h, h_Token h, h_Subdomain h, h_Protected h))
    (fun '(t, v, k, s, p) => mkHello t v k s p) _).
  by intros [].
Defined.
#[export] Instance ack_countable : Countable Ack.
Proof.
  refine (inj_countable' (fun a => (a_Type a, a_OK a, a_Subdomain a, a_PublicURL a, a_Error a, a_Code a))
    (fun '(t, o, s, p, e, c) => mkAck t o s p e c) _).
  by intros [].
Defined.

(** ** Framing *)

(** message.go:63: one [Write] of the JSON text and its line feed. *)
Definition WriteMessage {A W} `{JSON A, Writer W} (w : W) (v : A) : W * option error :=
  match json_Marshal v with
  | Err e => (w, Some e)
  | Ok b => Write w (b ++ [Byte.x0a])
  end.

(** [bufio.NewReader(conn)] has a buffer of 4096 octets. *)
Definition defaultBufSize : nat := 4096.

(** The line, its line feed included, and what follows. *)
Fixpoint cut_line (b : list Byte.byte) : option (list Byte.byte * list Byte.byte) :=
  match b with
  | [] => None
  | x :: b =>
      if decide (x = Byte.x0a) then Some ([x], b)
      else match cut_line b with Some (l, r) => Some (x :: l, r) | None => None end
  end.

(** [br.ReadSlice('\n')]. *)
Definition ReadSlice (r : reader) : reader * result (list Byte.byte) :=
  match cut_line (take defaultBufSize (rd_data r)) with
  | Some (line, _) =>
      ({| rd_data := drop (length line) (rd_data r); rd_end := rd_end r |}, Ok line)
  | None =>
      if (defaultBufSize <=? length (rd_data r))%nat then
        ({| rd_data := drop defaultBufSize (rd_data r); rd_end := rd_end r |},
         Err bufio_ErrBufferFull)
      else ({| rd_data := []; rd_end := rd_end r |}, Err (rd_end r))
  end.

(** message.go:79. *)
Definition ReadMessage {A} `{JSON A} (r : reader) : reader * result A :=
  match ReadSlice r with
  | (r, Err e) =>
      (r, Err (if decide (e = Sentinel bufio_ErrBufferFull)
               then errors_New "handshake message too long" else e))
  | (r, Ok line) => (r, json_Unmarshal line)
  end.

(** ** Subdomains *)

(** The constructs of the regular expression: a character class, a sequence, and
    at most [n] copies; [rests r s] are the ends of the matches of [r] at the
    head of [s]. *)
Inductive regex :=
| RClass (p : ascii -> bool)
| RSeq (r1 r2 : regex)
| RUpTo (n : nat) (r : regex).

Fixpoint rests (r : regex) (s : string) : list string :=
  match r with
  | RClass p => match s with String c s' => if p c then [s'] else [] | "" => [] end
  | RSeq r1 r2 => rests r1 s ≫= rests r2
  | RUpTo n r =>
      (fix go n s := s :: match n with O => [] | S n => rests r s ≫= go n end) n s
  end.

Definition alnum (c : ascii) : bool := is_lower c || is_digit c.
Definition alnum_hyphen (c : ascii) : bool := alnum c || Ascii.eqb c "-".

(** [^[a-z0-9]([a-z0-9-]{0,62})$]. *)
Definition subdomainRE : regex := RSeq (RClass alnum) (RUpTo 62 (RClass alnum_hyphen)).

(** A match from the start to the end of the text. *)
Definition MatchString (r : regex) (s : string) : bool := existsb (String.eqb "") (rests r s).

(** message.go:93. *)
Definition ValidSubdomain (s : string) : bool := MatchString subdomainRE s.

(** message.go:96. *)
Definition NormalizeSubdomain `{UnicodeLower} (s : string) : string := ToLower (TrimSpace s).

(** ** Lemmas on names *)

Lemma rests_upto p n s :
  existsb (String.eqb "") (rests (RUpTo n (RClass p)) s) = ((String.length s <=? n)%nat && sall p s).
Proof.
  revert s. induction n as [|n IH]; intros s.
  - destruct s; done.
  - destruct s as [|c s]; [done|]. cbn [rests existsb String.eqb orb String.length sall].
    destruct (p c); [|by rewrite andb_false_r]. cbn [Nat.leb andb]. rewrite <-(IH s).
    cbn [rests]. cbn. by rewrite app_nil_r.
Qed.

Lemma ValidSubdomain_spec s :
  ValidSubdomain s = true <->
  exists c t, s = String c t /\ alnum c = true /\ sall alnum_hyphen t = true /\ (String.length s <= 63)%nat.
Proof.
  unfold ValidSubdomain, MatchString, subdomainRE.
  destruct s as [|c t]; [cbn; naive_solver|].
  change (rests (RSeq (RClass alnum) (RUpTo 62 (RClass alnum_hyphen))) (String c t))
    with ((if alnum c then [t] else []) ≫= rests (RUpTo 62 (RClass alnum_hyphen))).
  destruct (alnum c) eqn:Hc; [|cbn; naive_solver].
  cbn [mbind list_bind]. rewrite app_nil_r, rests_upto. cbn [String.length].
  rewrite andb_true_iff, Nat.leb_le. split.
  - intros [Hl Ha]. exists c, t. split_and!; try done. lia.
  - intros (c' & t' & [= <- <-] & _ & Ha & Hl). split; [lia|done].
Qed.

Lemma alnum_hyphen_chars c :
  alnum_hyphen c = true -> visible c = true /\ is_ascii c = true /\ lower_char c = c /\ c <> "."%char.
Proof.
  unfold alnum_hyphen, alnum, is_lower, is_digit, visible, is_ascii, lower_char, is_upper, in_range.
  intros H. assert (97 <= ord c <= 122 \/ 48 <= ord c <= 57 \/ ord c = 45) as Hr.
  { apply orb_true_iff in H as [[H|H]%orb_true_iff|H]; bool_props; [lia..|].
    apply Ascii.eqb_eq in H as ->. by right; right. }
  split_and!.
  - apply andb_true_iff. rewrite !Z.leb_le. lia.
  - apply Z.ltb_lt. lia.
  - assert ((65 <=? ord c) && (ord c <=? 90) = false) as ->; [|done].
    apply andb_false_iff. rewrite !Z.leb_gt. lia.
  - intros ->. change (ord ".") with 46 in Hr. lia.
Qed.

Lemma ValidSubdomain_chars s : ValidSubdomain s = true -> sall alnum_hyphen s = true.
Proof.
  intros (c & t & -> & Hc & Ht & _)%ValidSubdomain_spec. simpl. rewrite Ht.
  unfold alnum_hyphen. by rewrite Hc.
Qed.

Lemma ValidSubdomain_no_dot s : ValidSubdomain s = true -> selem "." s = false.
Proof. intros H%ValidSubdomain_chars. by apply (sall_selem _ _ _ H). Qed.

Lemma ValidSubdomain_nonempty s : ValidSubdomain s = true -> s <> "".
Proof. by intros (c & t & -> & _)%ValidSubdomain_spec. Qed.

Lemma smap_id f s : sall (fun c => Ascii.eqb (f c) c) s = true -> smap f s = s.
Proof.
  induction s as [|c s IH]; simpl; [done|]. intros [H%Ascii.eqb_eq Hs]%andb_true_iff.
  by rewrite H, IH.
Qed.

Lemma ToLower_plain `{UnicodeLower} s : sall alnum_hyphen s = true -> ToLower s = s.
Proof.
  intros Hs. unfold ToLower. rewrite (sall_impl _ _ _ (fun c Hc => proj1 (proj2 (alnum_hyphen_chars c Hc))) Hs).
  apply smap_id. eapply sall_impl; [|exact Hs]. intros c Hc. apply Ascii.eqb_eq.
  by apply alnum_hyphen_chars.
Qed.

Lemma NormalizeSubdomain_valid `{UnicodeLower} s :
  ValidSubdomain s = true -> NormalizeSubdomain s = s.
Proof.
  intros Hs%ValidSubdomain_chars. unfold NormalizeSubdomain.
  rewrite TrimSpace_visible; [by apply ToLower_plain|].
  eapply sall_impl; [|exact Hs]. intros c Hc. by apply alnum_hyphen_chars.
Qed.

(** ** Lemmas on framing *)

Lemma cut_line_app b r : Byte.x0a ∉ b -> cut_line (b ++ Byte.x0a :: r) = Some (b ++ [Byte.x0a], r).
Proof.
  induction b as [|x b IH]; intros Hb; simpl; [done|].
  apply not_elem_of_cons in Hb as [Hx Hb]. rewrite decide_False by congruence. by rewrite IH.
Qed.

Lemma cut_line_none b : Byte.x0a ∉ b -> cut_line b = None.
Proof.
  induction b as [|x b IH]; intros Hb; simpl; [done|].
  apply not_elem_of_cons in Hb as [Hx Hb]. rewrite decide_False by congruence. by rewrite IH.
Qed.

Lemma elem_of_take_1 {A} (x : A) n l : x ∈ take n l -> x ∈ l.
Proof. intros (i & Hi & _)%elem_of_take. by eapply list_elem_of_lookup_2. Qed.

Lemma ReadSlice_line b r e :
  Byte.x0a ∉ b -> (length b < defaultBufSize)%nat ->
  ReadSlice {| rd_data := (b ++ [Byte.x0a]) ++ r; rd_end := e |} =
  ({| rd_data := r; rd_end := e |}, Ok (b ++ [Byte.x0a])).
Proof.
  intros Hb Hl. unfold ReadSlice. cbn [rd_data rd_end].
  rewrite take_app, (take_ge (b ++ _)) by (rewrite length_app; simpl; lia).
  rewrite <-app_assoc. change ([Byte.x0a] ++ ?k) with (Byte.x0a :: k).
  rewrite cut_line_app by done. by rewrite drop_app_length.
Qed.

Lemma ReadSlice_full b e :
  Byte.x0a ∉ take defaultBufSize b -> (defaultBufSize <= length b)%nat ->
  snd (ReadSlice {| rd_data := b; rd_end := e |}) = Err bufio_ErrBufferFull.
Proof.
  intros Hb Hl. unfold ReadSlice. cbn [rd_data rd_end].
  rewrite cut_line_none by done. by rewrite (proj2 (Nat.leb_le _ _)).
Qed.

Lemma ReadSlice_cut b e :
  Byte.x0a ∉ b -> (length b < defaultBufSize)%nat ->
  ReadSlice {| rd_data := b; rd_end := e |} = ({| rd_data := []; rd_end := e |}, Err e).
Proof.
  intros Hb Hl. unfold ReadSlice. cbn [rd_data rd_end]. rewrite take_ge by lia.
  rewrite cut_line_none by done. by rewrite (proj2 (Nat.leb_gt _ _)).
Qed.

(** Whoever reads a message that fits the buffer gets it, and the rest stays. *)
Lemma ReadMessage_sent {A} `{JSONLaws A valid} (v : A) b rest e :
  valid v -> json_Marshal v = Ok b -> (length b < defaultBufSize)%nat ->
  ReadMessage {| rd_data := (b ++ [Byte.x0a]) ++ rest; rd_end := e |} = ({| rd_data := rest; rd_end := e |}, Ok v).
Proof.
  intros Hv Hm Hl. destruct (json_roundtrip v Hv) as (b0 & Hm0 & Hu & Hb). rewrite Hm in Hm0. injection Hm0 as <-.
  unfold ReadMessage. rewrite ReadSlice_line by done. by rewrite json_trailing, Hu.
Qed.

(** ** Properties *)

(** A message is one [Write]; reading it back gives the same message and
    leaves exactly the bytes that follow its line, so that the mux frames behind
    the handshake stay aligned. A message that does not fit the buffer is
    refused, and a connection that ends inside the line gives its error. *)
Theorem handshake_framing {A} `{JSONLaws A valid} (v : A) (rest : list Byte.byte) (e : error) :
  valid v -> e <> Sentinel bufio_ErrBufferFull ->
  exists b, WriteMessage ([] : writes) v = ([b ++ [Byte.x0a]], None) /\
    ((length b < defaultBufSize)%nat ->
     ReadMessage {| rd_data := (b ++ [Byte.x0a]) ++ rest; rd_end := e |} =
     ({| rd_data := rest; rd_end := e |}, Ok v)) /\
    ((defaultBufSize <= length b)%nat ->
     snd (ReadMessage {| rd_data := (b ++ [Byte.x0a]) ++ rest; rd_end := e |} : _ * result A) =
     Err (errors_New "handshake message too long")) /\
    (forall n, (n <= length b)%nat -> (n < defaultBufSize)%nat ->
     snd (ReadMessage {| rd_data := take n b; rd_end := e |} : _ * result A) = Err e).
Proof.
  intros Hv He. destruct (json_roundtrip v Hv) as (b & Hm & Hu & Hb). exists b.
  unfold WriteMessage. rewrite Hm. split; [done|]. split; [by apply ReadMessage_sent|].
  unfold ReadMessage. split.
  - intros Hl. assert (Hf : snd (ReadSlice {| rd_data := (b ++ [Byte.x0a]) ++ rest; rd_end := e |}) =
      Err bufio_ErrBufferFull).
    { apply ReadSlice_full; [|rewrite !length_app; lia].
      rewrite <-app_assoc, take_app_le by done. intros Hin. apply Hb.
      by eapply elem_of_take_1. }
    destruct (ReadSlice _) as [r' [|e']]; simpl in Hf; [done|]. injection Hf as ->.
    done.
  - intros n Hn Hl. rewrite ReadSlice_cut.
    + cbn [snd]. destruct (decide _); done.
    + intros Hin. apply Hb. by eapply elem_of_take_1.
    + rewrite length_take. lia.
Qed.

#[local] Instance sample_json : JSON Ack := countable_json.
#[local] Instance sample_laws : JSONLaws Ack (fun _ => True) := countable_json_laws.

Lemma handshake_framing_witness :
  exists b, WriteMessage ([] : writes) (mkAck TypeAck true "a" "" "" "") = ([b ++ [Byte.x0a]], None).
Proof.
  destruct (handshake_framing (mkAck TypeAck true "a" "" "" "") [Byte.x01] io_EOF I
              ltac:(discriminate)) as (b & Hb & _).
  exists b. exact Hb.
Defined.

(** The names the program accepts are exactly those of 1 to 63 characters,
    lower-case letters, digits and hyphens, that do not start with a hyphen;
    such a name is its own normal form. *)
Theorem ValidSubdomain_exact `{UnicodeLower} s :
  (ValidSubdomain s = true <->
   (1 <= String.length s <= 63)%nat /\ HasPrefix s "-" = false /\
   sall (fun c => is_lower c || is_digit c || Ascii.eqb c "-") s = true) /\
  (ValidSubdomain s = true -> NormalizeSubdomain s = s).
Proof.
  split; [|apply NormalizeSubdomain_valid]. rewrite ValidSubdomain_spec. split.
  - intros (c & t & -> & Hc & Ht & Hl). split; [cbn [String.length] in *; lia|split].
    + unfold HasPrefix. cbn [CutPrefix]. destruct (Ascii.eqb_spec "-" c) as [<-|]; done.
    + change (alnum_hyphen c && sall alnum_hyphen t = true). unfold alnum_hyphen at 1. by rewrite Hc, Ht.
  - intros (Hl & Hp & Hs). destruct s as [|c t]; [cbn in Hl; lia|].
    cbn [sall] in Hs. apply andb_true_iff in Hs as [Hc Ht].
    exists c, t. split_and!; [done| |exact Ht|exact (proj2 Hl)].
    apply orb_true_iff in Hc as [Hc|Hc]; [exact Hc|]. apply Ascii.eqb_eq in Hc. subst. discriminate Hp.
Qed.
