(* ===== verification/Token.v ===== *)
(** * Signed tokens: internal/token/token.go

    Minting, verifying and reading the identifier of a signed token. Time is the
    number of nanoseconds since the Unix epoch, and the outcome of the random
    source is an argument. *)
From S2P Require Import Prelude GoStr Encoding.
From Stdlib Require Import Ascii.

(** ** Data *)

Definition Prefix : string := "m1.".

Record Claims := mkClaims { c_Sub : string; c_Exp : Z; c_ID : string; c_Prot : bool }.

#[export] Instance claims_eq_dec : EqDecision Claims.
Proof. solve_decision. Defined.
#[export] Instance claims_countable : Countable Claims.
Proof.
  refine (inj_countable' (fun c => (c_Sub c, c_Exp c, c_ID c, c_Prot c))
    (fun '(s, e, i, p) => mkClaims s e i p) _).
  by intros [].
Defined.

Record MintOpts := mkMintOpts { o_Sub : string; o_TTL : Z; o_Prot : bool }.

(** [time.Time.Unix] of a time in nanoseconds. *)
Definition Unix (t : Z) : Z := t / 1000000000.

(** token.go:164: what [rand.Read] of 8 bytes gave. *)
Definition randomID (rnd : result (list Byte.byte)) : result string :=
  match rnd with
  | Err e => Err e
  | Ok b => Ok ("tok_" +:+ hex_EncodeToString b)
  end.

(** token.go:172 and 176. *)
Definition b64 (b : list Byte.byte) : string := EncodeToString b.
Definition b64d (s : string) : result (list Byte.byte) := DecodeString s.

Definition empty_key : error := errors_New "munnel token: signing key is empty".

Section token.
Context `{Hmac, JSON Claims}.

(** token.go:158. *)
Definition hmacSum (key payload : list Byte.byte) : list Byte.byte := hmac_sha256 key payload.

(** [hmac.Equal]: a comparison in constant time. *)
Definition hmac_Equal (a b : list Byte.byte) : bool := bool_decide (a = b).

(** token.go:75. *)
Definition MintWith (key : list Byte.byte) (opts : MintOpts) (rnd : result (list Byte.byte)) (now : Z)
    : result string :=
  if zlen key =? 0 then Err empty_key
  else
    match randomID rnd with
    | Err e => Err (Wrapf "munnel token: generate id: %w" e)
    | Ok id =>
        let c := mkClaims (o_Sub opts) (if 0 <? o_TTL opts then Unix (now + o_TTL opts) else 0) id (o_Prot opts) in
        match json_Marshal c with
        | Err e => Err (Wrapf "munnel token: marshal: %w" e)
        | Ok payload =>
            let sig := hmacSum key payload in
            Ok (Prefix +:+ b64 payload +:+ "." +:+ b64 sig)
        end
    end.

(** token.go:63. *)
Definition Mint (key : list Byte.byte) (sub : string) (ttl : Z) (rnd : result (list Byte.byte)) (now : Z)
    : result string :=
  MintWith key (mkMintOpts sub ttl false) rnd now.

(** token.go:99. *)
Definition Parse (key : list Byte.byte) (tok : string) (now : Z) : result Claims :=
  if zlen key =? 0 then Err empty_key
  else
    match CutPrefix tok Prefix with
    | None => Err token_ErrMalformed
    | Some body =>
        match cut_byte "." body with
        | None => Err token_ErrMalformed
        | Some (p, s) =>
            match b64d p with
            | Err _ => Err token_ErrMalformed
            | Ok payload =>
                match b64d s with
                | Err _ => Err token_ErrMalformed
                | Ok sig =>
                    if negb (hmac_Equal sig (hmacSum key payload)) then Err token_ErrBadSig
                    else
                      match json_Unmarshal payload with
                      | Err _ => Err token_ErrMalformed
                      | Ok c =>
                          if String.eqb (c_ID c) "" then Err token_ErrMalformed
                          else if negb (c_Exp c =? 0) && (c_Exp c <? Unix now) then Err token_ErrExpired
                          else Ok c
                      end
                end
            end
        end
    end.

(** token.go:138. *)
Definition IDOf (tok : string) : string :=
  match CutPrefix tok Prefix with
  | None => ""
  | Some body =>
      match cut_byte "." body with
      | None => ""
      | Some (p, _) =>
          match b64d p with
          | Err _ => ""
          | Ok payload =>
              match json_Unmarshal payload with
              | Err _ => ""
              | Ok c => c_ID c
              end
          end
      end
  end.

(** ** Lemmas *)

(** A token authenticated by the key: what [Parse] checks before the expiry. *)
Definition authentic (key : list Byte.byte) (tok : string) (c : Claims) : Prop :=
  key <> [] /\
  exists p s payload,
    tok = Prefix +:+ p +:+ String "." s /\ selem "." p = false /\
    b64d p = Ok payload /\ b64d s = Ok (hmacSum key payload) /\
    json_Unmarshal payload = Ok c /\ c_ID c <> "".

Lemma zlen_nonzero {A} (l : list A) : (zlen l =? 0) = false <-> l <> [].
Proof. rewrite Z.eqb_neq. destruct l; simpl; naive_solver lia. Qed.

Lemma Parse_authentic key tok now c :
  Parse key tok now = Ok c <-> authentic key tok c /\ (c_Exp c = 0 \/ Unix now <= c_Exp c).
Proof.
  unfold Parse, authentic, hmac_Equal. split.
  - intros Hp. destruct (zlen key =? 0) eqn:Hk; [done|]. apply zlen_nonzero in Hk.
    destruct (CutPrefix tok Prefix) as [body|] eqn:Hb; [|done]. apply CutPrefix_spec in Hb.
    destruct (cut_byte "." body) as [[p s]|] eqn:Hc; [|done]. apply cut_byte_spec in Hc as [-> Hd].
    destruct (b64d p) as [payload|] eqn:Hpay; [|done].
    destruct (b64d s) as [sig|] eqn:Hsig; [|done].
    case_bool_decide as Heq; [|done]. simpl in Hp.
    destruct (json_Unmarshal payload) as [c'|] eqn:Hj; [|done].
    destruct (String.eqb_spec (c_ID c') "") as [|Hid]; [done|].
    destruct (negb (c_Exp c' =? 0) && (c_Exp c' <? Unix now)) eqn:He; [done|]. injection Hp as <-.
    split; [split; [done|]; exists p, s, payload; subst; done|].
    apply andb_false_iff in He as [He|He]; bool_props; [by left|right; lia].
  - intros [(Hk & p & s & payload & -> & Hd & Hpay & Hsig & Hj & Hid) He].
    rewrite (proj2 (zlen_nonzero _)), CutPrefix_app, cut_byte_app, Hpay, Hsig by done.
    rewrite bool_decide_eq_true_2 by done. simpl. rewrite Hj.
    destruct (String.eqb_spec (c_ID c) "") as [|_]; [done|].
    destruct He as [-> | He]; [done|]. rewrite (proj2 (Z.ltb_ge _ _)) by lia. by rewrite andb_false_r.
Qed.

Lemma authentic_expired key tok now c :
  authentic key tok c -> c_Exp c <> 0 -> c_Exp c < Unix now -> Parse key tok now = Err token_ErrExpired.
Proof.
  unfold Parse, hmac_Equal.
  intros (Hk & p & s & payload & -> & Hd & Hpay & Hsig & Hj & Hid) Hnz He.
  rewrite (proj2 (zlen_nonzero _)), CutPrefix_app, cut_byte_app, Hpay, Hsig by done.
  rewrite bool_decide_eq_true_2 by done. simpl. rewrite Hj.
  destruct (String.eqb_spec (c_ID c) "") as [|_]; [done|].
  apply Z.eqb_neq in Hnz. apply Z.ltb_lt in He. by rewrite Hnz, He.
Qed.

Lemma IDOf_authentic key tok c : authentic key tok c -> IDOf tok = c_ID c.
Proof.
  intros (Hk & p & s & payload & -> & Hd & Hpay & Hsig & Hj & Hid). unfold IDOf.
  by rewrite CutPrefix_app, cut_byte_app, Hpay, Hj by done.
Qed.

Lemma MintWith_authentic valid (HL : JSONLaws Claims valid) key opts b now :
  key <> [] ->
  let c := mkClaims (o_Sub opts) (if 0 <? o_TTL opts then Unix (now + o_TTL opts) else 0)
             ("tok_" +:+ hex_EncodeToString b) (o_Prot opts) in
  valid c ->
  exists tok, MintWith key opts (Ok b) now = Ok tok /\ authentic key tok c.
Proof.
  intros Hk c Hv. destruct (json_roundtrip c Hv) as (payload & Hm & Hu & _).
  unfold MintWith. rewrite (proj2 (zlen_nonzero _)) by done. cbn [randomID].
  change (json_Marshal _) with (json_Marshal c). rewrite Hm.
  eexists. split; [done|]. split; [done|].
  exists (b64 payload), (b64 (hmacSum key payload)), payload.
  split_and!; try done; [apply EncodeToString_no_dot|apply DecodeString_EncodeToString..].
Qed.

Lemma Unix_mono a b : a <= b -> Unix a <= Unix b.
Proof. intros H'. unfold Unix. apply Z.div_le_mono; lia. Qed.

(** ** Properties *)

(** C12: [Parse] accepts exactly the tokens whose payload carries the HMAC of
    that payload under the server's key, decodes to claims with an identifier,
    and has not expired; the error for an expired token is given only to
    authentic ones; and the identifier an operator reads without the key is the
    one of the claims. *)
Theorem Parse_exact key tok now :
  (forall c, Parse key tok now = Ok c <->
     authentic key tok c /\ (c_Exp c = 0 \/ Unix now <= c_Exp c)) /\
  (Parse key tok now = Err token_ErrExpired <->
     exists c, authentic key tok c /\ c_Exp c <> 0 /\ c_Exp c < Unix now) /\
  (forall c, Parse key tok now = Ok c -> IDOf tok = c_ID c).
Proof.
  split_and!.
  - intros c. apply Parse_authentic.
  - split; [|intros (c & Ha & Hnz & He); by eapply authentic_expired].
    unfold Parse. intros Hp. destruct (zlen key =? 0) eqn:Hk; [done|].
    destruct (CutPrefix tok Prefix) as [body|] eqn:Hb; [|done]. apply CutPrefix_spec in Hb.
    destruct (cut_byte "." body) as [[p s]|] eqn:Hc; [|done]. apply cut_byte_spec in Hc as [-> Hd].
    destruct (b64d p) as [payload|] eqn:Hpay; [|done].
    destruct (b64d s) as [sig|] eqn:Hsig; [|done].
    unfold hmac_Equal in Hp. case_bool_decide as Heq; [|done]. simpl in Hp.
    destruct (json_Unmarshal payload) as [c|] eqn:Hj; [|done].
    destruct (String.eqb_spec (c_ID c) "") as [|Hid]; [done|].
    destruct (negb (c_Exp c =? 0) && (c_Exp c <? Unix now)) eqn:He; [|done]. bool_props.
    exists c. split; [|done]. split; [by intros ->|].
    exists p, s, payload. by subst.
  - intros c [Ha _]%Parse_authentic. by eapply IDOf_authentic.
Qed.

(** A freshly minted token parses, under the same key, to the subdomain and
    the protection it was minted with: for ever when it has no lifetime, else
    for its whole lifetime, and from one second after its end it is refused as
    expired. *)
Theorem Parse_MintWith valid (HL : JSONLaws Claims valid) key opts b now :
  let id := "tok_" +:+ hex_EncodeToString b in
  let c := mkClaims (o_Sub opts) (if 0 <? o_TTL opts then Unix (now + o_TTL opts) else 0) id (o_Prot opts) in
  key <> [] -> valid c -> 1000000000 <= now ->
  exists tok, MintWith key opts (Ok b) now = Ok tok /\ IDOf tok = id /\
    (forall t, o_TTL opts <= 0 \/ t <= now + o_TTL opts -> Parse key tok t = Ok c) /\
    (forall t, 0 < o_TTL opts -> now + o_TTL opts + 1000000000 <= t ->
       Parse key tok t = Err token_ErrExpired).
Proof.
  intros id c Hk Hv Hnow.
  destruct (MintWith_authentic valid HL key opts b now Hk Hv) as (tok & Hm & Ha).
  fold id c in Ha. exists tok. split_and!; [done|exact (IDOf_authentic _ _ _ Ha)| |].
  - intros t Ht. apply Parse_authentic. split; [done|]. subst c. simpl.
    destruct (Z.ltb_spec 0 (o_TTL opts)); [right|by left]. apply Unix_mono. lia.
  - intros t Hpos Ht. apply (authentic_expired _ _ _ c); [done|..];
      subst c; simpl; rewrite (proj2 (Z.ltb_lt _ _)) by done; unfold Unix;
      Z.div_mod_to_equations; lia.
Qed.

End token.

#[local] Instance sample_hmac : Hmac := fun key p => key ++ p.
#[local] Instance sample_json : JSON Claims := countable_json.

Lemma Parse_MintWith_witness :
  exists tok, MintWith [Byte.x6b] (mkMintOpts "a" 0 false) (Ok [Byte.x01]) 1700000000000000000 = Ok tok /\
    Parse [Byte.x6b] tok 1800000000000000000 = Ok (mkClaims "a" 0 "tok_01" false).
Proof.
  destruct (Parse_MintWith _ countable_json_laws [Byte.x6b] (mkMintOpts "a" 0 false) [Byte.x01]
    1700000000000000000 ltac:(discriminate) I ltac:(lia)) as (tok & Hm & _ & Hp & _).
  exists tok. split; [exact Hm|]. apply Hp. left. reflexivity.
Defined.
