(* ===== verification/Auth.v ===== *)
(** * Who may claim which name: internal/server/auth.go

    The configuration of the authenticator (token lists, the JSON auth file, the
    revoked and the reserved files) and the checks the handshake runs. Files are
    an argument, [files], that gives the content of a path and the error that
    ends reading it, or the error of opening it. *)
From S2P Require Import Prelude GoStr Encoding Proto Token.
From Stdlib Require Import Ascii.

(** ** Data *)

Record Authenticator := mkAuthenticator {
  tokens : gset string;
  reserved : gmap string string;                 (** static token to its name *)
  reservedNames : gmap string (gset string);     (** name to the token IDs that may claim it *)
  signing : list Byte.byte;
  revoked : gset string;
  open : bool
}.

Record AuthOptions := mkAuthOptions {
  Tokens : string;
  AuthFile : string;
  SigningKey : list Byte.byte;
  RevokedFile : string;
  ReservedFile : string;
  Reserved : string
}.

Definition errNoToken : error := server_errNoToken.

(** [tlsRequiredError]: the type is known by its text. *)
Definition tlsRequiredFormat : string :=
  "subdomain %q is reserved for TLS connections: reconnect with --tls to the server's TLS control port".
Definition tlsRequiredError (name : string) : error := Errorf tlsRequiredFormat [name].
Definition is_tlsRequiredError (e : error) : bool :=
  match e with Errorf f _ => String.eqb f tlsRequiredFormat | _ => false end.

(** [range] over a map visits its entries in an unspecified order. *)
Class MapRange := range : gmap string string -> list (string * string).
Class MapRangeLaws `{MapRange} := range_perm m : range m ≡ₚ map_to_list m.

Definition file := string -> result (string * option error).

(** [os.ReadFile]. *)
Definition ReadFile (files : file) (path : string) : result string :=
  match files path with
  | Err e => Err e
  | Ok (content, None) => Ok content
  | Ok (_, Some e) => Err e
  end.

(** ** The configuration files *)

Definition comment_or_blank (line : string) : bool := String.eqb line "" || HasPrefix line "#".

(** The separators of a reserved entry: a comma, an equals sign or a space. *)
Definition sep_width (s : string) : nat :=
  match s with
  | String c _ => if Ascii.eqb c "," || Ascii.eqb c "=" then 1%nat else space_width s
  | "" => 0%nat
  end.

Section config.
Context `{UnicodeLower}.

(** auth.go:292: the token IDs of one line. *)
Fixpoint reserved_ids (n : Z) (fields : list string) (ids : gset string) : result (gset string) :=
  match fields with
  | [] => Ok ids
  | id :: fields =>
      if HasPrefix id Token.Prefix then
        Err (Errorf "line %d: that is a token, not a token ID (use the tok_… id printed by mint)" [pretty n])
      else if negb (HasPrefix id "tok_") then
        Err (Errorf "line %d: %q is not a token ID (expected tok_…)" [pretty n; id])
      else reserved_ids n fields ({[id]} ∪ ids)
  end.

(** [fields[0]] of a line without fields: a run-time panic, which ends the
    program. *)
Definition index_panic : error := errors_New "runtime error: index out of range [0] with length 0".

(** auth.go:274, one line. *)
Definition reserved_line (n : Z) (text : string) (into : gmap string (gset string))
    : result (gmap string (gset string)) :=
  let line := TrimSpace text in
  if comment_or_blank line then Ok into
  else
    let fields := FieldsFunc sep_width line in
    match fields with
    | [] => Err index_panic
    | f0 :: rest =>
        let name := NormalizeSubdomain f0 in
        if negb (ValidSubdomain name) then Err (Errorf "line %d: invalid subdomain %q" [pretty n; f0])
        else if bool_decide (rest = []) then Err (Errorf "line %d: %q lists no token IDs" [pretty n; name])
        else
          match reserved_ids n rest (default ∅ (into !! name)) with
          | Ok ids => Ok (<[name := ids]> into)
          | Err e => Err e
          end
    end.

Fixpoint reserved_lines (n : Z) (lines : list string) (into : gmap string (gset string))
    : result (gmap string (gset string)) :=
  match lines with
  | [] => Ok into
  | l :: lines =>
      match reserved_line n l into with
      | Ok into => reserved_lines (n + 1) lines into
      | Err e => Err e
      end
  end.

(** auth.go:272. *)
Definition parseReserved (content : string) (readErr : option error) (into : gmap string (gset string))
    : result (gmap string (gset string)) :=
  let '(lines, err) := Scanner content readErr in
  match reserved_lines 1 lines into with
  | Err e => Err e
  | Ok into => match err with Some e => Err e | None => Ok into end
  end.
End config.

(** auth.go:354. *)
Definition revoked_line (ids : gset string) (text : string) : gset string :=
  let line := TrimSpace text in
  if comment_or_blank line then ids else {[line]} ∪ ids.

Definition loadRevokedIDs (files : file) (path : string) : result (gset string) :=
  match files path with
  | Err e => Err e
  | Ok (content, readErr) =>
      let '(lines, err) := Scanner content readErr in
      let ids := foldl revoked_line ∅ lines in
      match err with Some e => Err e | None => Ok ids end
  end.

(** ** NewAuthenticatorWith (auth.go:70) *)

(** [--auth-tokens]. *)
Definition static_tokens (csv : string) : gset string :=
  if String.eqb csv "" then ∅
  else list_to_set (List.filter (fun t => negb (String.eqb t "")) (TrimSpace <$> split_byte "," csv)).

Section newauth.
Context `{UnicodeLower, MapRange, JSON (gmap string string)}.

(** The loop over the entries of the auth file. *)
Fixpoint add_reserved (entries : list (string * string)) (ts : gset string) (rs : gmap string string)
    : result (gset string * gmap string string) :=
  match entries with
  | [] => Ok (ts, rs)
  | (tok, sub) :: entries =>
      let sub := NormalizeSubdomain sub in
      if negb (ValidSubdomain sub) then Err (Errorf "auth file: invalid reserved subdomain %q" [sub])
      else add_reserved entries ({[tok]} ∪ ts) (<[tok := sub]> rs)
  end.

Definition load_auth_file (files : file) (path : string) (ts : gset string)
    : result (gset string * gmap string string) :=
  if String.eqb path "" then Ok (ts, ∅)
  else
    match ReadFile files path with
    | Err e => Err (Wrapf "auth file: %w" e)
    | Ok b =>
        match json_Unmarshal (bytes_of_string b) with
        | Err e => Err (Wrapf "auth file JSON: %w" e)
        | Ok m => add_reserved (range m) ts ∅
        end
    end.

Definition load_revoked (files : file) (path : string) : result (gset string) :=
  if String.eqb path "" then Ok ∅
  else match loadRevokedIDs files path with
       | Err e => Err (Wrapf "revoked file: %w" e)
       | Ok ids => Ok ids
       end.

Definition load_reserved_file (files : file) (path : string) (into : gmap string (gset string))
    : result (gmap string (gset string)) :=
  if String.eqb path "" then Ok into
  else match files path with
       | Err e => Err (Wrapf "reserved file: %w" e)
       | Ok (content, readErr) =>
           match parseReserved content readErr into with
           | Err e => Err (Wrapf "reserved file: %w" e)
           | Ok into => Ok into
           end
       end.

Definition load_reserved_inline (text : string) (into : gmap string (gset string))
    : result (gmap string (gset string)) :=
  if String.eqb text "" then Ok into
  else match parseReserved (replace_byte ";" newline text) None into with
       | Err e => Err (Wrapf "reserved names: %w" e)
       | Ok into => Ok into
       end.

(** The names that the auth file gives to a static token and the reserved files
    to signed ones: the first one the iteration meets is reported. *)
Definition clash (rs : gmap string string) (names : gmap string (gset string)) : option string :=
  snd <$> find (fun p => bool_decide (names !! snd p <> None)) (range rs).

Definition NewAuthenticatorWith (files : file) (opts : AuthOptions) : result Authenticator :=
  let ts := static_tokens (Tokens opts) in
  match load_auth_file files (AuthFile opts) ts with
  | Err e => Err e
  | Ok (ts, rs) =>
      match load_revoked files (RevokedFile opts) with
      | Err e => Err e
      | Ok rev =>
          match load_reserved_file files (ReservedFile opts) ∅ with
          | Err e => Err e
          | Ok names =>
              match load_reserved_inline (Reserved opts) names with
              | Err e => Err e
              | Ok names =>
                  let sgn := SigningKey opts in
                  let conflict :=
                    if bool_decide (names = ∅) then None
                    else if zlen sgn =? 0 then
                      Some (errors_New "reserved names need signed tokens: set a signing key")
                    else match clash rs names with
                         | Some sub => Some (Errorf "auth file gives reserved name %q to a static token; reserved names belong to signed tokens" [sub])
                         | None => None
                         end in
                  match conflict with
                  | Some e => Err e
                  | None =>
                      Ok (mkAuthenticator ts rs names sgn rev
                            (bool_decide (ts = ∅) && (zlen sgn =? 0)))
                  end
              end
          end
      end
  end.

(** auth.go:66. *)
Definition NewAuthenticator (files : file) (tokensCSV authFile : string) : result Authenticator :=
  NewAuthenticatorWith files (mkAuthOptions tokensCSV authFile [] "" "" "").
End newauth.

(** ** The checks *)

Section checks.
Context `{Hmac, JSON Claims}.
Implicit Types (a : Authenticator).

(** auth.go:146-153. *)
Definition Open a : bool := open a.
Definition SignedEnabled a : bool := 0 <? zlen (signing a).
Definition StaticTokenCount a : nat := size (tokens a).

(** auth.go:157. *)
Definition isSigned a (tok : string) : bool := (0 <? zlen (signing a)) && HasPrefix tok Token.Prefix.

(** auth.go:162; [None] is [nil]. *)
Definition Check a (tok : string) (now : Z) : option error :=
  if open a then None
  else if String.eqb tok "" then Some errNoToken
  else if isSigned a tok then
    match Parse (signing a) tok now with
    | Err e => Some e
    | Ok c => if bool_decide (c_ID c ∈ revoked a) then Some (errors_New "token revoked") else None
    end
  else if bool_decide (tok ∈ tokens a) then None else Some (errors_New "invalid token").

(** auth.go:187. *)
Definition ReservedSubdomain a (tok : string) (now : Z) : string :=
  if isSigned a tok then
    match Parse (signing a) tok now with Ok c => c_Sub c | Err _ => "" end
  else default "" (reserved a !! tok).

(** auth.go:200. *)
Definition ProtectedByToken a (tok : string) (now : Z) : bool :=
  if isSigned a tok then
    match Parse (signing a) tok now with Ok c => c_Prot c | Err _ => false end
  else false.

(** auth.go:212. (The [TokenID] of the code.) *)
Definition tokenID a (tok : string) (now : Z) : string :=
  if isSigned a tok then
    match Parse (signing a) tok now with
    | Ok c => if bool_decide (c_ID c ∈ revoked a) then "" else c_ID c
    | Err _ => ""
    end
  else "".

(** auth.go:224. *)
Definition IsReserved a (name : string) : bool := bool_decide (reservedNames a !! name <> None).

(** auth.go:241. *)
Definition CheckReserved a (tok name : string) (overTLS : bool) (now : Z) : option error :=
  match reservedNames a !! name with
  | None => None
  | Some ids =>
      let id := tokenID a tok now in
      if String.eqb id "" || bool_decide (id ∉ ids) then Some (Errorf "subdomain %q is reserved" [name])
      else if negb overTLS then Some (tlsRequiredError name)
      else None
  end.

(** auth.go:310. *)
Definition MintFor a (opts : MintOpts) (rnd : result (list Byte.byte)) (now : Z) : result string :=
  if zlen (signing a) =? 0 then Err (errors_New "signed tokens not enabled (no signing key)")
  else MintWith (signing a) opts rnd now.

Definition only_allows (sub : string) : error := Errorf "your token only allows subdomain %q" [sub].
Definition invalid_subdomain (sub : string) : error :=
  Errorf "invalid subdomain %q (lowercase letters, digits, hyphens; ≤63 chars)" [sub].

(** The last test of both halves of auth.go:318. *)
Definition check_free (requested : string) : option error :=
  if negb (String.eqb requested "") && negb (ValidSubdomain requested)
  then Some (invalid_subdomain requested) else None.

(** auth.go:318. *)
Definition CheckSubdomain a (tok requested : string) (now : Z) : option error :=
  if isSigned a tok then
    match Parse (signing a) tok now with
    | Err e => Some e
    | Ok c =>
        if negb (String.eqb (c_Sub c) "") then
          if negb (String.eqb requested (c_Sub c)) then Some (only_allows (c_Sub c)) else None
        else check_free requested
    end
  else
    match reserved a !! tok with
    | Some r =>
        if String.eqb requested "" then None
        else if negb (String.eqb requested r) then Some (only_allows r)
        else None
    | None => check_free requested
    end.
End checks.

(** ** Well-formed configurations *)

Definition token_ids_ok (ids : gset string) : Prop :=
  forall id, id ∈ ids -> HasPrefix id "tok_" = true /\ HasPrefix id Token.Prefix = false.

Definition names_ok (names : gmap string (gset string)) : Prop :=
  forall name ids, names !! name = Some ids -> ValidSubdomain name = true /\ ids <> ∅ /\ token_ids_ok ids.

Record auth_ok (a : Authenticator) : Prop := {
  ok_reserved : forall tok sub, reserved a !! tok = Some sub ->
    tok ∈ tokens a /\ ValidSubdomain sub = true /\ reservedNames a !! sub = None;
  ok_names : names_ok (reservedNames a);
  ok_signing : reservedNames a <> ∅ -> signing a <> [];
  ok_open : open a = true <-> tokens a = ∅ /\ signing a = []
}.

Section newauth_ok.
Context `{UnicodeLower, MapRange, JSON (gmap string string)}.

Lemma reserved_ids_ok n fields ids ids' :
  reserved_ids n fields ids = Ok ids' -> token_ids_ok ids ->
  token_ids_ok ids' /\ (fields <> [] \/ ids <> ∅ -> ids' <> ∅).
Proof.
  revert ids. induction fields as [|id fields IH]; intros ids; simpl; intros Hr Hi.
  - simplify_eq. naive_solver.
  - destruct (HasPrefix id Token.Prefix) eqn:Hm; [done|].
    destruct (HasPrefix id "tok_") eqn:Ht; [|done]. simpl in Hr.
    destruct (IH _ Hr) as [Hok Hne].
    { intros x [->%elem_of_singleton|Hx]%elem_of_union; auto. }
    split; [done|]. intros _. apply Hne. right. set_solver.
Qed.

Lemma reserved_line_ok n text into into' :
  reserved_line n text into = Ok into' -> names_ok into -> names_ok into'.
Proof.
  unfold reserved_line. intros Hr Hi. destruct (comment_or_blank _); [by simplify_eq|].
  destruct (FieldsFunc _ _) as [|f0 rest]; [done|].
  destruct (ValidSubdomain _) eqn:Hv; [|done]. simpl in Hr.
  case_bool_decide as Hrest; [done|].
  destruct (reserved_ids _ _ _) as [ids|] eqn:Hids; [|done]. simplify_eq.
  apply reserved_ids_ok in Hids as [Hok Hne].
  - intros name ids' [[<- <-]|[_ Hl]]%lookup_insert_Some; [|by apply (Hi _ _ Hl)].
    split_and!; auto.
  - destruct (into !! _) as [old|] eqn:Ho; [by apply (Hi _ _ Ho)|]. intros id. simpl. set_solver.
Qed.

Lemma parseReserved_ok content readErr into into' :
  parseReserved content readErr into = Ok into' -> names_ok into -> names_ok into'.
Proof.
  unfold parseReserved. destruct (Scanner content readErr) as [lines err].
  destruct (reserved_lines 1 lines into) as [into1|] eqn:Hl; [|done].
  intros Hr Hi. destruct err; [done|]. simplify_eq. revert Hl Hi. generalize 1.
  revert into. induction lines as [|l lines IH]; intros into n; simpl; [naive_solver|].
  destruct (reserved_line n l into) as [into1|] eqn:E; [|done].
  intros Hl Hi. eapply IH; [done|]. by eapply reserved_line_ok.
Qed.

Lemma add_reserved_ok entries ts rs ts' rs' :
  add_reserved entries ts rs = Ok (ts', rs') ->
  (forall tok sub, rs !! tok = Some sub -> tok ∈ ts /\ ValidSubdomain sub = true) ->
  forall tok sub, rs' !! tok = Some sub -> tok ∈ ts' /\ ValidSubdomain sub = true.
Proof.
  revert ts rs. induction entries as [|[tok sub] entries IH]; intros ts rs; simpl; [naive_solver|].
  destruct (ValidSubdomain _) eqn:Hv; [|done]. simpl. intros Ha Hi. eapply IH; [exact Ha|].
  intros t s [[<- <-]|[_ Hl]]%lookup_insert_Some; [set_solver|].
  destruct (Hi _ _ Hl). set_solver.
Qed.

Lemma load_auth_file_ok files path ts ts' rs' :
  load_auth_file files path ts = Ok (ts', rs') ->
  forall tok sub, rs' !! tok = Some sub -> tok ∈ ts' /\ ValidSubdomain sub = true.
Proof.
  unfold load_auth_file. destruct (String.eqb path ""); [by intros [= <- <-] tok sub|].
  destruct (ReadFile files path) as [b|]; [|done].
  destruct (json_Unmarshal _) as [m|]; [|done]. intros Ha. by eapply add_reserved_ok.
Qed.

Lemma load_reserved_ok files path text into names :
  load_reserved_file files path ∅ = Ok into -> load_reserved_inline text into = Ok names ->
  names_ok names.
Proof.
  unfold load_reserved_file, load_reserved_inline. intros Hf Hi.
  assert (names_ok into) as Hok.
  { destruct (String.eqb path ""); [simplify_eq; by intros ? ?|].
    destruct (files path) as [[content readErr]|]; [|done].
    destruct (parseReserved content readErr ∅) as [x|] eqn:E; [|done]. simplify_eq.
    eapply parseReserved_ok; [done|]. by intros ? ?. }
  destruct (String.eqb text ""); [by simplify_eq|].
  destruct (parseReserved _ None into) as [x|] eqn:E; [|done]. simplify_eq.
  by eapply parseReserved_ok.
Qed.

Lemma clash_none `{!MapRangeLaws} rs names tok sub :
  clash rs names = None -> rs !! tok = Some sub -> names !! sub = None.
Proof.
  unfold clash. intros Hc Hl. destruct (find _ _) eqn:Hf; [done|].
  assert ((tok, sub) ∈ range rs) as Hin.
  { rewrite (range_perm rs). by apply elem_of_map_to_list. }
  apply list_elem_of_In in Hin. pose proof (find_none _ _ Hf _ Hin) as Hd. simpl in Hd.
  apply bool_decide_eq_false in Hd. by apply dec_stable.
Qed.

Lemma NewAuthenticatorWith_spec `{!MapRangeLaws} files opts a :
  NewAuthenticatorWith files opts = Ok a -> auth_ok a.
Proof.
  unfold NewAuthenticatorWith. intros Hn.
  destruct (load_auth_file _ _ _) as [[ts rs]|] eqn:Hf; [|done].
  destruct (load_revoked _ _) as [rev|]; [|done].
  destruct (load_reserved_file _ _ _) as [names0|] eqn:Hr; [|done].
  destruct (load_reserved_inline _ _) as [names|] eqn:Hi; [|done].
  case_bool_decide as He; [|destruct (zlen (SigningKey opts) =? 0) eqn:Hk;
    [done|destruct (clash rs names) as [x|] eqn:Hc; [done|]]];
    simplify_eq; split; simpl.
  - intros tok sub Ht. destruct (load_auth_file_ok _ _ _ _ _ Hf _ _ Ht). by rewrite lookup_empty.
  - by eapply load_reserved_ok.
  - done.
  - rewrite andb_true_iff, bool_decide_eq_true, Z.eqb_eq. destruct (SigningKey opts); simpl; naive_solver lia.
  - intros tok sub Ht. destruct (load_auth_file_ok _ _ _ _ _ Hf _ _ Ht).
    split_and!; try done. by eapply clash_none.
  - by eapply load_reserved_ok.
  - intros _ Hs. by rewrite Hs in Hk.
  - rewrite andb_false_r. split; [done|]. intros [_ Hs]. by rewrite Hs in Hk.
Qed.
End newauth_ok.

(** ** Lemmas on the checks *)

Section checks_ok.
Context `{Hmac, JSON Claims}.
Implicit Types (a : Authenticator).

(** A signed token the server accepts now. *)
Definition good_token a (tok : string) (now : Z) (c : Claims) : Prop :=
  isSigned a tok = true /\ authentic (signing a) tok c /\
  (c_Exp c = 0 \/ Unix now <= c_Exp c) /\ c_ID c ∉ revoked a.

Lemma tokenID_spec a tok now id :
  id <> "" -> tokenID a tok now = id <-> exists c, good_token a tok now c /\ c_ID c = id.
Proof.
  intros Hid. unfold tokenID, good_token. split.
  - intros Ht. destruct (isSigned a tok); [|by subst].
    destruct (Parse (signing a) tok now) as [c|] eqn:Hp; [|by subst].
    case_bool_decide; [by subst|]. apply Parse_authentic in Hp as [Ha He]. exists c. by split_and!.
  - intros (c & (Hs & Ha & He & Hr) & <-). rewrite Hs.
    rewrite (proj2 (Parse_authentic _ _ _ c)) by done. by rewrite bool_decide_eq_false_2.
Qed.

Lemma CheckReserved_passes a tok name overTLS now ids :
  CheckReserved a tok name overTLS now = None -> reservedNames a !! name = Some ids ->
  overTLS = true /\ tokenID a tok now ∈ ids /\ tokenID a tok now <> "".
Proof.
  unfold CheckReserved. intros Hc Hl. rewrite Hl in Hc.
  destruct (String.eqb_spec (tokenID a tok now) "") as [|Hid]; [done|]. simpl in Hc.
  case_bool_decide as Hin; [done|]. destruct overTLS; [|done]. done.
Qed.

Lemma CheckSubdomain_passes a tok sub now :
  CheckSubdomain a tok sub now = None ->
  (exists c, isSigned a tok = true /\ Parse (signing a) tok now = Ok c /\ c_Sub c = sub /\ sub <> "") \/
  (exists r, isSigned a tok = false /\ reserved a !! tok = Some r /\ (sub = "" \/ sub = r)) \/
  sub = "" \/ ValidSubdomain sub = true.
Proof.
  unfold CheckSubdomain, check_free. intros Hc. destruct (isSigned a tok).
  - destruct (Parse (signing a) tok now) as [c|]; [|done].
    destruct (String.eqb_spec (c_Sub c) "") as [|Hs]; simpl in Hc.
    + destruct (String.eqb_spec sub ""); [tauto|]. destruct (ValidSubdomain sub); [tauto|done].
    + destruct (String.eqb_spec sub (c_Sub c)) as [->|]; [|done]. left. naive_solver.
  - destruct (reserved a !! tok) as [r|].
    + right. left. exists r. destruct (String.eqb_spec sub ""); [tauto|]. simpl in Hc.
      destruct (String.eqb_spec sub r); [tauto|done].
    + destruct (String.eqb_spec sub ""); [tauto|]. destruct (ValidSubdomain sub); [tauto|done].
Qed.

(** ** Properties *)

(** A reserved name passes the check only over TLS and with an authentic,
    unexpired and unrevoked signed token whose identifier is listed for that
    name; every other request for it is refused, and a name that is not reserved
    is never refused here. *)
Theorem reserved_names_guarded a tok name overTLS now :
  match reservedNames a !! name with
  | None => CheckReserved a tok name overTLS now = None
  | Some ids =>
      ~ "" ∈ ids ->
      CheckReserved a tok name overTLS now = None <->
      overTLS = true /\ exists c, good_token a tok now c /\ c_ID c ∈ ids
  end.
Proof.
  destruct (reservedNames a !! name) as [ids|] eqn:Hl; [|unfold CheckReserved; by rewrite Hl].
  intros Hne. split.
  - intros Hc. destruct (CheckReserved_passes _ _ _ _ _ _ Hc Hl) as (Ht & Hin & Hid).
    split; [done|]. destruct (proj1 (tokenID_spec a tok now _ Hid) eq_refl) as (c & Hg & Heq).
    exists c. by rewrite Heq.
  - intros (-> & c & Hg & Hin). unfold CheckReserved. rewrite Hl.
    assert (c_ID c <> "") as Hid by (intros Heq; by rewrite Heq in Hin).
    rewrite (proj2 (tokenID_spec a tok now _ Hid)) by eauto.
    rewrite (proj2 (String.eqb_neq _ _)) by done. by rewrite bool_decide_eq_false_2 by tauto.
Qed.

(** The token check accepts exactly: anything on an open server; otherwise
    a non-empty token that is either an authentic, unexpired and unrevoked
    signed token, or (not being of the signed form) one of the static tokens. *)
Theorem Check_exact a tok now :
  Check a tok now = None <->
  open a = true \/
  (tok <> "" /\
   if isSigned a tok then exists c, good_token a tok now c else tok ∈ tokens a).
Proof.
  unfold Check, good_token. destruct (open a); [tauto|].
  destruct (String.eqb_spec tok "") as [->|Hne]; [naive_solver|].
  destruct (isSigned a tok) eqn:Hs.
  - destruct (Parse (signing a) tok now) as [c|e] eqn:Hp.
    + apply Parse_authentic in Hp as [Ha He]. case_bool_decide as Hr.
      * split; [done|]. intros [|(_ & c' & _ & Ha' & He' & Hr')]; [done|].
        assert (Ok c = Ok c') as ?; [|naive_solver].
        rewrite <-(proj2 (Parse_authentic (signing a) tok now c)), <-(proj2 (Parse_authentic (signing a) tok now c')); done.
      * split; [|done]. intros _. right. split; [done|]. by exists c.
    + split; [done|]. intros [|(_ & c' & _ & Ha' & He' & Hr')]; [done|].
      by rewrite (proj2 (Parse_authentic _ _ _ c')) in Hp.
  - case_bool_decide; naive_solver.
Qed.
End checks_ok.

(** Whatever the options and files, a configuration that loads is well
    formed: names given to tokens are valid and never reserved for signed
    tokens; every reserved name is valid and lists at least one token
    identifier, and no token; reserved names imply a signing key; and the server
    is open exactly when it has neither tokens nor a key. *)
Theorem configuration_ok `{UnicodeLower, MapRangeLaws, JSON (gmap string string)} files opts :
  match NewAuthenticatorWith files opts with Ok a => auth_ok a | Err _ => True end.
Proof.
  destruct (NewAuthenticatorWith files opts) as [a|] eqn:E; [|done].
  by eapply NewAuthenticatorWith_spec.
Qed.

(** A line of the reserved file that has separators but no field makes the
    parser index an empty slice: the server dies with a run-time panic. *)
Theorem separator_line_panics `{UnicodeLower} n into :
  reserved_line n ","%string into = Err index_panic.
Proof. reflexivity. Qed.

(** ** Samples *)

Definition sample_range : MapRange := map_to_list.
Definition sample_lower : UnicodeLower := id.
Definition sample_files : file := fun path =>
  if String.eqb path "reserved" then Ok ("hop tok_01" +:+ String newline "# c", None)
  else Err (OSError 2).
Definition sample_opts : AuthOptions :=
  mkAuthOptions "a, b" "" [Byte.x6b] "" "reserved" "stage=tok_02".

Definition sample_auth : result Authenticator :=
  @NewAuthenticatorWith sample_lower sample_range countable_json sample_files sample_opts.

Lemma configuration_ok_witness :
  match sample_auth with
  | Ok a => reservedNames a !! "hop"%string = Some {["tok_01"%string]} /\ auth_ok a
  | Err _ => False
  end.
Proof.
  assert (HL : @MapRangeLaws sample_range) by (intros m; reflexivity).
  pose proof (@configuration_ok sample_lower sample_range HL countable_json sample_files sample_opts) as H.
  fold sample_auth in H. destruct sample_auth as [a|e] eqn:E.
  - split; [|exact H]. vm_compute in E. injection E as <-. vm_compute. reflexivity.
  - vm_compute in E. discriminate E.
Defined.
