(* ===== verification/Registry.v ===== *)
(** * The tunnel registry: internal/server/registry.go

    The map from subdomains to clients, the clients themselves (which the
    handshake and the proxy share by pointer, so they live in a heap), and the
    rule that decides who may take a name over. Each operation runs under the
    registry's mutex, so any interleaving is a sequence of them. *)
From S2P Require Import Prelude GoStr.

(** ** Data *)

(** A [*mux.Session] and a [*Client]. *)
Abbreviation sid := nat (only parsing).
Abbreviation cid := nat (only parsing).

(** [ready] is true when the channel is closed ([readyOnce] guards only that). *)
Record Client := mkClient {
  Subdomain : string;
  Session : sid;
  RemoteAddr : string;
  ConnectedAt : Z;
  Protected : bool;
  TokenID : string;
  ready : bool
}.

(** [OnChange], when set, is called with a client and whether it connected; the
    calls are recorded in [changes]. *)
Record Registry := mkRegistry {
  clients : gmap string cid;
  heap : gmap cid Client;
  OnChange : bool;
  changes : list (cid * bool)
}.

(** registry.go:60. *)
Definition NewRegistry : Registry := mkRegistry ∅ ∅ false [].

(** What the registry asks of a session: mux.Session.Stale, now. *)
Class Sessions := Stale : sid -> bool.

Definition set_client (c : cid) (f : Client -> Client) (r : Registry) : Registry :=
  mkRegistry (clients r) (alter f c (heap r)) (OnChange r) (changes r).

(** registry.go:29. *)
Definition markReady (c : cid) : Registry -> Registry :=
  set_client c (fun x => mkClient (Subdomain x) (Session x) (RemoteAddr x) (ConnectedAt x)
                           (Protected x) (TokenID x) true).

(** [client.Protected = b] (control.go:351). *)
Definition setProtected (c : cid) (b : bool) : Registry -> Registry :=
  set_client c (fun x => mkClient (Subdomain x) (Session x) (RemoteAddr x) (ConnectedAt x)
                           b (TokenID x) (ready x)).

(** registry.go:33: what the wait returns. The client may become ready while
    waiting ([becomes_ready]) or the context or the timer may end it. *)
Definition waitReady (c : Client) (becomes_ready : bool) : bool := ready c || becomes_ready.

Definition notify (l : list (cid * bool)) (r : Registry) : Registry :=
  if OnChange r then mkRegistry (clients r) (heap r) (OnChange r) (changes r ++ l) else r.

(** ** Operations *)

Section ops.
Context `{Sessions}.

(** registry.go:76. The name may be claimed: it is free, or its holder is stale
    and the claim presents the holder's signed token. *)
Definition may_claim (tokenID : string) (cur : Client) : bool :=
  negb (String.eqb tokenID "" || negb (String.eqb (TokenID cur) tokenID) || negb (Stale (Session cur))).

Definition Register (sub : string) (sess : sid) (remote tokenID : string) (now : Z) (r : Registry)
    : Registry * result (cid * option cid) :=
  let claim evicted :=
    let c := fresh (dom (heap r)) in
    let r := mkRegistry (<[sub := c]> (clients r))
               (<[c := mkClient sub sess remote now false tokenID false]> (heap r))
               (OnChange r) (changes r) in
    let gone := match evicted with Some e => [(e, false)] | None => [] end in
    (notify (gone ++ [(c, true)]) r, Ok (c, evicted)) in
  match clients r !! sub with
  | Some e =>
      match heap r !! e with
      | Some cur => if may_claim tokenID cur then claim (Some e) else (r, Err server_errSubdomainTaken)
      | None => (r, Err server_errSubdomainTaken)
      end
  | None => claim None
  end.

End ops.

(** registry.go:106. *)
Definition Unregister (c : cid) (r : Registry) : Registry :=
  match heap r !! c with
  | None => r
  | Some x =>
      match clients r !! Subdomain x with
      | None => r
      | Some cur =>
          match heap r !! cur with
          | Some y =>
              if decide (Session y = Session x) then
                notify [(c, false)] (mkRegistry (delete (Subdomain x) (clients r)) (heap r) (OnChange r) (changes r))
              else r
          | None => r
          end
      end
  end.

(** registry.go:121 and 128. *)
Definition Get (sub : string) (r : Registry) : option Client :=
  clients r !! sub ≫= fun c => heap r !! c.
Definition Count (r : Registry) : nat := size (clients r).

(** ** Invariant *)

(** Every name in the map leads to a client that claims it. *)
Definition registry_ok (r : Registry) : Prop :=
  forall sub c, clients r !! sub = Some c -> exists x, heap r !! c = Some x /\ Subdomain x = sub.

Lemma notify_clients l r : clients (notify l r) = clients r.
Proof. unfold notify. by destruct (OnChange r). Qed.
Lemma notify_heap l r : heap (notify l r) = heap r.
Proof. unfold notify. by destruct (OnChange r). Qed.

#[export] Hint Rewrite notify_clients notify_heap : munnel.

Lemma NewRegistry_ok : registry_ok NewRegistry.
Proof. intros sub c. simpl. by rewrite lookup_empty. Qed.

Lemma set_client_ok c f r :
  (forall x, Subdomain (f x) = Subdomain x) -> registry_ok r -> registry_ok (set_client c f r).
Proof.
  intros Hf Hr sub d Hd. destruct (Hr sub d Hd) as (x & Hx & Hs). simpl.
  destruct (decide (c = d)) as [->|Hne].
  - rewrite lookup_alter_eq, Hx. exists (f x). split; [done|]. by rewrite Hf.
  - rewrite lookup_alter_ne by done. eauto.
Qed.

Section lemmas.
Context `{Sessions}.

(** What a successful claim does to the two maps. *)
Lemma Register_ok sub sess remote tokenID now r r' c ev :
  Register sub sess remote tokenID now r = (r', Ok (c, ev)) ->
  heap r !! c = None /\ clients r' = <[sub := c]> (clients r) /\
  heap r' = <[c := mkClient sub sess remote now false tokenID false]> (heap r) /\
  ev = clients r !! sub /\
  (forall e, clients r !! sub = Some e -> exists cur, heap r !! e = Some cur /\ may_claim tokenID cur = true).
Proof.
  unfold Register. assert (heap r !! fresh (dom (heap r)) = None) as Hf.
  { apply not_elem_of_dom, is_fresh. }
  destruct (clients r !! sub) as [e|] eqn:He.
  - destruct (heap r !! e) as [cur|] eqn:Hcur; [|done].
    destruct (may_claim tokenID cur) eqn:Hm; [|done]. intros [= <- <- <-].
    autorewrite with munnel. split_and!; try done. naive_solver.
  - intros [= <- <- <-]. autorewrite with munnel. by split_and!.
Qed.

Lemma Register_err sub sess remote tokenID now r r' e :
  Register sub sess remote tokenID now r = (r', Err e) ->
  r' = r /\ e = server_errSubdomainTaken /\ clients r !! sub <> None.
Proof.
  unfold Register. destruct (clients r !! sub) as [c|]; [|done].
  destruct (heap r !! c) as [cur|]; [destruct (may_claim tokenID cur)|]; naive_solver.
Qed.

Lemma Register_preserves sub sess remote tokenID now r :
  registry_ok r -> registry_ok (fst (Register sub sess remote tokenID now r)).
Proof.
  intros Hr. destruct (Register _ _ _ _ _ _) as [r' [[c ev]|e]] eqn:E.
  - apply Register_ok in E as (Hf & Hc & Hh & _ & _). intros s d. simpl. rewrite Hc, Hh.
    destruct (decide (s = sub)) as [->|Hs].
    + rewrite lookup_insert_eq. intros [= <-]. rewrite lookup_insert_eq. eauto.
    + rewrite lookup_insert_ne by done. intros Hd. destruct (Hr s d Hd) as (x & Hx & Hxs).
      rewrite lookup_insert_ne by congruence. eauto.
  - by apply Register_err in E as [-> _].
Qed.
End lemmas.

Lemma Unregister_clients c r :
  clients (Unregister c r) = clients r \/
  exists x cur y, heap r !! c = Some x /\ clients r !! Subdomain x = Some cur /\
    heap r !! cur = Some y /\ Session y = Session x /\
    clients (Unregister c r) = delete (Subdomain x) (clients r).
Proof.
  unfold Unregister. destruct (heap r !! c) as [x|] eqn:Hx; [|by left].
  destruct (clients r !! Subdomain x) as [cur|] eqn:Hc; [|by left].
  destruct (heap r !! cur) as [y|] eqn:Hy; [|by left].
  case_decide; [right|by left]. autorewrite with munnel. naive_solver.
Qed.

Lemma Unregister_heap c r : heap (Unregister c r) = heap r.
Proof.
  unfold Unregister. repeat (case_match; autorewrite with munnel; try done).
Qed.

Lemma Unregister_preserves c r : registry_ok r -> registry_ok (Unregister c r).
Proof.
  intros Hr s d. rewrite Unregister_heap.
  destruct (Unregister_clients c r) as [-> | (x & cur & y & _ & _ & _ & _ & ->)]; [apply Hr|].
  intros [_ Hd]%lookup_delete_Some. by apply Hr.
Qed.

(** ** Properties *)

(** A claim succeeds exactly when the name is free, or when its holder's
    session is stale and the claim carries the holder's own (non-empty) signed
    token identifier. On success the new client, not yet ready nor protected,
    holds the name, the previous holder is handed back and every other name is
    untouched; on refusal nothing changes. *)
Theorem Register_contract `{Sessions} sub sess remote tokenID now r :
  registry_ok r ->
  let allowed := match Get sub r with
                 | None => true
                 | Some cur => negb (String.eqb tokenID "") && String.eqb (TokenID cur) tokenID &&
                               Stale (Session cur)
                 end in
  match Register sub sess remote tokenID now r with
  | (r', Ok (c, evicted)) =>
      allowed = true /\ evicted = clients r !! sub /\ registry_ok r' /\
      Get sub r' = Some (mkClient sub sess remote now false tokenID false) /\
      (forall s, s <> sub -> Get s r' = Get s r)
  | (r', Err e) => allowed = false /\ e = server_errSubdomainTaken /\ r' = r
  end.
Proof.
  intros Hr allowed. pose proof (Register_preserves sub sess remote tokenID now r Hr) as Hok.
  assert (Hget : forall e, clients r !! sub = Some e -> exists cur, heap r !! e = Some cur /\
    allowed = may_claim tokenID cur).
  { intros e He. destruct (Hr _ _ He) as (cur & Hcur & _). exists cur. split; [done|].
    subst allowed. unfold Get. rewrite He. simpl. rewrite Hcur. unfold may_claim.
    by rewrite !negb_orb, !negb_involutive. }
  destruct (Register _ _ _ _ _ _) as [r' [[c ev]|e]] eqn:E.
  - apply Register_ok in E as (Hf & Hc & Hh & Hev & Hm). split_and!; try done.
    + destruct (clients r !! sub) as [e|] eqn:He; [|subst allowed; unfold Get; by rewrite He].
      destruct (Hget e eq_refl) as (cur & Hcur & ->). destruct (Hm e eq_refl) as (cur' & ? & ?).
      by simplify_eq.
    + unfold Get. rewrite Hc, Hh, lookup_insert_eq. simpl. by rewrite lookup_insert_eq.
    + intros s Hs. unfold Get. rewrite Hc, Hh, lookup_insert_ne by done.
      destruct (clients r !! s) as [d|] eqn:Hd; [|done]. simpl.
      destruct (Hr _ _ Hd) as (x & Hx & _). by rewrite lookup_insert_ne by congruence.
  - unfold Register in E. destruct (clients r !! sub) as [d|] eqn:He; [|done].
    destruct (Hget d eq_refl) as (cur & Hcur & ->). rewrite Hcur in E.
    destruct (may_claim tokenID cur); naive_solver.
Qed.

Definition stale_none : Sessions := fun _ => false.
Definition one_client : Registry := fst (@Register stale_none "a" 0%nat "peer" "tok_1" 5 NewRegistry).

Lemma Register_contract_witness :
  registry_ok one_client /\
  fst (@Register stale_none "a" 1%nat "peer" "tok_1" 6 one_client) = one_client.
Proof.
  assert (Hok : registry_ok one_client) by (apply Register_preserves, NewRegistry_ok).
  split; [exact Hok|].
  pose proof (@Register_contract stale_none "a" 1%nat "peer" "tok_1" 6 one_client Hok) as H.
  destruct (@Register stale_none "a" 1%nat "peer" "tok_1" 6 one_client) as [r' [[c ev]|e]] eqn:E.
  - exfalso. destruct H as [H _]. vm_compute in H. discriminate H.
  - exact (proj2 (proj2 H)).
Defined.

(** Unregistering a client removes its name only while a client of the same
    session holds it: the late unregister of a session that was taken over, or
    whose name was reused, leaves the new holder in place. *)
Theorem Unregister_own_only c x r :
  registry_ok r -> heap r !! c = Some x ->
  (forall s, s <> Subdomain x -> Get s (Unregister c r) = Get s r) /\
  (forall y, Get (Subdomain x) r = Some y -> Session y <> Session x -> Unregister c r = r) /\
  (forall y, Get (Subdomain x) r = Some y -> Session y = Session x -> Get (Subdomain x) (Unregister c r) = None) /\
  registry_ok (Unregister c r).
Proof.
  intros Hr Hx. split_and!.
  - intros s Hs. unfold Get. rewrite Unregister_heap.
    destruct (Unregister_clients c r) as [-> | (x' & cur & y & Hx' & _ & _ & _ & ->)]; [done|].
    simplify_eq. by rewrite lookup_delete_ne.
  - intros y Hy Hne. unfold Unregister. rewrite Hx. unfold Get in Hy.
    destruct (clients r !! Subdomain x) as [cur|]; [|done]. simpl in Hy. rewrite Hy.
    by rewrite decide_False.
  - intros y Hy Heq. unfold Get in Hy. apply bind_Some in Hy as (cur & Hcur & Hy).
    unfold Get, Unregister. rewrite Hx, Hcur, Hy, decide_True by done. autorewrite with munnel.
    simpl. by rewrite lookup_delete_eq.
  - by apply Unregister_preserves.
Qed.

Lemma Unregister_own_only_witness :
  heap one_client !! 0%nat = Some (mkClient "a" 0%nat "peer" 5 false "tok_1" false) /\
  Get "a" (Unregister 0%nat one_client) = None.
Proof.
  assert (Hok : registry_ok one_client) by (apply Register_preserves, NewRegistry_ok).
  assert (Hx : heap one_client !! 0%nat = Some (mkClient "a" 0%nat "peer" 5 false "tok_1" false))
    by (vm_compute; reflexivity).
  split; [exact Hx|].
  refine (proj1 (proj2 (proj2 (Unregister_own_only 0%nat _ one_client Hok Hx))) _ _ eq_refl).
  vm_compute. reflexivity.
Defined.
