(* ===== verification/Control.v ===== *)
(** * The control handshake: internal/server/control.go

    The server's configuration, the judgement of a hello, and the life of a
    control connection as a thread: handshake, registration (with re-rolled
    names), takeover of a stale session, acknowledgement, run, unregistration.
    A step is one access to shared state, so the threads of [cstep] interleave
    as the goroutines of the server do. *)
From S2P Require Import Prelude Frame GoStr Encoding Proto Token Auth Registry.
From Stdlib Require Import Ascii.

(** ** Configuration (control.go:36) *)

Definition Second : Z := 1000000000.
Definition handshakeTimeout : Z := 15 * Second.
Definition defaultResponseHeaderTimeout : Z := 60 * Second.
Definition errTakenOver : error := server_errTakenOver.

(** [ControlTLS] is whether a TLS configuration is set, [FA] whether forward
    authentication is enabled; the logger is left out. *)
Record Config := mkConfig {
  Domain : string;
  ControlAddr : string;
  ProxyAddr : string;
  AskAddr : string;
  ControlTLSAddr : string;
  ControlTLS : bool;
  PublicPort : string;
  PublicScheme : string;
  MaxRequestBody : Z;
  Auth : option Authenticator;
  FA : bool;
  EnrollPassword : string;
  ResponseHeaderTimeout : Z;
  MuxPingInterval : Z;
  MuxIdleTimeout : Z
}.

Definition or_default (s d : string) : string := if String.eqb s "" then d else s.
Definition or_positive (z d : Z) : Z := if z <=? 0 then d else z.

(** The authenticator of [NewAuthenticator("", "")]. *)
Definition open_auth : Authenticator := mkAuthenticator ∅ ∅ ∅ [] ∅ true.

(** control.go:82: the configuration of the server it builds. *)
Definition New (cfg : Config) : Config :=
  mkConfig (or_default (Domain cfg) "localhost") (or_default (ControlAddr cfg) ":7001")
    (or_default (ProxyAddr cfg) ":8080") (AskAddr cfg) (ControlTLSAddr cfg) (ControlTLS cfg)
    (PublicPort cfg) (or_default (PublicScheme cfg) "http")
    (or_positive (MaxRequestBody cfg) (Z.shiftl 32 20))
    (Some (default open_auth (Auth cfg))) (FA cfg) (EnrollPassword cfg)
    (or_positive (ResponseHeaderTimeout cfg) defaultResponseHeaderTimeout)
    (MuxPingInterval cfg) (MuxIdleTimeout cfg).

Definition auth_of (cfg : Config) : Authenticator := default open_auth (Auth cfg).

(** control.go:131. *)
Definition tlsEnabled (cfg : Config) : bool := ControlTLS cfg && negb (String.eqb (ControlTLSAddr cfg) "").

(** control.go:250. *)
Definition plural (n : Z) : string := if n =? 1 then "" else "s".

(** control.go:393. *)
Definition publicURL (cfg : Config) (sub : string) : string :=
  let host := if String.eqb sub "" then Domain cfg else sub +:+ "." +:+ Domain cfg in
  let port :=
    if String.eqb (PublicPort cfg) "" then
      match SplitHostPort (ProxyAddr cfg) with Some (_, p) => p | None => "" end
    else PublicPort cfg in
  let shown := (String.eqb (PublicScheme cfg) "http" && negb (String.eqb port "80") ||
                String.eqb (PublicScheme cfg) "https" && negb (String.eqb port "443")) &&
               negb (String.eqb port "") in
  PublicScheme cfg +:+ "://" +:+ (if shown then host +:+ ":" +:+ port else host).

Definition alphabet : string := "abcdefghijklmnopqrstuvwxyz0123456789".

Fixpoint random_chars (k : nat) (n : Z) : string :=
  match k with
  | O => ""
  | S k => String (default "a"%char (String.get (Z.to_nat (n mod 36)) alphabet)) (random_chars k (n / 36))
  end.

(** control.go:416, from the 32 random bits. *)
Definition randomSubdomain (n : Z) : string := random_chars 6 (u32 n).

(** ** The judgement of a hello (control.go:281-317) *)

Record admission := mkAdmission { ad_sub : string; ad_prot : bool; ad_tid : string }.

Inductive verdict :=
| VFail (e : error)                     (** no answer *)
| VReject (msg : error) (code : string) (** a refusing ack *)
| VAdmit (a : admission).

Section judge.
Context `{UnicodeLower, Hmac, JSON Claims}.

Definition no_provider : error :=
  errors_New "tunnel protection requested but server has no auth provider configured".

(** [clk k] is the time of the [k]-th look at the clock. *)
Definition judge (cfg : Config) (clk : nat -> Z) (overTLS : bool) (m : result Hello) : verdict :=
  let a := auth_of cfg in
  match m with
  | Err e => VFail (Wrapf "handshake: %w" e)
  | Ok hello =>
      let tok := h_Token hello in
      if negb (String.eqb (h_Type hello) TypeHello) then
        VFail (Errorf "handshake: expected hello, got %q" [h_Type hello])
      else if negb (h_Version hello =? ControlVersion) then
        VReject (Errorf "protocol version mismatch (server v%d, client v%d)"
                   [pretty ControlVersion; pretty (h_Version hello)]) ""
      else
        match Check a tok (clk 0%nat) with
        | Some e => VReject e ""
        | None =>
            let r := ReservedSubdomain a tok (clk 1%nat) in
            let sub := if negb (String.eqb r "") then r else NormalizeSubdomain (h_Subdomain hello) in
            match CheckSubdomain a tok sub (clk 2%nat) with
            | Some e => VReject e ""
            | None =>
                match CheckReserved a tok sub overTLS (clk 3%nat) with
                | Some e => VReject e (if is_tlsRequiredError e then CodeTLSRequired else "")
                | None =>
                    let protected := h_Protected hello || ProtectedByToken a tok (clk 4%nat) in
                    if protected && negb (FA cfg) then VReject no_provider ""
                    else VAdmit (mkAdmission sub protected (tokenID a tok (clk 5%nat)))
                end
            end
        end
  end.

(** ** A control connection *)

(** Where a registered connection stands. *)
Inductive stage :=
| SProtect   (** about to set [client.Protected] *)
| SEvict     (** about to close the session it took over *)
| SAck       (** about to write the ack *)
| SMark      (** ack written, [markReady] *)
| SRun       (** in [sess.Run] *)
| SDown      (** about to unregister after the run *)
| SFail      (** about to unregister after a failed ack *)
| SClose     (** about to close its session *)
| SReady     (** the deferred [markReady] *)
| SDone.

Inductive pc :=
| PHello
| PTry (a : admission) (left : nat)
| PHas (st : stage) (a : admission) (name : string) (c : cid) (evicted : option cid)
| PEnd (e : error).

(** A connection: the listener it came through, its peer, the outcome of reading
    its first message, and the acks it tried to write. Its session is known by
    the number of the connection. *)
Record conn := mkConn {
  k_tls : bool;
  k_remote : string;
  k_hello : result Hello;
  k_acks : list Ack;
  k_pc : pc
}.

Definition goto (p : pc) (k : conn) : conn := mkConn (k_tls k) (k_remote k) (k_hello k) (k_acks k) p.
Definition say (m : Ack) (k : conn) : conn :=
  mkConn (k_tls k) (k_remote k) (k_hello k) (k_acks k ++ [m]) (k_pc k).

Context `{ErrorText}.

(** control.go:387. *)
Definition rejectCode (msg : error) (code : string) (k : conn) : conn :=
  goto (PEnd (Wrapf "rejected: %s" msg)) (say (mkAck TypeAck false "" "" (error_text msg) code) k).

Definition could_not_allocate : error := errors_New "could not allocate a subdomain".

(** What the connections share: the registry, and the sessions that were closed
    with the error of the first close. *)
Record srv := mkSrv { s_reg : Registry; s_closed : list (sid * error) }.

Definition with_reg (r : Registry) (s : srv) : srv := mkSrv r (s_closed s).
Definition close_session (i : sid) (e : error) (s : srv) : srv := mkSrv (s_reg s) (s_closed s ++ [(i, e)]).

(** What the outside decides at a step. *)
Record env := mkEnv {
  e_clk : nat -> Z;          (** the clock *)
  e_stale : sid -> bool;     (** mux.Session.Stale *)
  e_rand : Z;                (** [rand.Read] *)
  e_ack : option error       (** writing the ack *)
}.

(** The handler of connection [i] (control.go:276): one step. *)
Definition step (cfg : Config) (v : env) (i : sid) (s : srv) (k : conn) : option (srv * conn) :=
  match k_pc k with
  | PHello =>
      Some (s, match judge cfg (e_clk v) (k_tls k) (k_hello k) with
               | VFail e => goto (PEnd e) k
               | VReject msg code => rejectCode msg code k
               | VAdmit a => goto (PTry a 100) k
               end)
  | PTry a O => Some (s, rejectCode could_not_allocate "" k)
  | PTry a (S n) =>
      let generated := String.eqb (ad_sub a) "" in
      let name := if generated then randomSubdomain (e_rand v) else ad_sub a in
      if generated && IsReserved (auth_of cfg) name then Some (s, goto (PTry a n) k)
      else
        match @Register (e_stale v) name i (k_remote k) (ad_tid a) (e_clk v 0%nat) (s_reg s) with
        | (r, Ok (c, evicted)) => Some (with_reg r s, goto (PHas SProtect a name c evicted) k)
        | (r, Err e) =>
            if bool_decide (e = Sentinel server_errSubdomainTaken) && generated
            then Some (with_reg r s, goto (PTry a n) k)
            else Some (with_reg r s, rejectCode e "" k)
        end
  | PHas st a name c ev =>
      let next st := PHas st a name c ev in
      match st with
      | SProtect => Some (with_reg (setProtected c (ad_prot a) (s_reg s)) s, goto (next SEvict) k)
      | SEvict =>
          let s' := match ev with
                    | Some e => match heap (s_reg s) !! e with
                                | Some x => close_session (Session x) errTakenOver s
                                | None => s
                                end
                    | None => s
                    end in
          Some (s', goto (next SAck) k)
      | SAck =>
          let k := say (mkAck TypeAck true name (publicURL cfg name) "" "") k in
          Some (s, goto (next (if e_ack v is Some _ then SFail else SMark)) k)
      | SMark => Some (with_reg (markReady c (s_reg s)) s, goto (next SRun) k)
      | SRun => Some (s, goto (next SDown) k)
      | SDown => Some (with_reg (Unregister c (s_reg s)) s, goto (next SReady) k)
      | SFail => Some (with_reg (Unregister c (s_reg s)) s, goto (next SClose) k)
      | SClose => Some (close_session i net_ErrClosed s, goto (next SReady) k)
      | SReady => Some (with_reg (markReady c (s_reg s)) s, goto (next SDone) k)
      | SDone => None
      end
  | PEnd _ => None
  end.

Inductive cstep (cfg : Config) : srv * list conn -> srv * list conn -> Prop :=
| cstep_conn v i s ks k s' k' :
    ks !! i = Some k -> step cfg v i s k = Some (s', k') -> cstep cfg (s, ks) (s', <[i := k']> ks)
| cstep_accept s ks tls remote hello :
    cstep cfg (s, ks) (s, ks ++ [mkConn tls remote hello [] PHello]).

Definition init : srv * list conn := (mkSrv NewRegistry [], []).

End judge.

Arguments env : clear implicits.

(** ** The invariant of the interleaved server *)

(** The stages in which the connection has not unregistered its client. *)
Definition holding (st : stage) : bool :=
  match st with SClose | SReady | SDone => false | _ => true end.

(** The stages before the session it took over is closed. *)
Definition evicting (st : stage) : bool :=
  match st with SProtect | SEvict => true | _ => false end.

Lemma lookup_ins {A} (l : list A) i x y j z :
  l !! i = Some x -> <[i := y]> l !! j = Some z <-> (i = j /\ z = y) \/ (i <> j /\ l !! j = Some z).
Proof.
  intros Hi. rewrite list_lookup_insert_Some. split.
  - intros [(-> & -> & _)|[Hne Hj]]; [by left|by right].
  - intros [[-> ->]|[Hne Hj]]; [left|by right]. split_and!; try done. by eapply lookup_lt_Some.
Qed.

Section invariant.
Context `{UnicodeLower, Hmac, JSON Claims, ErrorText}.
Variable cfg : Config.
Implicit Types (s : srv) (ks : list conn) (k : conn) (r : Registry).

Definition admitted_by k (a : admission) : Prop :=
  exists clk, judge cfg clk (k_tls k) (k_hello k) = VAdmit a.

(** The name an admitted connection may register. *)
Definition named (a : admission) (name : string) : Prop :=
  if String.eqb (ad_sub a) "" then
    (exists n, name = randomSubdomain n) /\ IsReserved (auth_of cfg) name = false
  else name = ad_sub a.

Definition conn_ok r (i : sid) k : Prop :=
  match k_pc k with
  | PHello | PEnd _ => True
  | PTry a _ => admitted_by k a
  | PHas st a name c ev =>
      admitted_by k a /\ named a name /\
      exists x, heap r !! c = Some x /\ Session x = i /\ Subdomain x = name /\ TokenID x = ad_tid a /\
        (if st is SProtect then ready x = false else Protected x = ad_prot a)
  end.

(** Connection [i]'s session was taken over: closed, or its taker is about to. *)
Definition losing s ks (i : sid) (name : string) (c : cid) : Prop :=
  (i, errTakenOver) ∈ s_closed s \/
  exists j k st a c', ks !! j = Some k /\ k_pc k = PHas st a name c' (Some c) /\ evicting st = true.

Record world_ok s ks : Prop := {
  w_reg : registry_ok (s_reg s);
  w_conn : forall i k, ks !! i = Some k -> conn_ok (s_reg s) i k;
  w_heap : forall c x, heap (s_reg s) !! c = Some x ->
    exists k st a name ev, ks !! Session x = Some k /\ k_pc k = PHas st a name c ev;
  w_held : forall name c, clients (s_reg s) !! name = Some c ->
    exists x k st a ev, heap (s_reg s) !! c = Some x /\ ks !! Session x = Some k /\
      k_pc k = PHas st a name c ev /\ holding st = true;
  w_lost : forall i k st a name c ev, ks !! i = Some k -> k_pc k = PHas st a name c ev ->
    holding st = true -> clients (s_reg s) !! name = Some c \/ losing s ks i name c
}.

Lemma conn_ok_frame r r' j k :
  (forall c x, heap r !! c = Some x -> Session x = j -> heap r' !! c = Some x) ->
  conn_ok r j k -> conn_ok r' j k.
Proof. unfold conn_ok. intros Hf. destruct (k_pc k); naive_solver. Qed.

(** A connection without a client moves to a point without a client. *)
Lemma ok_local s ks i k k' :
  world_ok s ks -> ks !! i = Some k ->
  (forall st a name c ev, k_pc k <> PHas st a name c ev) ->
  (forall st a name c ev, k_pc k' <> PHas st a name c ev) ->
  conn_ok (s_reg s) i k' -> world_ok s (<[i := k']> ks).
Proof.
  intros [Hr Hc Hh Hd Hl] Hi Hn Hn' Hk. split; [done|..].
  - intros j k0 [[-> ->]|[_ Hj]]%(lookup_ins _ _ _ _ _ _ Hi); auto.
  - intros c x Hx. destruct (Hh c x Hx) as (k0 & st & a & name & ev & Hj & Hp).
    exists k0, st, a, name, ev. split; [|done]. apply (lookup_ins _ _ _ _ _ _ Hi). right.
    split; [|done]. intros ->. simplify_eq. by apply Hn in Hp.
  - intros name c Hx. destruct (Hd name c Hx) as (x & k0 & st & a & ev & Hx' & Hj & Hp & Ho).
    exists x, k0, st, a, ev. split_and!; try done. apply (lookup_ins _ _ _ _ _ _ Hi). right.
    split; [|done]. intros ->. simplify_eq. by apply Hn in Hp.
  - intros j k0 st a name c ev [[-> ->]|[_ Hj]]%(lookup_ins _ _ _ _ _ _ Hi) Hp Ho;
      [by apply Hn' in Hp|].
    destruct (Hl _ _ _ _ _ _ _ Hj Hp Ho) as [?|[?|(j' & k1 & st' & a' & c' & Hj' & Hp' & He)]];
      [by left|by right; left|]. right; right. exists j', k1, st', a', c'. split; [|done].
    apply (lookup_ins _ _ _ _ _ _ Hi). right. split; [|done]. intros ->. simplify_eq. by apply Hn in Hp'.
Qed.

(** A connection registers its client. *)
Lemma ok_register s ks i k a n name rd now stale r' c ev :
  world_ok s ks -> ks !! i = Some k -> k_pc k = PTry a n -> named a name ->
  @Register stale name i rd (ad_tid a) now (s_reg s) = (r', Ok (c, ev)) ->
  world_ok (with_reg r' s) (<[i := goto (PHas SProtect a name c ev) k]> ks).
Proof.
  intros [Hr Hc Hh Hd Hl] Hi Hp Hn HR.
  pose proof (@Register_preserves stale name i rd (ad_tid a) now _ Hr) as Hr'. rewrite HR in Hr'.
  apply Register_ok in HR as (Hfresh & Hcl & Hhp & -> & Hm). split; simpl; [done|..].
  - intros j k0 [[-> ->]|[Hne Hj]]%(lookup_ins _ _ _ _ _ _ Hi).
    + pose proof (Hc _ _ Hi) as Hok. unfold conn_ok in *. rewrite Hp in Hok. simpl.
      split_and!; [exact Hok|done|]. eexists. rewrite Hhp, lookup_insert_eq. by split_and!.
    + eapply conn_ok_frame; [|by apply Hc]. intros c' x Hx _. rewrite Hhp.
      by rewrite lookup_insert_ne by congruence.
  - intros c' x. rewrite Hhp. intros [[<- <-]|[Hne Hx]]%lookup_insert_Some; simpl.
    + do 5 eexists. split; [apply (lookup_ins _ _ _ _ _ _ Hi); by left|done].
    + destruct (Hh _ _ Hx) as (k0 & st & a0 & name0 & ev0 & Hj & Hp0).
      exists k0, st, a0, name0, ev0. split; [|done]. apply (lookup_ins _ _ _ _ _ _ Hi). right.
      split; [|done]. intros Heq. congruence.
  - intros name' c'. rewrite Hcl, Hhp. intros [[<- <-]|[Hne Hx]]%lookup_insert_Some.
    + do 5 eexists. rewrite lookup_insert_eq. split; [done|].
      split; [apply (lookup_ins _ _ _ _ _ _ Hi); by left|done].
    + destruct (Hd _ _ Hx) as (x & k0 & st & a0 & ev0 & Hx' & Hj & Hp0 & Ho).
      exists x, k0, st, a0, ev0. rewrite lookup_insert_ne by congruence. split_and!; try done.
      apply (lookup_ins _ _ _ _ _ _ Hi). right. split; [|done].
      intros Heq. congruence.
  - intros j k0 st a0 name0 c0 ev0 [[-> ->]|[Hne Hj]]%(lookup_ins _ _ _ _ _ _ Hi) Hp0 Ho.
    + simpl in Hp0. simplify_eq. left. by rewrite Hcl, lookup_insert_eq.
    + destruct (Hl _ _ _ _ _ _ _ Hj Hp0 Ho) as [Hcur|[?|(j' & k1 & st' & a' & c' & Hj' & Hp' & He)]].
      * destruct (decide (name0 = name)) as [->|Hnn].
        -- right; right. do 5 eexists. split; [apply (lookup_ins _ _ _ _ _ _ Hi); by left|].
           simpl. by rewrite Hcur.
        -- left. by rewrite Hcl, lookup_insert_ne.
      * by right; left.
      * right; right. exists j', k1, st', a', c'. split; [|done]. apply (lookup_ins _ _ _ _ _ _ Hi).
        right. split; [|done]. congruence.
Qed.
(** A connection with a client moves to another stage of the same client. *)
Record stage_move s s' (i : sid) (a : admission) (name : string) (c : cid) (ev : option cid) (st st' : stage) : Prop := {
  m_clients : clients (s_reg s') = clients (s_reg s);
  m_others : forall d x, d <> c -> heap (s_reg s') !! d = Some x <-> heap (s_reg s) !! d = Some x;
  m_own : exists x, heap (s_reg s') !! c = Some x /\ Session x = i /\ Subdomain x = name /\
    TokenID x = ad_tid a /\ Protected x = ad_prot a;
  m_stage : st' <> SProtect;
  m_holding : holding st' = holding st;
  m_closed : forall p, p ∈ s_closed s -> p ∈ s_closed s';
  m_evict : evicting st = true -> evicting st' = true \/
    forall e x, ev = Some e -> heap (s_reg s) !! e = Some x -> (Session x, errTakenOver) ∈ s_closed s'
}.

Lemma ok_stage s s' ks i k k' a name c ev st st' :
  world_ok s ks -> ks !! i = Some k -> k_pc k = PHas st a name c ev ->
  k_pc k' = PHas st' a name c ev -> k_tls k' = k_tls k -> k_hello k' = k_hello k ->
  stage_move s s' i a name c ev st st' -> world_ok s' (<[i := k']> ks).
Proof.
  intros [Hr Hc Hh Hd Hl] Hi Hp Hp' Htls Hhello [Mc Mo (x' & Hx' & HS & Hsub & Ht & Hprot) Ms Mh Mcl Me].
  pose proof (Hc _ _ Hi) as Hok. unfold conn_ok in Hok. rewrite Hp in Hok.
  destruct Hok as (Had & Hn & x & Hx & Hxs & Hxn & _ & _). split.
  - intros name' d Hd'. rewrite Mc in Hd'. destruct (Hr _ _ Hd') as (y & Hy & Hyn).
    destruct (decide (d = c)) as [->|Hne]; [exists x'; naive_solver|].
    exists y. split; [by apply Mo|done].
  - intros j k0 [[-> ->]|[Hne Hj]]%(lookup_ins _ _ _ _ _ _ Hi).
    + unfold conn_ok, admitted_by. rewrite Hp', Htls, Hhello. split_and!; [done..|].
      exists x'. split_and!; try done. by destruct st'.
    + eapply conn_ok_frame; [|by apply Hc]. intros d y Hy Hyj. apply Mo; [|done]. naive_solver.
  - intros d y Hy. assert (exists y0, heap (s_reg s) !! d = Some y0 /\ Session y0 = Session y) as (y0 & Hy0 & <-).
    { destruct (decide (d = c)) as [->|Hne]; [exists x; naive_solver|exists y; split; [by apply Mo|done]]. }
    destruct (Hh _ _ Hy0) as (k0 & st0 & a0 & name0 & ev0 & Hj & Hp0).
    destruct (decide (Session y0 = i)) as [Heq|Hne].
    + rewrite Heq in *. simplify_eq. exists k', st', a0, name0, ev0.
      split; [apply (lookup_ins _ _ _ _ _ _ Hi); by left|congruence].
    + exists k0, st0, a0, name0, ev0. split; [|done]. apply (lookup_ins _ _ _ _ _ _ Hi). right. naive_solver.
  - intros name' d Hd'. rewrite Mc in Hd'.
    destruct (Hd _ _ Hd') as (y & k0 & st0 & a0 & ev0 & Hy & Hj & Hp0 & Ho).
    destruct (decide (d = c)) as [->|Hne].
    + simplify_eq. exists x', k', st', a, ev. split_and!; try done; [|congruence..].
      apply (lookup_ins _ _ _ _ _ _ Hi). by left.
    + exists y, k0, st0, a0, ev0. split_and!; try done; [by apply Mo|].
      apply (lookup_ins _ _ _ _ _ _ Hi). right. split; [|done]. intros Heq. congruence.
  - assert (Hlose : forall j nm d, losing s ks j nm d -> (exists y, heap (s_reg s) !! d = Some y /\ Session y = j) ->
      losing s' (<[i := k']> ks) j nm d).
    { intros j nm d [?|(j' & k1 & st1 & a1 & c1 & Hj' & Hp1 & He)] (y & Hy & Hyj); [left; auto|].
      destruct (decide (i = j')) as [<-|Hne].
      - rewrite Hi in Hj'. injection Hj' as <-. rewrite Hp in Hp1. simplify_eq. destruct (Me He) as [He'|He'].
        + right. do 5 eexists. split; [apply (lookup_ins _ _ _ _ _ _ Hi); by left|]. split; [exact Hp'|done].
        + left. by apply (He' d).
      - right. do 5 eexists. split; [apply (lookup_ins _ _ _ _ _ _ Hi); right; by split|done]. }
    intros j k0 st0 a0 nm d ev0 [[-> ->]|[Hne Hj]]%(lookup_ins _ _ _ _ _ _ Hi) Hp0 Ho; rewrite Mc.
    + rewrite Hp' in Hp0. injection Hp0 as <- <- <- <- <-.
      destruct (Hl _ _ _ _ _ _ _ Hi Hp ltac:(congruence)) as [?|Hlo]; [by left|right].
      apply Hlose; eauto.
    + destruct (Hl _ _ _ _ _ _ _ Hj Hp0 Ho) as [?|Hlo]; [by left|right].
      apply Hlose; [done|]. pose proof (Hc _ _ Hj) as Hok0. unfold conn_ok in Hok0. rewrite Hp0 in Hok0.
      naive_solver.
Qed.

(** A connection unregisters its client. *)
Lemma ok_unregister s ks i k a name c ev st st' :
  world_ok s ks -> ks !! i = Some k -> k_pc k = PHas st a name c ev ->
  holding st = true -> evicting st = false -> holding st' = false -> st' <> SProtect ->
  world_ok (with_reg (Unregister c (s_reg s)) s) (<[i := goto (PHas st' a name c ev) k]> ks).
Proof.
  intros [Hr Hc Hh Hd Hl] Hi Hp Ho He Ho' Hst'.
  pose proof (Hc _ _ Hi) as Hok. unfold conn_ok in Hok. rewrite Hp in Hok.
  destruct Hok as (Had & Hn & x & Hx & Hxs & Hxn & Htid & Hpr).
  assert (Hkeep : forall nm d, clients (s_reg s) !! nm = Some d -> d <> c ->
    clients (Unregister c (s_reg s)) !! nm = Some d).
  { intros nm d Hnm Hdc. destruct (Unregister_clients c (s_reg s)) as [-> | (x0 & cur & y & Hx0 & Hcur & Hy & HS & ->)]; [done|].
    simplify_eq. destruct (decide (nm = Subdomain x)) as [->|Hne]; [|by rewrite lookup_delete_ne].
    simplify_eq. destruct (Hd _ _ Hnm) as (y0 & k0 & st0 & a0 & ev0 & Hy0 & Hj & Hp0 & _).
    simplify_eq. rewrite HS in Hj. simplify_eq. congruence. }
  assert (Hgone : forall nm d, clients (Unregister c (s_reg s)) !! nm = Some d ->
    d <> c /\ clients (s_reg s) !! nm = Some d).
  { intros nm d Hnm. assert (clients (s_reg s) !! nm = Some d) as Hnm'.
    { destruct (Unregister_clients c (s_reg s)) as [Heq | (x0 & cur & y & _ & _ & _ & _ & Heq)];
        rewrite Heq in Hnm; [done|by apply lookup_delete_Some in Hnm as [_ ?]]. }
    split; [|done]. intros ->. destruct (Hr _ _ Hnm') as (x0 & Hx0 & Hxnm). simplify_eq.
    unfold Unregister in Hnm. rewrite Hx, Hnm', Hx, decide_True in Hnm by done.
    rewrite notify_clients in Hnm. simpl in Hnm. by rewrite lookup_delete_eq in Hnm. }
  split; simpl.
  - by apply Unregister_preserves.
  - intros j k0 [[-> ->]|[Hne Hj]]%(lookup_ins _ _ _ _ _ _ Hi);
      (apply (conn_ok_frame (s_reg s)); [intros ? ?; by rewrite Unregister_heap|]); [|by apply Hc].
    unfold conn_ok. simpl. split_and!; [done..|]. exists x. split_and!; try done.
    destruct st, st'; simplify_eq/=; done.
  - intros d y. rewrite Unregister_heap. intros Hy.
    destruct (Hh _ _ Hy) as (k0 & st0 & a0 & name0 & ev0 & Hj & Hp0).
    destruct (decide (i = Session y)) as [Heq|Hne].
    + do 5 eexists. split; [apply (lookup_ins _ _ _ _ _ _ Hi); by left|].
      simpl. rewrite <-Heq in Hj. f_equal; congruence.
    + exists k0, st0, a0, name0, ev0. split; [|done]. apply (lookup_ins _ _ _ _ _ _ Hi). by right.
  - intros nm d [Hdc Hnm]%Hgone. rewrite Unregister_heap.
    destruct (Hd _ _ Hnm) as (y & k0 & st0 & a0 & ev0 & Hy & Hj & Hp0 & Ho0).
    exists y, k0, st0, a0, ev0. split_and!; try done. apply (lookup_ins _ _ _ _ _ _ Hi). right.
    split; [|done]. intros Heq. congruence.
  - intros j k0 st0 a0 nm d ev0 [[-> ->]|[Hne Hj]]%(lookup_ins _ _ _ _ _ _ Hi) Hp0 Ho0;
      [simpl in Hp0; congruence|].
    pose proof (Hc _ _ Hj) as Hok0. unfold conn_ok in Hok0. rewrite Hp0 in Hok0.
    destruct (Hl _ _ _ _ _ _ _ Hj Hp0 Ho0) as [Hnm|[?|(j' & k1 & st1 & a1 & c1 & Hj' & Hp1 & He1)]].
    + left. apply Hkeep; [done|]. intros ->. naive_solver.
    + by right; left.
    + right; right. exists j', k1, st1, a1, c1. split; [|done]. apply (lookup_ins _ _ _ _ _ _ Hi).
      right. split; [|done]. intros Heq. congruence.
Qed.
Lemma judge_admitted k clk a : judge cfg clk (k_tls k) (k_hello k) = VAdmit a -> admitted_by k a.
Proof. by exists clk. Qed.

Lemma set_client_move s i a name c ev st st' f :
  (forall x, Session (f x) = Session x /\ Subdomain (f x) = Subdomain x /\ TokenID (f x) = TokenID x) ->
  (exists x, heap (s_reg s) !! c = Some x /\ Session x = i /\ Subdomain x = name /\ TokenID x = ad_tid a /\
    Protected (f x) = ad_prot a) ->
  st' <> SProtect -> holding st' = holding st -> (evicting st = true -> evicting st' = true) ->
  stage_move s (with_reg (set_client c f (s_reg s)) s) i a name c ev st st'.
Proof.
  intros Hf (x & Hx & Hi & Hn & Ht & Hp) Hst Hh He. split; simpl; try done; [| |by left; auto].
  - intros d y Hd. by rewrite lookup_alter_ne.
  - exists (f x). rewrite lookup_alter_eq, Hx. destruct (Hf x) as (-> & -> & ->). by split_and!.
Qed.

Lemma same_reg_move s s' i a name c ev st st' :
  s_reg s' = s_reg s ->
  (exists x, heap (s_reg s) !! c = Some x /\ Session x = i /\ Subdomain x = name /\ TokenID x = ad_tid a /\
    Protected x = ad_prot a) ->
  st' <> SProtect -> holding st' = holding st -> (forall p, p ∈ s_closed s -> p ∈ s_closed s') ->
  (evicting st = true -> evicting st' = true \/
    forall e x, ev = Some e -> heap (s_reg s) !! e = Some x -> (Session x, errTakenOver) ∈ s_closed s') ->
  stage_move s s' i a name c ev st st'.
Proof. intros Hs Hx Hst Hh Hcl He. split; rewrite ?Hs; try done. Qed.

Lemma conn_step_ok v s ks i k s' k' :
  world_ok s ks -> ks !! i = Some k -> step cfg v i s k = Some (s', k') -> world_ok s' (<[i := k']> ks).
Proof.
  intros Hw Hi Hs. pose proof (w_conn _ _ Hw _ _ Hi) as Hok.
  unfold step in Hs. destruct (k_pc k) as [|a [|n]|st a name c ev|] eqn:Hp; [..|done].
  - simplify_eq. destruct (judge _ _ _ _) as [e|msg code|a] eqn:Hj;
      (eapply ok_local; [done|exact Hi|congruence|done|]); [done..|]. by eapply judge_admitted.
  - simplify_eq. eapply ok_local; [done|exact Hi|congruence|done|done].
  - unfold conn_ok in Hok. rewrite Hp in Hok.
    set (name := if String.eqb (ad_sub a) "" then randomSubdomain (e_rand v) else ad_sub a) in *.
    destruct (String.eqb (ad_sub a) "" && IsReserved (auth_of cfg) name) eqn:Hres.
    { simplify_eq. by eapply ok_local; [done|exact Hi|congruence|done|]. }
    assert (named a name) as Hnamed.
    { unfold named, name in *. destruct (String.eqb (ad_sub a) ""); [|done]. simpl in Hres. eauto. }
    destruct (Register _ _ _ _ _ _) as [r' [[c ev]|e]] eqn:HR; simplify_eq.
    + by eapply ok_register.
    + apply Register_err in HR as (-> & -> & _). simpl in Hs.
      assert (with_reg (s_reg s) s = s) as Hsame by (by destruct s).
      destruct (String.eqb (ad_sub a) ""); simpl in Hs; simplify_eq; rewrite Hsame;
        (by eapply ok_local; [done|exact Hi|congruence|done|]).
  - unfold conn_ok in Hok. rewrite Hp in Hok. destruct Hok as (Had & Hn & x & Hx & Hxi & Hxn & Hxt & Hxp).
    destruct st; try discriminate Hs; injection Hs as <- <-;
      try (eapply ok_unregister; done);
      (eapply ok_stage; [done|exact Hi|exact Hp|reflexivity..|]);
      try (apply set_client_move; simpl; try done; exists x; by split_and!);
      apply same_reg_move; try done; try (exists x; by split_and!);
      try (simpl; intros p Hin; set_solver).
    + destruct ev as [e|]; [|done]. by destruct (heap (s_reg s) !! e).
    + destruct ev as [e|]; [|done]. destruct (heap (s_reg s) !! e); [|done]. simpl. set_solver.
    + intros _. right. intros e y -> Hy. rewrite Hy. simpl. set_solver.
    + by destruct (e_ack v).
    + by destruct (e_ack v).
Qed.

Lemma cstep_ok w w' : cstep cfg w w' -> world_ok (fst w) (snd w) -> world_ok (fst w') (snd w').
Proof.
  intros [v i s ks k s' k' Hi Hs|s ks tls remote hello] Hw; simpl in *; [by eapply conn_step_ok|].
  destruct Hw as [Hr Hc Hh Hd Hl]. split; [done|..].
  - intros i k [Hi|[Hge Hi]]%lookup_app_Some; [by apply Hc|]. by apply list_lookup_singleton_Some in Hi as [_ <-].
  - intros c x Hx. destruct (Hh c x Hx) as (k & st & a & name & ev & Hk & Hp).
    exists k, st, a, name, ev. split; [by apply lookup_app_l_Some|done].
  - intros name c Hx. destruct (Hd name c Hx) as (x & k & st & a & ev & Hx' & Hk & Hp & Ho).
    exists x, k, st, a, ev. split_and!; try done. by apply lookup_app_l_Some.
  - intros i k st a name c ev [Hi|[Hge Hi]]%lookup_app_Some Hp Ho;
      [|by apply list_lookup_singleton_Some in Hi as [_ <-]].
    destruct (Hl _ _ _ _ _ _ _ Hi Hp Ho) as [?|[?|(j & k' & st' & a' & c' & Hj & Hp' & He)]];
      [by left|by right; left|]. right; right. exists j, k', st', a', c'.
    split; [by apply lookup_app_l_Some|done].
Qed.

Lemma reachable_ok w : rtc (cstep cfg) init w -> world_ok (fst w) (snd w).
Proof.
  apply (rtc_ind_r (fun w => world_ok (fst w) (snd w))).
  - by split.
  - intros y z _ Hs. by apply cstep_ok.
Qed.
(** ** What an admission means *)

Lemma judge_admits clk tls m a :
  judge cfg clk tls m = VAdmit a ->
  exists hello, m = Ok hello /\
    Check (auth_of cfg) (h_Token hello) (clk 0%nat) = None /\
    CheckSubdomain (auth_of cfg) (h_Token hello) (ad_sub a) (clk 2%nat) = None /\
    CheckReserved (auth_of cfg) (h_Token hello) (ad_sub a) tls (clk 3%nat) = None /\
    ad_prot a = h_Protected hello || ProtectedByToken (auth_of cfg) (h_Token hello) (clk 4%nat) /\
    (ad_prot a = true -> FA cfg = true) /\
    ad_tid a = tokenID (auth_of cfg) (h_Token hello) (clk 5%nat) /\
    (isSigned (auth_of cfg) (h_Token hello) = false ->
     forall nm, reserved (auth_of cfg) !! h_Token hello = Some nm -> nm <> ""%string -> ad_sub a = nm).
Proof.
  unfold judge. destruct m as [hello|e]; [|done]. intros Hj. exists hello. split; [done|].
  destruct (negb (String.eqb (h_Type hello) TypeHello)); [done|].
  destruct (negb (h_Version hello =? ControlVersion)); [done|].
  destruct (Check _ _ _) eqn:E1; [done|].
  destruct (CheckSubdomain _ _ _ _) eqn:E2; [done|].
  destruct (CheckReserved _ _ _ _ _) eqn:E3; [done|].
  set (p := h_Protected hello || _) in *. destruct (p && negb (FA cfg)) eqn:Hp; [done|].
  injection Hj as <-. simpl. split_and!; try done.
  - intros ->. by apply negb_false_iff in Hp.
  - intros Hs nm Hr Hne. unfold ReservedSubdomain. rewrite Hs, Hr. simpl.
    by rewrite (proj2 (String.eqb_neq _ _)).
Qed.

Lemma alphabet_alnum n :
  0 <= n < 36 -> alnum (default "a"%char (String.get (Z.to_nat n) alphabet)) = true.
Proof.
  intros Hn.
  assert (forallb (fun n => alnum (default "a"%char (String.get (Z.to_nat n) alphabet))) (seqZ 0 36) = true)
    as Hall by (vm_compute; reflexivity).
  rewrite forallb_forall in Hall. apply Hall, list_elem_of_In, elem_of_seqZ. lia.
Qed.

Lemma random_chars_ok len n :
  sall alnum (random_chars len n) = true /\ String.length (random_chars len n) = len.
Proof.
  revert n. induction len as [|len IH]; intros n; [done|]. cbn [random_chars sall String.length].
  destruct (IH (n / 36)) as [-> ->]. rewrite alphabet_alnum; [done|]. apply Z.mod_pos_bound. lia.
Qed.

Lemma randomSubdomain_valid n : ValidSubdomain (randomSubdomain n) = true.
Proof.
  unfold randomSubdomain. destruct (random_chars_ok 6 (u32 n)) as [Ha Hl].
  apply ValidSubdomain_spec. destruct (random_chars 6 (u32 n)) as [|c t]; [done|].
  cbn [sall] in Ha. apply andb_true_iff in Ha as [Hc Ht].
  exists c, t. split; [done|]. split; [done|]. split; [|cbn [String.length] in *; lia].
  eapply sall_impl; [|exact Ht]. intros d Hd. unfold alnum_hyphen. by rewrite Hd.
Qed.

(** The connection that holds a name, and what it was admitted with. *)
Lemma holder s ks name x :
  world_ok s ks -> Get name (s_reg s) = Some x ->
  exists k st a c ev, ks !! Session x = Some k /\ k_pc k = PHas st a name c ev /\ holding st = true /\
    admitted_by k a /\ named a name /\ Subdomain x = name /\ TokenID x = ad_tid a /\
    (ready x = true -> Protected x = ad_prot a).
Proof.
  intros Hw Hg. apply bind_Some in Hg as (c & Hc & Hx).
  destruct (w_held _ _ Hw _ _ Hc) as (y & k & st & a & ev & Hy & Hk & Hp & Ho). simplify_eq.
  exists k, st, a, c, ev. pose proof (w_conn _ _ Hw _ _ Hk) as Hok. unfold conn_ok in Hok.
  rewrite Hp in Hok. destruct Hok as (Had & Hn & x' & Hx' & _ & Hs & Ht & Hpr). simplify_eq.
  split_and!; try done. destruct st; congruence.
Qed.

(** ** Properties *)

(** C8: However control connections interleave, a name reserved for signed
    tokens is only ever held by a connection that came through the TLS listener
    and presented an authentic, unexpired and unrevoked token listed for it. *)
Theorem reserved_names_safe s ks name x ids :
  rtc (cstep cfg) init (s, ks) ->
  Get name (s_reg s) = Some x -> reservedNames (auth_of cfg) !! name = Some ids ->
  exists k hello now c, ks !! Session x = Some k /\ k_tls k = true /\ k_hello k = Ok hello /\
    good_token (auth_of cfg) (h_Token hello) now c /\ c_ID c ∈ ids.
Proof.
  intros Hr Hg Hids. apply reachable_ok in Hr. simpl in Hr.
  destruct (holder _ _ _ _ Hr Hg) as (k & st & a & c & ev & Hk & Hp & Ho & [clk Hj] & Hn & _).
  assert (ad_sub a = name) as Hsub.
  { unfold named in Hn. destruct (String.eqb (ad_sub a) ""); [|done]. destruct Hn as [_ Hf].
    unfold IsReserved in Hf. rewrite Hids in Hf. by rewrite bool_decide_eq_true_2 in Hf. }
  apply judge_admits in Hj as (hello & Hh & _ & _ & Hres & _). rewrite Hsub in Hres.
  destruct (CheckReserved_passes _ _ _ _ _ _ Hres Hids) as (Ht & Hin & Hne).
  destruct (proj1 (tokenID_spec _ _ _ _ Hne) eq_refl) as (cl & Hg' & Heq).
  exists k, hello, (clk 3%nat), cl. rewrite Heq. by split_and!.
Qed.

(** C15: A client the proxy can see as ready has its protection decided: it is
    protected when its hello asked for it, and only if the server has an
    authentication provider. *)
Theorem ready_implies_protection_decided s ks name x :
  rtc (cstep cfg) init (s, ks) ->
  Get name (s_reg s) = Some x -> ready x = true ->
  exists k hello now, ks !! Session x = Some k /\ k_hello k = Ok hello /\
    Protected x = h_Protected hello || ProtectedByToken (auth_of cfg) (h_Token hello) now /\
    (Protected x = true -> FA cfg = true).
Proof.
  intros Hr Hg Hready. apply reachable_ok in Hr. simpl in Hr.
  destruct (holder _ _ _ _ Hr Hg) as (k & st & a & c & ev & Hk & Hp & Ho & [clk Hj] & _ & _ & _ & Hprot).
  apply judge_admits in Hj as (hello & Hh & _ & _ & _ & Hpr & HFA & _).
  exists k, hello, (clk 4%nat). rewrite (Hprot Hready). by rewrite <-Hpr.
Qed.

(** Every registered name is a valid subdomain or the name claimed by its
    holder's own signed token. *)
Theorem registered_names_valid s ks name x :
  rtc (cstep cfg) init (s, ks) -> auth_ok (auth_of cfg) -> Get name (s_reg s) = Some x ->
  ValidSubdomain name = true \/
  exists k hello now c, ks !! Session x = Some k /\ k_hello k = Ok hello /\
    Parse (signing (auth_of cfg)) (h_Token hello) now = Ok c /\ c_Sub c = name.
Proof.
  intros Hr Hauth Hg. apply reachable_ok in Hr. simpl in Hr.
  destruct (holder _ _ _ _ Hr Hg) as (k & st & a & c & ev & Hk & Hp & Ho & [clk Hj] & Hn & _).
  apply judge_admits in Hj as (hello & Hh & _ & Hsub & _). unfold named in Hn.
  destruct (String.eqb_spec (ad_sub a) "") as [|Hne].
  - destruct Hn as [[n ->] _]. left. apply randomSubdomain_valid.
  - subst name. destruct (CheckSubdomain_passes _ _ _ _ Hsub) as
      [(cl & _ & Hpa & Hcl & _)|[(r & _ & Hres & [?|Heq])|[?|?]]]; try done; [right|left|by left].
    + exists k, hello, (clk 2%nat), cl. by split_and!.
    + destruct (ok_reserved _ Hauth _ _ Hres) as (_ & Hv & _). by rewrite Heq.
Qed.

(** C14: The registry follows the connections: a connection that has not
    unregistered holds its name, unless its session was taken over (it is closed
    with [errTakenOver], or its taker is about to close it); and when every
    connection has ended no name is left. *)
Theorem registry_tracks_connections s ks :
  rtc (cstep cfg) init (s, ks) ->
  (forall i k st a name c ev, ks !! i = Some k -> k_pc k = PHas st a name c ev -> holding st = true ->
     (exists x, Get name (s_reg s) = Some x /\ Session x = i) \/ losing s ks i name c) /\
  (Forall (fun k => match k_pc k with PHas SDone _ _ _ _ | PEnd _ => True | _ => False end) ks ->
   Count (s_reg s) = 0%nat).
Proof.
  intros Hr. apply reachable_ok in Hr. simpl in Hr. split.
  - intros i k st a name c ev Hi Hp Ho.
    destruct (w_lost _ _ Hr _ _ _ _ _ _ _ Hi Hp Ho) as [Hc|Hl]; [left|by right].
    pose proof (w_conn _ _ Hr _ _ Hi) as Hok. unfold conn_ok in Hok. rewrite Hp in Hok.
    destruct Hok as (_ & _ & x & Hx & Hxi & _). exists x. unfold Get. rewrite Hc. by split.
  - intros Hall. unfold Count. apply map_size_empty_iff, map_empty. intros name.
    destruct (clients (s_reg s) !! name) as [c|] eqn:Hc; [exfalso|done].
    destruct (w_held _ _ Hr _ _ Hc) as (x & k & st & a & ev & _ & Hk & Hp & Ho).
    rewrite Forall_lookup in Hall. specialize (Hall _ _ Hk). rewrite Hp in Hall. by destruct st.
Qed.

End invariant.

(** ** Samples *)

(** A schedule: which connection moves and what the outside decides, or a new
    connection. *)
Inductive sched := Move (i : nat) (v : env) | Accept (tls : bool) (remote : string) (hello : result Hello).

Section exec.
Context `{UnicodeLower, Hmac, JSON Claims, ErrorText}.

Fixpoint exec (cfg : Config) (l : list sched) (w : srv * list conn) : option (srv * list conn) :=
  match l with
  | [] => Some w
  | Accept tls remote hello :: l => exec cfg l (fst w, snd w ++ [mkConn tls remote hello [] PHello])
  | Move i v :: l =>
      match snd w !! i with
      | Some k => match step cfg v i (fst w) k with
                  | Some (s', k') => exec cfg l (s', <[i := k']> (snd w))
                  | None => None
                  end
      | None => None
      end
  end.

Lemma exec_cstep cfg l w w' : exec cfg l w = Some w' -> rtc (cstep cfg) w w'.
Proof.
  revert w. induction l as [|[i v|tls remote hello] l IH]; intros [s ks]; simpl.
  - by intros [= ->].
  - destruct (ks !! i) as [k|] eqn:Hi; [|done].
    destruct (step cfg v i s k) as [[s' k']|] eqn:Hs; [|done].
    intros He. eapply rtc_l; [by eapply cstep_conn|by apply IH].
  - intros He. eapply rtc_l; [apply cstep_accept|by apply IH].
Qed.
End exec.

#[local] Instance sample_lower : UnicodeLower := id.
#[local] Instance sample_hmac : Hmac := fun key p => key ++ p.
#[local] Instance sample_json : JSON Claims := countable_json.
#[local] Instance sample_text : ErrorText := fun e => match e with Errorf f _ => f | _ => ""%string end.

Definition sample_auth : Authenticator :=
  mkAuthenticator ∅ ∅ {["hop"%string := {["tok_01"%string]}]} [Byte.x6b] ∅ false.
Definition sample_cfg : Config :=
  New (mkConfig "t.example" "" "" "" ":7002" true "443" "https" 0 (Some sample_auth) true "" 0 0 0).
Definition sample_token : string :=
  match MintWith [Byte.x6b] (mkMintOpts "" 0 true) (Ok [Byte.x01]) Second with Ok t => t | Err _ => "" end.
Definition sample_env : env := mkEnv (fun _ => Second) (fun _ => false) 7 None.
Definition sample_run : list sched :=
  Accept true "peer" (Ok (mkHello TypeHello 1 sample_token "Hop " false)) ::
  replicate 6 (Move 0 sample_env).
Definition sample_world : srv * list conn := default init (exec sample_cfg sample_run init).

Lemma sample_reachable : rtc (cstep sample_cfg) init (fst sample_world, snd sample_world).
Proof. apply (exec_cstep _ sample_run). vm_compute. reflexivity. Qed.

Definition sample_client : Client := mkClient "hop" 0 "peer" Second true "tok_01" true.

Lemma reserved_names_safe_witness :
  Get "hop" (s_reg (fst sample_world)) = Some sample_client /\
  exists k hello now c, snd sample_world !! 0%nat = Some k /\ k_tls k = true /\ k_hello k = Ok hello /\
    good_token (auth_of sample_cfg) (h_Token hello) now c /\ c_ID c ∈ ({["tok_01"%string]} : gset string).
Proof.
  assert (Hg : Get "hop" (s_reg (fst sample_world)) = Some sample_client) by (vm_compute; reflexivity).
  split; [exact Hg|].
  refine (reserved_names_safe sample_cfg (fst sample_world) (snd sample_world) "hop" sample_client _ sample_reachable Hg _).
  vm_compute. reflexivity.
Defined.

Lemma ready_implies_protection_decided_witness :
  ready sample_client = true /\ (Protected sample_client = true -> FA sample_cfg = true).
Proof.
  assert (Hg : Get "hop" (s_reg (fst sample_world)) = Some sample_client) by (vm_compute; reflexivity).
  split; [reflexivity|].
  destruct (ready_implies_protection_decided sample_cfg (fst sample_world) (snd sample_world) "hop" sample_client sample_reachable Hg eq_refl)
    as (k & hello & now & _ & _ & _ & HFA).
  exact HFA.
Defined.

Lemma sample_auth_ok : auth_ok (auth_of sample_cfg).
Proof.
  split; simpl.
  - intros tok sub. by rewrite lookup_empty.
  - intros name ids Hl. apply lookup_singleton_Some in Hl as [<- <-].
    split; [reflexivity|]. split; [set_solver|]. intros id ->%elem_of_singleton. by split.
  - done.
  - by split; [|intros [_ ?]].
Defined.

Lemma registered_names_valid_witness :
  auth_ok (auth_of sample_cfg) /\
  (ValidSubdomain "hop" = true \/
   exists k hello now c, snd sample_world !! 0%nat = Some k /\ k_hello k = Ok hello /\
     Parse (signing (auth_of sample_cfg)) (h_Token hello) now = Ok c /\ c_Sub c = "hop"%string).
Proof.
  split; [exact sample_auth_ok|].
  refine (registered_names_valid sample_cfg (fst sample_world) (snd sample_world) "hop" sample_client sample_reachable sample_auth_ok _).
  vm_compute. reflexivity.
Defined.

Lemma registry_tracks_connections_witness :
  exists k a, snd sample_world !! 0%nat = Some k /\ k_pc k = PHas SRun a "hop" 0%nat None /\
  ((exists x, Get "hop" (s_reg (fst sample_world)) = Some x /\ Session x = 0%nat) \/
   losing (fst sample_world) (snd sample_world) 0%nat "hop" 0%nat).
Proof.
  assert (E : exists k a, snd sample_world !! 0%nat = Some k /\ k_pc k = PHas SRun a "hop" 0%nat None)
    by (do 2 eexists; split; vm_compute; reflexivity).
  destruct E as (k & a & Hk & Hp). exists k, a. split; [exact Hk|]. split; [exact Hp|].
  exact (proj1 (registry_tracks_connections sample_cfg (fst sample_world) (snd sample_world) sample_reachable) _ _ _ _ _ _ _ Hk Hp eq_refl).
Defined.
