(* ===== verification/ForwardAuth.v ===== *)
(** * Forward authentication: internal/forwardauth/forwardauth.go

    The signed session cookie, the check of a protected request, and the login
    pages. The login provider is the interface [Provider]; [StubProvider]
    implements it. *)
From S2P Require Import Prelude GoStr Encoding Http GoHtml Pages.
From Stdlib Require Import Ascii.

Definition CookieName : string := "__munnel_sess".
Definition UserHeader : string := "X-Authenticated-User".
Definition GroupHeader : string := "X-Authenticated-Groups".
Definition prefix : string := "s1.".
Definition loginPath : string := "/__munnel/login".
Definition authPath : string := "/__munnel/auth".
Definition logoutPath : string := "/__munnel/logout".

Record Session := mkSession { User : string; Groups : list string; Exp : Z }.

#[export] Instance session_eq_dec : EqDecision Session.
Proof. solve_decision. Defined.
#[export] Instance session_countable : Countable Session.
Proof.
  refine (inj_countable' (fun s => (User s, Groups s, Exp s)) (fun '(u, g, e) => mkSession u g e) _).
  by intros [].
Defined.

(** The login interface. [RenderLogin] is the page it writes. *)
Record Provider := mkProvider {
  RenderLogin : Request -> string -> http_reply;
  Authenticate : Request -> result (string * list string)
}.

Record Manager := mkManager { key : list Byte.byte; provider : option Provider; ttl : Z }.

(** forwardauth.go:78. *)
Definition NewManager (k : list Byte.byte) (p : option Provider) (t : Z) : Manager := mkManager k p t.

(** forwardauth.go:84; [None] is a nil manager. *)
Definition Enabled (m : option Manager) : bool :=
  match m with Some m => if provider m is Some _ then true else false | None => false end.

Record cookie := mkCookie {
  ck_Name : string;
  ck_Value : string;
  ck_Path : string;
  ck_MaxAge : Z;
  ck_HttpOnly : bool;
  ck_Secure : bool;
  ck_SameSiteLax : bool
}.

(** What a handler answers; [Redirect] is the argument of [http.Redirect] (302). *)
Inductive reply :=
| Redirect (target : string)
| HttpError (msg : string) (status : Z)
| NotFound
| Page (p : http_reply).

Definition Unix (t : Z) : Z := t / 1000000000.
Definition b64 (b : list Byte.byte) : string := EncodeToString b.
Definition b64d (s : string) : result (list Byte.byte) := DecodeString s.

(** forwardauth.go:165. *)
Definition StripIdentityHeaders (r : Request) : Request :=
  with_header (h_Del (h_Del (q_Header r) UserHeader) GroupHeader) r.

(** The return target of forwardauth.go:125-128. *)
Definition return_target (returnTo : string) : string :=
  if String.eqb returnTo "" || negb (HasPrefix returnTo "/") then "/" else returnTo.

Section forwardauth.
Context `{Hmac, JSON Session}.
Implicit Types (m : Manager) (r : Request) (now : Z).

Definition hmacSum (k payload : list Byte.byte) : list Byte.byte := hmac_sha256 k payload.

(** forwardauth.go:170. *)
Definition signSession m (user : string) (groups : list string) now : result string :=
  let s := mkSession user groups (Unix (now + ttl m)) in
  match json_Marshal s with
  | Err e => Err e
  | Ok payload => Ok (prefix +:+ b64 payload +:+ "." +:+ b64 (hmacSum (key m) payload))
  end.

(** forwardauth.go:179. *)
Definition verifySession m (value : string) now : result Session :=
  match CutPrefix value prefix with
  | None => Err forwardauth_ErrInvalidSession
  | Some body =>
      match cut_byte "." body with
      | None => Err forwardauth_ErrInvalidSession
      | Some (p, s) =>
          match b64d p with
          | Err _ => Err forwardauth_ErrInvalidSession
          | Ok payload =>
              match b64d s with
              | Err _ => Err forwardauth_ErrInvalidSession
              | Ok sig =>
                  if negb (bool_decide (sig = hmacSum (key m) payload)) then Err forwardauth_ErrInvalidSession
                  else
                    match json_Unmarshal payload with
                    | Err _ => Err forwardauth_ErrInvalidSession
                    | Ok s => if Exp s <? Unix now then Err forwardauth_ErrExpiredSession else Ok s
                    end
              end
          end
      end
  end.

(** forwardauth.go:141: [val] is "" when signing fails. *)
Definition SetSessionCookie m r (user : string) (groups : list string) now : cookie :=
  mkCookie CookieName (match signSession m user groups now with Ok v => v | Err _ => "" end) "/"
    (ttl m `quot` 1000000000) true (q_TLS r) true.

(** forwardauth.go:155. *)
Definition ClearSessionCookie : cookie := mkCookie CookieName "" "/" (-1) true false true.

(** forwardauth.go:90: the request to proxy, or the redirect it wrote. *)
Definition Authorize m r now : Request + reply :=
  let login := inr (Redirect (loginPath +:+ "?return=" +:+ QueryEscape (q_RequestURI r))) in
  match Cookie r CookieName with
  | None => login
  | Some v =>
      match verifySession m v now with
      | Err _ => login
      | Ok s =>
          let h := h_Set (q_Header r) UserHeader (User s) in
          let h := if bool_decide (Groups s = []) then h else h_Set h GroupHeader (sjoin "," (Groups s)) in
          inl (with_header h r)
      end
  end.

(** forwardauth.go:109: the cookie that was set, and the answer. *)
Definition Handle m (p : Provider) r now : option cookie * reply :=
  if String.eqb (q_Path r) loginPath then (None, Page (RenderLogin p r (Query_Get r "return")))
  else if String.eqb (q_Path r) authPath then
    if negb (String.eqb (q_Method r) "POST") then (None, HttpError "method not allowed" 405)
    else
      match Authenticate p r with
      | Err _ => (None, HttpError "unauthorized" 401)
      | Ok (user, groups) =>
          (Some (SetSessionCookie m r user groups now), Redirect (return_target (FormValue r "return")))
      end
  else if String.eqb (q_Path r) logoutPath then (Some ClearSessionCookie, Redirect "/")
  else (None, NotFound).
End forwardauth.

(** forwardauth.go:230. *)
Definition loginFormTpl : string := raw
"<!DOCTYPE html><html lang=`en`><head>
<meta charset=`utf-8`><meta name=`viewport` content=`width=device-width,initial-scale=1`>
<title>munnel — sign in</title>
<style>
:root{color-scheme:dark}
body{margin:0;min-height:100vh;display:grid;place-items:center;background:#0e0c0d;color:#e8e6e3;font-family:ui-monospace,SFMono-Regular,Menlo,monospace}
.card{padding:2rem;max-width:24rem}
h1{font-size:1.2rem;font-weight:600;color:#c8b6ff;margin:.2rem 0 1rem}
input{font:inherit;padding:.4rem .5rem;background:#1c1917;color:#e8e6e3;border:1px solid #3a3531;border-radius:.3rem;width:100%%;box-sizing:border-box;margin:.3rem 0}
button{font:inherit;padding:.5rem 1rem;background:#c8b6ff;color:#0e0c0d;border:none;border-radius:.3rem;cursor:pointer;margin-top:.5rem}
.hint{color:#a09a92;font-size:.8rem;margin-top:1rem}
</style></head><body><form class=`card` method=`post` action=`%s`>
<h1>munnel access</h1>
<input name=`user` placeholder=`you@example.com` autofocus required>
<input type=`hidden` name=`return` value=`%s`>
<button type=`submit`>Sign in</button>
<div class=`hint`>stub auth — any user is accepted (dev/test only)</div>
</form></body></html>".

(** forwardauth.go:214. *)
Definition login_page (returnTo : string) : http_reply :=
  mkReply 200 html_type (Sprintf loginFormTpl [OpS (html_EscapeString authPath); OpS (html_EscapeString returnTo)]).

(** forwardauth.go:209: for development only, any name is accepted. *)
Definition StubProvider : Provider := {|
  RenderLogin _ returnTo := login_page returnTo;
  Authenticate r :=
    match q_Form r with
    | Err e => Err e
    | Ok f =>
        let user := TrimSpace (f "user"%string) in
        if String.eqb user "" then Err (errors_New "no user submitted") else Ok (user, [])
    end
|}.

(** ** Lemmas *)

(** Nothing of the return target becomes markup. *)
Lemma login_page_markup returnTo : markup (hr_Body (login_page returnTo)) = markup loginFormTpl.
Proof.
  unfold login_page. cbn [hr_Body]. apply markup_Sprintf; [vm_compute; reflexivity|].
  repeat constructor; by apply markup_escape.
Qed.

Section lemmas.
Context `{Hmac, JSON Session}.

(** A cookie that carries the manager's signature of a session. *)
Definition genuine (m : Manager) (value : string) (s : Session) : Prop :=
  exists p sg payload,
    value = prefix +:+ p +:+ String "." sg /\ selem "." p = false /\
    b64d p = Ok payload /\ b64d sg = Ok (hmacSum (key m) payload) /\ json_Unmarshal payload = Ok s.

Lemma verifySession_genuine m value now s :
  verifySession m value now = Ok s <-> genuine m value s /\ Unix now <= Exp s.
Proof.
  unfold verifySession, genuine. split.
  - destruct (CutPrefix value prefix) as [body|] eqn:Hb; [|done]. apply CutPrefix_spec in Hb.
    destruct (cut_byte "." body) as [[p sg]|] eqn:Hc; [|done]. apply cut_byte_spec in Hc as [-> Hd].
    destruct (b64d p) as [payload|] eqn:Hp; [|done]. destruct (b64d sg) as [sig|] eqn:Hsg; [|done].
    case_bool_decide as Heq; [|done]. simpl.
    destruct (json_Unmarshal payload) as [s'|] eqn:Hj; [|done].
    destruct (Z.ltb_spec (Exp s') (Unix now)); [done|]. intros [= <-].
    split; [|done]. exists p, sg, payload. by subst.
  - intros [(p & sg & payload & -> & Hd & Hp & Hsg & Hj) He].
    rewrite CutPrefix_app, cut_byte_app, Hp, Hsg, bool_decide_eq_true_2 by done. simpl.
    by rewrite Hj, (proj2 (Z.ltb_ge _ _)) by done.
Qed.

Lemma genuine_expired m value now s :
  genuine m value s -> Exp s < Unix now -> verifySession m value now = Err forwardauth_ErrExpiredSession.
Proof.
  unfold verifySession. intros (p & sg & payload & -> & Hd & Hp & Hsg & Hj) He.
  rewrite CutPrefix_app, cut_byte_app, Hp, Hsg, bool_decide_eq_true_2 by done. simpl.
  by rewrite Hj, (proj2 (Z.ltb_lt _ _)) by done.
Qed.

Lemma signSession_genuine valid (HL : JSONLaws Session valid) m user groups now :
  let s := mkSession user groups (Unix (now + ttl m)) in
  valid s -> exists v, signSession m user groups now = Ok v /\ genuine m v s.
Proof.
  intros s Hv. destruct (json_roundtrip s Hv) as (payload & Hm & Hu & _).
  unfold signSession. change (json_Marshal _) with (json_Marshal s). rewrite Hm.
  eexists. split; [done|]. exists (b64 payload), (b64 (hmacSum (key m) payload)), payload.
  split_and!; try done; [apply EncodeToString_no_dot|apply DecodeString_EncodeToString..].
Qed.

(** What an authorised request carries. *)
Lemma authorize_identity m r now :
  match Authorize m (StripIdentityHeaders r) now with
  | inl r' =>
      exists v s, Cookie r CookieName = Some v /\ verifySession m v now = Ok s /\
        h_values (q_Header r') UserHeader = [User s] /\
        h_values (q_Header r') GroupHeader = (if bool_decide (Groups s = []) then [] else [sjoin "," (Groups s)]) /\
        (forall k, k <> UserHeader -> k <> GroupHeader -> h_values (q_Header r') k = h_values (q_Header r) k)
  | inr a =>
      a = Redirect (loginPath +:+ "?return=" +:+ QueryEscape (q_RequestURI r)) /\
      (forall v s, Cookie r CookieName = Some v -> verifySession m v now <> Ok s)
  end.
Proof.
  unfold Authorize. change (Cookie (StripIdentityHeaders r) CookieName) with (Cookie r CookieName).
  destruct (Cookie r CookieName) as [v|]; [|split; [done|naive_solver]].
  destruct (verifySession m v now) as [s|e] eqn:Hv;
    [|split; [done|]; intros v0 s0 [= <-]; by rewrite Hv].
  exists v, s. split_and!; [done..| | |].
  - case_bool_decide; simpl; [|rewrite h_Set_values by done]; apply h_Set_same.
  - case_bool_decide; simpl; [|apply h_Set_same].
    rewrite h_Set_values by done. by rewrite h_Del_values.
  - intros k Hu Hg.
    assert (forall h, h_values (h_Del (h_Del h UserHeader) GroupHeader) k = h_values h k) as Hd.
    { intros h. rewrite !h_Del_values. by rewrite !(proj2 (String.eqb_neq _ _)) by congruence. }
    case_bool_decide; simpl; by rewrite !h_Set_values, Hd by done.
Qed.

(** ** Properties *)

(** C25: A session cookie is accepted for its whole lifetime and refused as
    expired from one second after it; and only cookies that carry the signature
    of their session under the manager's key are ever accepted. *)
Theorem session_cookie valid (HL : JSONLaws Session valid) m user groups now :
  valid (mkSession user groups (Unix (now + ttl m))) ->
  (exists v, signSession m user groups now = Ok v /\
    (forall t, t <= now + ttl m ->
       verifySession m v t = Ok (mkSession user groups (Unix (now + ttl m)))) /\
    (forall t, now + ttl m + 1000000000 <= t ->
       verifySession m v t = Err forwardauth_ErrExpiredSession)) /\
  (forall v t s, verifySession m v t = Ok s <-> genuine m v s /\ Unix t <= Exp s).
Proof.
  intros Hv. split; [|intros; apply verifySession_genuine].
  destruct (signSession_genuine valid HL m user groups now Hv) as (v & Hs & Hg).
  exists v. split_and!; [done| |].
  - intros t Ht. apply verifySession_genuine. split; [done|]. unfold Unix. simpl.
    apply Z.div_le_mono; lia.
  - intros t Ht. eapply genuine_expired; [done|]. unfold Unix. simpl. Z.div_mod_to_equations. lia.
Qed.

(** The identity headers of a request that is let through are those of the
    verified session and nothing the viewer sent: after the strip, an authorised
    request carries exactly the session's user and groups, every other header is
    unchanged, and without a valid session the request is redirected to the
    login page. *)
Theorem identity_not_spoofable m r now :
  match Authorize m (StripIdentityHeaders r) now with
  | inl r' =>
      exists v s, Cookie r CookieName = Some v /\ verifySession m v now = Ok s /\
        h_values (q_Header r') UserHeader = [User s] /\
        h_values (q_Header r') GroupHeader = (if bool_decide (Groups s = []) then [] else [sjoin "," (Groups s)]) /\
        (forall k, k <> UserHeader -> k <> GroupHeader -> h_values (q_Header r') k = h_values (q_Header r) k)
  | inr a =>
      a = Redirect (loginPath +:+ "?return=" +:+ QueryEscape (q_RequestURI r)) /\
      (forall v s, Cookie r CookieName = Some v -> verifySession m v now <> Ok s)
  end.
Proof. apply authorize_identity. Qed.

(** The login submit redirects to the path the form asks for whenever it
    starts with a slash: that includes a scheme-relative address, so a crafted
    login link sends the viewer to a foreign host. *)
Theorem login_open_redirect m p r now user groups host :
  q_Path r = authPath -> q_Method r = "POST" -> Authenticate p r = Ok (user, groups) ->
  FormValue r "return" = ("//" +:+ host)%string ->
  Handle m p r now = (Some (SetSessionCookie m r user groups now), Redirect ("//" +:+ host)).
Proof.
  intros Hp Hm Ha Hf. unfold Handle. rewrite Hp, Hm, Ha, Hf. done.
Qed.
End lemmas.

#[local] Instance sample_hmac : Hmac := fun key p => key ++ p.
#[local] Instance sample_json : JSON Session := countable_json.

Lemma session_cookie_witness :
  exists v, signSession (NewManager [Byte.x6b] None 1000000000) "ann" ["dev"] 0 = Ok v /\
    verifySession (NewManager [Byte.x6b] None 1000000000) v 5 = Ok (mkSession "ann" ["dev"] 1).
Proof.
  destruct (session_cookie _ countable_json_laws (NewManager [Byte.x6b] None 1000000000) "ann" ["dev"] 0 I)
    as ((v & Hs & Hv & _) & _).
  exists v. split; [exact Hs|]. apply (Hv 5). simpl. lia.
Defined.

Definition sample_form : Request :=
  mkRequest "POST" "a.t" authPath "/__munnel/auth" (fun _ => None)
    (Ok (fun k => if String.eqb k "user" then "ann" else if String.eqb k "return" then "//evil.example" else ""))%string
    [] [] 0 None "1.2.3.4:5" true.

Lemma login_open_redirect_witness :
  snd (Handle (NewManager [] None 0) StubProvider sample_form 0) = Redirect "//evil.example".
Proof.
  rewrite (login_open_redirect (NewManager [] None 0) StubProvider sample_form 0 "ann" [] "evil.example"
             eq_refl eq_refl eq_refl eq_refl).
  reflexivity.
Defined.
