(* ===== verification/Proxy.v ===== *)
(** * The public ingress: internal/server/proxy.go and ask.go

    Routing by host, the certificate check, self-service token issuance, the
    answers the server gives by itself, and the request and response that cross
    the tunnel. *)
From S2P Require Import Prelude GoStr GoFmt Encoding HttpRead HttpResponse Http GoHtml Pages Proto Token Auth Registry Control ForwardAuth.
From Stdlib Require Import Ascii.

(** ** Small functions *)

(** proxy.go:23. *)
Definition hopByHop : list string :=
  ["Connection"; "Proxy-Connection"; "Keep-Alive"; "Te"; "Trailer"; "Transfer-Encoding";
   "Upgrade"; "Proxy-Authenticate"; "Proxy-Authorization"].

Definition is_hop (k : string) : bool := existsb (String.eqb (CanonicalHeaderKey k)) hopByHop.

(** proxy.go:349. *)
Definition isUpgrade (r : Request) : bool :=
  EqualFold (h_Get (q_Header r) "Connection") "upgrade" || negb (String.eqb (h_Get (q_Header r) "Upgrade") "").

(** proxy.go:462. *)
Definition stripPort `{UnicodeLower} (hostport : string) : string :=
  match SplitHostPort hostport with
  | Some (host, _) => ToLower (TrimSuffix host ".")
  | None => ToLower (TrimSuffix hostport ".")
  end.

(** proxy.go:469. *)
Definition remoteIP (remote : string) : string :=
  match SplitHostPort remote with Some (ip, _) => ip | None => remote end.

(** proxy.go:479. *)
Definition isAddrHost (host proxyAddr : string) : bool :=
  if String.eqb host "localhost" || String.eqb host "127.0.0.1" || String.eqb host "::1" then true
  else match SplitHostPort proxyAddr with
       | None => false
       | Some (h, _) => let h := TrimPrefix h "[::]" in negb (String.eqb h "") && String.eqb h host
       end.

(** proxy.go:491. *)
Definition methodHasBody (m : string) : bool :=
  existsb (String.eqb m) ["POST"; "PUT"; "PATCH"; "DELETE"].

(** proxy.go:425. *)
Definition addCORSDebugHeaders (h : header) : header :=
  if String.eqb (h_Get h "Access-Control-Allow-Origin") "" then h else h_Add h "Vary" "Origin".

(** ** The certificate check (ask.go) *)

Definition www (cfg : Config) : string := "www." +:+ Domain cfg.
Definition dot_domain (cfg : Config) : string := "." +:+ Domain cfg.

(** ask.go:42. *)
Definition certAllowed (cfg : Config) (reg : Registry) (host : string) : bool :=
  if String.eqb host (Domain cfg) || String.eqb host (www cfg) then true
  else match CutSuffix host (dot_domain cfg) with
       | Some sub => ValidSubdomain sub && (if Get sub reg is Some _ then true else false)
       | None => false
       end.

(** ask.go:24: the status. *)
Definition handleAsk `{UnicodeLower} (cfg : Config) (reg : Registry) (r : Request) : Z :=
  if negb (String.eqb (q_Path r) "/check") then 404
  else if certAllowed cfg reg (ToLower (Query_Get r "domain")) then 200 else 403.

(** ** Self-service tokens (proxy.go:114-246) *)

Definition Hour : Z := 3600 * Second.
Definition defaultEnrollTTL : Z := 7 * 24 * Hour.
Definition maxEnrollTTL : Z := 30 * 24 * Hour.

Record tokenIssueRequest := mkIssueRequest { ti_Sub : string; ti_Password : string; ti_TTL : string }.

(** The reply: an error, or the token, its identifier, its name and its end. *)
Inductive issue_reply :=
| IssueError (status : Z) (msg : string)
| Issued (token id sub : string) (expires : Z).

(** [%q] of a valid subdomain. *)
Definition quoted (s : string) : string := String (ascii_of_N 34) (s +:+ String (ascii_of_N 34) "").

(** [net.ParseIP], when it is not nil. *)
Class ParseIP := parse_ip : string -> bool.

Section issue.
Context `{UnicodeLower, Hmac, JSON Claims, JSON tokenIssueRequest, ParseDuration}.

Definition issue_ttl (text : string) : option Z :=
  if String.eqb text "" then Some defaultEnrollTTL
  else match parse_duration text with
       | Err _ => None
       | Ok ttl => if ttl <=? 0 then None else Some ttl
       end.

(** proxy.go:139. *)
Definition handleTokenIssue (cfg : Config) (r : Request) (rnd : result (list Byte.byte)) (now now' : Z) : issue_reply :=
  let auth := auth_of cfg in
  if String.eqb (EnrollPassword cfg) "" then
    IssueError 404 "self-service token issuance is disabled on this server"
  else
    match read_limited (Z.shiftl 64 10) (default (""%string, None) (q_Body r)) with
    | Err _ => IssueError 400 "invalid request body (expected JSON: sub, password, ttl)"
    | Ok body =>
        match json_Unmarshal (bytes_of_string body) with
        | Err _ => IssueError 400 "invalid request body (expected JSON: sub, password, ttl)"
        | Ok req =>
            if negb (String.eqb (ti_Password req) (EnrollPassword cfg)) then
              IssueError 401 "invalid enrollment password"
            else
              let sub := NormalizeSubdomain (ti_Sub req) in
              if negb (String.eqb sub "") && negb (ValidSubdomain sub) then
                IssueError 400 "invalid subdomain (lowercase letters, digits, hyphens; ≤63 chars)"
              else if negb (String.eqb sub "") && IsReserved auth sub then
                IssueError 403 ("subdomain " +:+ quoted sub +:+ " is reserved; ask your operator")
              else
                match issue_ttl (ti_TTL req) with
                | None => IssueError 400 "invalid ttl (examples: 24h, 168h, 720h)"
                | Some ttl =>
                    let ttl := Z.min ttl maxEnrollTTL in
                    match MintFor auth (mkMintOpts sub ttl false) rnd now with
                    | Err _ => IssueError 500 "token issuance unavailable: signed tokens not enabled on this server"
                    | Ok tok => Issued tok (IDOf tok) sub (now' + ttl)
                    end
                end
        end
    end.
End issue.

(** ** Routing (proxy.go:56) *)

(** proxy.go:61: the health check. *)
Definition healthz (tunnels : nat) : http_reply :=
  mkReply 200 [("Content-Type", ["application/json"])]
    (Sprintf (raw "{`ok`:true,`tunnels`:%d}") [OpD (Z.of_nat tunnels)]).

(** proxy.go:433. *)
Definition serveLanding (cfg : Config) (r : Request) : http_reply :=
  if String.eqb (q_Path r) "/" then
    mkReply 200 (html_type ++ [("Cache-Control", ["no-store"])])
      (landingHTML (Domain cfg) (ControlAddr cfg) (PublicScheme cfg))
  else errorPage 404 "not found" "this is the munnel server landing endpoint".

Inductive route :=
| RAnswer (p : http_reply)              (** the server answers by itself *)
| RTokenIssue
| RForwardAuth                          (** the login pages *)
| RLogin (a : reply)                    (** [Authorize] wrote a redirect *)
| RProxy (c : Client) (r : Request).    (** the request that crosses the tunnel *)

Section serve.
Context `{UnicodeLower, Hmac, JSON ForwardAuth.Session, ParseIP, Quote}.

Definition offline (cfg : Config) (sub : string) : http_reply :=
  errorPage 502 "tunnel offline" ("no client is connected for " +:+ sub +:+ "." +:+ Domain cfg).

(** [fa] is the manager ([FA cfg] tells whether it is enabled), and
    [becomes_ready] the outcome of waiting for a client that is not ready. *)
Definition ServeHTTP (cfg : Config) (fa : option Manager) (reg : Registry) (becomes_ready : bool) (now : Z)
    (r : Request) : route :=
  let host := stripPort (q_Host r) in
  if String.eqb (q_Path r) "/healthz" then RAnswer (healthz (Count reg))
  else if String.eqb (q_Path r) "/__munnel/token" && String.eqb (q_Method r) "POST" then RTokenIssue
  else if String.eqb host "" || String.eqb host (Domain cfg) || String.eqb host (www cfg) ||
          parse_ip host || isAddrHost host (ProxyAddr cfg) then RAnswer (serveLanding cfg r)
  else
    match CutSuffix host (dot_domain cfg) with
    | None => RAnswer (errorPage 404 "unknown host" (go_quote host +:+ " is not a subdomain of " +:+ Domain cfg))
    | Some sub =>
        if negb (ValidSubdomain sub) then
          RAnswer (errorPage 404 "unknown host" (go_quote sub +:+ " is not a valid tunnel subdomain"))
        else
          match Get sub reg with
          | None => RAnswer (offline cfg sub)
          | Some c =>
              if negb (waitReady c becomes_ready) then RAnswer (offline cfg sub)
              else if Enabled fa && HasPrefix (q_Path r) "/__munnel/" then RForwardAuth
              else
                let r := StripIdentityHeaders r in
                match fa with
                | Some m =>
                    if Protected c && Enabled fa then
                      match Authorize m r now with
                      | inl r => RProxy c r
                      | inr a => RLogin a
                      end
                    else RProxy c r
                | None => RProxy c r
                end
          end
    end.
End serve.

(** ** The request that crosses the tunnel (proxy.go:199-266) *)

(** What [proxyTo] does before a stream is opened. *)
Inductive body_check := TooLarge | BadBody | BodyOk (body : string).

Definition read_body (cfg : Config) (r : Request) : body_check :=
  if MaxRequestBody cfg <? q_ContentLength r then TooLarge
  else match q_Body r with
       | None => BodyOk ""
       | Some b =>
           match read_limited (MaxRequestBody cfg + 1) b with
           | Err _ => BadBody
           | Ok body => if MaxRequestBody cfg <? zslen body then TooLarge else BodyOk body
           end
       end.

Definition crlf : string := String carriage_return (String newline "").
Definition line (s : string) : string := s +:+ crlf.
Definition field (k v : string) : string := line (k +:+ ": " +:+ v).

Definition header_lines (h : header) : list string :=
  h ≫= fun '(k, vs) => (fun v => field k v) <$> vs.

(** The headers a response or a framed request keeps. *)
Definition end_to_end (h : header) : header := List.filter (fun p => negb (is_hop (fst p))) h.

Definition forwarded (cfg : Config) (r : Request) : list string :=
  let xff := h_Get (q_Header r) "X-Forwarded-For" in
  [field "X-Forwarded-For" (if String.eqb xff "" then remoteIP (q_RemoteAddr r)
                            else xff +:+ ", " +:+ remoteIP (q_RemoteAddr r));
   field "X-Forwarded-Host" (q_Host r);
   field "X-Forwarded-Proto" (PublicScheme cfg)].

Definition request_line (r : Request) : string :=
  line (q_Method r +:+ " " +:+ q_RequestURI r +:+ " HTTP/1.1").

(** proxy.go:239: everything written to the stream. *)
Definition framed_request (cfg : Config) (r : Request) (body : string) : list string :=
  [request_line r; field "Host" (q_Host r)] ++
  header_lines (end_to_end (q_Header r)) ++
  forwarded cfg r ++
  (if (0 <? zslen body) || (0 <? q_ContentLength r) || methodHasBody (q_Method r)
   then [field "Content-Length" (pretty (zslen body))] else []) ++
  [crlf; body].

(** proxy.go:383: the upgrade request, replayed verbatim. *)
Definition upgrade_request (cfg : Config) (r : Request) : list string :=
  [request_line r; field "Host" (q_Host r)] ++ header_lines (q_Header r) ++ forwarded cfg r ++ [crlf].

(** ** The response (proxy.go:309-345) *)

Fixpoint add_values (h : header) (k : string) (vs : list string) : header :=
  match vs with [] => h | v :: vs => add_values (h_Add h k v) k vs end.

Definition copy_headers (dst src : header) : header :=
  foldl (fun h '(k, vs) => add_values h k vs) dst (end_to_end src).

(** [contentLen] is negative when the tunnel's response has none. *)
Definition response_headers (src : header) (contentLen : Z) : header :=
  let dst := copy_headers [] src in
  let dst := if 0 <=? contentLen then h_Set dst "Content-Length" (pretty contentLen) else dst in
  addCORSDebugHeaders dst.

(** The relay loop: the chunks read from the tunnel, the error that ended them,
    and how many writes the viewer accepts. What was written, whether each write
    was flushed, and whether the response was [complete] (else the deferred
    [Abort] resets the stream). *)
Fixpoint relay (accepts : nat) (chunks : list string) (rerr : error) : list string * bool :=
  match chunks with
  | [] => ([], bool_decide (rerr = Sentinel io_EOF))
  | c :: chunks =>
      match accepts with
      | O => ([], false)
      | S accepts => let '(out, complete) := relay accepts chunks rerr in (c :: out, complete)
      end
  end.

(** The reads of the body with the buffer of 64 KiB: how much each gives, of what
    is left, is up to the stream. *)
Fixpoint body_reads (fuel : nat) (sizes : list Z) (s : string) : list string :=
  match fuel with
  | O => []
  | S fuel =>
      if String.eqb s "" then []
      else
        let n := Z.to_nat (Z.max 1 (Z.min (64 * 1024) (default (64 * 1024) (head sizes)))) in
        String.substring 0 n s :: body_reads fuel (tail sizes) (sdrop n s)
  end.

(** How a proxied request ends (proxy.go:208-345): what is answered, and what
    becomes of the stream. *)
Record proxy_end := mkProxyEnd {
  pe_status : option Z;       (** the status answered, if any *)
  pe_header : header;
  pe_body : list string;      (** the writes of the body *)
  pe_opened : bool;           (** a stream was opened *)
  pe_closed : bool;           (** [CloseWrite] was called on it *)
  pe_aborted : bool;          (** [Abort] was called on it *)
  pe_complete : bool          (** the response was read to its end (or has no body) *)
}.

(** An error page, with the state of the stream. *)
Definition fails_with (opened closed aborted : bool) (status : Z) (title detail : string) : proxy_end :=
  let p := errorPage status title detail in
  mkProxyEnd (Some (hr_Status p)) (hr_Header p) [hr_Body p] opened closed aborted false.

Definition too_large (cfg : Config) : proxy_end :=
  fails_with false false false 413 "request too large"
    (Sprintf "request body exceeds the %d-byte limit" [OpD (MaxRequestBody cfg)]).

Section relaying.
Context `{OtherTrailer}.

(** The response, once it has been read (proxy.go:298-345): [accepts] writes are
    taken by the viewer. *)
Definition relay_response (r : Request) (accepts : nat) (sizes : list Z) (resp : incoming) : proxy_end :=
  let h := response_headers (in_Header resp) (in_ContentLength resp) in
  if String.eqb (q_Method r) "HEAD" then mkProxyEnd (Some (in_Code resp)) h [] true true false true
  else
    let '(data, rerr) := in_Body resp in
    let '(out, complete) := relay accepts (body_reads (String.length data) sizes data) rerr in
    mkProxyEnd (Some (in_Code resp)) h out true true (negb complete) complete.

(** [opened], [flushed] are the outcomes of opening the stream and sending the
    request, [timely] whether the headers came before the timer fired, [text] and
    [e] what the stream gives and how it ends, [gone] whether the viewer has
    left. *)
Definition proxy_framed (cfg : Config) (r : Request) (opened : result unit) (flushed : option error) (timely : bool)
    (text : string) (e : error) (gone : bool) (accepts : nat) (sizes : list Z) : proxy_end :=
  match read_body cfg r with
  | TooLarge => too_large cfg
  | BadBody => fails_with false false false 400 "bad request" "failed reading request body"
  | BodyOk _ =>
      match opened with
      | Err _ => fails_with false false false 502 "tunnel error" "could not open a stream to the client"
      | Ok _ =>
          match flushed with
          | Some _ => fails_with true false true 502 "tunnel error" "could not send the request through the tunnel"
          | None =>
              if negb timely then
                fails_with true true true 504 "tunnel timeout"
                  (Sprintf "the local service sent no response headers within %s"
                     [OpS (Duration_String (ResponseHeaderTimeout cfg))])
              else
                match ReadResponse text e (q_Method r) with
                | Err _ =>
                    if gone then mkProxyEnd None [] [] true true true false
                    else fails_with true true true 502 "tunnel error" "the tunnel client closed the stream without a response"
                | Ok resp => relay_response r accepts sizes resp
                end
          end
      end
  end.

End relaying.

(** proxy.go:360. What the upgrade path does: the status when the connection
    cannot be hijacked, what is written to the stream before the raw pipe (the
    request, then the octets already buffered, [prebuf]), whether a stream was
    opened, and whether [Close] was called on it. *)
Record ws_end := mkWsEnd {
  ws_status : option Z;
  ws_sent : list string;
  ws_opened : bool;
  ws_closed : bool;
  ws_piped : bool
}.

Definition proxyWebSocket (cfg : Config) (r : Request) (hijacker : bool) (hijacked opened : result unit)
    (flushed : option error) (prebuf : string) : ws_end :=
  if negb hijacker then mkWsEnd (Some 500) [] false false false
  else
    match hijacked with
    | Err _ => mkWsEnd None [] false false false
    | Ok _ =>
        match opened with
        | Err _ => mkWsEnd None [] false false false
        | Ok _ =>
            match flushed with
            | Some _ => mkWsEnd None [] true true false
            | None =>
                let rest := if String.eqb prebuf "" then [] else [prebuf] in
                mkWsEnd None (upgrade_request cfg r ++ rest) true true true
            end
        end
    end.

(** What the outside decides for one proxied request. *)
Record proxy_env := mkProxyEnv {
  pv_hijacker : bool;
  pv_hijacked : result unit;
  pv_prebuf : string;
  pv_opened : result unit;
  pv_flushed : option error;
  pv_timely : bool;
  pv_text : string;
  pv_end : error;
  pv_gone : bool;
  pv_accepts : nat;
  pv_sizes : list Z
}.

(** proxy.go:199. *)
Definition proxyTo `{OtherTrailer} (cfg : Config) (r : Request) (v : proxy_env) : ws_end + proxy_end :=
  if isUpgrade r then
    inl (proxyWebSocket cfg r (pv_hijacker v) (pv_hijacked v) (pv_opened v) (pv_flushed v) (pv_prebuf v))
  else
    inr (proxy_framed cfg r (pv_opened v) (pv_flushed v) (pv_timely v) (pv_text v) (pv_end v) (pv_gone v)
           (pv_accepts v) (pv_sizes v)).

(** ** Lemmas *)

Lemma read_limited_length n data err body :
  0 <= n -> read_limited n (data, err) = Ok body -> zslen body = Z.min n (zslen data).
Proof.
  intros Hn. unfold read_limited. destruct (Z.leb_spec n (zslen data)) as [Hle|Hgt].
  - intros [= <-]. assert (forall m s, (m <= String.length s)%nat -> String.length (String.substring 0 m s) = m) as Hs.
    { induction m as [|m IH]; intros s Hm; destruct s as [|c s]; simpl in *; try lia. rewrite IH; lia. }
    rewrite Hs by lia. lia.
  - destruct err; [done|]. intros [= <-]. lia.
Qed.

Lemma elem_of_header_lines h l :
  l ∈ header_lines h <-> exists k vs v, (k, vs) ∈ h /\ v ∈ vs /\ l = field k v.
Proof.
  unfold header_lines. rewrite list_elem_of_bind. split.
  - intros ([k vs] & Hl & Hin). apply list_elem_of_fmap in Hl as (v & -> & Hv). naive_solver.
  - intros (k & vs & v & Hin & Hv & ->). exists (k, vs). split; [|done].
    apply list_elem_of_fmap. eauto.
Qed.

Lemma elem_of_end_to_end h k vs : (k, vs) ∈ end_to_end h <-> (k, vs) ∈ h /\ is_hop k = false.
Proof.
  unfold end_to_end. rewrite !list_elem_of_In, filter_In. simpl. by rewrite negb_true_iff.
Qed.

(** ** Properties *)

(** A certificate is allowed exactly for the domain, its www alias, and the
    hosts of the tunnels that are live now. *)
Theorem certAllowed_exact cfg reg host :
  certAllowed cfg reg host = true <->
  host = Domain cfg \/ host = ("www." +:+ Domain cfg)%string \/
  exists sub c, host = (sub +:+ "." +:+ Domain cfg)%string /\ ValidSubdomain sub = true /\ Get sub reg = Some c.
Proof.
  unfold certAllowed, www, dot_domain.
  destruct (String.eqb_spec host (Domain cfg)) as [|H1]; [cbn [orb]; tauto|].
  destruct (String.eqb_spec host ("www." +:+ Domain cfg)) as [|H2]; [cbn [orb]; tauto|]. cbn [orb].
  destruct (CutSuffix host ("." +:+ Domain cfg)) as [sub|] eqn:Hc.
  - apply CutSuffix_spec in Hc. rewrite andb_true_iff. split.
    + intros [Hv Hg]. right; right. destruct (Get sub reg) as [c|] eqn:E; [|done]. by exists sub, c.
    + intros [?|[?|(sub' & c & Heq & Hv & Hg)]]; [done..|].
      assert (Some sub = Some sub') as [= ->].
      { rewrite <-(proj2 (CutSuffix_spec host _ sub) Hc). by apply CutSuffix_spec. }
      by rewrite Hv, Hg.
  - split; [done|]. intros [?|[?|(sub' & c & Heq & _)]]; [done..|].
    apply CutSuffix_spec in Heq. by rewrite Heq in Hc.
Qed.

(** C9: A request reaches a tunnel only if its host names that tunnel's
    subdomain and the tunnel is ready; a protected tunnel is reached only with a
    valid session whose identity the request then carries, and a request to any
    other tunnel carries no identity header at all. *)
Theorem protected_tunnels_guarded `{UnicodeLower, Hmac, JSON ForwardAuth.Session, ParseIP, Quote}
    cfg fa reg becomes_ready now r c r' :
  ServeHTTP cfg fa reg becomes_ready now r = RProxy c r' ->
  (exists sub, stripPort (q_Host r) = (sub +:+ "." +:+ Domain cfg)%string /\ ValidSubdomain sub = true /\
     Get sub reg = Some c) /\
  waitReady c becomes_ready = true /\
  (Enabled fa = true -> HasPrefix (q_Path r) "/__munnel/" = false) /\
  (if Protected c && Enabled fa then
     exists m v s, fa = Some m /\ Cookie r CookieName = Some v /\ verifySession m v now = Ok s /\
       h_values (q_Header r') UserHeader = [User s] /\
       h_values (q_Header r') GroupHeader = (if bool_decide (Groups s = []) then [] else [sjoin "," (Groups s)])
   else h_values (q_Header r') UserHeader = [] /\ h_values (q_Header r') GroupHeader = []).
Proof.
  unfold ServeHTTP, dot_domain.
  destruct (String.eqb (q_Path r) "/healthz"); [done|].
  destruct (String.eqb (q_Path r) "/__munnel/token" && _); [done|].
  destruct (_ || isAddrHost _ _); [done|].
  destruct (CutSuffix _ _) as [sub|] eqn:Hc; [|done]. apply CutSuffix_spec in Hc.
  destruct (ValidSubdomain sub) eqn:Hv; [|done]. simpl.
  destruct (Get sub reg) as [c'|] eqn:Hg; [|done].
  destruct (waitReady c' becomes_ready) eqn:Hw; [|done]. simpl.
  destruct (Enabled fa && HasPrefix (q_Path r) "/__munnel/") eqn:Hf; [done|]. intros Hr.
  assert (Hplain : forall r0, RProxy c' (StripIdentityHeaders r) = RProxy c r0 ->
    c' = c /\ h_values (q_Header r0) UserHeader = [] /\ h_values (q_Header r0) GroupHeader = []).
  { intros r0 [= -> <-]. simpl. rewrite !h_Del_values. done. }
  assert (c' = c /\ if Protected c' && Enabled fa then
     exists m v s, fa = Some m /\ Cookie r CookieName = Some v /\ verifySession m v now = Ok s /\
       h_values (q_Header r') UserHeader = [User s] /\
       h_values (q_Header r') GroupHeader = (if bool_decide (Groups s = []) then [] else [sjoin "," (Groups s)])
     else h_values (q_Header r') UserHeader = [] /\ h_values (q_Header r') GroupHeader = []) as [-> Hid].
  { destruct fa as [m|]; [|by rewrite andb_false_r; apply Hplain].
    destruct (Protected c' && Enabled (Some m)); [|by apply Hplain].
    pose proof (authorize_identity m r now) as Ha.
    destruct (Authorize m (StripIdentityHeaders r) now) as [r0|a]; [|done]. simplify_eq.
    destruct Ha as (v & s & ? & ? & ? & ? & _). split; [done|]. by exists m, v, s. }
  split; [by exists sub|]. split; [done|]. split; [|done].
  intros He. by rewrite He in Hf.
Qed.

(** A body that reaches a tunnel never exceeds the limit, whatever length
    the request announces; and a body within the limit, read without error and
    announced truthfully, is never refused. *)
Theorem body_bounded cfg r :
  0 < MaxRequestBody cfg ->
  match read_body cfg r with
  | BodyOk body => zslen body <= MaxRequestBody cfg
  | TooLarge => MaxRequestBody cfg < q_ContentLength r \/
      exists data err, q_Body r = Some (data, err) /\ MaxRequestBody cfg < zslen data
  | BadBody => exists data e, q_Body r = Some (data, Some e)
  end.
Proof.
  intros Hpos. unfold read_body. destruct (Z.ltb_spec (MaxRequestBody cfg) (q_ContentLength r)); [by left|].
  destruct (q_Body r) as [[data err]|]; [|simpl; lia].
  destruct (read_limited _ _) as [body|e] eqn:Hr.
  - apply read_limited_length in Hr; [|lia].
    destruct (Z.ltb_spec (MaxRequestBody cfg) (zslen body)); [right; exists data, err; split; [done|lia]|lia].
  - unfold read_limited in Hr. destruct (_ <=? _); [done|]. destruct err as [e'|]; [|done]. by exists data, e'.
Qed.

(** The request sent through the tunnel carries every end-to-end header of
    the viewer's request and no hop-by-hop one. *)
Theorem framed_headers_exact cfg r body l :
  l ∈ framed_request cfg r body <->
  l = request_line r \/ l = field "Host" (q_Host r) \/
  (exists k vs v, (k, vs) ∈ q_Header r /\ is_hop k = false /\ v ∈ vs /\ l = field k v) \/
  l ∈ forwarded cfg r \/
  ((0 < zslen body \/ 0 < q_ContentLength r \/ methodHasBody (q_Method r) = true) /\
   l = field "Content-Length" (pretty (zslen body))) \/
  l = crlf \/ l = body.
Proof.
  unfold framed_request. rewrite !elem_of_app, elem_of_header_lines.
  assert ((exists k vs v, (k, vs) ∈ end_to_end (q_Header r) /\ v ∈ vs /\ l = field k v) <->
          (exists k vs v, (k, vs) ∈ q_Header r /\ is_hop k = false /\ v ∈ vs /\ l = field k v)) as ->.
  { setoid_rewrite elem_of_end_to_end. naive_solver. }
  assert (l ∈ (if (0 <? zslen body) || (0 <? q_ContentLength r) || methodHasBody (q_Method r)
               then [field "Content-Length" (pretty (zslen body))] else []) <->
          (0 < zslen body \/ 0 < q_ContentLength r \/ methodHasBody (q_Method r) = true) /\
          l = field "Content-Length" (pretty (zslen body))) as ->.
  { rewrite <-(Z.ltb_lt 0 (zslen body)), <-(Z.ltb_lt 0 (q_ContentLength r)).
    destruct (0 <? zslen body), (0 <? q_ContentLength r), (methodHasBody (q_Method r)); simpl;
      rewrite ?list_elem_of_singleton, ?elem_of_nil; naive_solver. }
  rewrite !elem_of_cons, !elem_of_nil. tauto.
Qed.

Lemma relay_spec accepts chunks rerr :
  let '(out, complete) := relay accepts chunks rerr in
  out = take accepts chunks /\
  (complete = true <-> (length chunks <= accepts)%nat /\ rerr = Sentinel io_EOF).
Proof.
  revert accepts. induction chunks as [|c chunks IH]; intros [|accepts]; simpl;
    rewrite ?bool_decide_eq_true; [intuition lia..| |].
  - split; [done|]. split; [done|]. intros [? _]. lia.
  - specialize (IH accepts). destruct (relay accepts chunks rerr) as [out complete].
    destruct IH as [-> IH]. rewrite IH. split; [done|]. intuition lia.
Qed.

Lemma body_reads_all fuel sizes s : (String.length s <= fuel)%nat -> sconcat (body_reads fuel sizes s) = s.
Proof.
  revert sizes s. induction fuel as [|fuel IH]; intros sizes s Hs; [destruct s; [done|simpl in Hs; lia]|]. cbn [body_reads].
  destruct (String.eqb_spec s "") as [->|Hne]; [done|].
  match goal with |- context [Z.to_nat ?z] =>
    assert (0 < Z.to_nat z)%nat as Hn by lia; revert Hn; generalize (Z.to_nat z); intros n Hn end.
  cbn [sconcat foldr]. fold (sconcat (body_reads fuel (tail sizes) (sdrop n s))).
  destruct (sdrop_split n s) as [Hsplit Hlen].
  rewrite IH; [done|]. destruct s; [done|]. rewrite Hlen. cbn [String.length] in *. lia.
Qed.

Lemma body_reads_length fuel sizes s : (length (body_reads fuel sizes s) <= fuel)%nat.
Proof.
  revert sizes s. induction fuel as [|fuel IH]; intros sizes s; cbn [body_reads]; [done|].
  destruct (String.eqb s ""); cbn [length]; [lia|]. specialize (IH (tail sizes)). by apply le_n_S.
Qed.

(** What the relay gives the viewer of a body. *)
Lemma relayed_body accepts sizes data rerr :
  let '(out, complete) := relay accepts (body_reads (String.length data) sizes data) rerr in
  (exists rest, data = sconcat out +:+ rest) /\
  (complete = true -> sconcat out = data /\ rerr = Sentinel io_EOF).
Proof.
  pose proof (relay_spec accepts (body_reads (String.length data) sizes data) rerr) as Hr.
  destruct (relay _ _ _) as [out complete]. destruct Hr as [-> Hc].
  pose proof (body_reads_all (String.length data) sizes data (le_n _)) as Hall.
  set (reads := body_reads _ _ _) in *. split.
  - exists (sconcat (drop accepts reads)). by rewrite <-sconcat_app, take_drop.
  - intros [Hl He]%Hc. by rewrite take_ge.
Qed.

(** A viewer who takes everything. *)
Lemma relayed_whole accepts sizes data rerr :
  (String.length data <= accepts)%nat ->
  exists out, relay accepts (body_reads (String.length data) sizes data) rerr = (out, bool_decide (rerr = Sentinel io_EOF)) /\
    sconcat out = data.
Proof.
  intros Ha. pose proof (relay_spec accepts (body_reads (String.length data) sizes data) rerr) as Hr.
  pose proof (body_reads_length (String.length data) sizes data) as Hl.
  destruct (relay _ _ _) as [out complete]. destruct Hr as [-> Hc]. eexists. split.
  - f_equal. apply Bool.eq_iff_eq_true. rewrite Hc, bool_decide_eq_true. split; [by intros [_ ?]|]. split; [lia|done].
  - rewrite take_ge by lia. by apply body_reads_all.
Qed.

(** C27: No request leaves its stream behind: whatever fails, and whenever the
    viewer goes away, a stream that was opened ends up aborted, or closed with
    its response read to the end (a raw pipe closes it on both exits). The viewer
    of a framed request gets an answer unless he left first: the server's own
    page, or the response that was read on the stream, with its status, its
    end-to-end headers and a prefix of its body, which is all of it when the relay
    is complete. *)
Theorem streams_never_abandoned `{OtherTrailer} cfg r v :
  match proxyTo cfg r v with
  | inl w => ws_opened w = true -> ws_closed w = true
  | inr e =>
      (pe_opened e = true -> pe_aborted e = true \/ (pe_closed e = true /\ pe_complete e = true)) /\
      (pe_status e = None -> pv_gone v = true) /\
      (pe_complete e = false \/ pe_status e <> None) /\
      (forall status, pe_status e = Some status ->
        (exists title detail, pe_header e = hr_Header (errorPage status title detail) /\
           pe_body e = [hr_Body (errorPage status title detail)] /\ pe_complete e = false) \/
        exists resp, ReadResponse (pv_text v) (pv_end v) (q_Method r) = Ok resp /\ status = in_Code resp /\
          pe_header e = response_headers (in_Header resp) (in_ContentLength resp) /\
          (exists rest, fst (in_Body resp) = sconcat (pe_body e) +:+ rest) /\
          (pe_complete e = true -> q_Method r <> "HEAD"%string ->
             sconcat (pe_body e) = fst (in_Body resp) /\ snd (in_Body resp) = Sentinel io_EOF))
  end.
Proof.
  unfold proxyTo. destruct (isUpgrade r).
  - unfold proxyWebSocket. by repeat case_match.
  - assert (forall o c a st t d (Q : Z -> Prop), (o = true -> a = true) ->
      let e := fails_with o c a st t d in
      (pe_opened e = true -> pe_aborted e = true \/ (pe_closed e = true /\ pe_complete e = true)) /\
      (pe_status e = None -> pv_gone v = true) /\ (pe_complete e = false \/ pe_status e <> None) /\
      forall status, pe_status e = Some status -> (exists title detail, pe_header e = hr_Header (errorPage status title detail) /\
        pe_body e = [hr_Body (errorPage status title detail)] /\ pe_complete e = false) \/ Q status) as Hfail.
    { intros o c a st t d Q Ho. split_and!; [intros Hop; left; by apply Ho|done|by left|]. intros status [= <-]. left. by exists t, d. }
    unfold proxy_framed, too_large.
    destruct (read_body cfg r); [by apply Hfail..|].
    destruct (pv_opened v); [|by apply Hfail].
    destruct (pv_flushed v); [by apply Hfail|].
    destruct (pv_timely v); [|by apply Hfail]. cbn [negb].
    destruct (ReadResponse _ _ _) as [resp|] eqn:Hr.
    2:{ destruct (pv_gone v); [|by apply Hfail].
        split_and!; [by left|done|by left|done]. }
    unfold relay_response. destruct (String.eqb_spec (q_Method r) "HEAD") as [|Hm].
    + split_and!; [by right|done|by right|]. intros status [= <-]. right. exists resp. split_and!; try done. by eexists.
    + destruct (in_Body resp) as [data rerr] eqn:Hb. pose proof (relayed_body (pv_accepts v) (pv_sizes v) data rerr) as Hrel.
      destruct (relay _ _ _) as [out complete]. destruct Hrel as [Hp Hc].
      split_and!; [intros _; destruct complete; [by right|by left]|done|by right|].
      intros status [= <-]. right. exists resp. rewrite Hb. split_and!; try done. intros Hcomp _. exact (Hc Hcomp).
Qed.

#[local] Opaque errorPage landingHTML healthz login_page.

(** C28: Nothing a visitor sends becomes markup in a page of the server: whatever
    he asks for, a page the server answers by itself, an error page of the proxy
    and the login form have exactly the tags and attributes of their templates. *)
Theorem pages_not_injected `{UnicodeLower, Hmac, JSON ForwardAuth.Session, ParseIP, Quote, OtherTrailer} cfg fa reg ready now r :
  (forall p, ServeHTTP cfg fa reg ready now r = RAnswer p ->
     p = healthz (Count reg) \/ markup (hr_Body p) = markup landingPage \/ markup (hr_Body p) = markup errorPageTpl) /\
  (forall v e, proxyTo cfg r v = inr e ->
     markup (sconcat (pe_body e)) = markup errorPageTpl \/ pe_status e = None \/
     exists resp, ReadResponse (pv_text v) (pv_end v) (q_Method r) = Ok resp /\ pe_status e = Some (in_Code resp)) /\
  (forall m p c, Handle m StubProvider r now = (c, Page p) -> markup (hr_Body p) = markup loginFormTpl).
Proof.
  assert (forall o c a st t d, st <> 418 -> markup (sconcat (pe_body (fails_with o c a st t d))) = markup errorPageTpl) as Hf.
  { intros o c a st t d Hst. cbn [fails_with pe_body sconcat foldr]. rewrite sapp_nil_r. by apply errorPage_markup. }
  split_and!.
  - set (good p := p = healthz (Count reg) \/ markup (hr_Body p) = markup landingPage \/ markup (hr_Body p) = markup errorPageTpl).
    assert (good (healthz (Count reg))) as Hh by (by left).
    assert (forall st t d, st <> 418 -> good (errorPage st t d)) as He by (intros; right; right; by apply errorPage_markup).
    assert (good (serveLanding cfg r)) as Hl.
    { unfold serveLanding. destruct (String.eqb (q_Path r) "/"); [|by apply He]. right; left. apply landingHTML_markup. }
    intros p Hp. enough (match ServeHTTP cfg fa reg ready now r with RAnswer p => good p | _ => True end) as Hg by (by rewrite Hp in Hg).
    clearbody good. clear Hp p. unfold ServeHTTP, offline.
    destruct (String.eqb (q_Path r) "/healthz"); [exact Hh|]. destruct (_ && String.eqb (q_Method r) "POST"); [done|].
    destruct (_ || isAddrHost _ _); [exact Hl|]. destruct (CutSuffix _ _) as [sub|]; [|by apply He].
    destruct (negb (ValidSubdomain sub)); [by apply He|]. destruct (Get sub reg) as [c|]; [|by apply He].
    destruct (negb (waitReady c ready)); [by apply He|]. destruct (_ && HasPrefix _ _); [done|].
    destruct fa as [m|]; [|done]. destruct (Protected c && _); [|done]. by destruct (Authorize _ _ _).
  - intros v e. unfold proxyTo. destruct (isUpgrade r); [done|]. intros [= <-].
    unfold proxy_framed, too_large. destruct (read_body cfg r); [left; by apply Hf..|].
    destruct (pv_opened v); [|left; by apply Hf]. destruct (pv_flushed v); [left; by apply Hf|].
    destruct (pv_timely v); [|left; by apply Hf]. cbn [negb]. destruct (ReadResponse _ _ _) as [resp|] eqn:Hr.
    + right; right. exists resp. split; [done|]. unfold relay_response. destruct (String.eqb _ _); [done|].
      destruct (in_Body resp). by destruct (relay _ _ _).
    + destruct (pv_gone v); [by right; left|left; by apply Hf].
  - intros m p c. unfold Handle. repeat case_match; try discriminate. intros [= <- <-]. apply login_page_markup.
Qed.

(** C26: A token is issued only to someone who knows the enrollment password,
    for no name or for a valid name that is not reserved, with a lifetime of at
    most thirty days; and it is a token the server accepts, for exactly that
    name, without a protection mandate, until the expiry that was reported, less
    the time between the minting ([now]) and the reply ([now']). *)
Theorem issued_tokens_safe `{UnicodeLower, Hmac, JSON Claims, JSON tokenIssueRequest, ParseDuration}
    valid (HL : JSONLaws Claims valid) cfg r b now now' tok id sub exp :
  let claims := mkClaims sub (Token.Unix (exp - (now' - now))) ("tok_" +:+ hex_EncodeToString b) false in
  valid claims -> 1000000000 <= now ->
  handleTokenIssue cfg r (Ok b) now now' = Issued tok id sub exp ->
  EnrollPassword cfg <> ""%string /\
  (exists text req, read_limited (Z.shiftl 64 10) (default (""%string, None) (q_Body r)) = Ok text /\
     json_Unmarshal (bytes_of_string text) = Ok req /\
     ti_Password req = EnrollPassword cfg /\ sub = NormalizeSubdomain (ti_Sub req)) /\
  (sub = ""%string \/ ValidSubdomain sub = true /\ IsReserved (auth_of cfg) sub = false) /\
  now' < exp <= now' + 30 * 24 * 3600 * 1000000000 /\
  id = c_ID claims /\
  (forall t, t <= exp - (now' - now) -> Parse (signing (auth_of cfg)) tok t = Ok claims).
Proof.
  intros claims Hvalid Hnow. unfold handleTokenIssue, MintFor.
  destruct (String.eqb_spec (EnrollPassword cfg) "") as [|Hpw]; [done|].
  destruct (read_limited _ _) as [text|] eqn:Hread; [|done].
  destruct (json_Unmarshal (bytes_of_string text)) as [req|] eqn:Hj; [|done].
  destruct (String.eqb_spec (ti_Password req) (EnrollPassword cfg)) as [Hp|]; [|done]. cbn [negb].
  set (nm := NormalizeSubdomain (ti_Sub req)).
  destruct (negb (String.eqb nm "") && negb (ValidSubdomain nm)) eqn:Hv; [done|].
  destruct (negb (String.eqb nm "") && IsReserved (auth_of cfg) nm) eqn:Hres; [done|].
  destruct (issue_ttl (ti_TTL req)) as [ttl|] eqn:Httl; [|done].
  destruct (zlen (signing (auth_of cfg)) =? 0) eqn:Hk; [done|]. apply zlen_nonzero in Hk.
  assert (Hpos : 0 < ttl).
  { unfold issue_ttl in Httl. destruct (String.eqb (ti_TTL req) ""); [injection Httl as <-; reflexivity|].
    destruct (parse_duration _) as [z|]; [|done]. destruct (Z.leb_spec z 0); [done|]. injection Httl as <-; lia. }
  set (m := Z.min ttl maxEnrollTTL). assert (0 < m <= maxEnrollTTL) as Hm.
  { unfold m, maxEnrollTTL, Hour, Second. lia. }
  destruct (MintWith _ _ _ _) as [tok'|] eqn:HM; [|done]. intros [= <- <- Hsub Hexp].
  assert (Hc : claims = mkClaims nm (if 0 <? m then Token.Unix (now + m) else 0) ("tok_" +:+ hex_EncodeToString b) false).
  { unfold claims. rewrite <- Hsub, (proj2 (Z.ltb_lt 0 m)) by lia. do 2 f_equal. lia. }
  destruct (MintWith_authentic valid HL (signing (auth_of cfg)) (mkMintOpts nm m false) b now Hk) as (tok & HM' & Ha);
    cbn [o_Sub o_TTL o_Prot] in *; rewrite <- Hc in *; [done|].
  assert (tok = tok') as -> by congruence. rewrite <- Hsub. split; [done|]. split.
  { exists text, req. by split_and!. }
  split; [|split; [|split]].
  - destruct (String.eqb_spec nm ""); [by left|right]. cbn [negb andb] in *.
    split; [by apply negb_false_iff in Hv|exact Hres].
  - unfold maxEnrollTTL, Hour, Second in Hm. lia.
  - by apply IDOf_authentic in Ha.
  - intros t Ht. apply Parse_authentic. split; [done|]. right. apply Unix_mono. lia.
Qed.

(** ** Samples *)

#[local] Instance sample_lower : UnicodeLower := id.
#[local] Instance sample_hmac : Hmac := fun key p => key ++ p.
#[local] Instance sample_json : JSON Claims := countable_json.
#[local] Instance sample_session_json : JSON ForwardAuth.Session := countable_json.
#[local] Instance sample_ip : ParseIP := fun _ => false.
#[local] Instance sample_quote : Quote := quoted.
#[local] Instance sample_duration : ParseDuration := fun _ => Ok (24 * Hour).
#[local] Instance sample_request_json : JSON tokenIssueRequest := {|
  json_Marshal _ := Err (errors_New "not used");
  json_Unmarshal b := Ok (mkIssueRequest (string_of_bytes b) "pw" "24h")
|}.

Definition sample_cfg : Config :=
  New (mkConfig "t.example" "" "" "" "" false "" "" 0
         (Some (mkAuthenticator ∅ ∅ ∅ [Byte.x6b] ∅ false)) true "pw" 0 0 0).
Definition sample_manager : Manager := NewManager [Byte.x6c] (Some StubProvider) (24 * Hour).
Definition sample_cookie : string :=
  match signSession sample_manager "ann" [] Second with Ok v => v | Err _ => "" end.
Definition sample_request (body : string) : Request :=
  mkRequest "GET" "hop.t.example:8080" "/x" "/x" (fun _ => None) (Err (errors_New "no form"))
    [("X-Authenticated-User", ["root"]); ("Accept", ["*/*"])] [(CookieName, sample_cookie)] 0
    (Some (body, None)) "1.2.3.4:5" false.
Definition sample_client : Client := mkClient "hop" 0 "peer" Second true "tok_01" true.
Definition sample_registry : Registry :=
  mkRegistry {["hop"%string := 0%nat]} {[0%nat := sample_client]} false [].

Definition sample_proxied : Request :=
  match ServeHTTP sample_cfg (Some sample_manager) sample_registry false Second (sample_request "") with
  | RProxy _ r => r
  | _ => sample_request ""
  end.

Lemma protected_tunnels_guarded_witness :
  ServeHTTP sample_cfg (Some sample_manager) sample_registry false Second (sample_request "") =
    RProxy sample_client sample_proxied /\
  exists m v s, Some sample_manager = Some m /\ Cookie (sample_request "") CookieName = Some v /\
    verifySession m v Second = Ok s /\ h_values (q_Header sample_proxied) UserHeader = [User s].
Proof.
  assert (E : ServeHTTP sample_cfg (Some sample_manager) sample_registry false Second (sample_request "") =
    RProxy sample_client sample_proxied) by (vm_compute; reflexivity).
  split; [exact E|].
  destruct (proj2 (proj2 (proj2 (protected_tunnels_guarded sample_cfg (Some sample_manager) sample_registry
    false Second (sample_request "") sample_client sample_proxied E)))) as (m & v & s & H1 & H2 & H3 & H4 & _).
  exists m, v, s. split; [exact H1|]. split; [exact H2|]. split; [exact H3|exact H4].
Defined.

Lemma body_bounded_witness :
  0 < MaxRequestBody sample_cfg /\
  match read_body sample_cfg (sample_request "abc") with
  | BodyOk body => zslen body <= MaxRequestBody sample_cfg
  | _ => True
  end.
Proof.
  assert (Hp : 0 < MaxRequestBody sample_cfg) by reflexivity. split; [exact Hp|].
  pose proof (body_bounded sample_cfg (sample_request "abc") Hp) as H.
  destruct (read_body sample_cfg (sample_request "abc")) as [| |body]; [exact I|exact I|exact H].
Defined.

Definition sample_issue : issue_reply :=
  handleTokenIssue sample_cfg (sample_request "hop") (Ok [Byte.x01]) Second Second.

Lemma issued_tokens_safe_witness :
  exists tok id exp, sample_issue = Issued tok id "hop" exp /\
    Second < exp <= Second + 30 * 24 * 3600 * 1000000000.
Proof.
  assert (E : exists tok id exp, sample_issue = Issued tok id "hop" exp)
    by (do 3 eexists; vm_compute; reflexivity).
  destruct E as (tok & id & exp & E). exists tok, id, exp. split; [exact E|].
  exact (proj1 (proj2 (proj2 (proj2 (issued_tokens_safe _ countable_json_laws sample_cfg (sample_request "hop")
    [Byte.x01] Second Second tok id "hop" exp I ltac:(reflexivity) E))))).
Defined.
