(* ===== verification/Inspect.v ===== *)
(** * The inspector: internal/inspection/{store,hub,server}.go

    The ring buffer of captured exchanges, with its abstract specification (a
    bounded list, newest first); the set of websocket tabs; the guard in front of
    the inspector's routes and the routes themselves. *)
From S2P Require Import Prelude GoStr Http.
From Stdlib Require Import Ascii.

(** ** Records and the ring buffer (store.go) *)

(** [Time] is 0 for the zero time. *)
Record Record_ := mkRecord {
  ID : Z;
  Time : Z;
  Duration : Z;
  Replayed : bool;
  Errored : bool;
  Error : string;
  Method : string;
  Path : string;
  ReqHeaders : header;
  ReqBody : string;
  ReqTruncated : bool;
  Status : Z;
  RespHeaders : header;
  RespBody : string;
  RespTruncated : bool
}.

Definition stamp (id now : Z) (r : Record_) : Record_ :=
  mkRecord id (if Time r =? 0 then now else Time r) (Duration r) (Replayed r) (Errored r) (Error r)
    (Method r) (Path r) (ReqHeaders r) (ReqBody r) (ReqTruncated r) (Status r) (RespHeaders r)
    (RespBody r) (RespTruncated r).

Definition DefaultCapacity : Z := 200.

(** [None] in [buf] is a nil pointer. *)
Record Store := mkStore {
  buf : list (option Record_);
  cap : Z;
  head : Z;
  n : Z;
  seq : Z
}.

(** store.go:46. *)
Definition NewStore (capacity : Z) : Store :=
  let c := if capacity <=? 0 then DefaultCapacity else capacity in
  mkStore (replicate (Z.to_nat c) None) c 0 0 0.

(** store.go:54: the number is taken before the lock. *)
Definition Add_stamp (now : Z) (rec : Record_) (s : Store) : Store * Record_ :=
  (mkStore (buf s) (cap s) (head s) (n s) (seq s + 1), stamp (seq s + 1) now rec).

(** store.go:59-65, under the lock. *)
Definition Add_put (rec : Record_) (s : Store) : Store :=
  mkStore (<[Z.to_nat (head s) := Some rec]> (buf s)) (cap s) ((head s + 1) `rem` cap s)
    (if n s <? cap s then n s + 1 else n s) (seq s).

Definition Add (now : Z) (rec : Record_) (s : Store) : Store * Record_ :=
  let '(s, rec) := Add_stamp now rec s in (Add_put rec s, rec).

Definition slot (s : Store) (i : nat) : option Record_ :=
  let idx := (head s - 1 - Z.of_nat i + cap s) `rem` cap s in
  default None (buf s !! Z.to_nat idx).

(** store.go:70: newest first; a nil entry would be a nil record. *)
Definition List_ (s : Store) : list (option Record_) := slot s <$> List.seq 0 (Z.to_nat (n s)).

(** store.go:82. *)
Fixpoint find_id (id : Z) (l : list (option Record_)) : option Record_ :=
  match l with
  | Some r :: l => if ID r =? id then Some r else find_id id l
  | None :: l => find_id id l (* a nil pointer: not reached *)
  | [] => None
  end.

Definition Get (id : Z) (s : Store) : option Record_ := find_id id (List_ s).
Definition Size (s : Store) : Z := n s.

(** store.go:102. *)
Definition Clear (s : Store) : Store := mkStore (replicate (Z.to_nat (cap s)) None) (cap s) 0 0 (seq s).

(** *** The specification: the last [cap] records, newest first *)

Definition spec_add (c : nat) (r : Record_) (l : list Record_) : list Record_ := take c (r :: l).

(** [l] is what the ring buffer holds. *)
Record holds (s : Store) (l : list Record_) : Prop := {
  rep_cap : 0 < cap s;
  rep_len : Z.of_nat (length (buf s)) = cap s;
  rep_head : 0 <= head s < cap s;
  rep_n : n s = Z.of_nat (length l) /\ n s <= cap s;
  rep_slots : forall i r, l !! i = Some r -> slot s i = Some r
}.

(** Additions that do not overlap are stored in the order of their numbers. *)
Record represents (s : Store) (l : list Record_) : Prop := {
  rep_holds : holds s l;
  rep_ids : forall i r, l !! i = Some r -> ID r = seq s - Z.of_nat i
}.

Lemma slot_index h i c :
  0 < c -> 0 <= h < c -> 0 <= i < c ->
  (h - 1 - i + c) `rem` c = if i <? h then h - 1 - i else h - 1 - i + c.
Proof.
  intros Hc Hh Hi. destruct (Z.ltb_spec i h).
  - rewrite Z.rem_mod_nonneg by lia. rewrite <-(Z.mod_small (h - 1 - i) c) at 2 by lia.
    rewrite <-(Z.mod_add (h - 1 - i) 1 c) by lia. f_equal. lia.
  - rewrite Z.rem_small by lia. done.
Qed.

Lemma next_head h c : 0 < c -> 0 <= h < c -> (h + 1) `rem` c = if h + 1 =? c then 0 else h + 1.
Proof.
  intros Hc Hh. destruct (Z.eqb_spec (h + 1) c) as [->|]; [by rewrite Z.rem_same by lia|].
  by rewrite Z.rem_small by lia.
Qed.

Lemma holds_new capacity : holds (NewStore capacity) [].
Proof.
  unfold NewStore, DefaultCapacity. destruct (Z.leb_spec capacity 0); split; simpl;
    rewrite ?length_replicate; try lia; intros i r; rewrite lookup_nil; done.
Qed.

Lemma holds_clear s l : holds s l -> holds (Clear s) [].
Proof.
  intros []. split; simpl; rewrite ?length_replicate; try lia; intros i r; rewrite lookup_nil; done.
Qed.

(** The slot of age [i + 1] after an addition is the slot of age [i] before it. *)
Lemma slot_add_older rec s i :
  0 < cap s -> 0 <= head s < cap s -> Z.of_nat (length (buf s)) = cap s ->
  Z.of_nat (S i) < cap s -> slot (Add_put rec s) (S i) = slot s i.
Proof.
  intros Hc Hh Hl Hi. unfold slot, Add_put. cbn [fst head cap buf].
  rewrite (next_head (head s) (cap s)) by done. rewrite slot_index; [|done|case_match; bool_props; lia|lia].
  rewrite slot_index by lia.
  assert ((if Z.of_nat (S i) <? (if head s + 1 =? cap s then 0 else head s + 1)
           then (if head s + 1 =? cap s then 0 else head s + 1) - 1 - Z.of_nat (S i)
           else (if head s + 1 =? cap s then 0 else head s + 1) - 1 - Z.of_nat (S i) + cap s) =
          (if Z.of_nat i <? head s then head s - 1 - Z.of_nat i else head s - 1 - Z.of_nat i + cap s)) as ->.
  { destruct (Z.eqb_spec (head s + 1) (cap s)), (Z.ltb_spec (Z.of_nat i) (head s)); case_match; bool_props; lia. }
  rewrite list_lookup_insert_ne; [done|]. case_match; bool_props; lia.
Qed.

Lemma slot_add_newest rec s :
  0 < cap s -> 0 <= head s < cap s -> Z.of_nat (length (buf s)) = cap s -> slot (Add_put rec s) 0 = Some rec.
Proof.
  intros Hc Hh Hl. unfold slot, Add_put. cbn [fst head cap buf].
  rewrite (next_head (head s) (cap s)) by done. rewrite slot_index; [|done|case_match; bool_props; lia|lia].
  assert ((if Z.of_nat 0 <? (if head s + 1 =? cap s then 0 else head s + 1)
           then (if head s + 1 =? cap s then 0 else head s + 1) - 1 - Z.of_nat 0
           else (if head s + 1 =? cap s then 0 else head s + 1) - 1 - Z.of_nat 0 + cap s) = head s) as ->.
  { destruct (Z.eqb_spec (head s + 1) (cap s)); case_match; bool_props; lia. }
  rewrite list_lookup_insert_eq by lia. done.
Qed.

Lemma spec_add_lookup c r l i x :
  spec_add c r l !! i = Some x -> (i < c)%nat /\ match i with O => x = r | S i => l !! i = Some x end.
Proof. intros [Hi Hlt]%lookup_take_Some. split; [done|]. destruct i; naive_solver. Qed.

Lemma holds_put rec s l : holds s l -> holds (Add_put rec s) (spec_add (Z.to_nat (cap s)) rec l).
Proof.
  intros [Hc Hl Hh [Hn Hnc] Hs]. split.
  - done.
  - simpl. by rewrite length_insert.
  - simpl. rewrite next_head by done. case_match; bool_props; lia.
  - unfold spec_add. simpl. rewrite length_take. simpl. destruct (Z.ltb_spec (n s) (cap s)); lia.
  - intros i r [Hi Hr]%spec_add_lookup. destruct i as [|i].
    + subst r. by apply slot_add_newest.
    + rewrite slot_add_older by (done || lia). by apply Hs.
Qed.

(** The number is not looked at. *)
Lemma holds_stamp now rec s l : holds s l -> holds (fst (Add_stamp now rec s)) l.
Proof. by intros []. Qed.

Lemma represents_add now rec s l :
  represents s l ->
  represents (fst (Add now rec s)) (spec_add (Z.to_nat (cap s)) (stamp (seq s + 1) now rec) l).
Proof.
  intros [Hh Hids]. split.
  - apply (holds_put _ (fst (Add_stamp now rec s))). by apply holds_stamp.
  - intros i r [Hi Hr]%spec_add_lookup. simpl. destruct i as [|i]; [subst r; simpl; lia|].
    rewrite (Hids _ _ Hr). lia.
Qed.

Lemma List_holds s l : holds s l -> List_ s = Some <$> l.
Proof.
  intros [_ _ _ [Hn _] Hs]. unfold List_. rewrite Hn, Nat2Z.id. apply list_eq. intros i.
  rewrite !list_lookup_fmap. destruct (decide (i < length l)%nat) as [Hi|Hi].
  - rewrite lookup_seq_lt by done. simpl. destruct (lookup_lt_is_Some_2 l i Hi) as [r Hr].
    rewrite Hr. simpl. f_equal. by apply Hs.
  - rewrite lookup_seq_ge, lookup_ge_None_2 by lia. done.
Qed.

Lemma find_id_spec id l :
  find_id id (Some <$> l) = list_find (fun r => ID r = id) l ≫= fun p => Some (snd p).
Proof.
  induction l as [|r l IH]; [done|]. cbn [fmap list_fmap find_id list_find].
  destruct (Z.eqb_spec (ID r) id); [by rewrite decide_True|]. rewrite decide_False by done.
  rewrite IH. by destruct (list_find _ l) as [[]|].
Qed.

(** The operations on the store. *)
Inductive store_op := OAdd (now : Z) (rec : Record_) | OClear.

Definition run_op (s : Store) (o : store_op) : Store :=
  match o with OAdd now rec => fst (Add now rec s) | OClear => Clear s end.

(** The records of the specification are numbered by [k], the number of [Add]s. *)
Definition spec_op (c : nat) (kl : Z * list Record_) (o : store_op) : Z * list Record_ :=
  match o with
  | OAdd now rec => (fst kl + 1, spec_add c (stamp (fst kl + 1) now rec) (snd kl))
  | OClear => (fst kl, [])
  end.

Lemma run_represents os s k l :
  represents s l -> seq s = k ->
  represents (foldl run_op s os) (snd (foldl (spec_op (Z.to_nat (cap s))) (k, l) os)) /\
  seq (foldl run_op s os) = fst (foldl (spec_op (Z.to_nat (cap s))) (k, l) os).
Proof.
  revert s k l. induction os as [|o os IH]; intros s k l Hr <-; [done|]. destruct o as [now rec|]; simpl.
  - apply (IH (fst (Add now rec s))); [by apply represents_add|done].
  - apply (IH (Clear s)); [|done]. split; [by eapply holds_clear, Hr|done].
Qed.

(** The ring buffer implements its specification: after any sequence of
    additions and clears, its listing is the most recent records since the last
    clear, newest first, at most as many as its capacity; each record keeps the
    number of the addition that stored it, numbers never repeat even across
    clears, and looking a number up finds exactly the record that is listed
    under it. *)
Theorem store_refines_list capacity os :
  let c := if capacity <=? 0 then 200 else capacity in
  let s := foldl run_op (NewStore capacity) os in
  let l := snd (foldl (spec_op (Z.to_nat c)) (0, []) os) in
  List_ s = Some <$> l /\ Size s = Z.of_nat (length l) /\ Size s <= c /\
  (forall i r, l !! i = Some r -> ID r = seq s - Z.of_nat i /\ Get (ID r) s = Some r) /\
  (forall id r, Get id s = Some r -> ID r = id /\ r ∈ l).
Proof.
  intros c s l.
  destruct (run_represents os (NewStore capacity) 0 [] (ltac:(split; [apply holds_new|done]))) as [Hr _];
    [by unfold NewStore; case_match|].
  assert (cap (NewStore capacity) = c) as Hcap by (unfold NewStore; by case_match).
  rewrite Hcap in Hr. fold s l in Hr. pose proof (List_holds _ _ (rep_holds _ _ Hr)) as HL.
  assert (Hcs : cap s = c).
  { subst s. rewrite <-Hcap. clear. generalize (NewStore capacity). induction os as [|o os IH]; intros s; [done|].
    simpl. rewrite IH. by destruct o. }
  destruct Hr as [[_ _ _ [Hn Hnc] _] Hids]. split_and!; [done|done|unfold Size; lia| |].
  - intros i r Hi. split; [by apply Hids|]. unfold Get. rewrite HL, find_id_spec.
    assert (list_find (fun x => ID x = ID r) l = Some (i, r)) as ->; [|done].
    apply list_find_Some. split_and!; try done. intros j y Hj Hlt Heq.
    pose proof (Hids _ _ Hi). pose proof (Hids _ _ Hj). lia.
  - intros id r. unfold Get. rewrite HL, find_id_spec.
    destruct (list_find _ l) as [[i r']|] eqn:Hf; [|done]. simpl. intros [= <-].
    apply list_find_Some in Hf as (Hi & Hid & _). split; [done|]. by eapply list_elem_of_lookup_2.
Qed.

(** ** The guard and the routes (server.go) *)

Definition TokenHeader : string := "X-Munnel-Inspector-Token".
Definition tokenParam : string := "t".

(** The address it is bound to: [ip] only when it is a specific address that is
    not a loopback one. *)
Record Server := mkServer { token : string; port : string; ip : string }.

(** [url.Parse]: scheme, host and path; [net.ParseIP]: not nil, loopback,
    unspecified. *)
Class UrlParse := url_parse : string -> option (string * string * string).
Record ip_kind := mkIpKind { ip_loopback : bool; ip_unspecified : bool }.
Class IpKind := ip_kind_of : string -> option ip_kind.

(** What the guard does with a request. *)
Inductive guarded :=
| GForbidden (what : string)   (** 403 *)
| GDeny                        (** 401, the page *)
| GUnauthorized                (** 401, JSON *)
| GLaunch (cookie : string)    (** sets the cookie, redirects to / *)
| GNext.                       (** the request is served *)

(** The answers of the routes. *)
Inductive answer :=
| AGuard (g : guarded)
| AIndex
| AList (l : list (option Record_))
| ARecord (r : Record_)
| AError (status : Z) (msg : string)
| ACleared
| AStatus
| AWebsocket
| ANotFound.                    (** the multiplexer answers by itself *)

(** server.go:169. *)
Definition cookieName (s : Server) : string := "munnel_inspector_" +:+ port s.

(** server.go:175. *)
Definition validToken (s : Server) (t : string) : bool := String.eqb t (token s).

(** server.go:179. *)
Definition authorized (s : Server) (r : Request) : bool :=
  let t := h_Get (q_Header r) TokenHeader in
  if negb (String.eqb t "") then validToken s t
  else match Cookie r (cookieName s) with Some v => validToken s v | None => false end.

(** server.go:81. *)
Definition URLFor `{IpKind} (s : Server) (addr : string) : string :=
  match SplitHostPort addr with
  | None => ""
  | Some (host, p) =>
      let unspecified := match ip_kind_of host with Some k => ip_unspecified k | None => false end in
      let host := if String.eqb host "" || unspecified then "127.0.0.1" else host in
      "http://" +:+ JoinHostPort host p +:+ "/?" +:+ tokenParam +:+ "=" +:+ token s
  end.

(** server.go:104: what is recorded of the bound address. *)
Definition bound `{IpKind} (addr : string) (s : Server) : Server :=
  match SplitHostPort addr with
  | None => s
  | Some (host, p) =>
      match ip_kind_of host with
      | Some k => mkServer (token s) p (if negb (ip_loopback k) && negb (ip_unspecified k) then host else ip s)
      | None => mkServer (token s) p (ip s)
      end
  end.

Section guard.
Context `{UnicodeLower, UrlParse}.

(** server.go:190. *)
Definition allowedHost (s : Server) (hostport : string) : bool :=
  match SplitHostPort hostport with
  | None => false
  | Some (host, p) =>
      if negb (String.eqb p (port s)) then false
      else
        let h := ToLower host in
        if existsb (String.eqb h) ["127.0.0.1"; "localhost"; "::1"] then true
        else negb (String.eqb (ip s) "") && String.eqb h (ip s)
  end.

(** server.go:212. *)
Definition allowedOrigin (s : Server) (origin : string) : bool :=
  match url_parse origin with
  | None => false
  | Some (scheme, host, path) => String.eqb scheme "http" && String.eqb path "" && allowedHost s host
  end.

(** server.go:138. *)
Definition guard (s : Server) (r : Request) : guarded :=
  let o := h_Get (q_Header r) "Origin" in
  if negb (allowedHost s (q_Host r)) then GForbidden "munnel inspector: forbidden host"
  else if negb (String.eqb o "") && negb (allowedOrigin s o) then GForbidden "munnel inspector: forbidden origin"
  else if String.eqb (q_Path r) "/" && String.eqb (q_Method r) "GET" && Query_Has r tokenParam then
    if negb (validToken s (Query_Get r tokenParam)) then GDeny else GLaunch (token s)
  else if negb (authorized s r) then
    if String.eqb (q_Path r) "/" then GDeny else GUnauthorized
  else GNext.

Context `{ErrorText}.

(** server.go:250-275. [replay] is the replayer, when there is one. *)
Definition serveOne (st : Store) (id : string) : answer :=
  match ParseInt 64 id with
  | None => AError 400 "bad id"
  | Some id => match Get id st with Some r => ARecord r | None => AError 404 "not found" end
  end.

Definition serveReplay (replay : option (Record_ -> result Record_)) (now : Z) (st : Store) (id : string)
    : Store * answer :=
  match ParseInt 64 id with
  | None => (st, AError 400 "bad id")
  | Some id =>
      match Get id st with
      | None => (st, AError 404 "request no longer in buffer")
      | Some r =>
          match replay with
          | None => (st, AError 503 "replay unavailable")
          | Some f =>
              match f r with
              | Err e => (st, AError 422 (error_text e))
              | Ok fresh => let '(st, stored) := Add now fresh st in (st, ARecord stored)
              end
          end
      end
  end.

(** The routes of server.go:67-73; [GET] patterns also match [HEAD]. *)
Definition reads (r : Request) : bool := String.eqb (q_Method r) "GET" || String.eqb (q_Method r) "HEAD".

(** The last segment of a path under [base]. *)
Definition segment (p base : string) : option string :=
  match CutPrefix p base with
  | Some id => if String.eqb id "" || selem "/" id then None else Some id
  | None => None
  end.

(** The request asks for a replay, of the exchange it names. *)
Definition replay_route (r : Request) : option string :=
  if String.eqb (q_Method r) "POST" then segment (q_Path r) "/api/replay/" else None.

Definition serve (replay : option (Record_ -> result Record_)) (now : Z) (st : Store) (r : Request)
    : Store * answer :=
  let p := q_Path r in
  if reads r && String.eqb p "/" then (st, AIndex)
  else if reads r && String.eqb p "/api/requests" then (st, AList (List_ st))
  else if reads r && String.eqb p "/api/status" then (st, AStatus)
  else if reads r && String.eqb p "/ws" then (st, AWebsocket)
  else if String.eqb (q_Method r) "DELETE" && String.eqb p "/api/requests" then (Clear st, ACleared)
  else
    match (if reads r then segment p "/api/requests/" else None) with
    | Some id => (st, serveOne st id)
    | None =>
        match replay_route r with
        | Some id => serveReplay replay now st id
        | None => (st, ANotFound)
        end
    end.

(** The whole handler. *)
Definition handle (s : Server) (replay : option (Record_ -> result Record_)) (now : Z) (st : Store) (r : Request)
    : Store * answer :=
  match guard s r with
  | GNext => serve replay now st r
  | g => (st, AGuard g)
  end.

End guard.

(** ** The websocket hub (hub.go) *)

(** The connected tabs, by number. *)
Definition Hub := gset nat.

Definition NewHub : Hub := ∅.

(** hub.go:35: a tab joins, and leaves when reading from it fails. *)
Definition join (c : nat) (h : Hub) : Hub := {[c]} ∪ h.
Definition leave (c : nat) (h : Hub) : Hub := h ∖ {[c]}.

(** hub.go:59: [fails] tells which writes fail; those tabs are dropped. The
    others received the message. *)
Definition broadcast (encodes : bool) (fails : nat -> bool) (h : Hub) : Hub * gset nat :=
  if encodes then (filter (fun c => fails c = false) h, filter (fun c => fails c = false) h)
  else (h, ∅).
