(* ===== verification/InspectWeb.v ===== *)
(** * What the inspector writes: internal/inspection/server.go

    [Inspect] decides what a request gets; this file has the text of it: status,
    header and body of every reply, the access token, and the listener. The text of
    JSON values and the embedded page are parameters. *)
From S2P Require Import Prelude GoStr Encoding Http GoHtml Pages Inspect.
From Stdlib Require Import Ascii.

(** server.go:60: sixteen random bytes; without randomness it panics. *)
Definition New (rnd : result (list Byte.byte)) : option Server :=
  match rnd with Ok b => Some (mkServer (hex_EncodeToString b) "" "") | Err _ => None end.

(** server.go:78. *)
Definition Token (s : Server) : string := token s.

(** ** Replies *)

(** server.go:229. *)
Definition denyHTML : string := raw
"<!DOCTYPE html><html lang=`en`><head><meta charset=`utf-8`>
<meta name=`viewport` content=`width=device-width,initial-scale=1`><title>munnel inspector</title>
<style>:root{color-scheme:dark}body{margin:0;min-height:100vh;display:grid;place-items:center;background:#0e0c0d;color:#e8e6e3;font-family:ui-monospace,SFMono-Regular,Menlo,monospace}
p{color:#a09a92;max-width:32rem;line-height:1.6}h1{font-size:1.2rem;color:#c8b6ff}</style></head>
<body><div><h1>munnel inspector</h1><p>open the inspector link munnel printed when it started
(it ends in <code>/?t=…</code>). the token changes every time munnel starts.</p></div></body></html>".

Definition no_store : header := html_type ++ [("Cache-Control", ["no-store"])].

(** server.go:222. *)
Definition denyPage : http_reply := mkReply 401 no_store denyHTML.

(** server.go:153: what is stored in the browser. *)
Definition cookie_text (s : Server) : string := cookieName s +:+ "=" +:+ token s +:+ "; Path=/; HttpOnly; SameSite=Strict".

Definition launched (s : Server) : http_reply :=
  let p := http_Redirect "/" 303 in
  mkReply (hr_Status p) (("Set-Cookie", [cookie_text s]) :: hr_Header p) (hr_Body p).

(** What is encoded; [A] is the type of the status snapshot. *)
Inductive reply_value (A : Type) :=
| VRecords (l : list (option Record_))
| VRecord (r : Record_)
| VSnapshot (a : A)
| VDisconnected                          (** connected: false *)
| VCleared                               (** status: cleared *)
| VError (msg : string) (status : Z).
Arguments VRecords {A}. Arguments VRecord {A}. Arguments VSnapshot {A}. Arguments VDisconnected {A}. Arguments VCleared {A}.
Arguments VError {A}.

(** [json.Marshal], when it succeeds. *)
Class Encodes (A : Type) := encode : reply_value A -> option string.

Section replies.
Context {A : Type} `{Encodes A}.

(** The embedded page. *)
Variable indexHTML : string.

(** server.go:304: nothing is written of a value that cannot be encoded. *)
Definition writeJSON (code : Z) (v : reply_value A) : http_reply :=
  mkReply code [("Content-Type", ["application/json"])] (match encode v with Some t => t +:+ line_feed | None => "" end).

(** server.go:312. *)
Definition writeError (code : Z) (msg : string) : http_reply := writeJSON code (VError msg code).

(** server.go:237. *)
Definition serveIndex : http_reply := mkReply 200 no_store indexHTML.

(** server.go:296. *)
Definition serveStatus (status : option A) : http_reply :=
  writeJSON 200 (match status with Some a => VSnapshot a | None => VDisconnected end).

(** server.go:133, where it does not pass the request on. *)
Definition refusal (s : Server) (g : guarded) : http_reply :=
  match g with
  | GForbidden what => http_Error what 403
  | GDeny => denyPage
  | GLaunch _ => launched s
  | GUnauthorized | GNext => writeError 401 "missing or wrong inspector token"
  end.

(** The reply; [None] is what the multiplexer or the websocket library writes. *)
Definition write_answer (s : Server) (status : option A) (a : answer) : option http_reply :=
  match a with
  | AGuard g => Some (refusal s g)
  | AIndex => Some serveIndex
  | AList l => Some (writeJSON 200 (VRecords l))
  | ARecord r => Some (writeJSON 200 (VRecord r))
  | AError code msg => Some (writeError code msg)
  | ACleared => Some (writeJSON 200 VCleared)
  | AStatus => Some (serveStatus status)
  | AWebsocket | ANotFound => None
  end.

Section respond.
Context `{UnicodeLower, UrlParse, ErrorText}.

Definition respond (s : Server) (replay : option (Record_ -> result Record_)) (now : Z) (st : Store) (status : option A)
    (r : Request) : Store * option http_reply :=
  let '(st, a) := handle s replay now st r in (st, write_answer s status a).

(** ** Listening (server.go:97)

    The server as far as the listener is concerned: its address, once it is bound. *)
Record listener := mkListener { ls_server : Server; ls_addr : option string }.

(** [listen] is the address that was bound, [served] what [http.Server.Serve]
    returned: it ends after the shutdown that a cancelled context starts. *)
Definition ListenAndServe `{IpKind} (listen : result string) (served : error) (s : Server) : listener * error :=
  match listen with
  | Err e => (mkListener s None, e)
  | Ok addr => (mkListener (bound addr s) (Some addr), served)
  end.

(** server.go:123. *)
Definition Addr (l : listener) : string := default "" (ls_addr l).

(** ** Properties *)


(** The launch link: the cookie it leaves opens the inspector. *)
Lemma launch_link_opens s r r2 :
  q_Path r = "/" -> q_Method r = "GET" -> q_Query r tokenParam = Some (token s) ->
  allowedHost s (q_Host r) = true -> h_Get (q_Header r) "Origin" = "" ->
  q_Host r2 = q_Host r -> h_Get (q_Header r2) "Origin" = "" -> h_Get (q_Header r2) TokenHeader = "" ->
  q_Query r2 tokenParam = None -> Cookie r2 (cookieName s) = Some (token s) ->
  refusal s (guard s r) = launched s /\ guard s r2 = GNext.
Proof.
  intros Hpath Hm Hq Hh Ho Hhost Ho2 Ht2 Hq2 Hc. unfold guard, authorized, Query_Has, Query_Get, validToken.
  rewrite Hpath, Hm, Hq, Hh, Ho, Hhost, Hh, Ho2, Ht2, Hq2, Hc. cbn [negb String.eqb andb default].
  by rewrite !String.eqb_refl, andb_false_r.
Qed.
End respond.
End replies.

(** ** Concrete instances *)

#[local] Instance sample_lower : UnicodeLower := id.
#[local] Instance sample_url : UrlParse := fun _ => None.
#[local] Instance sample_text : ErrorText := fun e => match e with Errorf f _ => f | _ => "" end.
#[local] Instance sample_json : Encodes unit := fun v => match v with VError m _ => Some m | _ => Some "{}" end.

Definition sample_server (tok : string) : Server := mkServer tok "4040" "".
Definition sample_query (host : string) (query : option string) (cookies : list (string * string)) : Request :=
  Http.mkRequest "GET" host "/" "/" (fun k => if String.eqb k tokenParam then query else None) (Ok (fun _ => "")) [] cookies 0 None "" false.
Definition sample_reply (tok : string) (r : Request) : option http_reply :=
  snd (respond "<page>" (sample_server tok) None 0 (NewStore 4) (Some tt) r).


(** The launch link, and the request that follows it. *)
Example launch_sample :
  (hr_Header <$> sample_reply "secret" (sample_query "localhost:4040" (Some "secret") [])) =
    Some [("Set-Cookie", ["munnel_inspector_4040=secret; Path=/; HttpOnly; SameSite=Strict"]); ("Location", ["/"]);
          ("Content-Type", ["text/html; charset=utf-8"])] /\
  sample_reply "secret" (sample_query "localhost:4040" None [("munnel_inspector_4040", "secret")]) = Some (serveIndex "<page>").
Proof. by vm_compute. Qed.
