(* ===== verification/Forwarder.v ===== *)
(** * The forwarder: internal/client/forwarder.go

    Between the streams of the tunnel and the local service: [Serve] reads one
    request off a stream, sends it on, and records the exchange; [Replay] sends a
    recorded request again. The local service (what [http.Transport] or a
    connection to it answers, as a [message]) is an argument, and so is whether
    the stream takes what is written to it. *)
From S2P Require Import Prelude GoStr GoFmt Encoding Http GoUrl HttpRead HttpResponse Proxy Inspect.
From Stdlib Require Import Ascii.

(** ** Bodies *)

Definition captureLimit : Z := 256 * 1024.

Definition client_hopByHop : list string :=
  ["Connection"; "Keep-Alive"; "Te"; "Trailer"; "Transfer-Encoding"; "Upgrade"; "Content-Length"].

Definition client_is_hop (k : string) : bool := existsb (String.eqb (CanonicalHeaderKey k)) client_hopByHop.

Definition methodMayHaveBody (m : string) : bool := existsb (String.eqb m) ["POST"; "PUT"; "PATCH"].

(** The reads of one byte that count what is over the limit: a reader may return
    its last byte together with its error ([eager], as the body of a request
    with a Content-Length does), and that byte is then not counted. *)
Fixpoint drain (eager : bool) (rest : list Byte.byte) (over : Z) : Z :=
  match rest with
  | [] => over
  | [_] => if eager then over else over + 1
  | _ :: rest => drain eager rest (over + 1)
  end.

(** forwarder.go:340, for a body [data] that ends with [err]: the bytes kept and
    the number over the limit. *)
Definition readAllLimited (eager : bool) (data : list Byte.byte) (err : error) (limit : Z)
    : result (list Byte.byte * Z) :=
  let kept := take (Z.to_nat limit) data in
  let rest := drop (Z.to_nat limit) data in
  if bool_decide (err = Sentinel io_EOF) then Ok (kept, drain eager rest 0) else Err err.

(** forwarder.go:363. *)
Definition truncateForDisplay (b : string) : string * bool :=
  if zslen b <=? captureLimit then (b, false) else (String.substring 0 (Z.to_nat captureLimit) b, true).

(** forwarder.go:370. *)
Record limitedBuffer := mkLimited { lb_limit : nat; lb_buf : list Byte.byte; lb_truncated : bool }.

(** forwarder.go:376; it always takes the whole of [p]. *)
Definition lb_Write (l : limitedBuffer) (p : list Byte.byte) : limitedBuffer :=
  let remaining := Z.of_nat (lb_limit l) - zlen (lb_buf l) in
  if 0 <? remaining then
    if remaining <? zlen p then mkLimited (lb_limit l) (lb_buf l ++ take (Z.to_nat remaining) p) true
    else mkLimited (lb_limit l) (lb_buf l ++ p) (lb_truncated l)
  else mkLimited (lb_limit l) (lb_buf l) true.

(** ** Errors *)

(** An error as [rootCause] sees it: its text, and what it wraps, one error
    (which may be nil) or several. *)
Inductive chain :=
| Plain (text : string)
| Wraps (text : string) (inner : option chain)
| Joins (text : string) (errs : list chain).

Definition chain_text (c : chain) : string :=
  match c with Plain t | Wraps t _ | Joins t _ => t end.

(** forwarder.go:409; [None] is nil. *)
Fixpoint rootCause (c : chain) : option chain :=
  match c with
  | Plain _ => Some c
  | Wraps _ None => None
  | Wraps _ (Some c) => rootCause c
  | Joins _ [] => Some c
  | Joins _ errs => (fix last_of (errs : list chain) : option chain :=
      match errs with [] => None | [e] => rootCause e | _ :: errs => last_of errs end) errs
  end.

(** [%v] of it. *)
Definition cause_text (c : chain) : string := match rootCause c with Some c => chain_text c | None => "<nil>" end.

(** ** Requests and replies *)

(** forwarder.go:428 and 435. *)
Definition urlPath (p : string) : string := match cut_byte "?" p with Some (a, _) => a | None => p end.
Definition urlQuery (p : string) : string := match cut_byte "?" p with Some (_, b) => b | None => "" end.

Record Forwarder := mkForwarder { f_LocalHost : string; f_LocalPort : Z; f_MaxBody : Z }.

Definition NewForwarder (host : string) (port maxBody : Z) : Forwarder := mkForwarder host port maxBody.

Definition LocalAddr (f : Forwarder) : string := JoinHostPort (f_LocalHost f) (pretty (f_LocalPort f)).

(** A request to the local service. *)
Record outgoing := mkOutgoing {
  out_Method : string;
  out_URL : URL;
  out_Host : string;
  out_Header : header;
  out_Body : string;
  out_ContentLength : Z
}.

(** What stands in its request line. *)
Definition out_URI (o : outgoing) : string := RequestURI (out_URL o).

(** forwarder.go:294. *)
Definition buildLocalRequest (f : Forwarder) (orig : HttpRead.request) (body : string) : outgoing :=
  let u := mkURL "" (u_Path (rq_URL orig)) (u_RawPath (rq_URL orig)) (u_RawQuery (rq_URL orig)) false in
  let hdr := List.filter (fun p => negb (client_is_hop (fst p))) (rq_Header orig) in
  let hdr := h_Set hdr "Content-Length" (pretty (zslen body)) in
  if String.eqb body "" && negb (methodMayHaveBody (rq_Method orig))
  then mkOutgoing (rq_Method orig) u (LocalAddr f) (h_Del hdr "Content-Length") body 0
  else mkOutgoing (rq_Method orig) u (LocalAddr f) hdr body (zslen body).

(** forwarder.go:178. *)
Definition isUpgrade (h : header) : bool :=
  EqualFold (h_Get h "Connection") "upgrade" || negb (String.eqb (h_Get h "Upgrade") "").

(** forwarder.go:442: the reply as [http.Response.Write] writes it. *)
Definition writeRawError (status : Z) (msg : string) : string :=
  let body := msg +:+ nl in
  line ("HTTP/1.1 " +:+ pretty status +:+ " " +:+ StatusText status) +:+
  field "Content-Length" (pretty (zslen body)) +:+
  field "Content-Type" "text/plain; charset=utf-8" +:+ crlf +:+ body.

(** ** Serving one stream *)

(** What the outside decides: the text of the stream and how it ends, the clock
    at the start and at the end, the local round trip, the error of the stream if
    it does not take the response and how many reads of the body there were before
    that, whether the stream was aborted when that was looked at, and for an
    upgrade the dial and the first write. *)
Record serve_env := mkServeEnv {
  sv_text : string;
  sv_end : error;
  sv_start : Z;
  sv_now : Z;
  sv_round : message + chain;
  sv_teed : nat;
  sv_write : option error;
  sv_aborted : bool;
  sv_dial : option chain;
  sv_flush : option error
}.

(** What [Serve] did: the record, what it sent to the local service (a request,
    or for an upgrade the text on a raw connection), what it wrote to the stream
    by itself, the response it wrote there if the stream took all of it, and
    whether it closed the stream. *)
Record served := mkServed {
  sd_record : Record_;
  sd_request : option outgoing;
  sd_piped : option string;
  sd_raw : option string;
  sd_sent : option string;
  sd_closed : bool
}.

Definition errAbortedMsg : string := "aborted: the viewer disconnected or the tunnel closed".

Definition no_capture : limitedBuffer := mkLimited (Z.to_nat captureLimit) [] false.

(** [time.Since(start).Milliseconds()]. *)
Definition millis (start now : Z) : Z := (now - start) `quot` 1000000.

Definition new_record (start : Z) (replayed : bool) : Record_ :=
  mkRecord 0 start 0 replayed false "" "" "" [] "" false 0 [] "" false.

Definition with_error (msg : string) (r : Record_) : Record_ :=
  mkRecord (ID r) (Time r) (Duration r) (Replayed r) true msg (Method r) (Path r) (ReqHeaders r) (ReqBody r)
    (ReqTruncated r) (Status r) (RespHeaders r) (RespBody r) (RespTruncated r).
Definition with_target (m p : string) (h : header) (r : Record_) : Record_ :=
  mkRecord (ID r) (Time r) (Duration r) (Replayed r) (Errored r) (Error r) m p h (ReqBody r) (ReqTruncated r)
    (Status r) (RespHeaders r) (RespBody r) (RespTruncated r).
Definition with_body (body : string) (cut : bool) (r : Record_) : Record_ :=
  mkRecord (ID r) (Time r) (Duration r) (Replayed r) (Errored r) (Error r) (Method r) (Path r) (ReqHeaders r) body cut
    (Status r) (RespHeaders r) (RespBody r) (RespTruncated r).
Definition with_duration (d : Z) (r : Record_) : Record_ :=
  mkRecord (ID r) (Time r) d (Replayed r) (Errored r) (Error r) (Method r) (Path r) (ReqHeaders r) (ReqBody r)
    (ReqTruncated r) (Status r) (RespHeaders r) (RespBody r) (RespTruncated r).
Definition with_response (status : Z) (h : header) (cap : limitedBuffer) (r : Record_) : Record_ :=
  mkRecord (ID r) (Time r) (Duration r) (Replayed r) (Errored r) (Error r) (Method r) (Path r) (ReqHeaders r) (ReqBody r)
    (ReqTruncated r) status h (string_of_bytes (lb_buf cap)) (lb_truncated cap).

Section serve.
Context `{OtherURI, OtherBody, ErrorText}.

(** Every end closes the stream. *)
Definition ends (r : Record_) (out : option outgoing) (raw : option string) : served := mkServed r out None raw None true.

(** forwarder.go:204: the upgrade request as it is sent to the local service, and
    what follows it on the stream. *)
Definition upgrade_text (f : Forwarder) (req : HttpRead.request) : string :=
  sconcat ([line (rq_Method req +:+ " " +:+ RequestURI (rq_URL req) +:+ " HTTP/1.1"); field "Host" (LocalAddr f)] ++
    header_lines (List.filter (fun p => negb (EqualFold (fst p) "Host")) (rq_Header req)) ++
    [field "X-Forwarded-Host" (rq_Host req); field "X-Forwarded-Proto" "http"; crlf]) +:+ rq_Rest req.

Definition unreachable (f : Forwarder) (c : chain) : string :=
  "local service unreachable (" +:+ LocalAddr f +:+ "): " +:+ cause_text c.

Definition raw_unreachable (f : Forwarder) : string :=
  writeRawError 502 ("munnel: local service " +:+ LocalAddr f +:+ " unreachable").

(** forwarder.go:191. *)
Definition serveWebSocket (f : Forwarder) (v : serve_env) (req : HttpRead.request) (rec : Record_) : served :=
  let took := with_duration (millis (sv_start v) (sv_now v)) in
  match sv_dial v with
  | Some c => ends (took (with_error (unreachable f c) rec)) None (Some (raw_unreachable f))
  | None =>
      match sv_flush v with
      | Some e => ends (took (with_error ("local write failed: " +:+ error_text e) rec)) None None
      | None => mkServed (took (with_response 101 [] no_capture rec)) None (Some (upgrade_text f req)) None None true
      end
  end.

(** The response as [Response.Write] sees it: [resp.Request] is the request that
    was sent. *)
Definition answering (method : string) (m : message) : message :=
  mkMessage (ms_Major m) (ms_Minor m) (ms_Status m) (ms_Code m) (ms_Header m) (ms_ContentLength m) (ms_Chunked m)
    (ms_Close m) (ms_Uncompressed m) method (ms_Reads m) (ms_End m).

(** What the tee has copied: the body of a HEAD response is not read. *)
Definition teed (v : serve_env) (m : message) : list (list Byte.byte) :=
  if to_head m then []
  else bytes_of_string <$> (if sv_write v is None then ms_Reads m else take (sv_teed v) (ms_Reads m)).

(** forwarder.go:142-156: writing the response to the stream. The error is the
    stream's, or that of the body. *)
Definition write_response (v : serve_env) (m : message) : option string * option error :=
  match sv_write v with
  | Some e => (None, Some e)
  | None => (Some (sconcat (fst (Response_Write m))), snd (Response_Write m))
  end.

(** forwarder.go:100-164, with the body that was read. *)
Definition serve_request (f : Forwarder) (v : serve_env) (req : HttpRead.request) (body : string) (rec : Record_) : served :=
  let out := buildLocalRequest f req body in
  let took := with_duration (millis (sv_start v) (sv_now v)) in
  match sv_round v with
  | inr c =>
      ends (took (with_error (if sv_aborted v then errAbortedMsg else unreachable f c) rec)) (Some out)
        (Some (raw_unreachable f))
  | inl resp =>
      let resp := answering (out_Method out) resp in
      let '(sent, werr) := write_response v resp in
      let rec := with_response (ms_Code resp) (ms_Header resp) (foldl lb_Write no_capture (teed v resp)) rec in
      let rec := match werr with
                 | None => rec
                 | Some e => with_error (if sv_aborted v then errAbortedMsg else "tunnel write failed: " +:+ error_text e) rec
                 end in
      mkServed (took rec) (Some out) None None sent true
  end.

(** forwarder.go:74. *)
Definition Serve (f : Forwarder) (v : serve_env) : served :=
  let rec := new_record (sv_start v) false in
  match ReadRequest (sv_text v) (sv_end v) with
  | Err e =>
      ends (with_error ("malformed request from tunnel: " +:+ error_text e) rec) None
        (Some (writeRawError 400 "malformed request"))
  | Ok req =>
      let rec := with_target (rq_Method req) (RequestURI (rq_URL req)) (rq_Header req) rec in
      if isUpgrade (rq_Header req) then serveWebSocket f v req rec
      else
        match readAllLimited (rq_Eager req) (bytes_of_string (fst (rq_Body req))) (snd (rq_Body req)) (f_MaxBody f) with
        | Err e =>
            ends (with_error ("failed reading request body: " +:+ error_text e) rec) None
              (Some (writeRawError 400 "failed reading request body"))
        | Ok (body, over) =>
            let body := string_of_bytes body in
            let '(shown, cut) := truncateForDisplay body in
            let rec := with_body shown cut rec in
            if 0 <? over then
              ends (with_error "request body exceeds limit" rec) None (Some (writeRawError 413 "request body too large"))
            else serve_request f v req body rec
        end
  end.

(** ** Replaying (forwarder.go:252) *)

(** The request that is sent, or the refusal. *)
Definition Replay_request (f : Forwarder) (src : Record_) : result outgoing :=
  if ReqTruncated src then
    Err (Errorf "cannot replay: stored request body was truncated (capture limit %d bytes)" [pretty captureLimit])
  else
    Ok (mkOutgoing (Method src) (mkURL "" (urlPath (Path src)) "" (urlQuery (Path src)) false) (LocalAddr f)
          (h_Del (ReqHeaders src) "Host") (ReqBody src) (zslen (ReqBody src))).

(** Given what the local service answers; how reading its body ends is not looked
    at. *)
Definition Replay (f : Forwarder) (start now : Z) (round : outgoing -> message + chain) (src : Record_) : result Record_ :=
  match Replay_request f src with
  | Err e => Err e
  | Ok out =>
      let rec := with_body (ReqBody src) false (with_target (Method src) (Path src) [] (new_record start true)) in
      let took := with_duration (millis start now) in
      Ok (match round out with
          | inr c => took (with_error ("local service unreachable: " +:+ cause_text c) rec)
          | inl resp =>
              took (with_response (ms_Code resp) (ms_Header resp) (foldl lb_Write no_capture (bytes_of_string <$> ms_Reads resp)) rec)
          end)
  end.

End serve.

(** ** Lemmas *)

Lemma drain_spec eager rest over :
  drain eager rest over =
  over + (if eager then Z.max 0 (zlen rest - 1) else zlen rest).
Proof.
  revert over. induction rest as [|x rest IH]; intros over; [simpl; destruct eager; lia|].
  destruct rest as [|y rest]; [simpl; destruct eager; lia|].
  change (drain eager (x :: y :: rest) over) with (drain eager (y :: rest) (over + 1)).
  rewrite IH. cbn [length]. destruct eager; lia.
Qed.

Lemma lb_Write_spec l p :
  (length (lb_buf l) <= lb_limit l)%nat ->
  lb_limit (lb_Write l p) = lb_limit l /\
  lb_buf (lb_Write l p) = take (lb_limit l) (lb_buf l ++ p) /\
  lb_truncated (lb_Write l p) =
    lb_truncated l || (length (lb_buf l) =? lb_limit l)%nat || (lb_limit l <? length (lb_buf l) + length p)%nat.
Proof.
  intros Hl. unfold lb_Write. destruct (Z.ltb_spec 0 (Z.of_nat (lb_limit l) - zlen (lb_buf l))) as [Hr|Hr].
  - assert ((length (lb_buf l) =? lb_limit l)%nat = false) as -> by (apply Nat.eqb_neq; lia).
    rewrite orb_false_r. destruct (Z.ltb_spec (Z.of_nat (lb_limit l) - zlen (lb_buf l)) (zlen p)); simpl.
    + split; [done|]. rewrite take_app, (take_ge (lb_buf l)) by lia. split; [do 2 f_equal; lia|].
      rewrite (proj2 (Nat.ltb_lt _ _)) by lia. by rewrite orb_true_r.
    + split; [done|]. rewrite take_ge by (rewrite length_app; lia). split; [done|].
      rewrite (proj2 (Nat.ltb_ge _ _)) by lia. by rewrite orb_false_r.
  - assert (length (lb_buf l) = lb_limit l) as Heq by lia. simpl. split; [done|].
    rewrite <-Heq, take_app_length. split; [done|]. by rewrite Nat.eqb_refl, orb_true_r.
Qed.

(** Whatever the writes, the capture buffer holds the first [limit] bytes
    of what was written, and is marked truncated only if more was written than
    it holds or a write came when it was full. *)
Theorem capture_prefix limit ws :
  let l := foldl lb_Write (mkLimited limit [] false) ws in
  lb_buf l = take limit (concat ws) /\
  (lb_truncated l = false -> lb_buf l = concat ws) /\
  ((limit < length (concat ws))%nat -> lb_truncated l = true).
Proof.
  induction ws as [|w ws IH] using rev_ind; [simpl; rewrite take_nil; split_and!; [done..|simpl; lia]|].
  rewrite foldl_app, concat_app. simpl. rewrite app_nil_r.
  set (l := foldl lb_Write _ ws) in *. destruct IH as (Hb & Hf & Ht).
  assert (lb_limit l = limit /\ (length (lb_buf l) <= limit)%nat) as [Hlim Hlen].
  { subst l. clear. split.
    - induction ws as [|w ws IH] using rev_ind; [done|]. rewrite foldl_app. simpl.
      unfold lb_Write at 1. by repeat case_match.
    - assert (forall ws l, (length (lb_buf l) <= lb_limit l)%nat ->
        (length (lb_buf (foldl lb_Write l ws)) <= lb_limit l)%nat) as H.
      { induction ws0 as [|w ws0 IH]; intros l Hl; [done|]. simpl.
        destruct (lb_Write_spec l w Hl) as (Hlim & Hbuf & _). rewrite <-Hlim. apply IH.
        rewrite Hlim, Hbuf, length_take. lia. }
      apply (H ws (mkLimited limit [] false)). simpl. lia. }
  destruct (lb_Write_spec l w) as (_ & Hb' & Ht'); [by rewrite Hlim|].
  rewrite Hb', Ht', Hlim. split_and!.
  - rewrite Hb. rewrite take_app, (take_app (concat ws)), take_take, Nat.min_id, length_take. do 2 f_equal. lia.
  - intros [[H1 H2]%orb_false_iff H3]%orb_false_iff. rewrite (Hf H1). apply Nat.ltb_ge in H3.
    rewrite (Hf H1) in H3. apply take_ge. rewrite length_app. lia.
  - rewrite length_app. intros Hlt. destruct (lb_truncated l) eqn:E; [done|]. simpl.
    rewrite (Hf eq_refl). apply orb_true_iff. right. apply Nat.ltb_lt. lia.
Qed.

(** ** Properties *)

(** C40: Reading a bounded body keeps exactly its first [limit] bytes; the
    excess is noticed, except for one case: a body of exactly one byte too many
    whose reader returns its last byte together with the end of file is silently
    cut. *)
Theorem readAllLimited_exact eager data limit :
  0 < limit ->
  exists over, readAllLimited eager data io_EOF limit = Ok (take (Z.to_nat limit) data, over) /\
    (over = 0 <-> zlen data <= limit \/ (eager = true /\ zlen data = limit + 1)).
Proof.
  intros Hl. unfold readAllLimited. rewrite bool_decide_eq_true_2 by done.
  eexists. split; [done|]. rewrite drain_spec, length_drop. destruct eager; lia.
Qed.

Lemma readAllLimited_exact_witness :
  0 < 2 /\ exists over, readAllLimited true [Byte.x41; Byte.x42; Byte.x43] io_EOF 2 =
    Ok ([Byte.x41; Byte.x42], over) /\ over = 0.
Proof.
  split; [lia|].
  destruct (readAllLimited_exact true [Byte.x41; Byte.x42; Byte.x43] 2 ltac:(lia)) as (over & H & Ho).
  exists over. split; [exact H|]. apply Ho. right. split; reflexivity.
Defined.

Lemma RequestURI_safe path query :
  sall path_safe path = true -> path <> "" ->
  RequestURI (mkURL "" path "" query false) = path +:+ (if String.eqb query "" then "" else String "?" query).
Proof.
  intros Hs Hne. unfold RequestURI, EscapedPath. cbn [u_RawPath u_Path u_RawQuery u_ForceQuery String.eqb negb andb orb].
  destruct (String.eqb_spec path "*") as [->|_]; [done|]. rewrite escape_path_safe by done.
  rewrite (proj2 (String.eqb_neq path "")) by done. by destruct (String.eqb query "").
Qed.

(** Replaying a captured exchange sends the method, the body (with its
    length) and the path it was captured with, provided the path needs no
    percent-encoding; an exchange whose body was cut is refused. *)
Theorem replay_faithful f src :
  ReqTruncated src = false -> sall path_safe (urlPath (Path src)) = true ->
  urlPath (Path src) <> ""%string ->
  exists o, Replay_request f src = Ok o /\ out_Method o = Method src /\ out_Body o = ReqBody src /\
    out_ContentLength o = zslen (ReqBody src) /\ out_Host o = LocalAddr f /\
    (Path src = out_URI o \/ urlQuery (Path src) = ""%string) /\ urlPath (out_URI o) = urlPath (Path src).
Proof.
  intros Ht Hs Hne. unfold Replay_request. rewrite Ht. eexists. split; [done|]. split_and!; try done.
  all: unfold out_URI; cbn [out_URL]; rewrite RequestURI_safe by done.
  - destruct (String.eqb_spec (urlQuery (Path src)) ""); [by right|left].
    unfold urlPath, urlQuery in *. destruct (cut_byte "?" (Path src)) as [[a b]|] eqn:Hc; [|done].
    apply cut_byte_spec in Hc as [Heq _]. exact Heq.
  - assert (selem "?" (urlPath (Path src)) = false) as Hq by (by apply (sall_selem _ _ _ Hs)).
    destruct (String.eqb_spec (urlQuery (Path src)) "").
    + rewrite sapp_nil_r. unfold urlPath at 1. destruct (cut_byte "?" (urlPath (Path src))) as [[a b]|] eqn:Hc; [|done].
      apply cut_byte_spec in Hc as [Heq _]. rewrite Heq, selem_app in Hq. cbn in Hq. by rewrite orb_true_r in Hq.
    + unfold urlPath at 1. by rewrite cut_byte_app.
Qed.

(** A path that was captured percent-encoded is encoded again. *)
Example replay_double_escapes f src o :
  Path src = "/a%20b?x=1"%string -> Replay_request f src = Ok o -> out_URI o = "/a%2520b?x=1"%string.
Proof. unfold Replay_request. intros ->. destruct (ReqTruncated src); [done|]. by intros [= <-]. Qed.

Lemma buildLocalRequest_header f req body k :
  h_values (out_Header (buildLocalRequest f req body)) k =
    if String.eqb k "Content-Length" then
      if String.eqb body "" && negb (methodMayHaveBody (rq_Method req)) then [] else [pretty (zslen body)]
    else if client_is_hop k then [] else h_values (rq_Header req) k.
Proof.
  assert (forall h : header, h_values (List.filter (fun p => negb (client_is_hop (fst p))) h) k =
    if client_is_hop k then [] else h_values h k) as Hf
    by (intros h; rewrite (h_filter_values (fun x => negb (client_is_hop x))); by destruct (client_is_hop k)).
  unfold buildLocalRequest. destruct (_ && negb _); cbn [out_Header].
  - rewrite h_Del_values. destruct (String.eqb_spec "Content-Length" k) as [<-|Hne]; [done|].
    rewrite h_Set_values by congruence. rewrite (proj2 (String.eqb_neq k _)) by congruence. apply Hf.
  - destruct (String.eqb_spec k "Content-Length") as [->|Hne]; [by rewrite h_Set_same|].
    rewrite h_Set_values by done. apply Hf.
Qed.

Section facts.
Context `{OtherURI, OtherBody, ErrorText}.

(** A request that reads well and is within the limit goes to the local service. *)
Lemma Serve_forwards f v req body :
  ReadRequest (sv_text v) (sv_end v) = Ok req -> isUpgrade (rq_Header req) = false ->
  rq_Body req = (body, Sentinel io_EOF) -> zslen body <= f_MaxBody f ->
  exists rec, Serve f v = serve_request f v req body rec /\ Errored rec = false /\
    Method rec = rq_Method req /\ Path rec = RequestURI (rq_URL req).
Proof.
  intros Hr Hup Hb Hmax. unfold Serve. rewrite Hr, Hup, Hb. cbn [fst snd]. unfold readAllLimited.
  rewrite bool_decide_eq_true_2 by done. rewrite drain_spec, length_drop, take_ge by (rewrite length_bytes_of_string; lia).
  rewrite length_bytes_of_string. replace (String.length body - Z.to_nat (f_MaxBody f))%nat with 0%nat by lia.
  replace (0 <? 0 + (if rq_Eager req then Z.max 0 (Z.of_nat 0 - 1) else Z.of_nat 0)) with false
    by (by destruct (rq_Eager req)).
  rewrite string_of_bytes_of_string. destruct (truncateForDisplay body) as [shown cut]. by eexists.
Qed.

(** A request is sent on or its connection is piped, never both. *)
Lemma sent_not_piped f v : is_Some (sd_request (Serve f v)) -> sd_piped (Serve f v) = None.
Proof.
  unfold Serve. destruct (ReadRequest _ _) as [req|]; [|by intros [? ?]]. destruct (isUpgrade _).
  { unfold serveWebSocket. destruct (sv_dial v); [|destruct (sv_flush v)]; by intros [? ?]. }
  destruct (readAllLimited _ _ _ _) as [[b over]|]; [|by intros [? ?]]. destruct (truncateForDisplay _).
  destruct (0 <? over); [by intros [? ?]|]. unfold serve_request.
  destruct (sv_round v); [|done]. by destruct (write_response _ _).
Qed.

Lemma buildLocalRequest_method f req body : out_Method (buildLocalRequest f req body) = rq_Method req.
Proof. unfold buildLocalRequest. by destruct (_ && negb _). Qed.


End facts.
