(* ===== verification/Crossing.v ===== *)
(** * One request, from the viewer to the local service

    The server of Proxy.v writes the viewer's request on a stream, the forwarder
    of Forwarder.v reads it there and sends it to the local service: what the
    service sees of what the viewer sent. *)
From S2P Require Import Prelude GoStr GoText GoFmt Encoding Http GoUrl HttpRead HttpResponse Proto Token Auth Registry Control Proxy Inspect Forwarder.
From Stdlib Require Import Ascii.

(** ** The fields on the stream *)

Definition forwarded_fields (cfg : Config) (r : Request) : list (string * string) :=
  let xff := h_Get (q_Header r) "X-Forwarded-For" in
  [("X-Forwarded-For", if String.eqb xff "" then remoteIP (q_RemoteAddr r) else xff +:+ ", " +:+ remoteIP (q_RemoteAddr r));
   ("X-Forwarded-Host", q_Host r); ("X-Forwarded-Proto", PublicScheme cfg)].

Definition length_fields (r : Request) (body : string) : list (string * string) :=
  if (0 <? zslen body) || (0 <? q_ContentLength r) || methodHasBody (q_Method r)
  then [("Content-Length", pretty (zslen body))] else [].

Definition sent_fields (cfg : Config) (r : Request) (body : string) : list (string * string) :=
  ("Host", q_Host r) :: header_fields (end_to_end (q_Header r)) ++ forwarded_fields cfg r ++ length_fields r body.

(** The same for an upgrade, on its two legs. *)
Definition upgrade_fields (cfg : Config) (r : Request) : list (string * string) :=
  ("Host", q_Host r) :: header_fields (q_Header r) ++ forwarded_fields cfg r.

Definition local_fields (f : Forwarder) (req : HttpRead.request) : list (string * string) :=
  ("Host", LocalAddr f) :: header_fields (List.filter (fun p => negb (EqualFold (fst p) "Host")) (rq_Header req)) ++
  [("X-Forwarded-Host", rq_Host req); ("X-Forwarded-Proto", "http")].

(** ** Their text *)

Definition put (f : string * string) : string := field f.1 f.2.

Lemma put_line f : put f = field_line f +:+ nl.
Proof.
  destruct f as [k v]. unfold put, field, line, field_line. cbn [fst snd]. change crlf with (cr +:+ nl).
  by rewrite !sapp_assoc.
Qed.

Lemma put_lines m uri fs ls :
  sconcat (line (m +:+ " " +:+ uri +:+ " HTTP/1.1") :: (put <$> fs) ++ crlf :: ls) = request_text m uri fs (sconcat ls).
Proof.
  unfold request_text. rewrite <-message_lines. unfold line. change crlf with (cr +:+ nl). do 3 f_equal.
  apply list_fmap_ext. intros i f _. apply put_line.
Qed.

Lemma header_lines_fields h : header_lines h = put <$> header_fields h.
Proof.
  unfold header_lines, header_fields. induction h as [|[k vs] h IH]; [done|]. cbn [mbind list_bind].
  rewrite fmap_app, <-IH. f_equal. by rewrite <-list_fmap_compose.
Qed.

Lemma framed_text cfg r body :
  sconcat (framed_request cfg r body) = request_text (q_Method r) (q_RequestURI r) (sent_fields cfg r body) (body +:+ "").
Proof.
  change (body +:+ "") with (sconcat [body]). rewrite <-put_lines. f_equal.
  unfold framed_request, sent_fields, length_fields. rewrite header_lines_fields.
  rewrite fmap_cons, !fmap_app. cbn [app]. rewrite <-?app_assoc. by destruct (_ || methodHasBody _).
Qed.

Lemma upgrade_request_text cfg r frames :
  sconcat (upgrade_request cfg r ++ frames) =
  request_text (q_Method r) (q_RequestURI r) (upgrade_fields cfg r) (sconcat frames).
Proof.
  rewrite <-put_lines. f_equal. unfold upgrade_request, upgrade_fields. rewrite header_lines_fields.
  rewrite fmap_cons, fmap_app. cbn [app]. by rewrite <-?app_assoc.
Qed.

Lemma upgrade_text_text f req :
  upgrade_text f req = request_text (rq_Method req) (RequestURI (rq_URL req)) (local_fields f req) (rq_Rest req).
Proof.
  unfold upgrade_text. rewrite header_lines_fields. transitivity (request_text (rq_Method req) (RequestURI (rq_URL req)) (local_fields f req) "" +:+ rq_Rest req).
  - change (request_text ?m ?u ?fs "") with (request_text m u fs (sconcat [])). rewrite <-put_lines. f_equal. f_equal.
    unfold local_fields. rewrite fmap_cons, fmap_app. cbn [app]. by rewrite <-?app_assoc.
  - unfold request_text, message_text. by rewrite sapp_nil_r.
Qed.

(** ** Reading them back *)

Lemma end_to_end_values h k : h_values (end_to_end h) k = if is_hop k then [] else h_values h k.
Proof. unfold end_to_end. rewrite (h_filter_values (fun x => negb (is_hop x))). by destruct (is_hop k). Qed.

(** What net/http guarantees of a request it hands to the handler: a valid method;
    a target that was parsed; header keys that are canonical and distinct, without
    Host, and values without control characters or blanks around them; a
    Content-Length, if there is one, that tells the length of the body; Pragma
    translated. The host and the peer's address are single words. *)
Record viewer_ok `{OtherURI} (r : Request) (body : string) : Prop := {
  vo_method : q_Method r <> "" /\ sall token_char (q_Method r) = true /\ q_Method r <> "CONNECT";
  vo_target : exists s u, ParseRequestURI s = Ok u /\ (HasPrefix s "/" = true \/ s = "*") /\
                selem " " s = false /\ q_RequestURI r = RequestURI u;
  vo_keys : NoDup (q_Header r).*1 /\ h_values (q_Header r) "Host" = [];
  vo_fields : forall k v, (k, v) ∈ header_fields (q_Header r) -> field_ok (k, v) = true;
  vo_words : sall visible (q_Host r) = true /\ sall visible (remoteIP (q_RemoteAddr r)) = true /\
             remoteIP (q_RemoteAddr r) <> "";
  vo_length : zslen body < 2 ^ 63 /\ Forall (fun v => v = pretty (zslen body)) (h_values (q_Header r) "Content-Length");
  vo_pragma : h_Get (q_Header r) "Pragma" = "no-cache" -> h_values (q_Header r) "Cache-Control" <> []
}.

Section crossing.
Context `{OtherURI, OtherBody, ErrorText}.

Lemma forwarded_fields_ok cfg r body :
  viewer_ok r body -> PublicScheme cfg = "http" \/ PublicScheme cfg = "https" ->
  Forall (fun f => field_ok f = true) (forwarded_fields cfg r).
Proof.
  intros [_ _ _ Hf (Hh & Hip & Hne) _ _] Hsch. unfold forwarded_fields. repeat constructor.
    + destruct (String.eqb_spec (h_Get (q_Header r) "X-Forwarded-For") "") as [He|Hx]; [by apply visible_field|].
      assert (field_ok ("X-Forwarded-For", h_Get (q_Header r) "X-Forwarded-For") = true) as Hok.
      { apply Hf. unfold h_Get in *. destruct (h_values (q_Header r) "X-Forwarded-For") as [|v vs] eqn:Hv; [done|].
        apply elem_of_header_fields. exists (v :: vs). split; [|by left]. clear -Hv.
        induction (q_Header r) as [|[k0 vs0] h IH]; [done|]. cbn [h_values] in Hv.
        destruct (String.eqb_spec k0 "X-Forwarded-For") as [->|]; [subst; by left|right; by apply IH]. }
      apply field_ok_inv in Hok as (_ & _ & _ & Hv & Hhd & _). apply visible_value in Hip as (Hv2 & _ & Hr2).
      apply field_ok_intro; try done.
      * rewrite !sall_app, Hv, Hv2. done.
      * by destruct (h_Get (q_Header r) "X-Forwarded-For").
      * rewrite sapp_assoc. by apply srev_head.
    + by apply visible_field.
    + by apply visible_field; [|destruct Hsch as [-> | ->]].
Qed.

Lemma sent_fields_ok cfg r body :
  viewer_ok r body -> PublicScheme cfg = "http" \/ PublicScheme cfg = "https" ->
  Forall (fun f => field_ok f = true) (sent_fields cfg r body).
Proof.
  intros Hok Hsch. pose proof (forwarded_fields_ok _ _ _ Hok Hsch) as Hfw. destruct Hok as [_ _ _ Hf (Hh & _ & _) _ _].
  unfold sent_fields. constructor; [by apply visible_field|].
  repeat apply Forall_app_2; [|done|].
  - apply Forall_forall. intros [k v] (vs & Hin & Hv)%elem_of_header_fields. apply Hf, elem_of_header_fields. exists vs.
    by apply elem_of_end_to_end in Hin as [Hin _].
  - unfold length_fields. destruct (_ || methodHasBody _); [|done]. repeat constructor. apply visible_field; [done|].
    eapply sall_impl; [|apply pretty_Z_chars]. intros c. by destruct c as [[] [] [] [] [] [] [] []].
Qed.

Lemma sent_values cfg r body k :
  NoDup (q_Header r).*1 -> k <> "Host" ->
  field_values (sent_fields cfg r body) k =
    (if is_hop k then [] else h_values (q_Header r) k) ++ field_values (forwarded_fields cfg r) k ++
    field_values (length_fields r body) k.
Proof.
  intros Hnd Hk. unfold sent_fields. change (?x :: ?l) with ([x] ++ l). rewrite !field_values_app.
  rewrite header_fields_values by (by apply h_filter_nodup). rewrite end_to_end_values.
  unfold field_values at 1. cbn [omap list_omap fst]. by rewrite (proj2 (String.eqb_neq "Host" k)).
Qed.

Lemma length_values r body k :
  field_values (length_fields r body) k =
    if String.eqb k "Content-Length" && ((0 <? zslen body) || (0 <? q_ContentLength r) || methodHasBody (q_Method r))
    then [pretty (zslen body)] else [].
Proof.
  unfold length_fields, field_values. rewrite (String.eqb_sym k). destruct (_ || methodHasBody _); cbn [omap list_omap fst snd];
    by destruct (String.eqb "Content-Length" k).
Qed.

Lemma forwarded_values cfg r k :
  existsb (String.eqb k) ["X-Forwarded-For"; "X-Forwarded-Host"; "X-Forwarded-Proto"] = false ->
  field_values (forwarded_fields cfg r) k = [].
Proof.
  cbn [existsb]. intros [H1' [H2' [H3' _]%orb_false_iff]%orb_false_iff]%orb_false_iff.
  unfold forwarded_fields, field_values. cbn [omap list_omap fst snd]. by rewrite !(String.eqb_sym _ k), H1', H2', H3'.
Qed.

Lemma target_stable r body :
  viewer_ok r body ->
  exists u, target (q_Method r) (q_RequestURI r) = Ok u /\ u_Host u = "" /\ RequestURI u = q_RequestURI r /\
    line_ok (q_Method r) (q_RequestURI r) /\ (u_ForceQuery u = true -> u_RawQuery u = "").
Proof.
  intros [(Hm & Ht & Hc) (s & u0 & Hp & Hs & Hsp & Huri) _ _ _ _ _].
  destruct (ParseRequestURI_stable s u0 Hp Hs) as (u & Hu & Hru & _ & Hq & Hf & He & Hh).
  destruct (ParseRequestURI_shape s u0 Hp Hs) as (Hv & Hfq & Hsel).
  exists u. rewrite Huri. split_and!; [|done|done| |by rewrite Hf, Hq].
  - unfold target. by rewrite (proj2 (String.eqb_neq _ _) Hc).
  - assert (selem newline s = false) as Hnl.
    { unfold ParseRequestURI in Hp. destruct (negb (sall _ s)) eqn:Hctl; [done|]. apply negb_false_iff in Hctl.
      by apply (sall_selem _ _ _ Hctl). }
    split_and!; [done|done|by apply RequestURI_none; auto|by apply RequestURI_none; auto].
Qed.

Lemma serve_sends f v req body :
  ReadRequest (sv_text v) (sv_end v) = Ok req -> isUpgrade (rq_Header req) = false ->
  rq_Body req = (body, Sentinel io_EOF) -> zslen body <= f_MaxBody f ->
  sd_request (Serve f v) = Some (buildLocalRequest f req body) /\
  Method (sd_record (Serve f v)) = rq_Method req /\ Path (sd_record (Serve f v)) = RequestURI (rq_URL req).
Proof.
  intros Hr Hup Hb Hmax. destruct (Serve_forwards f v req body Hr Hup Hb Hmax) as (rec & -> & _ & <- & <-).
  unfold serve_request, write_response. destruct (sv_round v) as [resp|c]; [|done].
  by destruct (sv_write v); [|destruct (snd (Response_Write _))].
Qed.

Lemma told_length cfg r body :
  viewer_ok r body -> length_told (sent_fields cfg r body) body.
Proof.
  intros [_ _ (Hnd & _) _ _ (Hlen & Hcl) _]. unfold length_told. rewrite sent_values, length_values by done.
  rewrite forwarded_values by done. change (is_hop "Content-Length") with false. cbn [app String.eqb]. split; [done|]. split.
  - apply Forall_app. split; [done|]. by destruct (_ && _); repeat constructor.
  - intros [_ Hn]%app_nil. destruct (Z.ltb_spec 0 (zslen body)); [done|by destruct body].
Qed.

(** The fields that are sent are those of a request that reads well. *)
Lemma sent_ok cfg r body :
  viewer_ok r body ->
  field_values (sent_fields cfg r body) "Host" = [q_Host r] /\
  field_values (sent_fields cfg r body) "Transfer-Encoding" = [] /\ pragma_ok (sent_fields cfg r body) /\
  forall k, k <> "Host" -> k <> "Content-Length" -> field_values (sent_fields cfg r body) k =
    (if is_hop k then [] else h_values (q_Header r) k) ++ field_values (forwarded_fields cfg r) k.
Proof.
  intros Hok. pose proof Hok as [_ _ (Hnd & Hnh) _ _ _ Hprag].
  assert (forall k, k <> "Host" -> k <> "Content-Length" -> field_values (sent_fields cfg r body) k =
    (if is_hop k then [] else h_values (q_Header r) k) ++ field_values (forwarded_fields cfg r) k) as Hsent.
  { intros k Hk Hc. rewrite sent_values, length_values by done. rewrite (proj2 (String.eqb_neq k _) Hc). by rewrite app_nil_r. }
  split_and!; [| | |done].
  - unfold sent_fields, field_values. cbn [omap list_omap fst snd String.eqb]. fold (field_values (header_fields (end_to_end (q_Header r)) ++ forwarded_fields cfg r ++ length_fields r body) "Host").
    by rewrite !field_values_app, header_fields_values, end_to_end_values, Hnh, forwarded_values, length_values by (done || by apply h_filter_nodup).
  - by rewrite Hsent, forwarded_values by done.
  - unfold pragma_ok. rewrite !Hsent, !forwarded_values, !app_nil_r by done.
    change (is_hop "Pragma") with false. change (is_hop "Cache-Control") with false. cbn iota. intros Hp. apply Hprag.
    unfold h_Get. by destruct (h_values (q_Header r) "Pragma").
Qed.

(** A request that was sent is no upgrade to the forwarder. *)
Lemma sent_no_upgrade cfg r body h :
  viewer_ok r body ->
  (forall k, k <> "Host" -> k <> "Content-Length" -> h_values h k = field_values (sent_fields cfg r body) k) ->
  isUpgrade h = false.
Proof.
  intros Hok Hv. destruct (sent_ok cfg r body Hok) as (_ & _ & _ & Hsent).
  unfold isUpgrade, h_Get. rewrite !Hv by done. by rewrite !Hsent, !forwarded_values by done.
Qed.

(** What the forwarder reads of a request that was sent. *)
Lemma request_read cfg r body e :
  viewer_ok r body -> PublicScheme cfg = "http" \/ PublicScheme cfg = "https" ->
  exists req u, ReadRequest (sconcat (framed_request cfg r body)) e = Ok req /\
    rq_Method req = q_Method r /\ rq_URL req = u /\ RequestURI u = q_RequestURI r /\
    (u_ForceQuery u = true -> u_RawQuery u = "") /\
    isUpgrade (rq_Header req) = false /\ rq_Body req = (body, Sentinel io_EOF) /\
    forall k, h_values (rq_Header req) k =
      if String.eqb k "Host" then [] else if String.eqb k "Content-Length" then take 1 (field_values (sent_fields cfg r body) k)
      else field_values (sent_fields cfg r body) k.
Proof.
  intros Hok Hsch. destruct (target_stable r body Hok) as (u & Hu & Hhost & Huri & Hline & Hforce).
  destruct (sent_ok cfg r body Hok) as (Hhv & Hte & Hprag & _).
  destruct (ReadRequest_ok (q_Method r) (q_RequestURI r) u e (sent_fields cfg r body) body "" (q_Host r))
    as (req & Hr & Hm & Hru & _ & Hb & _ & _ & _ & Hv); try done; [by apply sent_fields_ok|by apply told_length|].
  rewrite <-framed_text in Hr. exists req, u. split_and!; try done.
  apply (sent_no_upgrade cfg r body); [done|]. intros k Hk Hc. by rewrite Hv, !(proj2 (String.eqb_neq k _)).
Qed.

(** Of a part of it. *)
Lemma request_cut cfg r body e p t :
  viewer_ok r body -> PublicScheme cfg = "http" \/ PublicScheme cfg = "https" ->
  sconcat (framed_request cfg r body) = p +:+ t -> t <> "" ->
  (exists err, ReadRequest p e = Err err) \/
  exists req, ReadRequest p e = Ok req /\ snd (rq_Body req) <> Sentinel io_EOF /\ isUpgrade (rq_Header req) = false.
Proof.
  intros Hok Hsch Heq Hne. destruct (target_stable r body Hok) as (u & Hu & Hhost & _ & Hline & _).
  destruct (sent_ok cfg r body Hok) as (Hhv & Hte & Hprag & _). rewrite framed_text, sapp_nil_r in Heq.
  destruct (ReadRequest_cut (q_Method r) (q_RequestURI r) u e (sent_fields cfg r body) body (q_Host r) p t)
    as [?|(req & Hr & Hb & Hv)]; try done; [by apply sent_fields_ok|by apply told_length|by left|].
  right. exists req. split_and!; [done..|]. by apply (sent_no_upgrade cfg r body).
Qed.

(** The request of the viewer, as it is to reach the local service. *)
Definition same_request (cfg : Config) (f : Forwarder) (r : Request) (body : string) (out : outgoing) : Prop :=
  out_Method out = q_Method r /\ out_Host out = LocalAddr f /\ out_Body out = body /\
  (q_RequestURI r = out_URI out \/ q_RequestURI r = out_URI out +:+ "?") /\
  forall k, h_values (out_Header out) k =
    if String.eqb k "Content-Length" then
      if String.eqb body "" && negb (methodMayHaveBody (q_Method r)) then [] else [pretty (zslen body)]
    else if String.eqb k "Host" || client_is_hop k || is_hop k then []
    else h_values (q_Header r) k ++ field_values (forwarded_fields cfg r) k.

Lemma request_forwarded cfg f r body v :
  viewer_ok r body -> PublicScheme cfg = "http" \/ PublicScheme cfg = "https" -> zslen body <= f_MaxBody f ->
  sv_text v = sconcat (framed_request cfg r body) ->
  exists out, sd_request (Serve f v) = Some out /\
    Method (sd_record (Serve f v)) = q_Method r /\ Path (sd_record (Serve f v)) = q_RequestURI r /\
    same_request cfg f r body out.
Proof.
  intros Hok Hsch Hmax Htext. destruct (request_read cfg r body (sv_end v) Hok Hsch)
    as (req & u & Hr & Hm & Hru & Huri & Hforce & Hup & Hb & Hv). rewrite <-Htext in Hr.
  destruct (sent_ok cfg r body Hok) as (_ & _ & _ & Hsent).
  destruct (serve_sends f v req body Hr Hup Hb Hmax) as (Hs & Hsm & Hsp).
  exists (buildLocalRequest f req body). split; [done|]. rewrite Hsm, Hsp, Hm, Hru, Huri.
  assert (out_Method (buildLocalRequest f req body) = q_Method r /\ out_Host (buildLocalRequest f req body) = LocalAddr f /\
    out_Body (buildLocalRequest f req body) = body /\
    out_URL (buildLocalRequest f req body) = mkURL "" (u_Path u) (u_RawPath u) (u_RawQuery u) false) as (H1' & H2' & H3' & H4').
  { unfold buildLocalRequest. rewrite Hm, Hru. by destruct (_ && negb _). }
  unfold same_request. split_and!; try done.
  - unfold out_URI. rewrite H4', <-Huri, (RequestURI_unforced u Hforce). destruct (u_ForceQuery u); [by right|left].
    by rewrite sapp_nil_r.
  - intros k. rewrite buildLocalRequest_header, Hm, Hv. destruct (String.eqb_spec k "Content-Length") as [->|Hc]; [done|].
    destruct (String.eqb_spec k "Host") as [->|Hh]; [by destruct (client_is_hop "Host")|]. cbn [orb].
    destruct (client_is_hop k) eqn:Hch; [done|]. cbn [orb]. rewrite Hsent by done.
    destruct (is_hop k) eqn:Hhop; [|done]. rewrite forwarded_values; [done|].
    cbn [existsb]. destruct (String.eqb_spec k "X-Forwarded-For") as [->|]; [by vm_compute in Hhop|].
    destruct (String.eqb_spec k "X-Forwarded-Host") as [->|]; [by vm_compute in Hhop|].
    by destruct (String.eqb_spec k "X-Forwarded-Proto") as [->|]; [vm_compute in Hhop|].
Qed.

(** A part of a request is not sent on. *)
Lemma cut_request_dropped cfg f r body v t :
  viewer_ok r body -> PublicScheme cfg = "http" \/ PublicScheme cfg = "https" ->
  sconcat (framed_request cfg r body) = sv_text v +:+ t -> t <> "" ->
  sd_request (Serve f v) = None /\ sd_piped (Serve f v) = None.
Proof.
  intros Hok Hsch Heq Hne. unfold Serve.
  destruct (request_cut cfg r body (sv_end v) (sv_text v) t Hok Hsch Heq Hne) as [[err ->]|(req & -> & Hb & ->)]; [done|].
  unfold readAllLimited. by rewrite (bool_decide_eq_false_2 _ Hb).
Qed.

(** C4: A viewer's request crosses the tunnel: what the server writes on the
    stream, the forwarder reads and sends to the local service with the same
    method, target (but for a lone question mark at its end) and body, under the
    local host's name; every end-to-end header arrives with exactly the viewer's
    values, hop-by-hop headers do not, the three forwarding headers have what the
    server knows behind whatever the viewer sent, and Content-Length tells the
    length of the body. The record shows the viewer's method and target. *)
Theorem request_crosses cfg f r body v :
  viewer_ok r body -> PublicScheme cfg = "http" \/ PublicScheme cfg = "https" -> zslen body <= f_MaxBody f ->
  sv_text v = sconcat (framed_request cfg r body) ->
  exists out,
    sd_request (Serve f v) = Some out /\
    Method (sd_record (Serve f v)) = q_Method r /\ Path (sd_record (Serve f v)) = q_RequestURI r /\
    out_Method out = q_Method r /\ out_Host out = LocalAddr f /\ out_Body out = body /\
    (q_RequestURI r = out_URI out \/ q_RequestURI r = out_URI out +:+ "?") /\
    forall k, h_values (out_Header out) k =
      if String.eqb k "Content-Length" then
        if String.eqb body "" && negb (methodMayHaveBody (q_Method r)) then [] else [pretty (zslen body)]
      else if String.eqb k "Host" || client_is_hop k || is_hop k then []
      else h_values (q_Header r) k ++ field_values (forwarded_fields cfg r) k.
Proof.
  intros Hok Hsch Hmax Htext. destruct (request_forwarded cfg f r body v Hok Hsch Hmax Htext) as (out & ? & ? & ? & Hsame).
  by exists out.
Qed.

(** ** An upgrade *)

Lemma upgrade_values cfg r k :
  NoDup (q_Header r).*1 -> k <> "Host" ->
  field_values (upgrade_fields cfg r) k = h_values (q_Header r) k ++ field_values (forwarded_fields cfg r) k.
Proof.
  intros Hnd Hk. unfold upgrade_fields. change (?x :: ?l) with ([x] ++ l).
  rewrite !field_values_app, header_fields_values by done.
  unfold field_values at 1. cbn [omap list_omap fst]. by rewrite (proj2 (String.eqb_neq "Host" k)).
Qed.

Lemma local_values f req k :
  NoDup (rq_Header req).*1 -> k <> "Host" ->
  field_values (local_fields f req) k =
    (if EqualFold k "Host" then [] else h_values (rq_Header req) k) ++
    field_values [("X-Forwarded-Host", rq_Host req); ("X-Forwarded-Proto", "http")] k.
Proof.
  intros Hnd Hk. unfold local_fields. change (("Host", ?x) :: ?l) with ([("Host", x)] ++ l).
  rewrite !field_values_app, header_fields_values by (by apply h_filter_nodup).
  rewrite (h_filter_values (fun x => negb (EqualFold x "Host"))).
  unfold field_values at 1. cbn [omap list_omap fst]. rewrite (proj2 (String.eqb_neq "Host" k)) by done.
  by destruct (EqualFold k "Host").
Qed.

Lemma host_values (h : header) a fs :
  NoDup h.*1 -> h_values h "Host" = [] -> field_values fs "Host" = [] ->
  field_values (("Host", a) :: header_fields h ++ fs) "Host" = [a].
Proof.
  intros Hnd Hh Hf. change (("Host", a) :: ?l) with ([("Host", a)] ++ l).
  by rewrite !field_values_app, header_fields_values, Hh, Hf.
Qed.

Lemma LocalAddr_visible f : sall visible (f_LocalHost f) = true -> sall visible (LocalAddr f) = true.
Proof.
  intros Hh. assert (sall visible (pretty (f_LocalPort f)) = true) as Hp
    by (eapply sall_impl; [|apply pretty_Z_chars]; intros c; by destruct c as [[] [] [] [] [] [] [] []]).
  unfold LocalAddr, JoinHostPort. destruct (_ || _); by rewrite !sall_app, Hh, Hp.
Qed.

Lemma Forall_take_1 {A} (P : A -> Prop) (l : list A) : Forall P l -> Forall P (take 1 l).
Proof. intros Hl. destruct l; [done|]. apply Forall_cons in Hl as [Hx _]. by repeat constructor. Qed.

(** The first leg: what the forwarder reads. *)
Lemma upgrade_read cfg r frames e :
  viewer_ok r "" -> PublicScheme cfg = "http" \/ PublicScheme cfg = "https" ->
  h_values (q_Header r) "Transfer-Encoding" = [] ->
  exists req, ReadRequest (sconcat (upgrade_request cfg r ++ frames)) e = Ok req /\
    rq_Method req = q_Method r /\ target (q_Method r) (q_RequestURI r) = Ok (rq_URL req) /\ u_Host (rq_URL req) = "" /\
    RequestURI (rq_URL req) = q_RequestURI r /\ rq_Host req = q_Host r /\ rq_Rest req = sconcat frames /\
    NoDup (rq_Header req).*1 /\
    forall k, h_values (rq_Header req) k =
      if String.eqb k "Host" then [] else if String.eqb k "Content-Length" then take 1 (h_values (q_Header r) k)
      else h_values (q_Header r) k ++ field_values (forwarded_fields cfg r) k.
Proof.
  intros Hok Hsch Hte. destruct (target_stable r "" Hok) as (u & Hu & Hhost & Huri & Hline & _).
  pose proof (forwarded_fields_ok cfg r "" Hok Hsch) as Hfw. pose proof Hok as [_ _ (Hnd & Hnh) Hf (Hvis & _) (_ & Hcl) Hprag].
  assert (forall k, k <> "Host" -> field_values (upgrade_fields cfg r) k =
    h_values (q_Header r) k ++ field_values (forwarded_fields cfg r) k) as Hup by (intros k; by apply upgrade_values).
  destruct (ReadRequest_ok (q_Method r) (q_RequestURI r) u e (upgrade_fields cfg r) "" (sconcat frames) (q_Host r))
    as (req & Hr & Hm & Hru & Hq & _ & _ & Hrest & Hnd' & Hv); try done.
  - unfold upgrade_fields. constructor; [by apply visible_field|]. apply Forall_app_2; [|done].
    apply Forall_forall. intros [k v]. apply Hf.
  - by apply host_values; [| |rewrite forwarded_values].
  - by rewrite Hup, Hte, forwarded_values by done.
  - unfold pragma_ok. rewrite !Hup, !forwarded_values, !app_nil_r by done. intros Hp. apply Hprag.
    unfold h_Get. by destruct (h_values (q_Header r) "Pragma").
  - unfold length_told. rewrite Hup, forwarded_values, app_nil_r by done. by split_and!.
  - exists req. rewrite upgrade_request_text. split_and!; try done; try congruence.
    intros k. rewrite Hv. destruct (String.eqb_spec k "Host") as [->|Hk]; [done|]. rewrite Hup by done.
    destruct (String.eqb_spec k "Content-Length") as [->|]; [|done]. by rewrite forwarded_values, app_nil_r by done.
Qed.

(** The second leg: what the local service reads of a request that reads well. *)
Lemma local_read f req fs e :
  line_ok (rq_Method req) (RequestURI (rq_URL req)) ->
  target (rq_Method req) (RequestURI (rq_URL req)) = Ok (rq_URL req) -> u_Host (rq_URL req) = "" ->
  sall visible (LocalAddr f) = true -> sall visible (rq_Host req) = true ->
  NoDup (rq_Header req).*1 -> Forall (fun f => field_ok f = true) fs ->
  (forall k v, v ∈ h_values (rq_Header req) k -> v ∈ field_values fs k) ->
  h_values (rq_Header req) "Host" = [] -> h_values (rq_Header req) "Transfer-Encoding" = [] ->
  Forall (fun v => v = pretty 0) (h_values (rq_Header req) "Content-Length") ->
  (h_Get (rq_Header req) "Pragma" = "no-cache" -> h_values (rq_Header req) "Cache-Control" <> []) ->
  exists got, ReadRequest (upgrade_text f req) e = Ok got /\
    rq_Method got = rq_Method req /\ rq_URL got = rq_URL req /\ rq_Host got = LocalAddr f /\ rq_Rest got = rq_Rest req /\
    forall k, h_values (rq_Header got) k =
      if EqualFold k "Host" then [] else if String.eqb k "Content-Length" then take 1 (h_values (rq_Header req) k)
      else h_values (rq_Header req) k ++ field_values [("X-Forwarded-Host", rq_Host req); ("X-Forwarded-Proto", "http")] k.
Proof.
  intros Hline Hu Hhost Hla Hvis Hnd Hf Hin Hnh Hte Hcl Hprag.
  set (h := List.filter (fun p => negb (EqualFold (fst p) "Host")) (rq_Header req)).
  assert (NoDup h.*1) as Hndh by (by apply h_filter_nodup).
  assert (forall k, h_values h k = if EqualFold k "Host" then [] else h_values (rq_Header req) k) as Hh.
  { intros k. unfold h. rewrite (h_filter_values (fun x => negb (EqualFold x "Host"))). by destruct (EqualFold k "Host"). }
  assert (forall k, k <> "Host" -> field_values (local_fields f req) k =
    (if EqualFold k "Host" then [] else h_values (rq_Header req) k) ++
    field_values [("X-Forwarded-Host", rq_Host req); ("X-Forwarded-Proto", "http")] k) as Hl by (intros k; by apply local_values).
  assert (field_values [("X-Forwarded-Host", rq_Host req); ("X-Forwarded-Proto", "http")] "Content-Length" = [])
    as Hnone by done.
  destruct (ReadRequest_ok (rq_Method req) (RequestURI (rq_URL req)) (rq_URL req) e (local_fields f req) "" (rq_Rest req) (LocalAddr f))
    as (got & Hr & Hm & Hru & Hq & _ & _ & Hrest & _ & Hv); try done.
  - unfold local_fields. fold h. constructor; [by apply visible_field|]. apply Forall_app_2.
    + apply (header_fields_ok h fs); [done..|]. intros k v. rewrite Hh. destruct (EqualFold k "Host"); [by intros ?%elem_of_nil|apply Hin].
    + repeat constructor; by apply visible_field.
  - unfold local_fields. fold h. apply host_values; [done| |done]. by rewrite Hh.
  - rewrite Hl by done. change (EqualFold "Transfer-Encoding" "Host") with false. by rewrite Hte.
  - unfold pragma_ok. rewrite !Hl by done. change (EqualFold "Pragma" "Host") with false.
    change (EqualFold "Cache-Control" "Host") with false. cbn iota. intros Hp. intros [Hcc _]%app_nil. apply Hprag; [|done].
    unfold h_Get. destruct (h_values (rq_Header req) "Pragma"); [by vm_compute in Hp|done].
  - unfold length_told. rewrite Hl by done. change (EqualFold "Content-Length" "Host") with false. cbn iota.
    by rewrite Hnone, app_nil_r.
  - exists got. rewrite upgrade_text_text. split_and!; try done. intros k. rewrite Hv.
    destruct (String.eqb_spec k "Host") as [->|Hk]; [done|]. rewrite Hl by done.
    destruct (String.eqb_spec k "Content-Length") as [->|Hc].
    + change (EqualFold "Content-Length" "Host") with false. cbn iota.
      by rewrite Hnone, app_nil_r.
    + destruct (EqualFold k "Host") eqn:Hef; [|done]. cbn [app].
      destruct (String.eqb_spec "X-Forwarded-Host" k) as [<-|H1']; [by vm_compute in Hef|].
      destruct (String.eqb_spec "X-Forwarded-Proto" k) as [<-|H2']; [by vm_compute in Hef|].
      unfold field_values. cbn [omap list_omap fst snd].
      by rewrite (proj2 (String.eqb_neq _ _) H1'), (proj2 (String.eqb_neq _ _) H2').
Qed.

(** C7: A protocol upgrade crosses the tunnel: what the local service reads on its
    raw connection is the viewer's request, with the same method, target and
    end-to-end and hop-by-hop headers (Connection and Upgrade among them), under
    the local host's name and with nothing missing behind it; only the forwarding
    headers differ, which the server adds behind the viewer's and the client adds
    once more. The exchange is on record as switched. *)
Theorem upgrade_crosses cfg f r frames v e :
  viewer_ok r "" -> PublicScheme cfg = "http" \/ PublicScheme cfg = "https" ->
  h_values (q_Header r) "Transfer-Encoding" = [] -> Proxy.isUpgrade r = true ->
  sall visible (f_LocalHost f) = true ->
  sv_text v = sconcat (ws_sent (proxyWebSocket cfg r true (Ok tt) (Ok tt) None frames)) ->
  sv_dial v = None -> sv_flush v = None ->
  exists text got,
    sd_piped (Serve f v) = Some text /\ Inspect.Status (sd_record (Serve f v)) = 101 /\
    Method (sd_record (Serve f v)) = q_Method r /\ Path (sd_record (Serve f v)) = q_RequestURI r /\
    ReadRequest text e = Ok got /\ rq_Method got = q_Method r /\ RequestURI (rq_URL got) = q_RequestURI r /\
    rq_Host got = LocalAddr f /\ rq_Rest got = frames /\
    forall k, h_values (rq_Header got) k =
      if EqualFold k "Host" then [] else if String.eqb k "Content-Length" then take 1 (h_values (q_Header r) k)
      else h_values (q_Header r) k ++ field_values (forwarded_fields cfg r) k ++
           field_values [("X-Forwarded-Host", q_Host r); ("X-Forwarded-Proto", "http")] k.
Proof.
  intros Hok Hsch Hte Hup Hlh Htext Hdial Hflush.
  destruct (upgrade_read cfg r (if String.eqb frames "" then [] else [frames]) (sv_end v) Hok Hsch Hte)
    as (req & Hr & Hm & Hu & Hh & Huri & Hhost & Hrest & Hnd & Hv).
  change (ws_sent _) with (upgrade_request cfg r ++ if String.eqb frames "" then [] else [frames]) in Htext.
  rewrite <-Htext in Hr.
  assert (Hreq : isUpgrade (rq_Header req) = true).
  { unfold isUpgrade, Proxy.isUpgrade, h_Get in *. rewrite !Hv. cbn [String.eqb]. by rewrite !forwarded_values, !app_nil_r by done. }
  destruct (target_stable r "" Hok) as (_ & _ & _ & _ & Hline & _).
  pose proof Hok as [_ _ (_ & Hnh) Hf (Hvis & _) (_ & Hcl) Hprag].
  destruct (local_read f req (upgrade_fields cfg r) e) as (got & Hg & Hgm & Hgu & Hgh & Hgr & Hgv);
    rewrite ?Hm, ?Huri, ?Hhost; try done.
  - by apply LocalAddr_visible.
  - unfold upgrade_fields. constructor; [by apply visible_field|].
    apply Forall_app_2; [apply Forall_forall; intros [k x]; apply Hf|by eapply forwarded_fields_ok].
  - intros k x. rewrite Hv. destruct (String.eqb_spec k "Host") as [->|Hk]; [by intros ?%elem_of_nil|].
    rewrite upgrade_values by (done || apply Hok). destruct (String.eqb k "Content-Length"); [|done].
    intros Hx. apply elem_of_app. left. by eapply elem_of_take_1.
  - rewrite Hv. cbn [String.eqb]. by rewrite Hte, forwarded_values.
  - rewrite Hv. by apply Forall_take_1.
  - unfold h_Get. rewrite !Hv. cbn [String.eqb]. rewrite !forwarded_values, !app_nil_r by done. exact Hprag.
  - exists (upgrade_text f req), got. unfold Serve. rewrite Hr, Hreq. unfold serveWebSocket. rewrite Hdial, Hflush.
    cbn [sd_piped sd_record Inspect.Status Method Path with_duration with_response with_target new_record].
    rewrite Hgm, Hgu, Hm, Huri. split_and!; try done.
    + rewrite Hgr, Hrest. destruct (String.eqb_spec frames "") as [->|]; [done|]. apply sapp_nil_r.
    + intros k. rewrite Hgv, Hv, Hhost. destruct (EqualFold k "Host") eqn:Hef; [done|].
      destruct (String.eqb_spec k "Host") as [->|]; [by vm_compute in Hef|].
      destruct (String.eqb k "Content-Length"); [|by rewrite <-app_assoc].
      by destruct (h_values (q_Header r) k).
Qed.

End crossing.

(** ** Concrete instances *)

#[local] Instance sample_uri : OtherURI := fun _ => Err io_EOF.
#[local] Instance sample_encoded : OtherBody := fun _ _ _ => Err io_EOF.
#[local] Instance sample_text : ErrorText := fun e => match e with Errorf f _ => f | _ => "" end.

Definition sample_cfg : Config :=
  Control.New (Control.mkConfig "t.example" "" "" "" "" false "443" "https" 0 None false "" 0 0 0).
Definition sample_forwarder : Forwarder := NewForwarder "127.0.0.1" 3000 1048576.
Definition sample_viewer (uri len : string) : Request :=
  Http.mkRequest "POST" "hop.t.example" "/a b" uri (fun _ => None) (Ok (fun _ => ""))
    [("Content-Length", [len]); ("Accept", ["*/*"; "text/html"]); ("Connection", ["keep-alive"]); ("Te", ["trailers"]);
     ("X-Forwarded-For", ["9.9.9.9"])]
    [] 5 (Some ("hello", None)) "1.2.3.4:5" true.
Definition sample_serve (r : Request) : serve_env :=
  mkServeEnv (sconcat (framed_request sample_cfg r "hello")) io_EOF 1 5000001 (inr (Plain "")) 0 None false None None.

Lemma sample_viewer_ok : viewer_ok (sample_viewer "/a%20b?x=1" "5") "hello".
Proof.
  split.
  - by split_and!.
  - exists "/a%20b?x=1". eexists. split; [vm_compute; reflexivity|]. split; [by left|]. split; [done|]. vm_compute. reflexivity.
  - split; [apply (bool_decide_unpack _); vm_compute; exact I|done].
  - assert (Forall (fun f => field_ok f = true) (header_fields (q_Header (sample_viewer "/a%20b?x=1" "5")))) as Hf
      by (apply (bool_decide_unpack _); vm_compute; exact I).
    intros k v Hin. rewrite Forall_forall in Hf. exact (Hf _ Hin).
  - split_and!; [by vm_compute|by vm_compute|by vm_compute].
  - split; [done|]. by repeat constructor.
  - done.
Qed.

Lemma request_crosses_witness :
  exists out, sd_request (Serve sample_forwarder (sample_serve (sample_viewer "/a%20b?x=1" "5"))) = Some out /\
    out_Body out = "hello" /\ h_values (out_Header out) "Accept" = ["*/*"; "text/html"] /\
    h_values (out_Header out) "X-Forwarded-For" = ["9.9.9.9"; "9.9.9.9, 1.2.3.4"].
Proof.
  destruct (request_crosses sample_cfg sample_forwarder (sample_viewer "/a%20b?x=1" "5") "hello"
    (sample_serve (sample_viewer "/a%20b?x=1" "5")) sample_viewer_ok (or_intror eq_refl) ltac:(vm_compute; discriminate) eq_refl)
    as (out & Hs & _ & _ & _ & _ & Hb & _ & Hv).
  exists out. split; [exact Hs|]. split; [exact Hb|]. split; [exact (Hv "Accept")|exact (Hv "X-Forwarded-For")].
Defined.

(** A lone question mark is lost. *)
Example lone_question_mark :
  out_URI <$> sd_request (Serve sample_forwarder (sample_serve (sample_viewer "/a?" "5"))) = Some "/a".
Proof. vm_compute. reflexivity. Qed.

(** A length with a leading zero, which net/http accepts, is sent next to the one
    the server writes, and the forwarder refuses the two. *)
Example padded_length_refused :
  sd_raw (Serve sample_forwarder (sample_serve (sample_viewer "/a" "05"))) = Some (writeRawError 400 "malformed request").
Proof. vm_compute. reflexivity. Qed.

Definition sample_socket : Request :=
  Http.mkRequest "GET" "hop.t.example" "/ws" "/ws" (fun _ => None) (Ok (fun _ => ""))
    [("Connection", ["Upgrade"]); ("Upgrade", ["websocket"]); ("Sec-Websocket-Key", ["x3JJHMbDL1EzLkh9GBhXDw=="])]
    [] 0 None "1.2.3.4:5" true.
Definition sample_switch : serve_env :=
  mkServeEnv (sconcat (ws_sent (proxyWebSocket sample_cfg sample_socket true (Ok tt) (Ok tt) None "frame"))) io_EOF 1 5000001
    (inr (Plain "")) 0 None false None None.

Lemma sample_socket_ok : viewer_ok sample_socket "".
Proof.
  split.
  - by split_and!.
  - exists "/ws". eexists. split; [vm_compute; reflexivity|]. split; [by left|]. split; [done|]. vm_compute. reflexivity.
  - split; [apply (bool_decide_unpack _); vm_compute; exact I|done].
  - assert (Forall (fun f => field_ok f = true) (header_fields (q_Header sample_socket))) as Hf
      by (apply (bool_decide_unpack _); vm_compute; exact I).
    intros k v Hin. rewrite Forall_forall in Hf. exact (Hf _ Hin).
  - split_and!; [by vm_compute|by vm_compute|by vm_compute].
  - split; [done|]. by repeat constructor.
  - done.
Qed.

Lemma upgrade_crosses_witness :
  exists text got, sd_piped (Serve sample_forwarder sample_switch) = Some text /\ ReadRequest text io_EOF = Ok got /\
    h_values (rq_Header got) "Upgrade" = ["websocket"] /\ rq_Rest got = "frame" /\
    h_values (rq_Header got) "X-Forwarded-Proto" = ["https"; "http"].
Proof.
  destruct (upgrade_crosses sample_cfg sample_forwarder sample_socket "frame" sample_switch io_EOF sample_socket_ok
    (or_intror eq_refl) eq_refl eq_refl ltac:(vm_compute; reflexivity) eq_refl eq_refl eq_refl)
    as (text & got & Hs & _ & _ & _ & Hr & _ & _ & _ & Hrest & Hv).
  exists text, got. split; [exact Hs|]. split; [exact Hr|]. split; [exact (Hv "Upgrade")|]. split; [exact Hrest|].
  exact (Hv "X-Forwarded-Proto").
Defined.

(** The local service is told twice over which protocol the viewer came, and the
    second time wrongly. *)
Example upgrade_forwarded_twice :
  match sd_piped (Serve sample_forwarder sample_switch) with
  | Some text => match ReadRequest text io_EOF with
                 | Ok got => h_values (rq_Header got) "X-Forwarded-Proto" | Err _ => [] end
  | None => []
  end = ["https"; "http"].
Proof. vm_compute. reflexivity. Qed.
