(* ===== verification/Returning.v ===== *)
(** * The way back: client/forwarder.go and server/proxy.go on one stream

    The response of the local service, as the forwarder writes it on the stream,
    read there by the server and relayed to the viewer; and what the viewer can
    tell of it. [HttpResponse] has the writer and the reader, [Crossing] the way of
    the request. *)
From S2P Require Import Prelude GoStr GoText GoFmt Encoding HttpRead HttpResponse Http GoUrl Proto Token Auth Registry Control Proxy Inspect Forwarder Crossing.
From Stdlib Require Import Ascii.

(** ** The header of the viewer's response *)

Lemma add_values_adds h k vs : add_values h k vs = adds h ((fun v => (k, v)) <$> vs).
Proof. revert h. induction vs as [|v vs IH]; intros h; [done|]. cbn. by rewrite IH. Qed.

Lemma copy_headers_values src k :
  NoDup src.*1 -> h_values (copy_headers [] src) k = if is_hop k then [] else h_values src k.
Proof.
  intros Hnd. rewrite <-end_to_end_values.
  assert (forall dst h, foldl (fun h '(k, vs) => add_values h k vs) dst h = adds dst (header_fields h)) as Hc.
  { intros dst h. revert dst. induction h as [|[k0 vs] h IH]; intros dst; [done|].
    cbn [foldl]. rewrite IH, add_values_adds. unfold header_fields. cbn [mbind list_bind]. unfold adds. by rewrite foldl_app. }
  unfold copy_headers. rewrite Hc, adds_values. cbn [h_values app]. by rewrite header_fields_values by (by apply h_filter_nodup).
Qed.

Definition shared (h : header) : bool := negb (String.eqb (h_Get h "Access-Control-Allow-Origin") "").

Lemma response_headers_values src n k :
  NoDup src.*1 -> (n < 0 -> h_values src "Content-Length" = []) ->
  h_values (response_headers src n) k =
    if String.eqb k "Content-Length" then if 0 <=? n then [pretty n] else []
    else if is_hop k then []
    else h_values src k ++ (if String.eqb k "Vary" && shared src then ["Origin"] else []).
Proof.
  intros Hnd Hneg. unfold response_headers. set (dst := if 0 <=? n then _ else _).
  assert (forall k, h_values dst k = if String.eqb k "Content-Length" then if 0 <=? n then [pretty n] else []
    else if is_hop k then [] else h_values src k) as Hd.
  { intros k0. unfold dst. destruct (Z.leb_spec 0 n).
    - destruct (String.eqb_spec k0 "Content-Length") as [->|Hk]; [by rewrite h_Set_same|].
      by rewrite h_Set_values, copy_headers_values by done.
    - rewrite copy_headers_values by done. destruct (String.eqb_spec k0 "Content-Length") as [->|Hk]; [|done].
      rewrite Hneg by lia. by destruct (is_hop "Content-Length"). }
  assert (h_Get dst "Access-Control-Allow-Origin" = h_Get src "Access-Control-Allow-Origin") as Hg
    by (unfold h_Get; by rewrite Hd).
  unfold addCORSDebugHeaders, shared. rewrite Hg. destruct (String.eqb _ ""); cbn [negb].
  - rewrite Hd, andb_false_r, app_nil_r. done.
  - rewrite h_Add_values, Hd, andb_true_r. destruct (String.eqb_spec k "Vary") as [->|Hv]; [done|].
    rewrite (proj2 (String.eqb_neq "Vary" k)) by done. by rewrite !app_nil_r.
Qed.

(** ** What the viewer can tell

    [http.Server] ends a response properly when its handler returns: with the last
    chunk, unless the handler has announced a length, which the viewer compares. *)
Definition taken_for_whole (e : proxy_end) : bool :=
  match h_values (pe_header e) "Content-Length" with
  | [] => true
  | n :: _ => String.eqb n (pretty (zslen (sconcat (pe_body e))))
  end.

(** A body whose length is known is as long exactly when it has ended well. *)
Lemma whole_told method m :
  response_ok (answering method m) -> method <> "HEAD" ->
  match (if 0 <=? relayed_length (answering method m) then [pretty (relayed_length (answering method m))] else []) with
  | [] => true
  | n :: _ => String.eqb n (pretty (zslen (sconcat (ms_Reads m))))
  end = true <-> ms_End m = Sentinel io_EOF \/ ms_ContentLength m = -1.
Proof.
  intros Hok Hm. pose proof (ro_body _ Hok) as Hb. pose proof (ro_length _ Hok) as Hl.
  unfold relayed_length, body_expected, to_head in *. cbn [answering ms_Method ms_ContentLength ms_Reads ms_End ms_Code] in *.
  rewrite (proj2 (String.eqb_neq method "HEAD") Hm) in *. cbn [negb andb] in Hb.
  destruct (bodyAllowedForStatus (ms_Code m)).
  - destruct (Z.leb_spec 0 (ms_ContentLength m)); [|split; [right; lia|done]].
    rewrite String.eqb_eq. specialize (Hb H). case_bool_decide as He.
    + rewrite Hb. by split; [left|].
    + split; [|intros [?|?]; [done|lia]]. intros Hp%(inj pretty). lia.
  - destruct Hb as (-> & He & Hz). rewrite Hz by done. by split; [left|].
Qed.

Section returning.
Context `{OtherURI, OtherBody, ErrorText, OtherTrailer}.

(** The forwarder, given a request it reads and a response it gets. *)
Lemma serve_answers f v req body m :
  ReadRequest (sv_text v) (sv_end v) = Ok req -> isUpgrade (rq_Header req) = false ->
  rq_Body req = (body, Sentinel io_EOF) -> zslen body <= f_MaxBody f ->
  sv_round v = inl m -> sv_write v = None ->
  let resp := answering (rq_Method req) m in
  sd_sent (Serve f v) = Some (sconcat (fst (Response_Write resp))) /\
  (Errored (sd_record (Serve f v)) = false <-> snd (Response_Write resp) = None) /\
  Inspect.Status (sd_record (Serve f v)) = ms_Code m.
Proof.
  intros Hr Hup Hb Hmax Hm Hw. destruct (Serve_forwards f v req body Hr Hup Hb Hmax) as (rec & -> & He & _ & _).
  unfold serve_request, write_response. rewrite Hm, Hw, buildLocalRequest_method.
  destruct (snd (Response_Write _)) as [e|]; cbn; by split_and!.
Qed.

(** C6: The response crosses the tunnel: the viewer gets the local service's status,
    its body to the last octet that was read, and of its header every end-to-end
    field with the same values (Vary gains Origin when the response is shared across
    origins), nothing hop-by-hop, and the length when it is known. The stream is
    aborted, and the exchange recorded as failed, when the body broke off; but a
    body of unknown length that is not sent in chunks ends with the stream, which
    the forwarder closes in any case, so the server takes it for complete. And the
    viewer can tell that a body broke off exactly when its length is known. *)
Theorem response_crosses cfg f r body v m pv text :
  viewer_ok r body -> PublicScheme cfg = "http" \/ PublicScheme cfg = "https" ->
  read_body cfg r = BodyOk body -> Proxy.isUpgrade r = false -> zslen body <= f_MaxBody f ->
  sv_text v = sconcat (framed_request cfg r body) -> sv_round v = inl m -> sv_write v = None ->
  response_ok (answering (q_Method r) m) ->
  sd_sent (Serve f v) = Some text ->
  pv_text pv = text -> pv_end pv = Sentinel io_EOF -> pv_opened pv = Ok tt -> pv_flushed pv = None -> pv_timely pv = true ->
  (String.length (sconcat (ms_Reads m)) <= pv_accepts pv)%nat ->
  exists e, proxyTo cfg r pv = inr e /\
    pe_status e = Some (ms_Code m) /\ Inspect.Status (sd_record (Serve f v)) = ms_Code m /\
    sconcat (pe_body e) = sconcat (ms_Reads m) /\
    (forall k, h_values (pe_header e) k =
      let n := relayed_length (answering (q_Method r) m) in
      if String.eqb k "Content-Length" then if 0 <=? n then [pretty n] else []
      else if is_hop k then []
      else h_values (ms_Header m) k ++ (if String.eqb k "Vary" && shared (ms_Header m) then ["Origin"] else [])) /\
    (pe_complete e = true <-> ms_End m = Sentinel io_EOF \/ close_delimited (answering (q_Method r) m) = true) /\
    pe_aborted e = negb (pe_complete e) /\
    (Errored (sd_record (Serve f v)) = false <-> ms_End m = Sentinel io_EOF) /\
    (q_Method r <> "HEAD" ->
      taken_for_whole e = true <-> ms_End m = Sentinel io_EOF \/ ms_ContentLength m = -1).
Proof.
  intros Hok Hsch Hbody Hup Hmax Htext Hm Hw Hresp Hsent Hpt Hpe Hop Hfl Htm Hacc.
  destruct (request_read cfg r body (sv_end v) Hok Hsch) as (req & u & Hr & Hmeth & _ & _ & _ & Hupr & Hb & _).
  rewrite <-Htext in Hr. destruct (serve_answers f v req body m Hr Hupr Hb Hmax Hm Hw) as (Hs & He & Hst).
  rewrite Hmeth in Hs, He. assert (text = sconcat (fst (Response_Write (answering (q_Method r) m)))) as -> by congruence.
  destruct (response_read _ Hresp) as (inc & Hinc & Hcode & Hlen & Hib & Hend & Hnd & Hneg & Hv).
  assert (exists e, proxyTo cfg r pv = inr e /\ pe_status e = Some (ms_Code m) /\
    pe_header e = response_headers (in_Header inc) (in_ContentLength inc) /\
    sconcat (pe_body e) = sconcat (ms_Reads m) /\ pe_aborted e = negb (pe_complete e) /\
    pe_complete e = close_delimited (answering (q_Method r) m) || bool_decide (ms_End m = Sentinel io_EOF))
    as (e & Hp & Hps & Hph & Hpb & Hpa & Hpc).
  { unfold proxyTo, proxy_framed. rewrite Hup, Hbody, Hop, Hfl, Htm, Hpt, Hpe. cbn [negb].
    change (ms_Method (answering (q_Method r) m)) with (q_Method r) in Hinc. rewrite Hinc. unfold relay_response.
    pose proof (ro_body _ Hresp) as Hro. unfold body_expected, to_head in Hro.
    cbn [answering ms_Method ms_Reads ms_End ms_Code] in Hro, Hib, Hcode. rewrite Hib, Hcode.
    destruct (String.eqb (q_Method r) "HEAD"); cbn [negb andb] in Hro.
    - destruct Hro as (Hrd & Hre & _). rewrite Hrd, Hre. eexists. split; [done|]. cbn. by rewrite orb_true_r.
    - set (rerr := if _ || _ then _ else _).
      destruct (relayed_whole (pv_accepts pv) (pv_sizes pv) (sconcat (ms_Reads m)) rerr Hacc) as (out & -> & Hout).
      eexists. split; [done|]. cbn [pe_status pe_header pe_body pe_aborted pe_complete]. split_and!; try done.
      unfold rerr. by destruct (_ || _). }
  assert (forall k, h_values (pe_header e) k =
    let n := relayed_length (answering (q_Method r) m) in
    if String.eqb k "Content-Length" then if 0 <=? n then [pretty n] else []
    else if is_hop k then []
    else h_values (ms_Header m) k ++ (if String.eqb k "Vary" && shared (ms_Header m) then ["Origin"] else [])) as Hhv.
  { intros k. rewrite Hph, Hlen, response_headers_values by done. cbn zeta.
    destruct (String.eqb_spec k "Content-Length") as [|Hk]; [done|]. destruct (is_hop k) eqn:Hhop; [done|].
    rewrite Hv; [|intros Hin; repeat (apply elem_of_cons in Hin as [->|Hin]; [done|]); by apply elem_of_nil in Hin].
    unfold shared, h_Get. rewrite Hv by set_solver. done. }
  exists e. split_and!; try done.
  - rewrite Hpc, orb_true_iff, bool_decide_eq_true. tauto.
  - by rewrite He, Hend.
  - intros Hm'. pose proof (Hhv "Content-Length") as Hcl. cbn zeta in Hcl. cbn [String.eqb] in Hcl.
    unfold taken_for_whole. rewrite Hcl, Hpb. by apply whole_told.
Qed.

End returning.

(** ** Concrete instances *)

#[local] Existing Instances Crossing.sample_uri Crossing.sample_encoded Crossing.sample_text.
#[local] Instance sample_trailer : OtherTrailer := fun _ e => e.

Definition sample_asks : Request := sample_viewer "/a%20b?x=1" "5".

(** A response in chunks, or without a length, and how its body ends. *)
Definition sample_answer (chunked : bool) (e : error) : message :=
  mkMessage 1 1 "200 OK" 200
    [("Access-Control-Allow-Origin", ["*"]); ("Content-Type", ["text/plain"]); ("Keep-Alive", ["timeout=5"])]
    (-1) chunked (negb chunked) false "" ["first"; ", second"] e.

Definition sample_serving (m : message) : serve_env :=
  mkServeEnv (sconcat (framed_request sample_cfg sample_asks "hello")) io_EOF 1 5000001 (inl m) 0 None false None None.

Definition sample_returning (text : string) : proxy_env :=
  mkProxyEnv true (Ok tt) "" (Ok tt) None true text io_EOF false 100 [5].

Definition sample_written (m : message) : string := default "" (sd_sent (Serve sample_forwarder (sample_serving m))).

Lemma sample_answer_ok chunked : response_ok (answering "POST" (sample_answer chunked (Sentinel io_EOF))).
Proof.
  split; try done.
  - split; [done|by right].
  - apply (bool_decide_unpack _). vm_compute. exact I.
  - apply (bool_decide_unpack _). vm_compute. exact I.
  - repeat constructor; done.
  - intros Hl. by vm_compute in Hl.
Qed.

Lemma response_crosses_witness :
  exists e, proxyTo sample_cfg sample_asks (sample_returning (sample_written (sample_answer true (Sentinel io_EOF)))) = inr e /\
    pe_status e = Some 200 /\ sconcat (pe_body e) = "first, second" /\ h_values (pe_header e) "Vary" = ["Origin"] /\
    h_values (pe_header e) "Keep-Alive" = [] /\ pe_complete e = true.
Proof.
  destruct (response_crosses sample_cfg sample_forwarder sample_asks "hello"
    (sample_serving (sample_answer true (Sentinel io_EOF))) (sample_answer true (Sentinel io_EOF))
    (sample_returning (sample_written (sample_answer true (Sentinel io_EOF)))) (sample_written (sample_answer true (Sentinel io_EOF)))
    sample_viewer_ok (or_intror eq_refl) ltac:(vm_compute; reflexivity) ltac:(vm_compute; reflexivity)
    ltac:(vm_compute; discriminate) eq_refl eq_refl eq_refl (sample_answer_ok true) ltac:(vm_compute; reflexivity)
    eq_refl eq_refl eq_refl eq_refl eq_refl ltac:(vm_compute; lia)) as (e & He & Hs & _ & Hb & Hv & Hc & _).
  exists e. split; [exact He|]. split; [exact Hs|]. split; [exact Hb|]. split; [exact (Hv "Vary")|].
  split; [exact (Hv "Keep-Alive")|]. apply Hc. left. reflexivity.
Defined.

Definition sample_returned (m : message) : option proxy_end :=
  match proxyTo sample_cfg sample_asks (sample_returning (sample_written m)) with inr e => Some e | inl _ => None end.

(** A chunked response that breaks off is noticed by the server, but the viewer gets
    it with a proper end. *)
Example broken_off_looks_whole :
  let m := sample_answer true (Sentinel io_ErrUnexpectedEOF) in
  (fun e => (pe_complete e, pe_aborted e, sconcat (pe_body e), taken_for_whole e)) <$> sample_returned m =
    Some (false, true, "first, second", true) /\
  Errored (sd_record (Serve sample_forwarder (sample_serving m))) = true.
Proof. by vm_compute. Qed.

(** One without a length is not even noticed by the server: the forwarder closes
    the stream as if all had been written. *)
Example broken_off_unnoticed :
  let m := sample_answer false (Sentinel io_ErrUnexpectedEOF) in
  (fun e => (pe_complete e, pe_aborted e, taken_for_whole e)) <$> sample_returned m = Some (true, false, true) /\
  Errored (sd_record (Serve sample_forwarder (sample_serving m))) = true.
Proof. by vm_compute. Qed.
