(* ===== verification/Exchange.v ===== *)
(** * From the server's write to the local service

    The stream of [Delivery], the request of [Crossing]: in every execution of the
    client's session, whatever the other streams do and wherever the connection
    breaks, what the forwarder makes of the bytes it was handed. *)
From S2P Require Import Prelude Frame GoStr GoText GoFmt Encoding HttpRead HttpResponse Http GoUrl Proto Token Auth Registry Control Proxy Inspect Forwarder Crossing.
From S2P Require Import Stream Session Delivery.
From Stdlib Require Import Ascii.

Section exchange.
Context `{OtherURI, OtherBody, ErrorText}.

(** C5: The server opens a stream and writes a viewer's request on it, in whatever
    portions, and closes it; the client's session does whatever sessions do. Then
    there is one stream with this number, and whatever its reader has been handed
    when the forwarder serves it, the local service gets the viewer's request or
    nothing: a request that was cut short, by a reset, by the end of the session or
    otherwise, is never sent on, not even in part, nor taken for an upgrade; and a
    stream that was read to its end has brought the request. *)
Theorem only_whole_requests_forwarded {W} `{Writer W} (w : W) srv s p tr id meta bs rest cfg f r body :
  traced w srv (s, p) tr -> Z.odd id <> srv ->
  of_stream id (frames_of tr) = Frame FrameOpen id meta :: rest -> rest `prefix_of` sent id bs ->
  concat bs = bytes_of_string (sconcat (framed_request cfg r body)) ->
  viewer_ok r body -> PublicScheme cfg = "http" \/ PublicScheme cfg = "https" -> zslen body <= f_MaxBody f ->
  exists l st, heap s !! l = Some st /\ st_id st = id /\
    (forall l' st', heap s !! l' = Some st' -> st_id st' = id -> l' = l) /\
    forall v, sv_text v = string_of_bytes (handed l tr) ->
      sd_piped (Serve f v) = None /\
      (forall out, sd_request (Serve f v) = Some out -> same_request cfg f r body out) /\
      (handed l tr <> concat bs -> sd_request (Serve f v) = None) /\
      (forall n, snd (Read (done s) st n) = ReadErr io_EOF ->
         exists out, sd_request (Serve f v) = Some out /\ same_request cfg f r body out).
Proof.
  intros Ht Hodd Ho Hpre Hbs Hok Hsch Hmax.
  destruct (delivered_sent w srv s p tr id meta bs rest Ht Hodd Ho Hpre) as (l & st & Hl & Hid & Hu & [k Hk] & _ & _ & HR).
  exists l, st. split; [done|]. split; [done|]. split; [done|]. intros v Hv.
  assert (handed l tr = concat bs -> sv_text v = sconcat (framed_request cfg r body)) as Hall.
  { intros Heq. by rewrite Hv, Heq, Hbs, string_of_bytes_of_string. }
  assert (handed l tr <> concat bs -> sd_request (Serve f v) = None /\ sd_piped (Serve f v) = None) as Hcut.
  { intros Hne. apply (cut_request_dropped cfg f r body v (string_of_bytes (buffered st ++ k))); [done|done| |].
    - rewrite Hv, <-string_of_bytes_app, app_assoc, <-Hk, Hbs. by rewrite string_of_bytes_of_string.
    - intros Hnil. apply Hne. rewrite Hk, <-app_assoc. apply (f_equal bytes_of_string) in Hnil.
      rewrite bytes_of_string_of_bytes in Hnil. rewrite Hnil. by rewrite app_nil_r. }
  destruct (decide (handed l tr = concat bs)) as [Heq|Hne].
  - destruct (request_forwarded cfg f r body v Hok Hsch Hmax (Hall Heq)) as (out & Hs & _ & _ & Hsame).
    split_and!; [by apply sent_not_piped; rewrite Hs|by intros out' ?; simplify_eq|done|by intros _ _; exists out].
  - destruct (Hcut Hne) as [Hs Hp]. split_and!; [done|by rewrite Hs|done|]. intros n Hn. by apply HR in Hn.
Qed.

End exchange.

(** ** A concrete execution *)

#[local] Existing Instances Crossing.sample_uri Crossing.sample_encoded Crossing.sample_text.

Definition sample_asks : Request := sample_viewer "/a%20b?x=1" "5".
Definition sample_bytes : list Byte.byte := bytes_of_string (sconcat (framed_request sample_cfg sample_asks "hello")).

(** The forwarder, given what a reader of [n] bytes was handed. *)
Definition sample_serving (n : nat) : serve_env :=
  mkServeEnv (string_of_bytes (handed 0%nat (sample_trace sample_bytes n))) io_EOF 1 5000001 (inr (Plain "refused")) 0 None false None None.

Lemma only_whole_requests_forwarded_witness :
  exists st, heap (sample_read sample_bytes 1000) !! 0%nat = Some st /\
    exists out, sd_request (Serve sample_forwarder (sample_serving 1000)) = Some out /\ out_Body out = "hello".
Proof.
  destruct (only_whole_requests_forwarded ([] : writes) true (sample_read sample_bytes 1000) Idle
    (sample_trace sample_bytes 1000) 2 [] [sample_bytes] [Frame FrameData 2 sample_bytes; Frame FrameClose 2 []]
    sample_cfg sample_forwarder sample_asks "hello" (sample_traced sample_bytes 1000) ltac:(discriminate) ltac:(vm_compute; reflexivity)
    ltac:(vm_compute; exists []; reflexivity) ltac:(vm_compute; reflexivity) sample_viewer_ok (or_intror eq_refl)
    ltac:(vm_compute; discriminate)) as (l & st & Hl & Hid & Hu & Hall).
  assert (E : exists st0, heap (sample_read sample_bytes 1000) !! 0%nat = Some st0 /\ st_id st0 = 2)
    by (eexists; split; vm_compute; reflexivity).
  destruct E as (st0 & H0 & H0'). pose proof (Hu 0%nat st0 H0 H0') as <-. exists st. split; [exact Hl|].
  destruct (Hall (sample_serving 1000) eq_refl) as (_ & _ & _ & HR).
  destruct (HR 1%nat) as (out & Hs & _ & _ & Hb & _).
  - rewrite H0 in Hl. injection Hl as <-. clear -H0. vm_compute in H0. injection H0 as <-. vm_compute. reflexivity.
  - exists out. split; [exact Hs|exact Hb].
Defined.

(** A reader who was handed thirty bytes. *)
Example part_of_a_request : sd_request (Serve sample_forwarder (sample_serving 30)) = None.
Proof. vm_compute. reflexivity. Qed.
