(* ===== verification/Client.v ===== *)
(** * The tunnel client: internal/client/config.go, and the loop of tunnel.go

    The client's configuration, the reconnect loop on its own and its event
    channel. The loop among the client's other goroutines is in Tunnel.v, the
    forwarder in Forwarder.v. *)
From S2P Require Import Prelude GoStr Encoding Http Proto Proxy Inspect.
From Stdlib Require Import Ascii.

(** ** Configuration (config.go) *)

Definition Second : Z := 1000000000.
Definition DefaultControlPort : string := "7001".
Definition DefaultControlTLSPort : string := "7002".
Definition DefaultInspectAddr : string := "127.0.0.1:4040".

(** [pin] is nil until [Validate] decodes it. *)
Record Config := mkConfig {
  LocalPort : Z;
  LocalHost : string;
  ServerAddr : string;
  Subdomain : string;
  Token : string;
  Protect : bool;
  Inspect : bool;
  InspectAddr : string;
  MaxBody : Z;
  TLS : bool;
  ServerCertSHA256 : string;
  PingInterval : Z;
  IdleTimeout : Z;
  pin : list Byte.byte
}.

Definition hex_value (c : ascii) : option Z :=
  if is_digit c then Some (ord c - 48)
  else if in_range 97 102 c then Some (ord c - 87)
  else if in_range 65 70 c then Some (ord c - 55)
  else None.

(** [hex.DecodeString]. *)
Fixpoint hex_DecodeString (s : string) : option (list Byte.byte) :=
  match s with
  | "" => Some []
  | String a (String b s) =>
      match hex_value a, hex_value b, hex_DecodeString s with
      | Some x, Some y, Some l => Some (byte_of_Z (16 * x + y) :: l)
      | _, _, _ => None
      end
  | String _ "" => None
  end.

Fixpoint drop_char (c : ascii) (s : string) : string :=
  match s with
  | "" => ""
  | String d s => if Ascii.eqb d c then drop_char c s else String d (drop_char c s)
  end.

Definition sha256_Size : nat := 32.

Definition decode_pin (s : string) : option (list Byte.byte) :=
  match hex_DecodeString (drop_char ":" (TrimSpace s)) with
  | Some p => if decide (length p = sha256_Size) then Some p else None
  | None => None
  end.

(** config.go:61: the completed configuration. *)
Definition Validate (c : Config) : result Config :=
  if (LocalPort c <=? 0) || (65535 <? LocalPort c) then
    Err (Errorf "invalid local port %d" [pretty (LocalPort c)])
  else if String.eqb (ServerAddr c) "" then
    Err (errors_New "no server address (use --server host:7001)")
  else
    let addr := if selem ":" (ServerAddr c) then ServerAddr c
                else ServerAddr c +:+ ":" +:+ (if TLS c then DefaultControlTLSPort else DefaultControlPort) in
    let finish pin :=
      Ok (mkConfig (LocalPort c) (if String.eqb (LocalHost c) "" then "127.0.0.1" else LocalHost c) addr
            (Subdomain c) (Token c) (Protect c) (Inspect c)
            (if String.eqb (InspectAddr c) "" then DefaultInspectAddr else InspectAddr c)
            (if MaxBody c <=? 0 then Z.shiftl 32 20 else MaxBody c)
            (TLS c) (ServerCertSHA256 c) (PingInterval c) (IdleTimeout c) pin) in
    if String.eqb (ServerCertSHA256 c) "" then finish (pin c)
    else if negb (TLS c) then Err (errors_New "--server-cert-sha256 needs --tls")
    else match decode_pin (ServerCertSHA256 c) with
         | None => Err (errors_New "--server-cert-sha256 must be 64 hex characters (SHA-256 of the certificate DER)")
         | Some p => finish p
         end.

(** [sha256.Sum256]. *)
Class Sha256 := sha256 : list Byte.byte -> list Byte.byte.

(** What the TLS handshake checks of the server's certificates ([certs] are the
    DER bytes, the leaf first; [chain_ok] is the verification against the roots
    for the server's name). *)
Definition tls_verify `{Sha256} (c : Config) (chain_ok : bool) (certs : list (list Byte.byte)) : bool :=
  match pin c with
  | [] => chain_ok
  | _ :: _ =>
      match certs with
      | [] => false
      | leaf :: _ => bool_decide (sha256 leaf = pin c)
      end
  end.

(** config.go:98: the name the certificate is checked for. *)
Definition ServerName (c : Config) : string :=
  match SplitHostPort (ServerAddr c) with Some (host, _) => host | None => ServerAddr c end.

(** ** The reconnect loop (tunnel.go) *)

(** The outcome of [connectOnce]: it always returns an error. *)
Inductive session_error :=
| Rejected (msg code : string)     (** the server refused the hello *)
| Ended (text : string).           (** anything else: the text of the error *)

Definition error_message (e : session_error) : string :=
  match e with Rejected msg _ => "server rejected connection: " +:+ msg | Ended text => text end.

(** One round of the loop: how the connection ended, and whether the context is
    cancelled by then, or while waiting. *)
Record round := mkRound { r_err : session_error; r_cancelled : bool; r_cancel_wait : bool }.

Inductive event :=
| EventConnecting (msg : string)
| EventDisconnected (msg : string)
| EventReconnecting (backoff : Z)
| EventShuttingDown.

(** What the loop does: an event, a connection attempt, a pause, or the wait for
    the user to quit. *)
Inductive action := Emit (e : event) | Connect | Sleep (d : Z) | WaitQuit.

Definition no_retry : string := " (not retrying: that would resend the token in plaintext)".

Definition next_backoff (b : Z) : Z :=
  if b <? 10 * Second then Z.min (b * 2) (10 * Second) else b.

Definition is_tls_required (e : session_error) : bool :=
  match e with Rejected _ code => String.eqb code CodeTLSRequired | Ended _ => false end.

(** tunnel.go:109, from the [for]; the rounds are given (the list ends while the
    loop is still running). *)
Fixpoint run_loop (addr : string) (backoff : Z) (rounds : list round) : list action :=
  match rounds with
  | [] => []
  | r :: rounds =>
      Emit (EventConnecting ("connecting to " +:+ addr)) :: Connect ::
      if r_cancelled r then [Emit EventShuttingDown]
      else if is_tls_required (r_err r) then
        [Emit (EventDisconnected (error_message (r_err r) +:+ no_retry)); WaitQuit; Emit EventShuttingDown]
      else
        Emit (EventDisconnected (error_message (r_err r))) :: Sleep backoff ::
        if r_cancel_wait r then [Emit EventShuttingDown]
        else Emit (EventReconnecting backoff) :: run_loop addr (next_backoff backoff) rounds
  end.

Definition Run (addr : string) (rounds : list round) : list action := run_loop addr Second rounds.

(** *** The event channel: it holds 256 events and is closed once *)

Definition eventsCap : nat := 256.

Record events := mkEvents { ev_queue : list event; ev_closed : bool; ev_panicked : bool }.

(** A send on a closed channel would panic. *)
Definition send (e : event) (s : events) : events :=
  if ev_closed s then mkEvents (ev_queue s) true true
  else if (length (ev_queue s) <? eventsCap)%nat then mkEvents (ev_queue s ++ [e]) false (ev_panicked s)
  else s.

(** tunnel.go:246; [closed] is the flag under the tunnel's mutex. *)
Definition emit (e : event) (p : bool * events) : bool * events :=
  let '(closed, s) := p in if closed then p else (closed, send e s).

(** tunnel.go:267. *)
Definition shutdown (p : bool * events) : bool * events :=
  let '(_, s) := p in
  (true, mkEvents (ev_queue s) true (ev_panicked s || ev_closed s)).

(** ** Lemmas *)

(** The pauses and the attempts of a run. *)
Definition sleeps (l : list action) : list Z := omap (fun a => if a is Sleep d then Some d else None) l.
Definition connects (l : list action) : nat :=
  length (List.filter (fun a => if a is Connect then true else false) l).

Definition backoff_at (k : nat) : Z := Z.min (2 ^ Z.of_nat k * Second) (10 * Second).

Lemma next_backoff_at k : next_backoff (backoff_at k) = backoff_at (S k).
Proof.
  unfold next_backoff, backoff_at, Second. rewrite Nat2Z.inj_succ, Z.pow_succ_r by lia.
  assert (1 <= 2 ^ Z.of_nat k) by (pose proof (Z.pow_pos_nonneg 2 (Z.of_nat k)); lia).
  case_match; bool_props; lia.
Qed.

Lemma run_loop_sleeps addr k rounds j d :
  sleeps (run_loop addr (backoff_at k) rounds) !! j = Some d -> d = backoff_at (k + j).
Proof.
  revert k j. induction rounds as [|r rounds IH]; intros k j; [done|].
  cbn [run_loop]. destruct (r_cancelled r); [done|].
  destruct (is_tls_required (r_err r)); [done|].
  destruct j as [|j].
  - cbn. intros [= <-]. by rewrite Nat.add_0_r.
  - destruct (r_cancel_wait r); [by destruct j|]. cbn [sleeps omap list_omap].
    rewrite next_backoff_at. change (sleeps (run_loop addr (backoff_at (S k)) rounds) !! j = Some d -> d = backoff_at (k + S j)).
    intros H. rewrite Nat.add_succ_r. by apply (IH (S k)).
Qed.

Lemma run_loop_connects addr b rounds : (connects (run_loop addr b rounds) <= length rounds)%nat.
Proof.
  unfold connects. revert b. induction rounds as [|r rounds IH]; intros b; [done|]. cbn [run_loop].
  destruct (r_cancelled r); [simpl; lia|]. destruct (is_tls_required (r_err r)); [simpl; lia|].
  destruct (r_cancel_wait r); [simpl; lia|]. specialize (IH (next_backoff b)).
  simpl. lia.
Qed.

Lemma run_loop_stops addr b pre r post :
  is_tls_required (r_err r) = true \/ r_cancelled r = true ->
  (connects (run_loop addr b (pre ++ r :: post)) <= S (length pre))%nat.
Proof.
  unfold connects. intros Hstop. revert b. induction pre as [|r0 pre IH]; intros b; cbn [run_loop app].
  - destruct (r_cancelled r) eqn:Hc; [simpl; lia|]. destruct Hstop as [->|]; [|done]. simpl. lia.
  - destruct (r_cancelled r0); [simpl; lia|]. destruct (is_tls_required (r_err r0)); [simpl; lia|].
    destruct (r_cancel_wait r0); [simpl; lia|]. specialize (IH (next_backoff b)).
    simpl. lia.
Qed.

(** ** Properties *)

(** The events: whoever emits and whenever, with the one [shutdown] of [Run],
    no send and no second close ever hits the closed channel. *)
Definition ev_step (p : bool * events) (o : option event) : bool * events :=
  match o with Some e => emit e p | None => shutdown p end.

Lemma events_never_panic os :
  (length (List.filter (fun o => if o is None then true else false) os) <= 1)%nat ->
  ev_panicked (snd (foldl ev_step (false, mkEvents [] false false) os)) = false.
Proof.
  intros Hos.
  assert (forall os p, ev_panicked (snd p) = false -> ev_closed (snd p) = fst p ->
    (Nat.b2n (fst p) + length (List.filter (fun o : option event => if o is None then true else false) os) <= 1)%nat ->
    ev_panicked (snd (foldl ev_step p os)) = false) as H; [|by apply H].
  clear. induction os as [|[e|] os IH]; intros [closed s] Hp Hc Hn; simpl in *; [done|..].
  - destruct closed; [by apply IH|]. unfold send. rewrite Hc.
    destruct (length (ev_queue s) <? eventsCap)%nat; by apply IH.
  - apply IH; simpl; [|done|].
    + rewrite Hp, Hc. destruct closed; simpl in *; [lia|done].
    + destruct closed; simpl in *; lia.
Qed.

(** The reconnect loop pauses 1, 2, 4, 8, then 10 seconds between attempts,
    never longer; and once the server answers that the name needs TLS, or the
    user quits, it makes no further attempt, so that the token is not sent in the
    clear again. *)
Theorem reconnect_policy addr rounds :
  (forall k d, sleeps (Run addr rounds) !! k = Some d -> d = Z.min (2 ^ Z.of_nat k * Second) (10 * Second)) /\
  (forall pre r post, rounds = pre ++ r :: post ->
     is_tls_required (r_err r) = true \/ r_cancelled r = true ->
     (connects (Run addr rounds) <= S (length pre))%nat).
Proof.
  unfold Run. split.
  - intros k d. change Second with (backoff_at 0) at 1. intros H. by apply run_loop_sleeps in H.
  - intros pre r post -> Hs. by apply run_loop_stops.
Qed.

(** What a validated configuration is. *)
Lemma Validate_ok c c' :
  Validate c = Ok c' ->
  0 < LocalPort c <= 65535 /\ LocalPort c' = LocalPort c /\ LocalHost c' <> ""%string /\
  selem ":" (ServerAddr c') = true /\ InspectAddr c' <> ""%string /\ 0 < MaxBody c' /\
  TLS c' = TLS c /\
  (ServerCertSHA256 c = ""%string /\ pin c' = pin c \/
   ServerCertSHA256 c <> ""%string /\ TLS c = true /\ decode_pin (ServerCertSHA256 c) = Some (pin c')).
Proof.
  unfold Validate. destruct ((LocalPort c <=? 0) || (65535 <? LocalPort c)) eqn:Hp; [done|]. bool_props.
  destruct (String.eqb_spec (ServerAddr c) ""); [done|].
  set (addr := if selem ":" (ServerAddr c) then _ else _).
  assert (selem ":" addr = true) as Haddr.
  { subst addr. destruct (selem ":" (ServerAddr c)) eqn:E; [done|]. by rewrite selem_app, E. }
  set (host := if String.eqb (LocalHost c) "" then _ else _). set (insp := if String.eqb (InspectAddr c) "" then _ else _).
  set (body := if MaxBody c <=? 0 then _ else _).
  assert (host <> ""%string) by (subst host; by destruct (String.eqb_spec (LocalHost c) "")).
  assert (insp <> ""%string) by (subst insp; by destruct (String.eqb_spec (InspectAddr c) "")).
  assert (0 < body) by (subst body; destruct (Z.leb_spec (MaxBody c) 0); [done|lia]).
  destruct (String.eqb_spec (ServerCertSHA256 c) "").
  - intros [= <-]. simpl. split_and!; try done; try lia. by left.
  - destruct (TLS c) eqn:Htls; [|done]. simpl. destruct (decode_pin (ServerCertSHA256 c)) as [p|]; [|done].
    intros [= <-]. simpl. split_and!; try done; try lia. by right.
Qed.

Lemma decode_pin_some s p : decode_pin s = Some p -> p <> [].
Proof.
  intros Hd ->. unfold decode_pin in Hd. destruct (hex_DecodeString _) as [q|]; [|done].
  case_decide as Hl; [|done]. injection Hd as ->. discriminate Hl.
Qed.

(** A pinned configuration dials over TLS and trusts the pinned certificate only. *)
Lemma Validate_pinned `{Sha256} c c' :
  Validate c = Ok c' -> ServerCertSHA256 c <> ""%string ->
  TLS c' = true /\
  forall chain_ok certs, tls_verify c' chain_ok certs = true <->
    exists leaf rest, certs = leaf :: rest /\ decode_pin (ServerCertSHA256 c) = Some (sha256 leaf).
Proof.
  intros Hv Hne. destruct (Validate_ok c c' Hv) as (_ & _ & _ & _ & _ & _ & Ht & [[? _]|(_ & Htls & Hd)]); [done|].
  split; [congruence|]. intros chain_ok certs. unfold tls_verify. pose proof (decode_pin_some _ _ Hd).
  destruct (pin c') as [|x p]; [done|]. destruct certs as [|leaf rest].
  - split; [done|]. by intros (? & ? & ? & ?).
  - rewrite bool_decide_eq_true, Hd. split; [intros Heq; exists leaf, rest; split; [done|by rewrite Heq]|].
    intros (leaf' & rest' & Hc & Heq). injection Hc as <- <-. by injection Heq as ->.
Qed.

(** A configuration that validates is complete (a port in range, a server
    address with a port, a local host, an inspector address, a positive body
    limit), and a certificate pin is enforced: it implies TLS, and the only
    server certificates accepted are those whose SHA-256 is the pin, whatever
    the certificate authorities say. *)
Theorem validated_config `{Sha256} c c' :
  Validate c = Ok c' ->
  0 < LocalPort c' <= 65535 /\ LocalHost c' <> ""%string /\ selem ":" (ServerAddr c') = true /\
  InspectAddr c' <> ""%string /\ 0 < MaxBody c' /\
  (ServerCertSHA256 c <> ""%string ->
   TLS c' = true /\
   forall chain_ok certs, tls_verify c' chain_ok certs = true <->
     exists leaf rest, certs = leaf :: rest /\ decode_pin (ServerCertSHA256 c) = Some (sha256 leaf)).
Proof.
  intros Hv. destruct (Validate_ok c c' Hv) as (? & -> & ? & ? & ? & ? & _ & _).
  split_and!; try done; try lia. by apply Validate_pinned.
Qed.

Definition sample_config : Config :=
  mkConfig 3000 "" "t.example" "" "" false false "" 0 true
    "000102030405060708090a0b0c0d0e0f:101112131415161718191a1b1c1d1e1f" 0 0 [].

#[local] Instance sample_sha : Sha256 := fun b => b.

Lemma validated_config_witness :
  exists c', Validate sample_config = Ok c' /\ selem ":" (ServerAddr c') = true.
Proof.
  destruct (Validate sample_config) as [c'|e] eqn:E.
  - exists c'. split; [reflexivity|].
    exact (proj1 (proj2 (proj2 (validated_config sample_config c' E)))).
  - vm_compute in E. discriminate E.
Defined.

