(* ===== verification/Tunnel.v ===== *)
(** * The client's tunnel: internal/client/tunnel.go

    One tunnel is a goroutine ([Run]) that connects, shakes hands, pumps a
    session and reconnects, next to the goroutines that serve streams, the reader
    of the event channel and the user who cancels. Each step below is one access
    to what they share (the status under the mutex, the event channel, the
    request counter), so the steps interleave as the goroutines do. The loop on
    its own is [Client.Run], which the last part shows this one implements. *)
From S2P Require Import Prelude Frame Stream Session GoStr Encoding Http GoUrl HttpRead HttpResponse Proto Control Proxy Inspect Forwarder Client.

(** ** Events and status *)

Inductive EventKind := Connecting | Connected_ | Reconnecting | Disconnected | Request_ | ShuttingDown.

#[export] Instance kind_eq_dec : EqDecision EventKind.
Proof. solve_decision. Defined.

(** The time stamp [emit] sets is left out: nothing reads it. *)
Record Event := mkEvent {
  e_Kind : EventKind;
  e_PublicURL : string;
  e_Subdomain : string;
  e_Message : string;
  e_Record : option Record_
}.

Definition event_msg (k : EventKind) (msg : string) : Event := mkEvent k "" "" msg None.

Record Status := mkStatus {
  Connected : bool;
  PublicURL : string;
  st_Subdomain : string;
  Target : string;
  st_Server : string;
  Since : Z;
  Requests : Z;
  LastMessage : string
}.

(** ** The connection *)

(** What the tunnel writes on a connection, and whether writing fails; what was
    given to a failing write may have left too. *)
Record conn := mkConn { c_sent : list (list Byte.byte); c_fail : option error }.

#[export] Instance conn_writer : Writer conn := fun c b => (mkConn (c_sent c ++ [b]) (c_fail c), c_fail c).

(** The errors of [connectOnce]. *)
Inductive terror :=
| Refused (msg code : string)     (** [rejectedError] *)
| Failed (e : error).

Section tunnel.
Context `{ErrorText, Sha256, JSON Hello, JSON Ack, OtherURI, OtherBody}.
Implicit Types (cfg : Client.Config).

(** [err.Error()]. *)
Definition Error (e : terror) : string :=
  match e with
  | Refused msg _ => "server rejected connection: " +:+ msg
  | Failed e => error_text e
  end.

(** What the outside decides in one attempt: the TCP connection; over TLS, the
    server's certificates, whether they verify against the roots for its name,
    and the error of a handshake that does not; whether writes fail; and what the
    server sends. *)
Record attempt := mkAttempt {
  at_tcp : option error;
  at_chain_ok : bool;
  at_certs : list (list Byte.byte);
  at_tls_error : error;
  at_write : option error;
  at_reader : reader
}.

(** tunnel.go:147: [None] when there is a connection. *)
Definition dial cfg (v : attempt) : option error :=
  match at_tcp v with
  | Some e => Some e
  | None => if TLS cfg && negb (tls_verify cfg (at_chain_ok v) (at_certs v)) then Some (at_tls_error v) else None
  end.

Definition hello_of cfg : Hello :=
  mkHello TypeHello ControlVersion (Client.Token cfg) (Client.Subdomain cfg) (Protect cfg).

(** tunnel.go:158-193: the connection, and the server's answer or the error. *)
Definition handshake cfg (v : attempt) : conn * (Ack * reader + terror) :=
  let c := mkConn [] (at_write v) in
  match dial cfg v with
  | Some e => (c, inr (Failed (Wrapf ("dial " +:+ ServerAddr cfg +:+ ": %w") e)))
  | None =>
      match WriteMessage c (hello_of cfg) with
      | (c, Some e) => (c, inr (Failed (Wrapf "handshake write: %w" e)))
      | (c, None) =>
          match ReadMessage (at_reader v) with
          | (_, Err e) => (c, inr (Failed (Wrapf "handshake read: %w" e)))
          | (r, Ok ack) => if a_OK ack then (c, inl (ack, r)) else (c, inr (Refused (a_Error ack) (a_Code ack)))
          end
      end
  end.

(** config.go:126. *)
Definition tuneSession cfg (s : Session conn) : Session conn :=
  mkSession (Session.conn s) (conn_closed s) (server s) (streams s) (heap s) (closed s) (closeErr s) (nextID s)
    (onStream s) (onClose s) (PingInterval cfg) (IdleTimeout cfg) (lastRecv s) (stalled s) (pongs s) (done s)
    (closeOnce s) (cbOnce s).

(** ** The tunnel's state *)

Record tunnel := mkTunnel {
  t_status : Status;
  t_sess : option (Session conn);
  t_requests : Z;
  t_closed : bool;
  t_queue : list Event;         (** [t.events], a channel of 256 *)
  t_chan_closed : bool;
  t_panicked : bool             (** a send on, or a close of, the closed channel *)
}.

Definition set_status (f : Status -> Status) t : tunnel :=
  mkTunnel (f (t_status t)) (t_sess t) (t_requests t) (t_closed t) (t_queue t) (t_chan_closed t) (t_panicked t).
Definition set_sess (s : option (Session conn)) t : tunnel :=
  mkTunnel (t_status t) s (t_requests t) (t_closed t) (t_queue t) (t_chan_closed t) (t_panicked t).
Definition add_request t : tunnel :=
  mkTunnel (t_status t) (t_sess t) (t_requests t + 1) (t_closed t) (t_queue t) (t_chan_closed t) (t_panicked t).
Definition set_queue q t : tunnel :=
  mkTunnel (t_status t) (t_sess t) (t_requests t) (t_closed t) q (t_chan_closed t) (t_panicked t).
Definition set_panicked t : tunnel :=
  mkTunnel (t_status t) (t_sess t) (t_requests t) (t_closed t) (t_queue t) (t_chan_closed t) true.

Definition disconnected (s : Status) : Status :=
  mkStatus false (PublicURL s) (st_Subdomain s) (Target s) (st_Server s) (Since s) (Requests s) (LastMessage s).
Definition connected (ack : Ack) (now : Z) (s : Status) : Status :=
  mkStatus true (a_PublicURL ack) (a_Subdomain ack) (Target s) (st_Server s) now (Requests s) (LastMessage s).
Definition with_message (msg : string) (s : Status) : Status :=
  mkStatus (Connected s) (PublicURL s) (st_Subdomain s) (Target s) (st_Server s) (Since s) (Requests s) msg.
Definition with_requests (n : Z) (s : Status) : Status :=
  mkStatus (Connected s) (PublicURL s) (st_Subdomain s) (Target s) (st_Server s) (Since s) n (LastMessage s).

(** tunnel.go:78. *)
Definition forwarder_of cfg : Forwarder := NewForwarder (LocalHost cfg) (LocalPort cfg) (MaxBody cfg).

(** tunnel.go:72: the validated configuration and the tunnel. *)
Definition New (c : Client.Config) : result (Client.Config * tunnel) :=
  match Validate c with
  | Err e => Err e
  | Ok c =>
      Ok (c, mkTunnel (mkStatus false "" "" ("http://" +:+ LocalAddr (forwarder_of c))
                         (ServerAddr c) 0 0 "") None 0 false [] false false)
  end.

(** The [select] of tunnel.go:256, and whether the event was dropped. *)
Definition send (e : Event) t : tunnel * bool :=
  if t_chan_closed t then (set_panicked t, true)
  else if (length (t_queue t) <? eventsCap)%nat then (set_queue (t_queue t ++ [e]) t, false)
  else (t, true).

(** tunnel.go:246. *)
Definition emit (e : Event) t : tunnel * bool :=
  if t_closed t then (t, true)
  else send e (if String.eqb (e_Message e) "" then t else set_status (with_message (e_Message e)) t).

(** tunnel.go:267. *)
Definition shutdown t : tunnel :=
  mkTunnel (t_status t) (t_sess t) (t_requests t) true (t_queue t) true (t_panicked t || t_chan_closed t).

(** tunnel.go:96: the snapshot the inspector shows. *)
Definition StatusNow t : Status := with_requests (t_requests t) (t_status t).

(** ** [Run] among the other goroutines *)

(** Where [Run] stands; [b] is the back-off. *)
Inductive pc :=
| PStart (b : Z)                        (** about to emit connecting *)
| PDial (b : Z)                         (** in [connectOnce], before the ack *)
| PAck (b : Z) (ack : Ack) (c : conn)   (** about to record the new session *)
| PUp (b : Z) (ack : Ack)               (** about to emit connected *)
| PRun (b : Z)                          (** in [sess.Run] *)
| PEnded (b : Z) (e : terror)           (** [connectOnce] returned *)
| PDown (b : Z) (e : terror)            (** about to clear [Connected] *)
| PReport (b : Z) (e : terror)          (** about to emit disconnected *)
| PWaitQuit                             (** [<-ctx.Done()] *)
| PSleep (b : Z)                        (** in the [select] with the timer *)
| PRetry (b : Z)                        (** about to emit reconnecting *)
| PQuit                                 (** about to emit shutdown *)
| PLast                                 (** the deferred [shutdown] *)
| PDone.

Definition session_ended : error := errors_New "session ended".

(** The refusal that ends the attempts (tunnel.go:118). *)
Definition must_stop (e : terror) : bool :=
  match e with Refused _ code => String.eqb code CodeTLSRequired | Failed _ => false end.

(** [fmt.Sprintf("%s", backoff)] for whole seconds below a minute. *)
Definition duration_text (d : Z) : string := pretty (d / Second) +:+ "s".

Record world := mkWorld {
  w_t : tunnel;
  w_pc : pc;
  w_cancelled : bool;
  w_counted : list Record_;     (** goroutines that counted an exchange and did not record it yet *)
  w_pending : list Record_;     (** those that recorded it and did not emit it yet *)
  w_recorded : list Record_;    (** the calls of [OnRecord] *)
  w_read : list Event;          (** what the reader of [Events] took *)
  w_dropped : bool;             (** some event found the channel full or closed *)
  w_log : list action           (** what [Run] did, in the terms of Client.v *)
}.

Definition with_t t p (l : list action) (w : world) : world :=
  mkWorld t p (w_cancelled w) (w_counted w) (w_pending w) (w_recorded w) (w_read w) (w_dropped w) (w_log w ++ l).

Definition goto p (w : world) : world := with_t (w_t w) p [] w.

(** [Run] emits and goes on. *)
Definition emits (e : Event) p (l : list action) (w : world) : world :=
  let '(t, d) := emit e (w_t w) in
  mkWorld t p (w_cancelled w) (w_counted w) (w_pending w) (w_recorded w) (w_read w) (w_dropped w || d) (w_log w ++ l).

Definition disconnected_msg (e : terror) : string :=
  if must_stop e then Error e +:+ no_retry else Error e.

(** One step of [Run]. The input gives the outcome of an attempt, the error of
    [sess.Run], the clock, and whether the back-off timer has fired. *)
Definition run_step cfg (v : attempt) (run_err : option error) (now : Z) (timer : bool) (w : world) : option world :=
  match w_pc w with
  | PStart b =>
      Some (emits (event_msg Connecting ("connecting to " +:+ ServerAddr cfg)) (PDial b)
              [Emit (EventConnecting ("connecting to " +:+ ServerAddr cfg))] w)
  | PDial b =>
      Some (match handshake cfg v with
            | (_, inr e) => with_t (w_t w) (PEnded b e) [Connect] w
            | (c, inl (ack, _)) => with_t (w_t w) (PAck b ack c) [Connect] w
            end)
  | PAck b ack c =>
      let s := tuneSession cfg (NewClientSession c) in
      Some (with_t (set_status (connected ack now) (set_sess (Some s) (w_t w))) (PUp b ack) [] w)
  | PUp b ack => Some (emits (mkEvent Connected_ (a_PublicURL ack) (a_Subdomain ack) "" None) (PRun b) [] w)
  | PRun b =>
      Some (with_t (set_sess None (w_t w)) (PEnded b (Failed (default session_ended run_err))) [] w)
  | PEnded b e => Some (goto (if w_cancelled w then PQuit else PDown b e) w)
  | PDown b e => Some (with_t (set_status disconnected (w_t w)) (PReport b e) [] w)
  | PReport b e =>
      let ev := EventDisconnected (disconnected_msg e) in
      Some (if must_stop e then emits (event_msg Disconnected (disconnected_msg e)) PWaitQuit [Emit ev; WaitQuit] w
            else emits (event_msg Disconnected (disconnected_msg e)) (PSleep b) [Emit ev; Sleep b] w)
  | PWaitQuit => if w_cancelled w then Some (goto PQuit w) else None
  | PSleep b =>
      if timer then Some (goto (PRetry b) w) else if w_cancelled w then Some (goto PQuit w) else None
  | PRetry b =>
      Some (emits (event_msg Reconnecting ("reconnecting (backoff " +:+ duration_text b +:+ ")"))
              (PStart (next_backoff b)) [Emit (EventReconnecting b)] w)
  | PQuit => Some (emits (event_msg ShuttingDown "") PLast [Emit EventShuttingDown] w)
  | PLast => Some (with_t (shutdown (w_t w)) PDone [] w)
  | PDone => None
  end.

(** The other goroutines: the user cancels; a stream is served and counted, its
    record given to [OnRecord] and then emitted; the reader takes an event. *)
Inductive step cfg : world -> world -> Prop :=
| step_run v run_err now timer w w' :
    run_step cfg v run_err now timer w = Some w' -> step cfg w w'
| step_cancel w :
    step cfg w (mkWorld (w_t w) (w_pc w) true (w_counted w) (w_pending w) (w_recorded w) (w_read w) (w_dropped w)
                  (w_log w))
| step_served w v :
    step cfg w (mkWorld (add_request (w_t w)) (w_pc w) (w_cancelled w)
                  (w_counted w ++ [sd_record (Serve (forwarder_of cfg) v)]) (w_pending w) (w_recorded w) (w_read w)
                  (w_dropped w) (w_log w))
| step_record w i rec :
    w_counted w !! i = Some rec ->
    step cfg w (mkWorld (w_t w) (w_pc w) (w_cancelled w) (delete i (w_counted w)) (w_pending w ++ [rec])
                  (w_recorded w ++ [rec]) (w_read w) (w_dropped w) (w_log w))
| step_emit w i rec :
    w_pending w !! i = Some rec ->
    step cfg w (let '(t, d) := emit (mkEvent Request_ "" "" "" (Some rec)) (w_t w) in
                mkWorld t (w_pc w) (w_cancelled w) (w_counted w) (delete i (w_pending w)) (w_recorded w) (w_read w)
                  (w_dropped w || d) (w_log w))
| step_read w e q :
    t_queue (w_t w) = e :: q ->
    step cfg w (mkWorld (set_queue q (w_t w)) (w_pc w) (w_cancelled w) (w_counted w) (w_pending w) (w_recorded w)
                  (w_read w ++ [e]) (w_dropped w) (w_log w)).

Definition start t : world := mkWorld t (PStart Second) false [] [] [] [] false [].

(** ** The invariant *)

Definition live (p : pc) : bool := match p with PUp _ _ | PRun _ => true | _ => false end.
Definition up (p : pc) : bool :=
  match p with PUp _ _ | PRun _ | PEnded _ _ | PDown _ _ => true | _ => false end.
Definition is_done (p : pc) : bool := match p with PDone => true | _ => false end.

Record world_ok (w : world) : Prop := {
  wk_panic : t_panicked (w_t w) = false;
  wk_closed : t_chan_closed (w_t w) = t_closed (w_t w) /\ t_closed (w_t w) = is_done (w_pc w);
  wk_cap : (length (t_queue (w_t w)) <= eventsCap)%nat;
  wk_live : live (w_pc w) = true -> Connected (t_status (w_t w)) = true;
  wk_up : Connected (t_status (w_t w)) = true -> up (w_pc w) = true \/ w_cancelled w = true;
  wk_sess : is_Some (t_sess (w_t w)) <-> live (w_pc w) = true;
  wk_count : t_requests (w_t w) = zlen (w_recorded w) + zlen (w_counted w);
  wk_kept : w_dropped w = false ->
    w_recorded w ≡ₚ w_pending w ++ omap e_Record (w_read w ++ t_queue (w_t w))
}.

(** What [emit] does on an open tunnel: the event is queued, or dropped. *)
Definition queued (e : Event) t t' (d : bool) : Prop :=
  t_panicked t' = t_panicked t /\ t_chan_closed t' = t_chan_closed t /\ t_closed t' = t_closed t /\
  t_sess t' = t_sess t /\ t_requests t' = t_requests t /\ Connected (t_status t') = Connected (t_status t) /\
  (PublicURL (t_status t') = PublicURL (t_status t) /\ st_Subdomain (t_status t') = st_Subdomain (t_status t)) /\
  (t_queue t' = t_queue t /\ d = true \/
   t_queue t' = t_queue t ++ [e] /\ d = false /\ (length (t_queue t) < eventsCap)%nat).

Lemma emit_queued e t :
  t_chan_closed t = t_closed t -> queued e t (fst (emit e t)) (snd (emit e t)).
Proof.
  intros Hc. unfold emit. destruct (t_closed t) eqn:Hcl; [by split_and!; try left|].
  set (t0 := if String.eqb _ _ then _ else _).
  assert (t_chan_closed t0 = false /\ t_queue t0 = t_queue t /\ t_panicked t0 = t_panicked t /\
    t_closed t0 = false /\ t_sess t0 = t_sess t /\ t_requests t0 = t_requests t /\
    Connected (t_status t0) = Connected (t_status t) /\
    (PublicURL (t_status t0) = PublicURL (t_status t) /\ st_Subdomain (t_status t0) = st_Subdomain (t_status t)))
    as (X1 & X2 & X3 & X4 & X5 & X6 & X7 & X8)
    by (unfold t0; destruct (String.eqb _ _); by rewrite ?Hc).
  clearbody t0. unfold send. rewrite X1, X2. destruct (Nat.ltb_spec (length (t_queue t)) eventsCap); simpl.
  - unfold queued; simpl. repeat (split; [congruence|]). right. split_and!; [congruence|done|done].
  - unfold queued; simpl. repeat (split; [congruence|]). by left.
Qed.

(** Emitting keeps the invariant, whoever does it. *)
Lemma tunnel_emit_ok e w p l pend c :
  world_ok w -> is_done (w_pc w) = is_done p ->
  (live p = true -> Connected (t_status (w_t w)) = true) ->
  (Connected (t_status (w_t w)) = true -> up p = true \/ c = true) ->
  (is_Some (t_sess (w_t w)) <-> live p = true) ->
  (w_pending w ≡ₚ pend ++ option_list (e_Record e)) ->
  world_ok (let '(t, d) := emit e (w_t w) in
            mkWorld t p c (w_counted w) pend (w_recorded w) (w_read w) (w_dropped w || d) (w_log w ++ l)).
Proof.
  intros [Hp [Hc1 Hc2] Hq _ _ _ Hn Hk] Hd Hl Hu Hs Hpend.
  pose proof (emit_queued e (w_t w) Hc1) as (E1 & E2 & E3 & E4 & E5 & E6 & _ & E7).
  destruct (emit e (w_t w)) as [t d]. simpl in *. split; simpl.
  - congruence.
  - rewrite E2, E3. split; [done|congruence].
  - destruct E7 as [[-> _]|(-> & _ & Hlt)]; [done|]. rewrite length_app. simpl. lia.
  - by rewrite E6.
  - by rewrite E6.
  - by rewrite E4.
  - congruence.
  - intros [Hd1 ->]%orb_false_iff. destruct E7 as [[_ ?]|(-> & _ & _)]; [done|].
    rewrite (Hk Hd1), Hpend, !omap_app. simpl. rewrite <-!app_assoc. f_equiv.
    rewrite (Permutation_app_comm (option_list _)), <-!app_assoc. by destruct (e_Record e).
Qed.

(** What was emitted and is not lost. *)
Definition seen (w : world) : list Event := w_read w ++ t_queue (w_t w).

Lemma emit_seen e w :
  t_chan_closed (w_t w) = t_closed (w_t w) -> snd (emit e (w_t w)) = false ->
  w_read w ++ t_queue (fst (emit e (w_t w))) = seen w ++ [e] /\
  PublicURL (t_status (fst (emit e (w_t w)))) = PublicURL (t_status (w_t w)) /\
  st_Subdomain (t_status (fst (emit e (w_t w)))) = st_Subdomain (t_status (w_t w)).
Proof.
  intros Hc Hd. pose proof (emit_queued e (w_t w) Hc) as (_ & _ & _ & _ & _ & _ & [HU HS] & [[_ ?]|(Hq & _)]); [congruence|].
  unfold seen. by rewrite Hq, app_assoc.
Qed.

Lemma tunnel_emits_ok e p l w :
  world_ok w -> is_done (w_pc w) = is_done p -> e_Record e = None ->
  (live p = true -> Connected (t_status (w_t w)) = true) ->
  (Connected (t_status (w_t w)) = true -> up p = true \/ w_cancelled w = true) ->
  (is_Some (t_sess (w_t w)) <-> live p = true) ->
  world_ok (emits e p l w).
Proof.
  intros Hw Hd Hr Hl Hu Hs. unfold emits. apply tunnel_emit_ok; try done. rewrite Hr. simpl. by rewrite app_nil_r.
Qed.

(** A step of [Run] that emits nothing. *)
Lemma tunnel_move_ok t' p l w :
  world_ok w ->
  (t_panicked t' = t_panicked (w_t w) /\ t_chan_closed t' = t_chan_closed (w_t w) /\
   t_closed t' = t_closed (w_t w) /\ t_queue t' = t_queue (w_t w) /\ t_requests t' = t_requests (w_t w)) ->
  is_done (w_pc w) = is_done p ->
  (live p = true -> Connected (t_status t') = true) ->
  (Connected (t_status t') = true -> up p = true \/ w_cancelled w = true) ->
  (is_Some (t_sess t') <-> live p = true) ->
  world_ok (with_t t' p l w).
Proof.
  intros [Hp [Hc1 Hc2] Hq _ _ _ Hn Hk] (E1 & E2 & E3 & E4 & E5) Hd Hl Hu Hs.
  split; simpl; rewrite ?E1, ?E2, ?E3, ?E4, ?E5; try done. split; [done|congruence].
Qed.

(** Each step of [Run] is an [emits] or a [move]; what is left says when the
    status may show a connection. *)
Ltac run_cases Hw Hpc Hu :=
  match goal with
  | |- world_ok (emits _ _ _ _) => apply tunnel_emits_ok; [exact Hw|by rewrite Hpc|done|..]
  | |- world_ok (goto _ _) => apply tunnel_move_ok; [exact Hw|done|by rewrite Hpc|..]
  | |- world_ok (with_t _ _ _ _) => apply tunnel_move_ok; [exact Hw|done|by rewrite Hpc|..]
  end; simpl;
  try done; try (by intros [? ?]%Hu || by left); try (intros Hcon; destruct (Hu Hcon); by auto).

Lemma tunnel_run_ok cfg v re now timer w w' :
  run_step cfg v re now timer w = Some w' -> world_ok w -> world_ok w'.
Proof.
  intros Hstep Hw. pose proof Hw as [Hp [Hc1 Hc2] Hq Hl Hu Hs Hn Hk]. unfold run_step in Hstep.
  destruct (w_pc w) eqn:Hpc; simpl in *;
    repeat match type of Hstep with context [if ?b then _ else _] => destruct b eqn:? end;
    try (destruct (handshake cfg v) as [c [[ack r]|e]]); simplify_eq.
  all: try run_cases Hw Hpc Hu.
  all: split; simpl; try done; try by rewrite Hp, Hc1, Hc2.
Qed.

Lemma tunnel_step_ok cfg w w' : step cfg w w' -> world_ok w -> world_ok w'.
Proof.
  intros Hst Hw. destruct Hst as [v re now timer w w' Hr|w|w v|w i rec Hi|w i rec Hi|w e q He].
  - by eapply tunnel_run_ok.
  - destruct Hw as [Hp Hc Hq Hl Hu Hs Hn Hk]. split; simpl; auto.
  - destruct Hw as [Hp Hc Hq Hl Hu Hs Hn Hk]. split; simpl; auto.
    rewrite length_app, Hn. simpl. lia.
  - destruct Hw as [Hp Hc Hq Hl Hu Hs Hn Hk]. split; simpl; auto.
    + pose proof (length_delete (w_counted w) i (mk_is_Some _ _ Hi)). pose proof (lookup_lt_Some _ _ _ Hi).
      rewrite length_app, Hn. simpl. lia.
    + intros Hd. rewrite (Hk Hd). rewrite <-!app_assoc. f_equiv. apply Permutation_app_comm.
  - pose proof (tunnel_emit_ok (mkEvent Request_ "" "" "" (Some rec)) w (w_pc w) [] (delete i (w_pending w)) (w_cancelled w) Hw) as He.
    rewrite app_nil_r in He. destruct Hw as [_ _ _ Hl Hu Hs _ _]. apply He; try done. simpl.
    etrans; [apply (delete_Permutation _ _ _ Hi)|apply Permutation_cons_append].
  - destruct Hw as [Hp Hc Hq Hl Hu Hs Hn Hk]. rewrite He in *. split; simpl; auto.
    + simpl in Hq. lia.
    + intros Hd. rewrite <-app_assoc. simpl. by apply Hk.
Qed.

Lemma reachable_world_ok cfg t w :
  world_ok (start t) -> rtc (step cfg) (start t) w -> world_ok w.
Proof. intros Hstart Hr. induction Hr as [|w1 w2 w3 Hst _ IH]; [done|]. apply IH. by eapply tunnel_step_ok. Qed.

(** ** The loop is the one of Client.v *)

Definition error_of (e : terror) : session_error :=
  match e with Refused msg code => Rejected msg code | Failed e => Ended (error_text e) end.

Lemma error_of_spec e : error_message (error_of e) = Error e /\ is_tls_required (error_of e) = must_stop e.
Proof. by destruct e. Qed.

(** Rounds after which the loop went on, and the back-off they leave. *)
Definition went_on (r : round) : Prop :=
  r_cancelled r = false /\ is_tls_required (r_err r) = false /\ r_cancel_wait r = false.

Definition backoff_after (rounds : list round) : Z := foldl (fun b _ => next_backoff b) Second rounds.

Definition round_log (addr : string) (b : Z) (r : round) : list action :=
  [Emit (EventConnecting ("connecting to " +:+ addr)); Connect; Emit (EventDisconnected (error_message (r_err r)));
   Sleep b; Emit (EventReconnecting b)].

Fixpoint rounds_log (addr : string) (b : Z) (rounds : list round) : list action :=
  match rounds with [] => [] | r :: rounds => round_log addr b r ++ rounds_log addr (next_backoff b) rounds end.

Lemma run_loop_app addr b rounds more :
  Forall went_on rounds ->
  run_loop addr b (rounds ++ more) =
  rounds_log addr b rounds ++ run_loop addr (foldl (fun b _ => next_backoff b) b rounds) more.
Proof.
  intros Hr. revert b. induction Hr as [|r rounds (Hc & Ht & Hw) _ IH]; intros b; [done|].
  simpl. by rewrite Hc, Ht, Hw, IH.
Qed.

Lemma rounds_log_snoc addr b rounds r :
  rounds_log addr b (rounds ++ [r]) =
  rounds_log addr b rounds ++ round_log addr (foldl (fun b _ => next_backoff b) b rounds) r.
Proof.
  revert b. induction rounds as [|r0 rounds IH]; intros b; [done|]. simpl. by rewrite IH.
Qed.

(** What [Run] has done of the current round. *)
Definition opening (addr : string) : list action :=
  [Emit (EventConnecting ("connecting to " +:+ addr)); Connect].

Definition round_ok (addr : string) (b : Z) (p : pc) (l : list action) : Prop :=
  match p with
  | PStart b' => b' = b /\ l = []
  | PDial b' => b' = b /\ l = [Emit (EventConnecting ("connecting to " +:+ addr))]
  | PAck b' _ _ | PUp b' _ | PRun b' | PEnded b' _ | PDown b' _ | PReport b' _ => b' = b /\ l = opening addr
  | PSleep b' | PRetry b' => b' = b /\ exists e, must_stop e = false /\
      l = opening addr ++ [Emit (EventDisconnected (Error e)); Sleep b]
  | PWaitQuit => exists e, must_stop e = true /\
      l = opening addr ++ [Emit (EventDisconnected (Error e +:+ no_retry)); WaitQuit]
  | PQuit => exists r, run_loop addr b [r] = l ++ [Emit EventShuttingDown]
  | PLast | PDone => exists r, run_loop addr b [r] = l
  end.

Definition log_ok (addr : string) (w : world) : Prop :=
  exists rounds l, Forall went_on rounds /\ w_log w = rounds_log addr Second rounds ++ l /\
    round_ok addr (backoff_after rounds) (w_pc w) l.

Lemma tunnel_run_log cfg v re now timer w w' :
  run_step cfg v re now timer w = Some w' -> log_ok (ServerAddr cfg) w -> log_ok (ServerAddr cfg) w'.
Proof.
  intros Hstep (rounds & l & Hr & Hlog & Hl). unfold run_step, goto, with_t in Hstep.
  assert (forall p l' t d, round_ok (ServerAddr cfg) (backoff_after rounds) p (l ++ l') ->
    log_ok (ServerAddr cfg) (mkWorld t p (w_cancelled w) (w_counted w) (w_pending w) (w_recorded w) (w_read w) d (w_log w ++ l'))) as Hgo.
  { intros p l' t d Hp. exists rounds, (l ++ l'). simpl. by rewrite Hlog, app_assoc. }
  destruct (w_pc w) eqn:Hpc; simpl in Hl.
  - destruct Hl as [-> ->]. simplify_eq. unfold emits. destruct (emit _ _). by apply Hgo.
  - destruct Hl as [-> ->]. simplify_eq. destruct (handshake cfg v) as [c [[ack r]|e]]; by apply Hgo.
  - destruct Hl as [-> ->]. simplify_eq. by apply Hgo.
  - destruct Hl as [-> ->]. simplify_eq. unfold emits. destruct (emit _ _). by apply Hgo.
  - destruct Hl as [-> ->]. simplify_eq. by apply Hgo.
  - destruct Hl as [-> ->]. simplify_eq. apply Hgo. destruct (w_cancelled w); [|by split].
    by exists (mkRound (error_of e) true false).
  - destruct Hl as [-> ->]. simplify_eq. by apply Hgo.
  - destruct Hl as [-> ->]. unfold disconnected_msg in Hstep.
    destruct (must_stop e) eqn:He; simplify_eq; unfold emits; destruct (emit _ _); apply Hgo; simpl.
    + by exists e.
    + split; [done|]. by exists e.
  - destruct Hl as (e & He & ->). destruct (w_cancelled w); simplify_eq. apply Hgo.
    exists (mkRound (error_of e) false false). simpl. destruct (error_of_spec e) as [-> ->]. by rewrite He.
  - destruct Hl as (-> & e & He & ->). destruct timer; [|destruct (w_cancelled w)]; simplify_eq; apply Hgo; simpl.
    + split; [done|]. by exists e.
    + exists (mkRound (error_of e) false true). simpl. destruct (error_of_spec e) as [-> ->]. by rewrite He.
  - destruct Hl as (-> & e & He & ->). simplify_eq. unfold emits. destruct (emit _ _).
    exists (rounds ++ [mkRound (error_of e) false false]), []. simpl. destruct (error_of_spec e) as [Hm Ht].
    split; [|split].
    + apply Forall_app. split; [done|]. constructor; [|done]. split_and!; try done. simpl. congruence.
    + rewrite rounds_log_snoc, app_nil_r, Hlog, <-!app_assoc. simpl. unfold round_log. simpl. by rewrite Hm.
    + unfold backoff_after. by rewrite foldl_app.
  - destruct Hl as [r Hrun]. simplify_eq. unfold emits. destruct (emit _ _). apply Hgo. by exists r.
  - destruct Hl as [r Hrun]. simplify_eq. apply Hgo. exists r. by rewrite app_nil_r.
  - done.
Qed.

Lemma tunnel_step_log cfg w w' : step cfg w w' -> log_ok (ServerAddr cfg) w -> log_ok (ServerAddr cfg) w'.
Proof.
  intros Hst Hw. destruct Hst as [v re now timer w w' Hr|w|w v|w i rec Hi|w i rec Hi|w e q He]; [by eapply tunnel_run_log|done..| |done].
  by destruct (emit _ _).
Qed.

Lemma reachable_log cfg t w : rtc (step cfg) (start t) w -> log_ok (ServerAddr cfg) w.
Proof.
  intros Hr. assert (log_ok (ServerAddr cfg) (start t)) as Hst0 by (exists [], []; by split_and!).
  revert Hst0. induction Hr as [|w1 w2 w3 Hst _ IH]; [done|]. intros Hw. apply IH. by eapply tunnel_step_log.
Qed.

(** Every round that has begun can be completed as one of Client.v. *)
Lemma round_completes addr b p l :
  round_ok addr b p l ->
  exists r rest, run_loop addr b [r] = l ++ rest /\ (p = PLast \/ p = PDone -> rest = []).
Proof.
  assert (forall r, (exists rest, run_loop addr b [r] = l ++ rest /\ (p = PLast \/ p = PDone -> rest = [])) ->
    exists r rest, run_loop addr b [r] = l ++ rest /\ (p = PLast \/ p = PDone -> rest = [])) as Hin by eauto.
  destruct p as [b'|b'|b' ack c|b' ack|b'|b' e|b' e|b' e| |b'|b'| | |]; simpl; intros Hl.
  1-8: destruct Hl as [-> ->]; apply (Hin (mkRound (Ended "") true false)); eexists; split; [done|by intros [?|?]].
  - destruct Hl as (e & He & ->). apply (Hin (mkRound (error_of e) false false)). simpl.
    destruct (error_of_spec e) as [-> ->]. rewrite He. eexists. split; [done|by intros [?|?]].
  - destruct Hl as (-> & e & He & ->). apply (Hin (mkRound (error_of e) false true)). simpl.
    destruct (error_of_spec e) as [-> ->]. rewrite He. eexists. split; [done|by intros [?|?]].
  - destruct Hl as (-> & e & He & ->). apply (Hin (mkRound (error_of e) false true)). simpl.
    destruct (error_of_spec e) as [-> ->]. rewrite He. eexists. split; [done|by intros [?|?]].
  - destruct Hl as [r Hr]. eexists r, _. split; [exact Hr|by intros [?|?]].
  - destruct Hl as [r Hr]. exists r, []. by rewrite app_nil_r.
  - destruct Hl as [r Hr]. exists r, []. by rewrite app_nil_r.
Qed.

(** ** Stopping *)

(** Steps, counting those of [Run]. *)
Inductive steps cfg : nat -> world -> world -> Prop :=
| steps_refl w : steps cfg 0 w w
| steps_run v re now timer n w1 w2 w3 :
    run_step cfg v re now timer w1 = Some w2 -> steps cfg n w2 w3 -> steps cfg (S n) w1 w3
| steps_other n w1 w2 w3 :
    step cfg w1 w2 -> w_pc w2 = w_pc w1 -> steps cfg n w2 w3 -> steps cfg n w1 w3.

(** How many steps are left to a [Run] that has been cancelled. *)
Definition rank (p : pc) : nat :=
  match p with
  | PDone => 0 | PLast => 1 | PQuit => 2 | PEnded _ _ => 3 | PWaitQuit => 3 | PRun _ => 4 | PUp _ _ => 5
  | PAck _ _ _ => 6 | PDial _ => 7 | PStart _ => 8 | PRetry _ => 9 | PSleep _ => 10 | PReport _ _ => 11
  | PDown _ _ => 12
  end.

Lemma run_step_rank cfg v re now timer w w' :
  run_step cfg v re now timer w = Some w' -> w_cancelled w = true ->
  w_cancelled w' = true /\ (rank (w_pc w') < rank (w_pc w))%nat.
Proof.
  unfold run_step. intros Hs Hc. destruct (w_pc w); simpl in *; rewrite ?Hc in Hs;
    repeat match type of Hs with context [if ?b then _ else _] => destruct b end;
    try (destruct (handshake cfg v) as [c [[ack r]|e]]); simplify_eq;
    unfold emits, with_t, goto; try destruct (emit _ _); simpl; split; try done; lia.
Qed.

Lemma run_step_some cfg v re now timer w :
  w_cancelled w = true -> w_pc w <> PDone -> is_Some (run_step cfg v re now timer w).
Proof.
  intros Hc Hp. unfold run_step. rewrite Hc. destruct (w_pc w); try done; try by eexists.
  destruct timer; by eexists.
Qed.

Lemma step_cancelled cfg w w' : step cfg w w' -> w_cancelled w = true -> w_cancelled w' = true.
Proof.
  intros [v re now timer w1 w2 Hr|w1|w1 v|w1 i rec Hi|w1 i rec Hi|w1 e q He] Hc; simpl; try done.
  - by apply (run_step_rank _ _ _ _ _ _ _ Hr Hc).
  - by destruct (emit _ _).
Qed.

Lemma steps_rank cfg n w w' :
  steps cfg n w w' -> w_cancelled w = true ->
  w_cancelled w' = true /\ (n + rank (w_pc w') <= rank (w_pc w))%nat.
Proof.
  induction 1 as [w|v re now timer n w1 w2 w3 Hr _ IH|n w1 w2 w3 Hst Hpc _ IH]; intros Hc.
  - split; [done|lia].
  - destruct (run_step_rank _ _ _ _ _ _ _ Hr Hc) as [Hc2 Hlt]. destruct (IH Hc2). split; [done|lia].
  - destruct (IH (step_cancelled _ _ _ Hst Hc)). split; [done|]. by rewrite <-Hpc.
Qed.

(** What a fresh tunnel is. *)
Lemma New_ok c cfg t : New c = Ok (cfg, t) -> Validate c = Ok cfg /\ world_ok (start t).
Proof.
  unfold New. destruct (Validate c) as [c'|]; [|done]. intros [= <- <-]. split; [done|].
  split; simpl; try done; try lia.
Qed.

(** The reader can take all that is queued. *)
Lemma read_all cfg w :
  exists w', rtc (step cfg) w w' /\ t_queue (w_t w') = [] /\ w_dropped w' = w_dropped w /\ w_pc w' = w_pc w /\
    w_read w' = seen w.
Proof.
  remember (t_queue (w_t w)) as q eqn:Hq. revert w Hq. induction q as [|e q IH]; intros w Hq.
  - exists w. unfold seen. rewrite <-Hq, app_nil_r. by split_and!.
  - destruct (IH (mkWorld (set_queue q (w_t w)) (w_pc w) (w_cancelled w) (w_counted w) (w_pending w) (w_recorded w)
      (w_read w ++ [e]) (w_dropped w) (w_log w)) eq_refl) as (w' & Hr & Hq' & Hd & Hp & Hrd).
    exists w'. split_and!; [|done|done|done|].
    + eapply rtc_l; [by apply step_read|done].
    + rewrite Hrd. unfold seen. simpl. by rewrite <-Hq, <-app_assoc.
Qed.

(** ** The connection *)

(** Nothing is written before the server is accepted, and then only the hello. *)
Lemma handshake_sent cfg v c r :
  handshake cfg v = (c, r) ->
  c_sent c = [] \/
  dial cfg v = None /\ exists b, json_Marshal (hello_of cfg) = Ok b /\ c_sent c = [b ++ [Byte.x0a]].
Proof.
  unfold handshake. destruct (dial cfg v) as [e|]; [intros [= <- _]; by left|].
  unfold WriteMessage. destruct (json_Marshal (hello_of cfg)) as [b|e] eqn:Hj; [|intros [= <- _]; by left].
  unfold Write, conn_writer; simpl. destruct (at_write v).
  - intros [= <- _]. right. split; [done|]. by exists b.
  - destruct (ReadMessage (at_reader v)) as [rd [ack|e]]; [destruct (a_OK ack)|];
      intros [= <- _]; right; (split; [done|]); by exists b.
Qed.

(** ** Properties *)

(** C11: However [Run], the goroutines serving streams, the reader of the events
    and the user interleave: nothing is sent on, and the event channel is not
    closed twice; the channel is closed exactly when [Run] has returned; it never
    holds more than 256 events; until the user cancels, the status shows a
    connection only while there is a session or [Run] is about to report its end,
    and always while there is one; the request counter is the number of exchanges
    recorded or about to be; and as long as no event was dropped, each recorded exchange is
    exactly once among those still being emitted, queued or read. *)
Theorem tunnel_invariant c cfg t w :
  New c = Ok (cfg, t) -> rtc (step cfg) (start t) w ->
  t_panicked (w_t w) = false /\
  (t_chan_closed (w_t w) = true <-> w_pc w = PDone) /\
  (length (t_queue (w_t w)) <= eventsCap)%nat /\
  (is_Some (t_sess (w_t w)) -> Connected (t_status (w_t w)) = true) /\
  (w_cancelled w = false -> Connected (t_status (w_t w)) = true -> up (w_pc w) = true) /\
  Requests (StatusNow (w_t w)) = zlen (w_recorded w) + zlen (w_counted w) /\
  (w_dropped w = false -> w_recorded w ≡ₚ w_pending w ++ omap e_Record (w_read w ++ t_queue (w_t w))).
Proof.
  intros [Hv Hok]%New_ok Hr. destruct (reachable_world_ok _ _ _ Hok Hr) as [Hp [Hc1 Hc2] Hq Hl Hu Hs Hn Hk].
  split_and!; try done.
  - rewrite Hc1, Hc2. by destruct (w_pc w).
  - intros Hsome. by apply Hl, Hs.
  - intros Hc Hcon. destruct (Hu Hcon); [done|congruence].
Qed.



(** C17: With a pinned certificate the token never leaves for another server: the
    connection is TLS, and unless the server presents a certificate whose SHA-256
    is the pin nothing is written to it, whatever the certificate authorities say;
    what is written is the hello alone. *)
Theorem pinned_server_only c cfg v conn r :
  Validate c = Ok cfg -> ServerCertSHA256 c <> ""%string ->
  handshake cfg v = (conn, r) ->
  TLS cfg = true /\
  (c_sent conn <> [] ->
   (exists leaf rest, at_certs v = leaf :: rest /\ decode_pin (ServerCertSHA256 c) = Some (sha256 leaf)) /\
   exists b, json_Marshal (hello_of cfg) = Ok b /\ c_sent conn = [b ++ [Byte.x0a]]).
Proof.
  intros Hv Hpin Hh. destruct (Validate_pinned _ _ Hv Hpin) as [Htls Hver]. split; [done|]. intros Hne.
  destruct (handshake_sent _ _ _ _ Hh) as [?|(Hd & b & Hb & Hs)]; [done|]. split; [|by exists b].
  apply (Hver (at_chain_ok v)). unfold dial in Hd. destruct (at_tcp v); [done|]. rewrite Htls in Hd. simpl in Hd.
  by destruct (tls_verify cfg (at_chain_ok v) (at_certs v)).
Qed.

End tunnel.

(** ** Concrete instances *)

#[local] Instance sample_text : ErrorText := fun e => match e with Errorf f _ => f | _ => ""%string end.
#[local] Instance sample_sha : Sha256 := fun b => b.
#[local] Instance sample_hello : JSON Hello := {| json_Marshal _ := Ok [Byte.x7b]; json_Unmarshal _ := Err io_EOF |}.
Definition sample_ack : Ack := mkAck TypeAck true "a" "https://a.t" "" "".
#[local] Instance sample_ack_json : JSON Ack := {| json_Marshal _ := Ok [Byte.x7b]; json_Unmarshal _ := Ok sample_ack |}.

Definition sample_pin : string := "000102030405060708090a0b0c0d0e0f:101112131415161718191a1b1c1d1e1f".
Definition sample_config : Client.Config :=
  Client.mkConfig 3000 "" "t.example" "" "" false false "" 0 true sample_pin 0 0 [].
Definition sample_leaf : list Byte.byte := default [] (decode_pin sample_pin).
Definition sample_attempt : attempt :=
  mkAttempt None false [sample_leaf] io_EOF None {| rd_data := [Byte.x7b; Byte.x0a]; rd_end := io_EOF |}.
Definition sample_cfg : Client.Config := match Validate sample_config with Ok c => c | Err _ => sample_config end.
Definition sample_tunnel : tunnel :=
  match New sample_config with Ok (_, t) => t | Err _ => mkTunnel (mkStatus false "" "" "" "" 0 0 "") None 0 true [] true false end.
#[local] Instance sample_uri : OtherURI := fun _ => Err io_EOF.
#[local] Instance sample_encoded : OtherBody := fun _ _ _ => Err io_EOF.

(** A stream that carries a request for /a, which the local service answers. *)
Definition sample_stream : serve_env :=
  mkServeEnv (line "GET /a HTTP/1.1" +:+ field "Host" "a.t" +:+ crlf) io_EOF 0 3000000
    (inl (mkMessage 1 1 "200 OK" 200 [] 2 false false false "" ["ok"%string] io_EOF)) 0 None false None None.
Definition sample_rec : Record_ := mkRecord 0 0 3 false false "" "GET" "/a" [] "" false 200 [] "ok" false.

Lemma sample_served : sd_record (Serve (forwarder_of sample_cfg) sample_stream) = sample_rec.
Proof. vm_compute. reflexivity. Qed.

(** The world a run has come to, computed. *)
Ltac compute_world :=
  match goal with |- rtc _ ?w _ => let w' := eval vm_compute in w in replace w with w' by (vm_compute; reflexivity) end.

(** Connecting, serving one stream, recording it and emitting it. *)
Lemma sample_serves :
  exists w, rtc (step sample_cfg) (start sample_tunnel) w /\ w_recorded w = [sample_rec] /\ w_counted w = [] /\
    w_dropped w = false /\ w_pc w = PRun Second /\ length (t_queue (w_t w)) = 3%nat.
Proof.
  eexists. split.
  - do 4 (eapply rtc_l; [apply (step_run _ sample_attempt None 7 false); vm_compute; reflexivity|]).
    eapply rtc_l; [apply (step_served _ _ sample_stream)|]. rewrite sample_served. compute_world.
    eapply rtc_l; [apply (step_record _ _ 0 sample_rec); reflexivity|]. compute_world.
    eapply rtc_l; [apply (step_emit _ _ 0 sample_rec); reflexivity|]. compute_world. apply rtc_refl.
  - by split_and!.
Qed.

Lemma tunnel_invariant_witness :
  exists w, rtc (step sample_cfg) (start sample_tunnel) w /\ Requests (StatusNow (w_t w)) = 1 /\
    [sample_rec] ≡ₚ w_pending w ++ omap e_Record (w_read w ++ t_queue (w_t w)).
Proof.
  destruct sample_serves as (w & Hr & Hrec & Hcnt & Hd & _). exists w. split; [exact Hr|].
  destruct (tunnel_invariant sample_config sample_cfg sample_tunnel w ltac:(vm_compute; reflexivity) Hr)
    as (_ & _ & _ & _ & _ & Hn & Hk).
  rewrite Hn, Hrec, Hcnt. split; [reflexivity|]. rewrite <-Hrec. exact (Hk Hd).
Defined.


(** Cancelled while about to report a lost connection. *)
Definition sample_cancelled : world :=
  mkWorld sample_tunnel (PDown Second (Failed io_EOF)) true [] [] [] [] false [].

Lemma sample_stops : exists w, steps sample_cfg 5 sample_cancelled w.
Proof. eexists. do 5 (eapply (steps_run _ sample_attempt None 7 false); [reflexivity|]). apply steps_refl. Qed.


Lemma pinned_server_only_witness :
  exists leaf rest, at_certs sample_attempt = leaf :: rest /\ decode_pin sample_pin = Some leaf.
Proof.
  destruct (pinned_server_only sample_config sample_cfg sample_attempt _ _
              ltac:(vm_compute; reflexivity) ltac:(discriminate) ltac:(vm_compute; reflexivity)) as [_ Hs].
  destruct (Hs ltac:(vm_compute; discriminate)) as [(leaf & rest & Hc & Hd) _].
  exists leaf, rest. split; [exact Hc|exact Hd].
Defined.
