(* ===== verification/Capture.v ===== *)
(** * The captured exchanges: cmd/client/main.go 187-205

    The tunnel of Tunnel.v, the ring buffer, the tabs and the inspector of
    Inspect.v as one process. Every served stream and every replay has a goroutine
    of its own that numbers its record, stores it under the lock of the buffer and
    sends it to the tabs under the lock of the hub; these three steps, the tunnel's
    own and the inspector's requests interleave. *)
From S2P Require Import Prelude Frame Stream Session GoStr Encoding Http GoUrl HttpRead Proto Control Proxy Inspect Forwarder Client Tunnel.

(** ** The process *)

(** A goroutine's record: the one the tunnel gave it, unless it is a replay, and
    the same with its number and time. *)
Definition capture : Type := option Record_ * Record_.

(** A tab of the hub: how many records had been sent when it joined, and what was
    written to it since. *)
Record tab := mkTab { tb_since : nat; tb_got : list Record_ }.

Record process := mkProcess {
  cp_world : world;
  cp_store : Store;
  cp_tabs : gmap nat tab;
  cp_replaying : list Record_;   (** requests being replayed *)
  cp_adding : list capture;      (** numbered, not stored yet *)
  cp_casting : list capture;     (** stored, not sent to the tabs yet *)
  cp_ever : list capture;        (** all that were stored *)
  cp_cleared : nat;              (** how many of them before the last clear *)
  cp_sent : list capture         (** all that were sent to the tabs *)
}.

(** hub.go:60: a record is written to every tab; one that fails is dropped. *)
Definition cast (fails : nat -> bool) (r : Record_) (tabs : gmap nat tab) : gmap nat tab :=
  map_imap (fun c t => if fails c then None else Some (mkTab (tb_since t) (tb_got t ++ [r]))) tabs.

Section capture.
Context `{UnicodeLower, UrlParse, OtherURI, OtherBody, ErrorText, Sha256, JSON Hello, JSON Ack}.
Variable cfg : Client.Config.
Variable srv : Inspect.Server.

Implicit Types (c : process) (r : Record_) (p : capture).

(** The tunnel goes on as [OnRecord] returns for one of its exchanges. *)
Definition recorded (o : option Record_) (w w' : world) : Prop :=
  match o with
  | Some r => Tunnel.step cfg w w' /\ w_recorded w' = w_recorded w ++ [r]
  | None => w' = w
  end.

Inductive cap_step : process -> process -> Prop :=
| cap_tunnel c w :
    Tunnel.step cfg (cp_world c) w -> w_recorded w = w_recorded (cp_world c) ->
    cap_step c (mkProcess w (cp_store c) (cp_tabs c) (cp_replaying c) (cp_adding c) (cp_casting c) (cp_ever c)
                  (cp_cleared c) (cp_sent c))
| cap_number c now r rest :
    w_counted (cp_world c) ≡ₚ r :: omap fst (cp_adding c ++ cp_casting c) ++ rest ->
    cap_step c (let '(st, stamped) := Add_stamp now r (cp_store c) in
                mkProcess (cp_world c) st (cp_tabs c) (cp_replaying c) (cp_adding c ++ [(Some r, stamped)])
                  (cp_casting c) (cp_ever c) (cp_cleared c) (cp_sent c))
| cap_put c i p :
    cp_adding c !! i = Some p ->
    cap_step c (mkProcess (cp_world c) (Add_put (snd p) (cp_store c)) (cp_tabs c) (cp_replaying c)
                  (delete i (cp_adding c)) (cp_casting c ++ [p]) (cp_ever c ++ [p]) (cp_cleared c) (cp_sent c))
| cap_cast c i p fails w :
    cp_casting c !! i = Some p -> recorded (fst p) (cp_world c) w ->
    cap_step c (mkProcess w (cp_store c) (cast fails (snd p) (cp_tabs c)) (cp_replaying c) (cp_adding c)
                  (delete i (cp_casting c)) (cp_ever c) (cp_cleared c) (cp_sent c ++ [p]))
| cap_join c t :
    cp_tabs c !! t = None ->
    cap_step c (mkProcess (cp_world c) (cp_store c) (<[t := mkTab (length (cp_sent c)) []]> (cp_tabs c))
                  (cp_replaying c) (cp_adding c) (cp_casting c) (cp_ever c) (cp_cleared c) (cp_sent c))
| cap_leave c t :
    cap_step c (mkProcess (cp_world c) (cp_store c) (delete t (cp_tabs c)) (cp_replaying c) (cp_adding c)
                  (cp_casting c) (cp_ever c) (cp_cleared c) (cp_sent c))
| cap_request c q now st a :
    guard srv q <> GNext \/ replay_route q = None -> handle srv None now (cp_store c) q = (st, a) ->
    cap_step c (mkProcess (cp_world c) st (cp_tabs c) (cp_replaying c) (cp_adding c) (cp_casting c) (cp_ever c)
                  (if a is ACleared then length (cp_ever c) else cp_cleared c) (cp_sent c))
| cap_replay c q id n r :
    guard srv q = GNext -> replay_route q = Some id -> ParseInt 64 id = Some n -> Get n (cp_store c) = Some r ->
    cap_step c (mkProcess (cp_world c) (cp_store c) (cp_tabs c) (cp_replaying c ++ [r]) (cp_adding c) (cp_casting c)
                  (cp_ever c) (cp_cleared c) (cp_sent c))
| cap_refused c i r start now round e :
    cp_replaying c !! i = Some r -> Replay (forwarder_of cfg) start now round r = Err e ->
    cap_step c (mkProcess (cp_world c) (cp_store c) (cp_tabs c) (delete i (cp_replaying c)) (cp_adding c)
                  (cp_casting c) (cp_ever c) (cp_cleared c) (cp_sent c))
| cap_replayed c i r start now round fresh now' :
    cp_replaying c !! i = Some r -> Replay (forwarder_of cfg) start now round r = Ok fresh ->
    cap_step c (let '(st, stamped) := Add_stamp now' fresh (cp_store c) in
                mkProcess (cp_world c) st (cp_tabs c) (delete i (cp_replaying c)) (cp_adding c ++ [(None, stamped)])
                  (cp_casting c) (cp_ever c) (cp_cleared c) (cp_sent c)).

(** main.go:187: a new buffer of the default size, no tabs, a new tunnel. *)
Definition launch (t : tunnel) : process := mkProcess (start t) (NewStore 0) ∅ [] [] [] [] 0 [].

(** ** The invariant *)

(** The exchanges the buffer shows, newest first. *)
Definition shown c : list Record_ := take (Z.to_nat DefaultCapacity) (reverse (snd <$> drop (cp_cleared c) (cp_ever c))).

(** What a record is of. *)
Definition served_record r : Prop := exists v, r = sd_record (Serve (forwarder_of cfg) v).

Definition pair_ok (known : list capture) p : Prop :=
  match fst p with
  | Some r => served_record r /\ exists now, snd p = stamp (ID (snd p)) now r
  | None => Replayed (snd p) = true /\
      exists src, src ∈ known.*2 /\ ReqTruncated src = false /\
        Method (snd p) = Method src /\ Path (snd p) = Path src /\ ReqBody (snd p) = ReqBody src
  end.

Record process_ok c : Prop := {
  ck_counted : Forall served_record (w_counted (cp_world c));
  ck_store : cap (cp_store c) = DefaultCapacity /\ holds (cp_store c) (shown c);
  ck_ids : NoDup (ID <$> (cp_ever c ++ cp_adding c).*2) /\
           Forall (fun p => 0 < ID (snd p) <= seq (cp_store c)) (cp_ever c ++ cp_adding c) /\ 0 <= seq (cp_store c);
  ck_cleared : (cp_cleared c <= length (cp_ever c))%nat;
  ck_pairs : Forall (pair_ok (cp_ever c)) (cp_ever c ++ cp_adding c);
  ck_replaying : Forall (fun r => r ∈ (cp_ever c).*2) (cp_replaying c);
  ck_sent : cp_ever c ≡ₚ cp_sent c ++ cp_casting c;
  ck_recorded : w_recorded (cp_world c) = omap fst (cp_sent c);
  ck_tabs : map_Forall (fun _ t => (tb_since t <= length (cp_sent c))%nat /\
                          tb_got t = snd <$> drop (tb_since t) (cp_sent c)) (cp_tabs c)
}.

Lemma Serve_not_replayed f v : Replayed (sd_record (Serve f v)) = false.
Proof.
  unfold Serve, serve_request, serveWebSocket. by repeat case_match.
Qed.

Lemma Replay_record f start now round src fresh :
  Replay f start now round src = Ok fresh ->
  Replayed fresh = true /\ ReqTruncated src = false /\
  Method fresh = Method src /\ Path fresh = Path src /\ ReqBody fresh = ReqBody src.
Proof.
  unfold Replay, Replay_request. destruct (ReqTruncated src); [done|]. destruct (round _); by intros [= <-].
Qed.

Lemma step_counted w w' :
  Tunnel.step cfg w w' -> Forall served_record (w_counted w) -> Forall served_record (w_counted w').
Proof.
  intros [v re now timer w1 w2 Hr|w1|w1 v|w1 i r Hi|w1 i r Hi|w1 e q He] Hc; simpl; try done.
  - assert (w_counted w2 = w_counted w1) as ->; [|done]. unfold run_step in Hr.
    destruct (w_pc w1); simpl in *;
      repeat match type of Hr with context [if ?b then _ else _] => destruct b end;
      try (destruct (handshake cfg v) as [k [[ack r]|e]]); simplify_eq;
      unfold emits, with_t, goto; try destruct (emit _ _); done.
  - apply Forall_app. split; [done|]. constructor; [by eexists|done].
  - by apply Forall_delete.
  - by destruct (emit _ _).
Qed.

(** The requests that are no replays read the buffer or clear it. *)
Lemma handle_store q now st st' a :
  guard srv q <> GNext \/ replay_route q = None -> handle srv None now st q = (st', a) ->
  if a is ACleared then guard srv q = GNext /\ st' = Clear st else st' = st.
Proof.
  intros Hq Hh. unfold handle in Hh. destruct (guard srv q) eqn:Hg; simplify_eq; try done.
  destruct Hq as [?|Hq]; [done|]. unfold serve in Hh. rewrite Hq in Hh.
  repeat match type of Hh with
  | (if ?b then _ else _) = _ => destruct b
  | match ?o with Some _ => _ | None => _ end = _ => destruct o
  end; simplify_eq; try done. unfold serveOne. by repeat case_match.
Qed.

Lemma pair_ok_mono known known' p : known ⊆ known' -> pair_ok known p -> pair_ok known' p.
Proof.
  intros Hk. unfold pair_ok. destruct (fst p); [done|]. intros (Hr & src & Hin & Hsrc). split; [done|].
  exists src. split; [|done]. revert Hin. rewrite !list_elem_of_fmap. intros (x & -> & Hx). exists x. split; [done|]. by apply Hk.
Qed.

Lemma Get_shown n c r : holds (cp_store c) (shown c) -> Get n (cp_store c) = Some r -> r ∈ (cp_ever c).*2 /\ ID r = n.
Proof.
  intros Hh. unfold Get. rewrite (List_holds _ _ Hh), find_id_spec.
  destruct (list_find _ (shown c)) as [[i r']|] eqn:Hf; [|done]. simpl. intros [= <-].
  apply list_find_Some in Hf as (Hi & Hid & _). split; [|done]. apply list_elem_of_lookup_2 in Hi.
  unfold shown in Hi. apply elem_of_take in Hi as (j & Hj & _). apply list_elem_of_lookup_2 in Hj. rewrite elem_of_reverse in Hj.
  rewrite fmap_drop in Hj. rewrite <-(take_drop (cp_cleared c) ((cp_ever c).*2)). apply elem_of_app. by right.
Qed.

(** A goroutine numbers its record. *)
Lemma number_ok c now o r reps :
  process_ok c -> pair_ok (cp_ever c) (o, stamp (seq (cp_store c) + 1) now r) ->
  Forall (fun x => x ∈ (cp_ever c).*2) reps ->
  process_ok (let '(st, stamped) := Add_stamp now r (cp_store c) in
              mkProcess (cp_world c) st (cp_tabs c) reps (cp_adding c ++ [(o, stamped)])
                (cp_casting c) (cp_ever c) (cp_cleared c) (cp_sent c)).
Proof.
  intros [Hc [Hcap Hh] (Hnd & Hb & Hseq) Hcl Hp Hr Hs Hrec Ht] Hq Hreps. simpl.
  split; simpl; try done; rewrite ?app_assoc.
  - split; [done|]. by apply (holds_stamp now r) in Hh.
  - split_and!; [| |lia].
    + rewrite !fmap_app. simpl. apply NoDup_app. rewrite <-!fmap_app. split_and!; [done| |apply NoDup_singleton].
      intros n (x & -> & (q & -> & Hin)%list_elem_of_fmap)%list_elem_of_fmap Hn%list_elem_of_singleton.
      rewrite Forall_forall in Hb. specialize (Hb q Hin). simpl in Hn. lia.
    + apply Forall_app. split; [|repeat constructor; simpl; lia]. eapply Forall_impl; [exact Hb|]. simpl. intros q. lia.
  - apply Forall_app. by split; [|apply Forall_singleton].
Qed.

(** It stores it. *)
Lemma put_ok c i p :
  process_ok c -> cp_adding c !! i = Some p ->
  process_ok (mkProcess (cp_world c) (Add_put (snd p) (cp_store c)) (cp_tabs c) (cp_replaying c)
                (delete i (cp_adding c)) (cp_casting c ++ [p]) (cp_ever c ++ [p]) (cp_cleared c) (cp_sent c)).
Proof.
  intros [Hc [Hcap Hh] (Hnd & Hb & Hseq) Hcl Hp Hr Hs Hrec Ht] Hi.
  assert ((cp_ever c ++ [p]) ++ delete i (cp_adding c) ≡ₚ cp_ever c ++ cp_adding c) as Hperm.
  { rewrite <-app_assoc. f_equiv. simpl. symmetry. by apply delete_Permutation. }
  assert (cp_ever c ⊆ cp_ever c ++ [p]) as Hsub by (intros x Hx; apply elem_of_app; by left).
  split; simpl; try done.
  - split; [done|]. unfold shown. simpl.
    rewrite drop_app_le by done. rewrite fmap_app. cbn [fmap list_fmap]. rewrite reverse_snoc, <-take_cons_take.
    unfold shown in Hh. rewrite <-Hcap in Hh |- *. by apply holds_put.
  - rewrite Hperm. done.
  - rewrite length_app. lia.
  - rewrite Hperm. eapply Forall_impl; [exact Hp|]. intros q. by apply pair_ok_mono.
  - eapply Forall_impl; [exact Hr|]. intros x. rewrite fmap_app. intros Hx. apply elem_of_app. by left.
  - by rewrite Hs, <-app_assoc.
Qed.

(** It sends it to the tabs. *)
Lemma cast_ok c i p fails w :
  process_ok c -> cp_casting c !! i = Some p -> recorded (fst p) (cp_world c) w ->
  process_ok (mkProcess w (cp_store c) (cast fails (snd p) (cp_tabs c)) (cp_replaying c) (cp_adding c)
                (delete i (cp_casting c)) (cp_ever c) (cp_cleared c) (cp_sent c ++ [p])).
Proof.
  intros [Hc Hst Hids Hcl Hp Hr Hs Hrec Ht] Hi Hw.
  assert (Forall served_record (w_counted w) /\ w_recorded w = w_recorded (cp_world c) ++ option_list (fst p)) as [Hc' Hrec'].
  { unfold recorded in Hw. destruct (fst p) as [r|]; [|subst; by rewrite app_nil_r].
    destruct Hw as [Hstep Hw]. split; [by eapply step_counted|done]. }
  split; simpl; try done.
  - rewrite Hs, <-app_assoc. f_equiv. by apply delete_Permutation.
  - by rewrite Hrec', Hrec, omap_snoc.
  - intros t x. unfold cast. rewrite map_lookup_imap. destruct (cp_tabs c !! t) as [y|] eqn:Hy; [|done]. simpl.
    destruct (fails t); [done|]. intros [= <-]. destruct (Ht t y Hy) as [Hle Hgot]. simpl. rewrite length_app. split; [lia|].
    by rewrite Hgot, drop_app_le, fmap_app.
Qed.

Lemma cap_step_ok c c' : cap_step c c' -> process_ok c -> process_ok c'.
Proof.
  intros Hst Hok. destruct Hst as [c w Hw Heq|c now r rest Hr|c i p Hi|c i p fails w Hi Hw|c t Ht|c t
    |c q now st a Hq Hh|c q id n r Hg Hroute Hid Hget|c i r start now round e Hi He|c i r start now round fresh now' Hi He].
  - destruct Hok. split; simpl; try done; [by eapply step_counted|by rewrite Heq].
  - apply number_ok; [done| |apply Hok]. split; [|by exists now]. destruct Hok as [Hc _ _ _ _ _ _ _ _].
    rewrite Hr in Hc. by apply Forall_cons in Hc as [Hc _].
  - by apply put_ok.
  - by apply cast_ok.
  - destruct Hok as [? ? ? ? ? ? ? ? Htabs]. split; simpl; try done. apply map_Forall_insert_2; [|done]. simpl.
    by rewrite drop_ge.
  - destruct Hok as [? ? ? ? ? ? ? ? Htabs]. split; simpl; try done. by apply map_Forall_delete.
  - pose proof (handle_store _ _ _ _ _ Hq Hh) as Hst. destruct Hok as [? [Hcap Hholds] Hids Hcl ? ? ? ? ?].
    destruct a; try (subst st; by split). destruct Hst as [_ ->]. split; simpl; try done.
    split; [done|]. unfold shown. simpl. rewrite drop_ge by done. by eapply holds_clear.
  - destruct Hok as [? [Hcap Hholds] ? ? ? Hreps ? ? ?]. split; simpl; try done. apply Forall_app. split; [done|].
    apply Forall_singleton. by eapply (Get_shown _ c).
  - destruct Hok. split; simpl; try done. by apply Forall_delete.
  - apply Replay_record in He as (Hrd & Htr & Hm & Hpa & Hb). pose proof (ck_replaying _ Hok) as Hreps.
    apply number_ok; [done| |by apply Forall_delete]. split; [done|]. exists r. split_and!; try done.
    rewrite Forall_forall in Hreps. apply Hreps. by eapply list_elem_of_lookup_2.
Qed.

Lemma launch_ok t : process_ok (launch t).
Proof.
  split; simpl; try done. split_and!; [apply NoDup_nil_2|done|lia].
Qed.

Lemma reachable_process_ok t c : rtc cap_step (launch t) c -> process_ok c.
Proof.
  intros Hr. pose proof (launch_ok t) as Hl. induction Hr as [|c1 c2 c3 Hst _ IH]; [done|].
  apply IH. by eapply cap_step_ok.
Qed.

(** Among the other steps the tunnel does its own. *)
Lemma reachable_world t c : rtc cap_step (launch t) c -> rtc (Tunnel.step cfg) (start t) (cp_world c).
Proof.
  intros Hr. change (start t) with (cp_world (launch t)). induction Hr as [|c1 c2 c3 Hst _ IH]; [done|].
  etrans; [|exact IH]. destruct Hst as [c w Hw _| | |c i p fails w _ Hw| | | | | |]; simpl; try done.
  - by apply rtc_once.
  - unfold recorded in Hw. destruct (fst p); [by apply rtc_once, Hw|by subst].
Qed.

Lemma Get_of_shown c r : process_ok c -> r ∈ shown c -> Get (ID r) (cp_store c) = Some r.
Proof.
  intros Hok Hr. pose proof (ck_store _ Hok) as [_ Hh]. pose proof (ck_ids _ Hok) as (Hnd & _ & _).
  assert (forall x, x ∈ shown c -> x ∈ (cp_ever c ++ cp_adding c).*2) as Hsub.
  { intros x. unfold shown. rewrite fmap_app. intros (j & Hj & _)%elem_of_take. apply list_elem_of_lookup_2 in Hj.
    rewrite elem_of_reverse, fmap_drop in Hj. apply elem_of_app. left. rewrite <-(take_drop (cp_cleared c) ((cp_ever c).*2)).
    apply elem_of_app. by right. }
  unfold Get. rewrite (List_holds _ _ Hh), find_id_spec. destruct (list_find _ (shown c)) as [[i r']|] eqn:Hf.
  - simpl. f_equal. apply list_find_Some in Hf as (Hi & Hid & _). apply list_elem_of_lookup_2, Hsub in Hi. apply Hsub in Hr.
    apply list_elem_of_lookup in Hi as [j1 Hj1], Hr as [j2 Hj2].
    assert (j1 = j2) as ->; [|congruence]. eapply NoDup_lookup; [exact Hnd| |]; rewrite list_lookup_fmap.
    + by rewrite Hj1.
    + by rewrite Hj2; simpl; rewrite Hid.
  - apply list_find_None in Hf. rewrite Forall_forall in Hf. by destruct (Hf r Hr).
Qed.

(** C22: What the inspector shows is what happened, however the goroutines that
    serve streams, replay, store and broadcast, the tabs and the inspector's
    requests interleave: its list is the last 200 exchanges stored since it was
    last cleared, newest first; each is found under its number, which no other
    exchange has; each is either the record of a stream that was served or a
    replay of a stored exchange, with its method, path and body; the tunnel's
    request counter counts the former once each, sent to the tabs or on the way;
    and a tab that is still connected got every exchange sent since it joined, in
    order and once. *)
Theorem captured_exchanges (conf : Client.Config) t c :
  New conf = Ok (cfg, t) -> rtc cap_step (launch t) c ->
  List_ (cp_store c) = Some <$> take (Z.to_nat DefaultCapacity) (reverse (drop (cp_cleared c) (cp_ever c)).*2) /\
  (forall r, Some r ∈ List_ (cp_store c) -> Get (ID r) (cp_store c) = Some r) /\
  NoDup (ID <$> (cp_ever c).*2) /\
  Forall (pair_ok (cp_ever c)) (cp_ever c) /\
  Requests (StatusNow (w_t (cp_world c))) = zlen (omap fst (cp_sent c)) + zlen (w_counted (cp_world c)) /\
  cp_ever c ≡ₚ cp_sent c ++ cp_casting c /\
  (forall k x, cp_tabs c !! k = Some x -> tb_got x = (drop (tb_since x) (cp_sent c)).*2).
Proof.
  intros Hnew Hr. pose proof (reachable_process_ok _ _ Hr) as Hok. pose proof (New_ok _ _ _ Hnew) as [_ Hw0].
  pose proof (reachable_world_ok _ _ _ Hw0 (reachable_world _ _ Hr)) as Hw.
  pose proof Hok as [_ [_ Hh] (Hnd & _) _ Hp _ Hs Hrec Ht]. split_and!.
  - by apply List_holds.
  - intros r Hin. apply Get_of_shown; [done|]. rewrite (List_holds _ _ Hh) in Hin.
    by apply list_elem_of_fmap in Hin as (x & [= ->] & Hin).
  - rewrite !fmap_app in Hnd. by apply NoDup_app in Hnd as [Hnd _].
  - by apply Forall_app in Hp as [Hp _].
  - simpl. by rewrite (wk_count _ Hw), Hrec.
  - done.
  - intros k x Hx. by apply (Ht k x).
Qed.

End capture.

(** ** A concrete instance *)

#[local] Existing Instances Tunnel.sample_text Tunnel.sample_sha Tunnel.sample_hello Tunnel.sample_ack_json
  Tunnel.sample_uri Tunnel.sample_encoded.
#[local] Instance sample_lower : UnicodeLower := id.
#[local] Instance sample_url_parse : UrlParse := fun _ => None.
Definition sample_srv : Inspect.Server := Inspect.mkServer "secret" "4040" "".

(** Two streams are served at once; the one that is numbered second is stored
    first, while a tab looks on. *)
Lemma sample_captures :
  exists c, rtc (cap_step sample_cfg sample_srv) (launch sample_tunnel) c /\
    ID <$> (cp_ever c).*2 = [2; 1] /\ (tb_got <$> cp_tabs c !! 7%nat) = Some ((cp_ever c).*2) /\
    map (option_map ID) (List_ (cp_store c)) = [Some 1; Some 2].
Proof.
  eexists. split.
  - eapply rtc_l; [apply (cap_join _ _ _ 7); reflexivity|]. compute_world.
    do 2 (eapply rtc_l; [apply cap_tunnel; [apply (step_served _ _ sample_stream)|reflexivity]|]; rewrite sample_served; compute_world).
    eapply rtc_l; [apply (cap_number _ _ _ 0 sample_rec [sample_rec]); reflexivity|]. compute_world.
    eapply rtc_l; [apply (cap_number _ _ _ 0 sample_rec []); reflexivity|]. compute_world.
    eapply rtc_l; [eapply (cap_put _ _ _ 1); reflexivity|]. compute_world.
    eapply rtc_l; [eapply (cap_put _ _ _ 0); reflexivity|]. compute_world.
    do 2 (eapply rtc_l; [eapply (cap_cast _ _ _ 0 _ (fun _ => false)); [reflexivity|split; [eapply (step_record _ _ 0); reflexivity|reflexivity]]|];
      compute_world). apply rtc_refl.
  - by split_and!.
Qed.

Lemma captured_exchanges_witness :
  exists c x, rtc (cap_step sample_cfg sample_srv) (launch sample_tunnel) c /\ cp_tabs c !! 7%nat = Some x /\
    tb_got x = (drop (tb_since x) (cp_sent c)).*2 /\ NoDup [2; 1].
Proof.
  destruct sample_captures as (c & Hr & Hids & Ht & _).
  destruct (captured_exchanges sample_cfg sample_srv sample_config sample_tunnel c ltac:(vm_compute; reflexivity) Hr)
    as (_ & _ & Hnd & _ & _ & _ & Htabs).
  destruct (cp_tabs c !! 7%nat) as [x|] eqn:Hx; [|discriminate Ht].
  exists c, x. split; [exact Hr|]. split; [exact Hx|]. split; [exact (Htabs _ _ Hx)|]. rewrite <-Hids. exact Hnd.
Defined.
