(* ===== verification/Handshake.v ===== *)
(** * The handshake, from both ends

    The client of Tunnel.v and the server of Control.v on one connection: what
    the one writes is what the other reads. The server's theorems say what it
    answers, the client's what it does with an answer; these say that the two
    agree. *)
From Stdlib Require Import Ascii.
From S2P Require Import Prelude Frame GoStr Encoding Http GoUrl HttpRead Proto Token Auth Registry Control Client Tunnel.

Section handshake.
Context `{UnicodeLower, Hmac, JSON Claims, ErrorText, Sha256, OtherURI, OtherBody}.
Context `{JSONLaws Hello valid_hello, JSONLaws Ack valid_ack}.
Implicit Types (cfg : Client.Config) (scfg : Control.Config).

(** A message that survives the JSON round trip and fits the reader's buffer. *)
Definition fits {A} `{JSON A} (valid : A -> Prop) (m : A) : Prop :=
  valid m /\ forall b, json_Marshal m = Ok b -> (length b < defaultBufSize)%nat.

(** What the server makes of the client's first message. *)
Definition server_reads (c : Tunnel.conn) (e : error) : result Hello :=
  snd (ReadMessage {| rd_data := concat (c_sent c); rd_end := e |}).

(** What the server wrote on a control connection before its session. *)
Definition server_writes (k : Control.conn) : list Byte.byte :=
  concat (fst (foldl (fun '(w, _) m => WriteMessage w m) ([] : writes, None) (k_acks k))).

(** The server's answer arrives, with the session's first bytes behind it. *)
Definition answered (v : attempt) (k : Control.conn) (rest : list Byte.byte) (e : error) : Prop :=
  at_reader v = {| rd_data := server_writes k ++ rest; rd_end := e |}.

(** The client got through to the server and its hello was written. *)
Definition through cfg (v : attempt) : Prop := dial cfg v = None /\ at_write v = None.

Lemma client_says cfg v :
  through cfg v -> fits valid_hello (hello_of cfg) ->
  forall e, server_reads (fst (handshake cfg v)) e = Ok (hello_of cfg).
Proof.
  intros [Hd Hw] [Hv Hfit] e. destruct (json_roundtrip _ Hv) as (b & Hm & _).
  unfold handshake. rewrite Hd. unfold WriteMessage. rewrite Hm. cbn [Write conn_writer c_fail]. rewrite Hw.
  assert (server_reads (Tunnel.mkConn ([] ++ [b ++ [Byte.x0a]]) None) e = Ok (hello_of cfg)) as Hr.
  { unfold server_reads. cbn [c_sent concat app]. by rewrite (ReadMessage_sent (hello_of cfg) b [] e Hv Hm (Hfit _ Hm)). }
  destruct (ReadMessage (at_reader v)) as [r [ack|e']]; [destruct (a_OK ack)|]; exact Hr.
Qed.

Lemma client_hears cfg v k ack rest e :
  through cfg v -> fits valid_hello (hello_of cfg) -> fits valid_ack ack ->
  k_acks k = [ack] -> answered v k rest e ->
  snd (handshake cfg v) =
    if a_OK ack then inl (ack, {| rd_data := rest; rd_end := e |}) else inr (Refused (a_Error ack) (a_Code ack)).
Proof.
  intros [Hd Hw] [Hv Hfit] [Hva Hfa] Hk Ha. destruct (json_roundtrip _ Hv) as (b & Hm & _).
  destruct (json_roundtrip _ Hva) as (b' & Hm' & _).
  assert (server_writes k = b' ++ [Byte.x0a]) as Hs.
  { unfold server_writes. rewrite Hk. cbn [foldl]. unfold WriteMessage. rewrite Hm'. cbn. by rewrite app_nil_r. }
  unfold handshake. rewrite Hd. unfold WriteMessage. rewrite Hm. cbn [Write conn_writer c_fail]. rewrite Hw.
  rewrite Ha, Hs, (ReadMessage_sent ack b' rest e Hva Hm' (Hfa _ Hm')).
  by destruct (a_OK ack).
Qed.

(** The server's first step on a connection. *)
Lemma hello_step scfg env i s k s' k' :
  k_pc k = PHello -> Control.step scfg env i s k = Some (s', k') ->
  match judge scfg (e_clk env) (k_tls k) (k_hello k) with
  | VFail e => k_acks k' = k_acks k
  | VReject msg code => k_acks k' = k_acks k ++ [mkAck TypeAck false "" "" (error_text msg) code]
  | VAdmit a => k_acks k' = k_acks k
  end.
Proof.
  intros Hp. unfold Control.step. rewrite Hp. destruct (judge _ _ _ _); intros [= <- <-]; done.
Qed.

(** A listed token asking for its reserved name without TLS is told so. *)
Lemma judge_needs_tls scfg clk hello ids :
  let a := auth_of scfg in
  let r := ReservedSubdomain a (h_Token hello) (clk 1%nat) in
  let sub := if negb (String.eqb r "") then r else NormalizeSubdomain (h_Subdomain hello) in
  h_Type hello = TypeHello -> h_Version hello = ControlVersion ->
  Check a (h_Token hello) (clk 0%nat) = None -> CheckSubdomain a (h_Token hello) sub (clk 2%nat) = None ->
  reservedNames a !! sub = Some ids -> tokenID a (h_Token hello) (clk 3%nat) <> ""%string ->
  tokenID a (h_Token hello) (clk 3%nat) ∈ ids ->
  judge scfg clk false (Ok hello) = VReject (tlsRequiredError sub) CodeTLSRequired.
Proof.
  intros a r sub Ht Hv Hc Hs Hids Hid Hin. unfold judge. fold a. rewrite Ht, Hv. cbn [negb String.eqb].
  rewrite String.eqb_refl. cbn [negb]. rewrite Z.eqb_refl. cbn [negb]. rewrite Hc. fold r. fold sub. rewrite Hs.
  unfold CheckReserved. rewrite Hids, (proj2 (String.eqb_neq _ _) Hid), bool_decide_eq_false_2 by tauto. done.
Qed.

(** ** The client never asks again *)

(** Where a refusal for want of TLS leaves [Run]. *)
Definition given_up (p : Tunnel.pc) : bool :=
  match p with
  | Tunnel.PEnded _ e | Tunnel.PDown _ e | Tunnel.PReport _ e => must_stop e
  | PWaitQuit | PQuit | PLast | Tunnel.PDone => true
  | _ => false
  end.

Lemma connects_app l l' : connects (l ++ l') = (connects l + connects l')%nat.
Proof. unfold connects. induction l as [|[] l IH]; simpl; auto. Qed.

Lemma given_up_step cfg w w' :
  Tunnel.step cfg w w' -> given_up (w_pc w) = true ->
  given_up (w_pc w') = true /\ connects (w_log w') = connects (w_log w).
Proof.
  intros [v re now timer w1 w2 Hr|w1|w1 v|w1 j rec Hi|w1 j rec Hi|w1 e q He] Hg; simpl; try done.
  - unfold run_step in Hr. destruct (w_pc w1) eqn:Hp; simpl in *; try done; rewrite ?Hg in Hr;
      repeat match type of Hr with context [if ?b then _ else _] => destruct b end; simplify_eq;
      unfold emits, with_t, goto; try destruct (Tunnel.emit _ _); simpl; by rewrite connects_app, ?Nat.add_0_r.
  - by destruct (Tunnel.emit _ _).
Qed.

Lemma given_up_forever cfg w w' :
  rtc (Tunnel.step cfg) w w' -> given_up (w_pc w) = true ->
  given_up (w_pc w') = true /\ connects (w_log w') = connects (w_log w).
Proof.
  induction 1 as [|w1 w2 w3 Hst _ IH]; intros Hg; [done|].
  destruct (given_up_step _ _ _ Hst Hg) as [Hg2 <-]. by apply IH.
Qed.

(** What a step of the server that answers has done. *)
Lemma answering_step scfg env i s k s' k' :
  Control.step scfg env i s k = Some (s', k') -> k_acks k = [] -> k_acks k' <> [] ->
  match k_pc k' with
  | PHas _ _ name _ _ => k_acks k' = [mkAck TypeAck true name (publicURL scfg name) "" ""]
  | PEnd _ => exists msg code, k_acks k' = [mkAck TypeAck false "" "" (error_text msg) code] /\
      (k_pc k = PHello -> judge scfg (e_clk env) (k_tls k) (k_hello k) = VReject msg code)
  | _ => False
  end.
Proof.
  intros Hst Hk Hne. unfold Control.step in Hst. destruct (k_pc k) as [|a [|n]|st a name c ev|e0] eqn:Hp.
  - destruct (judge _ _ _ _) as [e0|msg code|a] eqn:Hj; simplify_eq/=; rewrite ?Hk in *; try done. by exists msg, code.
  - simplify_eq/=. rewrite Hk in *. by eexists _, _.
  - destruct (_ && IsReserved _ _); [simplify_eq/=; congruence|].
    destruct (Register _ _ _ _ _ _) as [r [[c ev]|e0]]; [|destruct (_ && _)]; simplify_eq/=; try congruence.
    rewrite Hk in *. by eexists _, _.
  - destruct st; simplify_eq/=; rewrite ?Hk in *; done.
  - done.
Qed.

(** ** Properties *)

(** C10: The two ends of the handshake agree. The server reads the hello the client
    wrote; and when the server answers, the client takes itself for connected
    exactly when the server registered it, under the name and the URL the server
    registered, with the session's first bytes still to be read; otherwise it
    gets the reason and the code of the server's refusal. *)
Theorem handshake_agreement cfg scfg v env i s k s' k' rest e :
  through cfg v -> fits valid_hello (hello_of cfg) ->
  Control.step scfg env i s k = Some (s', k') -> k_acks k = [] -> k_acks k' <> [] ->
  (forall m, m ∈ k_acks k' -> fits valid_ack m) -> answered v k' rest e ->
  server_reads (fst (handshake cfg v)) e = Ok (hello_of cfg) /\
  match k_pc k' with
  | PHas _ _ name _ _ =>
      snd (handshake cfg v) =
        inl (mkAck TypeAck true name (publicURL scfg name) "" "", {| rd_data := rest; rd_end := e |})
  | PEnd _ => exists msg code, snd (handshake cfg v) = inr (Refused (error_text msg) code) /\
      (k_pc k = PHello -> judge scfg (e_clk env) (k_tls k) (k_hello k) = VReject msg code)
  | _ => False
  end.
Proof.
  intros Ht Hf Hst Hk Hne Hfit Ha. split; [by apply client_says|].
  pose proof (answering_step _ _ _ _ _ _ _ Hst Hk Hne) as Hans. destruct (k_pc k') as [|a n|st a name c ev|e0]; try done.
  - assert (fits valid_ack (mkAck TypeAck true name (publicURL scfg name) "" "")) as Hfa
      by (apply Hfit; rewrite Hans; by left).
    exact (client_hears _ _ _ _ _ _ Ht Hf Hfa Hans Ha).
  - destruct Hans as (msg & code & Hans & Hj). exists msg, code. split; [|done].
    assert (fits valid_ack (mkAck TypeAck false "" "" (error_text msg) code)) as Hfa
      by (apply Hfit; rewrite Hans; by left).
    exact (client_hears _ _ _ _ _ _ Ht Hf Hfa Hans Ha).
Qed.

(** C16: A token is sent in plaintext once: when a client asks over plaintext for a
    reserved name its token is listed for, the server refuses with the code that
    asks for TLS, and from then on the client never dials again, whatever happens
    and however long it runs. *)
Theorem tls_refusal_is_final cfg scfg v env i s k s' k' rest e ids re now timer w w1 w2 :
  let a := auth_of scfg in
  let tok := Client.Token cfg in
  let r := ReservedSubdomain a tok (e_clk env 1%nat) in
  let sub := if negb (String.eqb r "") then r else NormalizeSubdomain (Client.Subdomain cfg) in
  Check a tok (e_clk env 0%nat) = None -> CheckSubdomain a tok sub (e_clk env 2%nat) = None ->
  reservedNames a !! sub = Some ids -> tokenID a tok (e_clk env 3%nat) ∈ ids ->
  tokenID a tok (e_clk env 3%nat) <> ""%string ->
  through cfg v -> fits valid_hello (hello_of cfg) ->
  k = Control.mkConn false (k_remote k) (server_reads (fst (handshake cfg v)) e) [] PHello ->
  Control.step scfg env i s k = Some (s', k') ->
  (forall m, m ∈ k_acks k' -> fits valid_ack m) -> answered v k' rest e ->
  (exists b, w_pc w = PDial b) -> run_step cfg v re now timer w = Some w1 -> rtc (Tunnel.step cfg) w1 w2 ->
  snd (handshake cfg v) = inr (Refused (error_text (tlsRequiredError sub)) CodeTLSRequired) /\
  connects (w_log w2) = S (connects (w_log w)).
Proof.
  intros a tok r sub Hc Hs Hids Hin Hid Ht Hf Hk Hst Hfit Ha [b Hp] Hrun Hrtc.
  assert (judge scfg (e_clk env) (k_tls k) (k_hello k) = VReject (tlsRequiredError sub) CodeTLSRequired) as Hj.
  { rewrite Hk. cbn [k_tls k_hello]. rewrite (client_says cfg v Ht Hf e). by eapply judge_needs_tls. }
  assert (k_pc k = PHello /\ k_acks k = []) as [Hpc Hacks] by (rewrite Hk; done).
  pose proof (hello_step _ _ _ _ _ _ _ Hpc Hst) as Hans. rewrite Hj, Hacks in Hans. simpl in Hans.
  assert (fits valid_ack (mkAck TypeAck false "" "" (error_text (tlsRequiredError sub)) CodeTLSRequired)) as Hfa
    by (apply Hfit; rewrite Hans; by left).
  pose proof (client_hears cfg v k' _ rest e Ht Hf Hfa Hans Ha) as Hh. simpl in Hh. split; [done|].
  unfold run_step in Hrun. rewrite Hp in Hrun. destruct (handshake cfg v) as [c res]. simpl in Hh. subst res.
  injection Hrun as <-. destruct (given_up_forever _ _ _ Hrtc eq_refl) as [_ ->].
  simpl. by rewrite connects_app, Nat.add_comm.
Qed.

End handshake.

(** ** Concrete instances *)

#[local] Instance sample_lower : UnicodeLower := id.
#[local] Instance sample_hmac : Hmac := fun key p => key ++ p.
#[local] Instance sample_sha : Sha256 := fun b => b.
#[local] Existing Instances Tunnel.sample_uri Tunnel.sample_encoded.
#[local] Instance sample_claims : JSON Claims := countable_json.
#[local] Instance sample_text : ErrorText := fun e => match e with Errorf f _ => f | _ => ""%string end.
(** The token and the name with a space between. *)
#[local] Instance sample_hellos : JSON Hello := {|
  json_Marshal h := Ok (bytes_of_string (h_Token h +:+ String " "%char (h_Subdomain h)));
  json_Unmarshal b :=
    match cut_byte " " (string_of_bytes (filter (fun x => x <> Byte.x0a) b)) with
    | Some (t, sub) => Ok (mkHello TypeHello ControlVersion t sub false)
    | None => Err io_EOF
    end
|}.
Definition sample_valid (h : Hello) : Prop :=
  h = mkHello TypeHello ControlVersion (h_Token h) (h_Subdomain h) false /\ selem " " (h_Token h) = false /\
  Forall (fun x => x <> Byte.x0a) (bytes_of_string (h_Token h +:+ String " "%char (h_Subdomain h))).
Lemma filter_keep {A} (P : A -> Prop) `{!forall x, Decision (P x)} (l : list A) : Forall P l -> filter P l = l.
Proof. induction 1 as [|x l Hx _ IH]; [done|]. by rewrite filter_cons_True, IH. Qed.

#[local] Instance sample_hello_laws : JSONLaws Hello sample_valid.
Proof.
  split.
  - intros h (Hh & Ht & Hn). eexists. split; [reflexivity|]. split.
    + cbn [json_Unmarshal sample_hellos]. rewrite filter_keep by done.
      rewrite string_of_bytes_of_string, cut_byte_app by done. by rewrite <-Hh.
    + intros Hin. rewrite Forall_forall in Hn. by apply (Hn _ Hin).
  - intros b. cbn [json_Unmarshal sample_hellos]. rewrite filter_app. rewrite (filter_cons_False _ Byte.x0a) by tauto.
    by rewrite filter_nil, app_nil_r.
Qed.
#[local] Instance sample_acks : JSON Ack := countable_json.
#[local] Instance sample_ack_laws : JSONLaws Ack (fun _ => True) := countable_json_laws.

Definition sample_auth : Authenticator :=
  mkAuthenticator ∅ ∅ {["hop"%string := {["tok_01"%string]}]} [Byte.x6b] ∅ false.
Definition sample_server : Control.Config :=
  Control.New (Control.mkConfig "t.example" "" "" "" "" true "443" "https" 0 (Some sample_auth) true "" 0 0 0).
Definition sample_token : string :=
  match MintWith [Byte.x6b] (mkMintOpts "" 0 false) (Ok [Byte.x01]) Second with Ok t => t | Err _ => "" end.
Definition sample_client (sub : string) : Client.Config :=
  Client.mkConfig 3000 "127.0.0.1" "t.example:7001" sub sample_token false false "" 1 false "" 0 0 [].
Definition sample_env : env := mkEnv (fun _ => Second) (fun _ => false) 7 None.
Definition no_answer : attempt := mkAttempt None true [] io_EOF None {| rd_data := []; rd_end := io_EOF |}.
Definition sample_conn (sub : string) : Control.conn :=
  Control.mkConn false "peer" (server_reads (fst (handshake (sample_client sub) no_answer)) io_EOF) [] PHello.
Definition sample_srv : srv := mkSrv NewRegistry [].
Definition answer_of (k : Control.conn) : attempt :=
  mkAttempt None true [] io_EOF None {| rd_data := server_writes k; rd_end := io_EOF |}.
Definition sample_refused : Control.conn :=
  match Control.step sample_server sample_env 0%nat sample_srv (sample_conn "hop") with
  | Some (_, k) => k | None => sample_conn "hop" end.

(** The connection of a client that asked for the free name a, up to its ack. *)
Fixpoint run_conn (n : nat) (s : srv) (k : Control.conn) : srv * Control.conn :=
  match n with
  | O => (s, k)
  | S n => match Control.step sample_server sample_env 0%nat s k with
           | Some (s, k) => run_conn n s k
           | None => (s, k)
           end
  end.
Definition sample_acking : srv * Control.conn := run_conn 4 sample_srv (sample_conn "a").
Definition sample_acked : srv * Control.conn := run_conn 5 sample_srv (sample_conn "a").


Lemma sample_fits_hello sub :
  forallb (fun x => bool_decide (x <> Byte.x0a)) (bytes_of_string (sample_token +:+ String " "%char sub)) = true ->
  (length (bytes_of_string (sample_token +:+ String " "%char sub)) <? defaultBufSize)%nat = true ->
  fits sample_valid (hello_of (sample_client sub)).
Proof.
  intros Hn Hl. split; [|intros b [= <-]; by apply Nat.ltb_lt].
  split; [done|]. split; [vm_compute; reflexivity|].
  apply Forall_forall. intros x Hx. rewrite forallb_forall in Hn.
  exact (bool_decide_eq_true_1 _ (Hn x (proj1 (list_elem_of_In _ _) Hx))).
Qed.

Lemma sample_fits_acks k :
  forallb (fun m => match json_Marshal m with Ok b => (length b <? defaultBufSize)%nat | Err _ => false end) (k_acks k) = true ->
  forall m, m ∈ k_acks k -> fits (fun _ => True) m.
Proof.
  intros Hf m Hm. split; [done|]. intros b Hb. rewrite forallb_forall in Hf.
  specialize (Hf m (proj1 (list_elem_of_In _ _) Hm)). rewrite Hb in Hf. by apply Nat.ltb_lt.
Qed.

Lemma sample_acked_up : exists st a c ev, k_pc (snd sample_acked) = PHas st a "a" c ev.
Proof. vm_compute. by do 4 eexists. Qed.

Lemma handshake_agreement_witness :
  snd (handshake (sample_client "a") (answer_of (snd sample_acked))) =
    inl (mkAck TypeAck true "a" (publicURL sample_server "a") "" "", {| rd_data := []; rd_end := io_EOF |}).
Proof.
  assert (Hf : fits sample_valid (hello_of (sample_client "a"))) by (apply sample_fits_hello; vm_compute; reflexivity).
  assert (Hs : Control.step sample_server sample_env 0%nat (fst sample_acking) (snd sample_acking) =
    Some (fst sample_acked, snd sample_acked)) by (vm_compute; reflexivity).
  assert (Hk : k_acks (snd sample_acking) = []) by (vm_compute; reflexivity).
  assert (Hk' : k_acks (snd sample_acked) <> []) by (vm_compute; discriminate).
  assert (Ha : answered (answer_of (snd sample_acked)) (snd sample_acked) [] io_EOF)
    by (unfold answered, answer_of; by rewrite app_nil_r).
  assert (Hfit : forall m, m ∈ k_acks (snd sample_acked) -> fits (fun _ => True) m)
    by (apply sample_fits_acks; vm_compute; reflexivity).
  pose proof (handshake_agreement (sample_client "a") sample_server (answer_of (snd sample_acked)) sample_env 0%nat
    (fst sample_acking) (snd sample_acking) (fst sample_acked) (snd sample_acked) [] io_EOF
    (conj eq_refl eq_refl) Hf Hs Hk Hk' Hfit Ha) as [_ Hm].
  destruct sample_acked_up as (st & a & c & ev & Hp). rewrite Hp in Hm. exact Hm.
Defined.

Definition sample_dialing : Tunnel.world :=
  Tunnel.mkWorld Tunnel.sample_tunnel (PDial Second) false [] [] [] [] false [].

Lemma tls_refusal_is_final_witness :
  exists w1, run_step (sample_client "hop") (answer_of sample_refused) None 0 false sample_dialing = Some w1 /\
    connects (w_log w1) = 1%nat.
Proof.
  destruct (run_step (sample_client "hop") (answer_of sample_refused) None 0 false sample_dialing) as [w1|] eqn:Hr;
    [|discriminate Hr].
  exists w1. split; [reflexivity|].
  refine (proj2 (tls_refusal_is_final (sample_client "hop") sample_server (answer_of sample_refused) sample_env 0%nat
    sample_srv (sample_conn "hop") sample_srv sample_refused [] io_EOF {["tok_01"%string]} None 0 false sample_dialing w1 w1
    _ _ _ _ _ _ _ _ _ _ _ _ Hr (rtc_refl _ _))).
  - vm_compute. reflexivity.
  - vm_compute. reflexivity.
  - vm_compute. reflexivity.
  - apply elem_of_singleton. vm_compute. reflexivity.
  - vm_compute. discriminate.
  - split; reflexivity.
  - apply sample_fits_hello; vm_compute; reflexivity.
  - reflexivity.
  - vm_compute. reflexivity.
  - apply sample_fits_acks. vm_compute. reflexivity.
  - unfold answered, answer_of. by rewrite app_nil_r.
  - by exists Second.
Defined.
