(* ===== verification/Tui.v ===== *)
(** * The terminal dashboard: internal/tui

    [Update] is the dashboard's transition function, fed with the events of the
    tunnel (Tunnel.v), and [View] draws it. Styles, the spinner and the sizes of
    drawn text are the terminal library's, a class here. *)
From S2P Require Import Prelude GoStr GoFmt Encoding Http GoUrl HttpRead Proto Frame Session Control Proxy Inspect Client Tunnel.
From Stdlib Require Import Ascii.

(** ** Styles (styles.go) *)

Inductive style :=
| stBrand | stTag | stDim | stOK | stWarn | stErr | stBlue | stHeaderBar | stFooter
| Bold (s : style)
| Plain (bold : bool) (color : string).    (** [lipgloss.NewStyle()] with a foreground *)

Definition methodStyle (m : string) : style :=
  if String.eqb m "GET" then Bold stOK
  else if String.eqb m "POST" then Plain true "#A7F3D0"
  else if String.eqb m "PUT" then Bold stBlue
  else if String.eqb m "PATCH" then Bold stTag
  else if String.eqb m "DELETE" then Bold stErr
  else Plain false "#E8E6E3".

Definition statusStyle (status : Z) (errored : bool) : style :=
  if errored || (status =? 0) then stErr
  else if 500 <=? status then stErr
  else if 400 <=? status then stWarn
  else if 300 <=? status then stBlue
  else stOK.

(** What the terminal library does. *)
Class Terminal := {
  Spinner : Type;
  TickMsg : Type;
  spinner_Dot : style -> Spinner;
  spinner_Update : Spinner -> TickMsg -> Spinner;
  spinner_View : Spinner -> string;
  Render : style -> string -> string;
  RenderWidth : style -> Z -> string -> string;
  Height : string -> Z
}.

Section tui.
Context `{Terminal}.

(** ** The model (model.go) *)

Record Opts := mkOpts { o_ServerAddr : string; InspectorURL : string; o_Target : string }.

Record row := mkRow {
  when : Z;
  method : string;
  path : string;
  r_status : Z;
  errored : bool;
  errMsg : string;
  ms : Z
}.

(** [quit] tells whether there is a function to call; [since] is 0 for the zero
    time. *)
Record model := mkModel {
  opts : Opts;
  quit : bool;
  status : string;
  url : string;
  sub : string;
  since : Z;
  message : string;
  rows : list row;
  requests : Z;
  failures : Z;
  spin : Spinner;
  width : Z;
  height : Z
}.

Definition newModel (o : Opts) (quit : bool) : model :=
  mkModel o quit "connecting" "" "" 0 ("connecting to " +:+ o_ServerAddr o +:+ "…") [] 0 0 (spinner_Dot stTag) 100 24.

(** Messages, and the commands [Update] returns. *)
Inductive msg :=
| WindowSizeMsg (w h : Z)
| KeyMsg (key : string)
| SpinnerMsg (m : TickMsg)
| TickMsg_
| EventMsg (e : Event)
| OtherMsg.

Inductive cmd := CNone | CQuit | CSpin | CTick | CWait | CBatch (l : list cmd).

(** model.go:75. *)
Definition Init : cmd := CBatch [CTick; CSpin; CWait].

(** model.go:79: the next event of the channel, or the one that stands for its
    end; [None] while it is open and empty. *)
Definition waitEvent (q : list Event) (closed : bool) : option (msg * list Event) :=
  match q with
  | e :: q => Some (EventMsg e, q)
  | [] => if closed then Some (EventMsg (event_msg ShuttingDown ""), []) else None
  end.

Definition with_status (s m : string) (d : model) : model :=
  mkModel (opts d) (quit d) s (url d) (sub d) (since d) m (rows d) (requests d) (failures d) (spin d) (width d) (height d).
Definition with_connected (u s : string) (now : Z) (d : model) : model :=
  mkModel (opts d) (quit d) "connected" u s now "" (rows d) (requests d) (failures d) (spin d) (width d) (height d).
Definition with_rows (l : list row) (n f : Z) (m : string) (d : model) : model :=
  mkModel (opts d) (quit d) (status d) (url d) (sub d) (since d) m l n f (spin d) (width d) (height d).
Definition with_size (w h : Z) (d : model) : model :=
  mkModel (opts d) (quit d) (status d) (url d) (sub d) (since d) (message d) (rows d) (requests d) (failures d) (spin d) w h.
Definition with_spin (s : Spinner) (d : model) : model :=
  mkModel (opts d) (quit d) (status d) (url d) (sub d) (since d) (message d) (rows d) (requests d) (failures d) s (width d) (height d).

Definition maxRows : nat := 500.

Definition row_of (r : Record_) : row :=
  mkRow (Inspect.Time r) (Method r) (Inspect.Path r) (Inspect.Status r) (Errored r) (Inspect.Error r) (Duration r).

Definition failed (r : Record_) : bool := Errored r || (400 <=? Inspect.Status r).

(** model.go:128. *)
Definition add_record (r : Record_) (d : model) : model :=
  with_rows (take maxRows (row_of r :: rows d)) (requests d + 1) (if failed r then failures d + 1 else failures d)
    (if Errored r && negb (String.eqb (Inspect.Error r) "") then Inspect.Error r else message d) d.

(** model.go:113. *)
Definition on_event (now : Z) (e : Event) (d : model) : model * cmd :=
  match e_Kind e with
  | Connecting => (with_status "connecting" (e_Message e) d, CWait)
  | Reconnecting => (with_status "reconnecting" (e_Message e) d, CWait)
  | Connected_ => (with_connected (e_PublicURL e) (e_Subdomain e) now d, CWait)
  | Disconnected => (with_status "disconnected" (e_Message e) d, CWait)
  | ShuttingDown => (with_status "closed" (message d) d, CQuit)
  | Request_ => (match e_Record e with Some r => add_record r d | None => d end, CWait)
  end.

(** model.go:89: the new model, the command, and whether [quit] was called. *)
Definition Update (now : Z) (m : msg) (d : model) : model * cmd * bool :=
  match m with
  | WindowSizeMsg w h => (with_size w h d, CNone, false)
  | KeyMsg key =>
      if existsb (String.eqb key) ["q"; "ctrl+c"; "esc"] then (d, CQuit, quit d) else (d, CNone, false)
  | SpinnerMsg t => (with_spin (spinner_Update (spin d) t) d, CSpin, false)
  | TickMsg_ => (d, CTick, false)
  | EventMsg e => (on_event now e d, false)
  | OtherMsg => (d, CNone, false)
  end.

(** The messages of a run, each with the clock's reading. *)
Definition updates (d : model) (l : list (Z * msg)) : model :=
  foldl (fun d '(now, m) => fst (fst (Update now m d))) d l.

(** ** Drawing *)

Context `{LocalTime}.

Definition plural (n : Z) : string := if n =? 1 then "" else "s".

(** model.go:240. *)
Definition uptime (now : Z) (d : model) : string :=
  if (since d =? 0) || negb (String.eqb (status d) "connected") then "—"
  else seconds_text (Round_second (now - since d) / Second).

(** model.go:233; [len] counts octets. *)
Definition padPath (p : string) (w : Z) : string :=
  if w <=? zslen p then p else p +:+ blanks (Z.to_nat (w - zslen p)).

(** The part of model.go:221 that cuts the path, given [maxPath]. *)
Definition cut_path (p : string) (maxPath : Z) : string :=
  if maxPath <? zslen p then String.substring 0 (Z.to_nat (maxPath - 1)) p +:+ "…" else p.

Definition max_path (width : Z) : Z := if width - 30 <? 12 then 12 else width - 30.

(** model.go:212. *)
Definition renderRow (r : row) (width : Z) : string :=
  let m := Render (methodStyle (method r)) (pad_right 7 (method r)) in
  let st := if errored r then Render stErr "ERR"
            else if 0 <? r_status r then Render (statusStyle (r_status r) false) (pad_left 3 (pretty (r_status r)))
            else "  — " in
  let maxPath := max_path width in
  let lat := Render stDim (pad_left 5 (pretty (ms r)) +:+ "ms") in
  let tm := Render stDim (clock_text (when r)) in
  tm +:+ " " +:+ m +:+ "  " +:+ st +:+ "  " +:+ padPath (cut_path (path r) maxPath) maxPath +:+ "  " +:+ lat.

Definition nl : string := String newline "".

(** The header's line (model.go:160). *)
Definition header_line (d : model) : string :=
  let connected := String.eqb (status d) "connected" in
  let dot := if connected then Render stOK "●"
             else if String.eqb (status d) "closed" then Render stDim "●" else spinner_View (spin d) in
  let statusText := if connected then Render stOK "connected" else Render stWarn (status d) in
  let title := Render stBrand "munnel" +:+ "  " +:+ dot +:+ " " +:+ statusText in
  if connected && negb (String.eqb (url d) "") then
    title +:+ "  " +:+ Render stTag (url d) +:+ " " +:+ Render stDim "→" +:+ " " +:+ Render stBlue (o_Target (opts d))
  else title +:+ "  " +:+ Render stDim ("server " +:+ o_ServerAddr (opts d)).

(** How many rows there is room for (model.go:179). *)
Definition avail (d : model) : Z :=
  let a := height d - Height (header_line d) - 4 in if a <? 3 then 3 else a.

Definition shown (d : model) : list row := take (Z.to_nat (avail d)) (rows d).

Definition body (d : model) : string :=
  match rows d with
  | [] =>
      nl +:+ "  " +:+ Render stDim (if String.eqb (status d) "connected"
        then "waiting for requests — traffic to your public URL appears here live" else message d) +:+ nl
  | _ :: _ => nl +:+ foldr (fun r s => "  " +:+ renderRow r (width d - 4) +:+ nl +:+ s) "" (shown d)
  end.

Definition footer (now : Z) (d : model) : string :=
  let stats := Render stDim (pretty (requests d) +:+ " request" +:+ plural (requests d) +:+ " · " +:+
    pretty (failures d) +:+ " error" +:+ plural (failures d) +:+ " · uptime " +:+ uptime now d) in
  let links := if String.eqb (InspectorURL (opts d)) "" then ""
               else Render stDim "inspector " +:+ Render stTag (InspectorURL (opts d)) +:+ Render stDim "  ·  " in
  " " +:+ links +:+ stats +:+ Render stDim "  ·  q quit".

(** model.go:157. *)
Definition View (now : Z) (d : model) : string :=
  RenderWidth stHeaderBar (width d) (" " +:+ header_line d) +:+ nl +:+ body d +:+
  nl +:+ RenderWidth stFooter (width d) (footer now d).

End tui.

(** ** What the dashboard shows of the events it was given *)

Section facts.
Context `{Terminal}.

Definition events_of (l : list (Z * msg)) : list Event :=
  omap (fun p => match p.2 with EventMsg e => Some e | _ => None end) l.

(** The exchange an event reports. *)
Definition reported (e : Event) : option Record_ :=
  match e_Kind e with Request_ => e_Record e | _ => None end.

Definition first_display : string * string * string := ("connecting", "", "").
Definition display_of (d : model) : string * string * string := (status d, url d, sub d).

(** The effect of an event on the status, the URL and the name on display. *)
Definition displays (x : string * string * string) (e : Event) : string * string * string :=
  let '(_, u, s) := x in
  match e_Kind e with
  | Connecting => ("connecting", u, s)
  | Reconnecting => ("reconnecting", u, s)
  | Connected_ => ("connected", e_PublicURL e, e_Subdomain e)
  | Disconnected => ("disconnected", u, s)
  | ShuttingDown => ("closed", u, s)
  | Request_ => x
  end.

Lemma updates_snoc d l p : updates d (l ++ [p]) = fst (fst (Update p.1 p.2 (updates d l))).
Proof. unfold updates. rewrite foldl_app. by destruct p. Qed.

Lemma updates_display d l : display_of (updates d l) = foldl displays (display_of d) (events_of l).
Proof.
  induction l as [|[now m] l IH] using rev_ind; [done|].
  rewrite updates_snoc. unfold events_of. rewrite omap_app, foldl_app. fold (events_of l). rewrite <-IH.
  destruct m as [| | | |e|]; try done; simpl.
  - by repeat case_match.
  - unfold on_event, display_of. destruct (e_Kind e); try done. by destruct (e_Record e).
Qed.

(** ** The dashboard beside the tunnel *)

Context `{ErrorText, Sha256, JSON Hello, JSON Ack, OtherURI, OtherBody}.

(** What the emitted events display, for each point of [Run]. *)
Definition shows (p : pc) (s : Tunnel.Status) (x : string * string * string) : Prop :=
  match p with
  | PDial _ | PAck _ _ _ => x.1.1 = "connecting"
  | PUp _ ack => x.1.1 = "connecting" /\ PublicURL s = a_PublicURL ack /\ st_Subdomain s = a_Subdomain ack
  | PRun _ => x = ("connected", PublicURL s, st_Subdomain s)
  | PWaitQuit | PSleep _ | PRetry _ => x.1.1 = "disconnected"
  | PLast | PDone => x.1.1 = "closed"
  | _ => True
  end.

Definition event_ok (e : Event) : Prop := e_Record e = None \/ e_Kind e = Request_.

Definition dash_ok (w : world) : Prop :=
  t_chan_closed (w_t w) = t_closed (w_t w) /\
  (w_dropped w = false ->
   Forall event_ok (seen w) /\ shows (w_pc w) (t_status (w_t w)) (foldl displays first_display (seen w))).

Lemma dash_emits e p l w :
  dash_ok w -> world_ok (emits e p l w) -> event_ok e ->
  (shows (w_pc w) (t_status (w_t w)) (foldl displays first_display (seen w)) ->
   forall s, PublicURL s = PublicURL (t_status (w_t w)) -> st_Subdomain s = st_Subdomain (t_status (w_t w)) ->
   shows p s (displays (foldl displays first_display (seen w)) e)) ->
  dash_ok (emits e p l w).
Proof.
  intros [Hc Hd] Hw He Hs. split; [apply Hw|].
  pose proof (emit_seen e w Hc) as Hseen. unfold emits in *.
  destruct (emit e (w_t w)) as [t d]. simpl in *. intros [Hd1 ->]%orb_false_iff.
  destruct (Hseen eq_refl) as (Heq & HU & HS). destruct (Hd Hd1) as [Hf Hsh].
  change (Forall event_ok (w_read w ++ t_queue t) /\
    shows p (t_status t) (foldl displays first_display (w_read w ++ t_queue t))).
  rewrite Heq, foldl_app. split; [|by apply Hs].
  apply Forall_app. by split; [|apply Forall_singleton].
Qed.

Lemma dash_run cfg v re now timer w w' :
  run_step cfg v re now timer w = Some w' -> world_ok w' -> dash_ok w -> dash_ok w'.
Proof.
  intros Hr Hw Hd. pose proof Hd as [Hc Hsh]. unfold run_step in Hr.
  destruct (w_pc w) eqn:Hpc;
    repeat match type of Hr with context [if ?b then _ else _] => destruct b end;
    try match type of Hr with context [handshake] => destruct (handshake cfg v) as [c [[ack r]|e]] end; simplify_eq.
  all: try (apply dash_emits; [done|done|by left|rewrite Hpc];
            destruct (foldl displays first_display (seen w)) as [[x u] n]; intros Hs s HU HS; simpl in *;
            first [exact I|reflexivity|by rewrite HU, HS; destruct Hs as (_ & -> & ->)]).
  all: split; [apply Hw|]; intros Hdr; destruct (Hsh Hdr) as [Hf Hs]; split; [exact Hf|];
    rewrite ?Hpc in Hs; simpl in *; first [exact I|exact Hs|exact (conj Hs (conj eq_refl eq_refl))].
Qed.

Lemma dash_step cfg w w' : Tunnel.step cfg w w' -> world_ok w' -> dash_ok w -> dash_ok w'.
Proof.
  intros Hst Hw Hd. destruct Hst as [v re now timer w w' Hr|w|w v|w i rec Hi|w i rec Hi|w e q He].
  - by eapply dash_run.
  - exact Hd.
  - exact Hd.
  - exact Hd.
  - destruct Hd as [Hc Hd]. split; [apply Hw|]. pose proof (emit_seen (mkEvent Request_ "" "" "" (Some rec)) w Hc) as Hseen.
    destruct (emit _ _) as [t d]. simpl in *. intros [Hd1 ->]%orb_false_iff. destruct (Hseen eq_refl) as (Heq & HU & HS).
    destruct (Hd Hd1) as [Hf Hsh].
    change (Forall event_ok (w_read w ++ t_queue t) /\
      shows (w_pc w) (t_status t) (foldl displays first_display (w_read w ++ t_queue t))).
    rewrite Heq, foldl_app. split; [apply Forall_app; by split; [|apply Forall_singleton; right]|].
    destruct (foldl displays first_display (seen w)) as [[x u] n]. simpl.
    destruct (w_pc w); simpl in *; rewrite ?HU, ?HS; done.
  - destruct Hd as [Hc Hd]. split; [exact Hc|]. intros Hdr. specialize (Hd Hdr).
    unfold seen in *. simpl. rewrite <-app_assoc. rewrite He in Hd. exact Hd.
Qed.

Lemma reachable_dash cfg t w :
  world_ok (start t) -> t_queue t = [] -> rtc (Tunnel.step cfg) (start t) w -> world_ok w /\ dash_ok w.
Proof.
  intros Hok Hq Hr. assert (dash_ok (start t)) as Hd.
  { split; [apply Hok|]. unfold seen. simpl. by rewrite Hq. }
  revert Hok Hd. clear Hq. induction Hr as [|w1 w2 w3 Hst _ IH]; intros Hok Hd; [done|].
  assert (world_ok w2) as Hok2 by (by eapply tunnel_step_ok). apply IH; [done|]. by eapply dash_step.
Qed.

(** Among well-formed events those with a record are the reported exchanges. *)
Lemma reported_records es : Forall event_ok es -> omap reported es = omap e_Record es.
Proof.
  induction 1 as [|e es He _ IH]; [done|].
  change (omap ?f (e :: es)) with (match f e with Some y => y :: omap f es | None => omap f es end).
  rewrite IH. unfold reported.
  destruct He as [Hr|Hk]; [rewrite Hr; by destruct (e_Kind e)|by rewrite Hk].
Qed.

(** What the counters and the rows are of the exchanges reported so far. *)
Definition log_exact (d : model) (rs : list Record_) : Prop :=
  rows d = take maxRows (row_of <$> reverse rs) /\ requests d = zlen rs /\
  failures d = zlen (filter (fun r => failed r = true) rs).

Lemma add_record_exact r d rs : log_exact d rs -> log_exact (add_record r d) (rs ++ [r]).
Proof.
  intros (Hr & Hn & Hf). unfold log_exact. cbn [add_record with_rows rows requests failures].
  rewrite reverse_snoc, fmap_cons, Hr, filter_app, !length_app, Hn, Hf. split; [apply take_cons_take|].
  split; [simpl; lia|]. rewrite filter_cons, filter_nil. destruct (failed r); case_decide; simpl; try done; lia.
Qed.

Lemma updates_exact o q l : log_exact (updates (newModel o q) l) (omap reported (events_of l)).
Proof.
  induction l as [|[now m] l IH] using rev_ind; [done|].
  rewrite updates_snoc. unfold events_of. rewrite omap_app. fold (events_of l). rewrite omap_app.
  set (d := updates _ _) in *. set (rs := omap reported (events_of l)) in *.
  assert (forall d', rows d' = rows d -> requests d' = requests d -> failures d' = failures d ->
    log_exact d' (rs ++ [])) as Hsame
    by (unfold log_exact; intros d' -> -> ->; by rewrite app_nil_r).
  destruct m as [| | | |e|]; try (by apply Hsame).
  - simpl. apply Hsame; by case_match.
  - simpl. unfold reported, on_event. destruct (e_Kind e); try (by apply Hsame).
    destruct (e_Record e) as [r|]; [by apply (add_record_exact r d rs)|by apply Hsame].
Qed.

(** ** Properties *)

(** Whatever messages the dashboard gets and in whatever order (events, ticks,
    keys, sizes), it shows the last 500 reported exchanges, newest first, and
    counts all of them and those that failed. *)
Theorem dashboard_exact o q l :
  let d := updates (newModel o q) l in
  let rs := omap reported (events_of l) in
  rows d = take maxRows (row_of <$> reverse rs) /\ requests d = zlen rs /\
  failures d = zlen (filter (fun r => failed r = true) rs) /\ 0 <= failures d <= requests d.
Proof.
  intros d rs. destruct (updates_exact o q l) as (Hr & Hn & Hf). fold d rs in Hr, Hn, Hf.
  split_and!; try done; rewrite ?Hn, ?Hf; [lia|].
  pose proof (length_filter (fun r => failed r = true) rs). lia.
Qed.


End facts.

(** The path's column is exactly as wide as it was given, for an ASCII path. *)
Lemma path_column_width p w :
  sall is_ascii p = true -> 1 <= w -> RuneCountInString (padPath (cut_path p w) w) = Z.to_nat w.
Proof.
  intros Hp Hw. unfold cut_path. destruct (Z.ltb_spec w (zslen p)) as [Hlt|Hle].
  - assert (String.length (String.substring 0 (Z.to_nat (w - 1)) p) = Z.to_nat (w - 1)) as Hlen
      by (apply slen_substring; lia).
    unfold padPath. rewrite slen_app, Hlen. destruct (Z.leb_spec w (Z.of_nat (Z.to_nat (w - 1) + String.length "…"))); [|simpl in *; lia].
    unfold RuneCountInString. rewrite rune_count_ascii by (by apply sall_substring).
    rewrite Hlen. change (rune_count 0 "…") with 1%nat. lia.
  - unfold padPath. destruct (Z.leb_spec w (zslen p)); rewrite RuneCount_ascii; rewrite ?sall_app, ?Hp, ?blanks_ascii; try done.
    + lia.
    + rewrite slen_app, slen_blanks. lia.
Qed.

(** A path of other characters can be cut in the middle of one. *)
Example cut_path_splits_rune :
  cut_path "/日本語日本語" 12 = "/日本語" +:+ String (ascii_of_N 230) "…".
Proof. reflexivity. Qed.

(** ** A concrete instance *)

#[local] Instance sample_terminal : Terminal := {|
  Spinner := unit; TickMsg := unit; spinner_Dot _ := tt; spinner_Update s _ := s; spinner_View _ := "*";
  Render _ s := s; RenderWidth _ _ s := s; Height _ := 1
|}.

#[local] Existing Instances Tunnel.sample_text Tunnel.sample_sha Tunnel.sample_hello Tunnel.sample_ack_json
  Tunnel.sample_uri Tunnel.sample_encoded.

