(* ===== verification/CertFile.v ===== *)
(** * The reloaded certificate: server/certfile.go

    [CertFile] serves the certificate of the TLS control listener and reloads the
    pair of files when they change. The file system is an argument of each call:
    what [os.Stat] says of the two paths, and what loading the pair gives (they
    are looked at one after the other, so they may disagree). *)
From S2P Require Import Prelude GoStr GoFmt.

(** Ten seconds, in nanoseconds. *)
Definition certCheckInterval : Z := 10000000000.

Record FileInfo := mkFileInfo { fi_mtime : Z; fi_size : Z; fi_dir : bool }.

(** certfile.go:81. *)
Fixpoint stamp_from (stat : string -> result FileInfo) (acc : string) (paths : list string) : result string :=
  match paths with
  | [] => Ok acc
  | p :: paths =>
      match stat p with
      | Err e => Err e
      | Ok fi =>
          if fi_dir fi then Err (errors_New (p +:+ " is a directory"))
          else stamp_from stat (acc +:+ pretty (fi_mtime fi) +:+ "/" +:+ pretty (fi_size fi) +:+ ";") paths
      end
  end.

Definition fileStamp (stat : string -> result FileInfo) (paths : list string) : result string :=
  stamp_from stat "" paths.

Section certfile.
Context {C : Type}.    (** [tls.Certificate] *)

Record CertFile := mkCertFile {
  certPath : string;
  keyPath : string;
  cert : option C;
  stamp : string;
  checked : Z;
  lastErr : option error;
  interval : Z
}.

(** What a call finds: the clock (twice), the files' information, and what
    [tls.LoadX509KeyPair] returns. *)
Record env := mkEnv {
  e_since : Z;
  e_now : Z;
  e_stat : string -> result FileInfo;
  e_load : result C
}.

(** certfile.go:61. *)
Definition refreshLocked (force : bool) (v : env) (c : CertFile) : CertFile * option error :=
  let c := mkCertFile (certPath c) (keyPath c) (cert c) (stamp c) (e_now v) (lastErr c) (interval c) in
  let set_err st e := mkCertFile (certPath c) (keyPath c) (cert c) st (checked c) (Some e) (interval c) in
  match fileStamp (e_stat v) [certPath c; keyPath c] with
  | Err e => (set_err (stamp c) e, Some e)
  | Ok st =>
      if negb force && String.eqb st (stamp c) && (if cert c is Some _ then true else false) then (c, None)
      else match e_load v with
           | Err e => (set_err st e, Some e)
           | Ok x => (mkCertFile (certPath c) (keyPath c) (Some x) st (checked c) None (interval c), None)
           end
  end.

(** certfile.go:38. *)
Definition NewCertFile (certPath keyPath : string) (v : env) : CertFile * option error :=
  refreshLocked true v (mkCertFile certPath keyPath None "" 0 None certCheckInterval).

Definition due (v : env) (c : CertFile) : bool :=
  match cert c with None => true | Some _ => interval c <=? e_since v - checked c end.

(** certfile.go:46. [lastErr] is not nil when there is no certificate; the
    default stands for the nil that [%w] would be given. *)
Definition GetCertificate (v : env) (c : CertFile) : CertFile * result C :=
  let c := if due v c then fst (refreshLocked false v c) else c in
  (c, match cert c with
      | None => Err (Wrapf "no control TLS certificate: %w" (default (errors_New "%!w(<nil>)") (lastErr c)))
      | Some x => Ok x
      end).

(** Successive handshakes. *)
Fixpoint handshakes (l : list env) (c : CertFile) : CertFile * list (result C) :=
  match l with
  | [] => (c, [])
  | v :: l => let '(c, r) := GetCertificate v c in let '(c, rs) := handshakes l c in (c, r :: rs)
  end.

(** ** Lemmas *)

(** A try to load the pair that succeeds. *)
Definition loads (c : CertFile) (v : env) (x : C) : Prop :=
  e_load v = Ok x /\ exists st, fileStamp (e_stat v) [certPath c; keyPath c] = Ok st.

Definition same_paths (c c' : CertFile) : Prop :=
  certPath c' = certPath c /\ keyPath c' = keyPath c /\ interval c' = interval c.

Lemma refresh_spec force v c :
  let c' := fst (refreshLocked force v c) in
  same_paths c c' /\ checked c' = e_now v /\
  ((cert c' = cert c /\ (cert c = None -> is_Some (lastErr c') /\ forall x, ~ loads c v x) /\
    (forall st, fileStamp (e_stat v) [certPath c; keyPath c] = Ok st -> stamp c' = st)) \/
   (exists x, cert c' = Some x /\ lastErr c' = None /\ loads c v x /\
    fileStamp (e_stat v) [certPath c; keyPath c] = Ok (stamp c'))).
Proof.
  unfold refreshLocked, loads, same_paths. cbn [certPath keyPath cert stamp checked interval].
  destruct (fileStamp (e_stat v) [certPath c; keyPath c]) as [st|e] eqn:Hst.
  - destruct (negb force && String.eqb st (stamp c) && _) eqn:Hskip.
    + apply andb_true_iff in Hskip as [[_ Heq%String.eqb_eq]%andb_true_iff Hsome]. simpl. split; [done|].
      split; [done|]. left. split; [done|]. split; [by intros Hn; rewrite Hn in Hsome|]. intros ? [= <-]. done.
    + destruct (e_load v) as [x|e] eqn:Hl; simpl; (split; [done|]; split; [done|]).
      * right. exists x. by split_and!; eauto.
      * left. split; [done|]. split; [|by intros ? [= <-]]. intros _. split; [done|]. by intros x [? _].
  - simpl. split; [done|]. split; [done|]. left. split; [done|]. split; [|done]. intros _. split; [done|].
    by intros x [_ [? ?]].
Qed.

Lemma get_spec v c :
  let c' := fst (GetCertificate v c) in
  same_paths c c' /\
  (is_Some (cert c) -> is_Some (cert c')) /\
  (forall x, cert c' = Some x -> cert c = Some x \/ loads c v x) /\
  (cert c' = None -> cert c = None /\ forall x, ~ loads c v x) /\
  snd (GetCertificate v c) = match cert c' with
    | None => Err (Wrapf "no control TLS certificate: %w" (default (errors_New "%!w(<nil>)") (lastErr c')))
    | Some x => Ok x end.
Proof.
  unfold GetCertificate. destruct (due v c) eqn:Hdue; cbn [fst snd].
  - destruct (refresh_spec false v c) as (Hp & _ & [(Hc & Hn & _)|(x & Hc & _ & Hl & _)]); rewrite ?Hc.
    + split_and!; try done; [by left|]. intros Hnone. split; [done|]. by apply Hn.
    + split_and!; try done. intros y [= <-]. by right.
  - split_and!; try done; [by left|]. intros Hn. unfold due in Hdue. by rewrite Hn in Hdue.
Qed.

Lemma loads_same c c' v x : same_paths c c' -> loads c' v x <-> loads c v x.
Proof. unfold loads. by intros (-> & -> & _). Qed.

Lemma same_paths_trans c1 c2 c3 : same_paths c1 c2 -> same_paths c2 c3 -> same_paths c1 c3.
Proof. unfold same_paths. intros (-> & -> & ->). done. Qed.

(** The answers of a run, from the certificate it starts with. *)
Lemma handshakes_spec l c i r :
  snd (handshakes l c) !! i = Some r ->
  match r with
  | Ok x => cert c = Some x \/ exists j v, (j <= i)%nat /\ l !! j = Some v /\ loads c v x
  | Err _ => cert c = None /\ forall j v x, (j <= i)%nat -> l !! j = Some v -> ~ loads c v x
  end /\
  forall j r', (i <= j)%nat -> snd (handshakes l c) !! j = Some r' -> (exists x, r = Ok x) -> exists x, r' = Ok x.
Proof.
  revert c i r. induction l as [|v l IH]; intros c i r Hi; [done|]. cbn [handshakes] in *.
  pose proof (get_spec v c) as (Hp & Hs & Hx & Hn & Hr). destruct (GetCertificate v c) as [c' r0]. cbn [fst snd] in *.
  specialize (IH c'). destruct (handshakes l c') as [c'' rs]. cbn [fst snd] in *.
  destruct i as [|i].
  - injection Hi as <-. split.
    + rewrite Hr. destruct (cert c') as [x|] eqn:Hc'.
      * destruct (Hx x eq_refl) as [?|Hl]; [by left|]. right. exists 0%nat, v. split_and!; [lia|done|done].
      * destruct (Hn eq_refl) as [? Hno]. split; [done|]. intros [|j] v' x Hj; [|lia]. intros [= <-]. apply Hno.
    + intros [|j] r' _ Hj [x ->]; simpl in Hj; [injection Hj as <-; by exists x|].
      destruct (IH _ _ Hj) as [Hr' _]. destruct r' as [y|e]; [by exists y|]. destruct Hr' as [Hc' _].
      by rewrite Hc' in Hr.
  - destruct (IH _ _ Hi) as [Hans Hlater]. split.
    + destruct r as [x|e].
      * destruct Hans as [Hc'|(j & v' & Hj & Hl & Hld)].
        -- destruct (Hx x Hc') as [?|Hl]; [by left|]. right. exists 0%nat, v. split_and!; [lia|done|done].
        -- right. exists (S j), v'. split_and!; [lia|done|]. by apply (loads_same c c').
      * destruct Hans as [Hc' Hno]. destruct (Hn Hc') as [? Hno0]. split; [done|].
        intros [|j] v' x Hj Hl; [by simplify_eq/=|]. rewrite <-(loads_same c c') by done. apply (Hno j); [lia|done].
    + intros [|j] r' Hj; [lia|]. apply Hlater. lia.
Qed.

Ltac next_number H :=
  rewrite <-?sapp_assoc in H; cbn [String.append] in H; apply number_sep_inj in H as [-> H]; [|done].

(** Different files have different stamps. *)
Lemma stamp_inj (s1 s2 : string -> result FileInfo) p q st f1 f2 g1 g2 :
  fileStamp s1 [p; q] = Ok st -> fileStamp s2 [p; q] = Ok st ->
  s1 p = Ok f1 -> s2 p = Ok f2 -> s1 q = Ok g1 -> s2 q = Ok g2 ->
  fi_mtime f1 = fi_mtime f2 /\ fi_size f1 = fi_size f2 /\ fi_mtime g1 = fi_mtime g2 /\ fi_size g1 = fi_size g2.
Proof.
  unfold fileStamp. cbn [stamp_from]. intros H1 H2 Hp1 Hp2 Hq1 Hq2. rewrite Hp1, Hq1 in H1. rewrite Hp2, Hq2 in H2.
  destruct (fi_dir f1), (fi_dir g1), (fi_dir f2), (fi_dir g2); try done.
  injection H1 as <-. injection H2 as H2. do 3 next_number H2.
  by apply number_sep_inj in H2 as [-> _].
Qed.

(** Files that do not change while calls are served. *)
Definition stable (c : CertFile) (st : string) (x : C) (v : env) : Prop :=
  fileStamp (e_stat v) [certPath c; keyPath c] = Ok st /\ e_load v = Ok x.

Lemma stable_same c c' st x v : same_paths c c' -> stable c st x v -> stable c' st x v.
Proof. unfold stable. by intros (-> & -> & _). Qed.

(** Once the new pair is served, or when a call is due, the answer is the new pair. *)
Lemma get_stable v c st x :
  stable c st x v -> (cert c = Some x /\ stamp c = st \/ stamp c <> st) ->
  let c' := fst (GetCertificate v c) in
  (cert c' = Some x /\ stamp c' = st) \/ (c' = c /\ stamp c <> st /\ due v c = false).
Proof.
  intros [Hst Hl] Hc. unfold GetCertificate. destruct (due v c) eqn:Hdue; cbn [fst].
  - left. unfold refreshLocked. cbn [certPath keyPath cert stamp checked interval]. rewrite Hst, Hl. cbn [negb andb].
    destruct (String.eqb_spec st (stamp c)) as [Heq|Hne]; [|done]. cbn [andb].
    destruct Hc as [[Hc Hs]|]; [|congruence]. rewrite Hc. simpl. by split.
  - destruct Hc as [?|Hne]; [by left|]. right. by split_and!.
Qed.

Lemma handshakes_stable l c st x i r :
  Forall (stable c st x) l -> (cert c = Some x /\ stamp c = st \/ stamp c <> st) ->
  snd (handshakes l c) !! i = Some r ->
  (cert c = Some x /\ stamp c = st \/ exists j v, (j <= i)%nat /\ l !! j = Some v /\ due v c = true) -> r = Ok x.
Proof.
  revert c i r. induction l as [|v l IH]; intros c i r Hl Hc Hi Hdue; [done|]. cbn [handshakes] in Hi.
  apply Forall_cons in Hl as [Hv Hl].
  pose proof (get_spec v c) as (Hp & _ & _ & _ & Hr). pose proof (get_stable v c st x Hv Hc) as Hg.
  destruct (GetCertificate v c) as [c' r0]. cbn [fst snd] in *.
  specialize (IH c'). destruct (handshakes l c') as [c'' rs]. cbn [fst snd] in *.
  assert (Forall (stable c' st x) l) as Hl' by (eapply Forall_impl; [exact Hl|]; intros v'; by apply stable_same).
  destruct Hg as [Hg|(-> & Hne & Hnd)].
  - destruct i as [|i]; [injection Hi as <-; by rewrite Hr, (proj1 Hg)|]. eapply IH; eauto.
  - destruct Hdue as [[_ ?]|(j & v' & Hj & Hl0 & Hd)]; [done|].
    destruct j as [|j]; [simplify_eq/=; congruence|]. destruct i as [|i]; [lia|].
    apply (IH i r Hl Hc Hi). right. exists j, v'. split_and!; [lia|done|done].
Qed.

(** ** Properties *)

(** C31: Whatever happens to the files, a certificate that was served is never
    lost: each handshake is answered with a pair that was loaded, whole, no later
    than that handshake; once one was answered all later ones are; and a handshake
    fails only if no attempt so far, from the start of the server on, could load
    the pair. *)
Theorem certificate_service cp kp v0 l i r :
  let c := fst (NewCertFile cp kp v0) in
  snd (handshakes l c) !! i = Some r ->
  match r with
  | Ok x => exists v, v ∈ v0 :: take (S i) l /\ loads c v x
  | Err _ => forall v x, v ∈ v0 :: take (S i) l -> ~ loads c v x
  end /\
  forall j r', (i <= j)%nat -> snd (handshakes l c) !! j = Some r' -> (exists x, r = Ok x) -> exists x, r' = Ok x.
Proof.
  intros c Hi. destruct (handshakes_spec _ _ _ _ Hi) as [Hans Hlater]. split; [|exact Hlater].
  pose proof (refresh_spec true v0 (mkCertFile cp kp None "" 0 None certCheckInterval)) as (Hp & _ & Hc).
  change (fst (refreshLocked true v0 (mkCertFile cp kp None "" 0 None certCheckInterval))) with c in *.
  destruct r as [x|e].
  - destruct Hans as [Hx|(j & v & Hj & Hl & Hld)].
    + destruct Hc as [(Hn & _)|(y & Hy & _ & Hl & _)]; [simpl in Hn; congruence|]. exists v0.
      split; [by left|]. simplify_eq. by apply (loads_same _ c v0 x Hp).
    + exists v. split; [|done]. right. apply elem_of_take. exists j. split; [done|lia].
  - destruct Hans as [Hx Hno]. intros v x [->|(j & Hl & Hj)%elem_of_take]%elem_of_cons.
    + destruct Hc as [(_ & Hn & _)|(y & Hy & _)]; [|congruence]. rewrite (loads_same _ c v0 x Hp).
      by apply (proj2 (Hn eq_refl)).
    + apply (Hno j); [lia|done].
Qed.

(** A renewed certificate is picked up: if the time or the size of either file
    is not what it was when the files were last looked at, and from then on the
    files are stable and load, then every handshake from the first one that comes
    an interval after that look is answered with the new pair. *)
Theorem certificate_renewed c l i r x (old new : string -> FileInfo) :
  fileStamp (fun p => Ok (old p)) [certPath c; keyPath c] = Ok (stamp c) ->
  (exists p, p ∈ [certPath c; keyPath c] /\
    (fi_mtime (old p) <> fi_mtime (new p) \/ fi_size (old p) <> fi_size (new p))) ->
  (forall v, v ∈ l -> e_load v = Ok x /\ forall p, p ∈ [certPath c; keyPath c] -> e_stat v p = Ok (new p) /\ fi_dir (new p) = false) ->
  (exists j v, (j <= i)%nat /\ l !! j = Some v /\ interval c <= e_since v - checked c) ->
  snd (handshakes l c) !! i = Some r -> r = Ok x.
Proof.
  intros Hold (p & Hp & Hdiff) Hl (j & v & Hj & Hv & Hsince) Hi.
  assert (forall v, v ∈ l -> fileStamp (e_stat v) [certPath c; keyPath c] = fileStamp (fun p => Ok (new p)) [certPath c; keyPath c])
    as Hst.
  { intros v' Hv'. destruct (Hl v' Hv') as [_ Hs]. unfold fileStamp. cbn [stamp_from].
    by rewrite (proj1 (Hs (certPath c) ltac:(by left))), (proj1 (Hs (keyPath c) ltac:(by right; left))). }
  assert (exists st, fileStamp (fun p => Ok (new p)) [certPath c; keyPath c] = Ok st) as [st Hnew].
  { destruct (Hl v) as [_ Hs]; [by eapply list_elem_of_lookup_2|]. unfold fileStamp. cbn [stamp_from].
    rewrite (proj2 (Hs (certPath c) ltac:(by left))), (proj2 (Hs (keyPath c) ltac:(by right; left))). by eexists. }
  assert (stamp c <> st) as Hne.
  { intros Heq. rewrite Heq in Hold.
    destruct (stamp_inj _ _ _ _ _ _ _ _ _ Hold Hnew eq_refl eq_refl eq_refl eq_refl) as (? & ? & ? & ?).
    apply elem_of_cons in Hp as [->|Hp]; [tauto|]. apply list_elem_of_singleton in Hp as ->. tauto. }
  eapply (handshakes_stable l c st); [|by right|done|].
  - apply Forall_forall. intros v' Hv'. split; [by rewrite Hst|by apply Hl].
  - right. exists j, v. split_and!; [done|done|]. unfold due. destruct (cert c); [|done]. by apply Z.leb_le.
Qed.

End certfile.

(** A changed pair that fails to load is not tried again while the files stay as
    they are: the old certificate is served on, even after the cause is gone. *)
Definition sample_stat : string -> result FileInfo := fun _ => Ok (mkFileInfo 2 100 false).
Example failed_reload_sticks :
  let c := mkCertFile "c.pem" "k.pem" (Some 1) "1/100;1/100;" 0 None certCheckInterval in
  snd (handshakes [mkEnv certCheckInterval certCheckInterval sample_stat (Err io_EOF);
                   mkEnv (2 * certCheckInterval) 0 sample_stat (Ok 2)] c) = [Ok 1; Ok 1].
Proof. reflexivity. Qed.

(** ** Concrete instances *)

Definition missing : string -> result FileInfo := fun _ => Err (errors_New "no such file").

Lemma certificate_service_witness :
  exists v, v ∈ mkEnv 0 0 missing (Err io_EOF) :: take 2 [mkEnv 5 5 missing (Err io_EOF); mkEnv 6 6 sample_stat (Ok 7)] /\
    loads (fst (NewCertFile "c.pem" "k.pem" (mkEnv 0 0 missing (Err io_EOF)))) v 7.
Proof.
  exact (proj1 (certificate_service "c.pem" "k.pem" (mkEnv 0 0 missing (Err io_EOF))
    [mkEnv 5 5 missing (Err io_EOF); mkEnv 6 6 sample_stat (Ok 7)] 1 (Ok 7) eq_refl)).
Defined.

Lemma certificate_renewed_witness :
  snd (handshakes [mkEnv certCheckInterval certCheckInterval sample_stat (Ok 2)]
    (mkCertFile "c.pem" "k.pem" (Some 1) "1/100;1/100;" 0 None certCheckInterval)) !! 0%nat = Some (Ok 2).
Proof.
  destruct (snd (handshakes _ _) !! 0%nat) as [r|] eqn:Hi; [|discriminate Hi]. f_equal.
  refine (certificate_renewed (mkCertFile "c.pem" "k.pem" (Some 1) "1/100;1/100;" 0 None certCheckInterval)
    [mkEnv certCheckInterval certCheckInterval sample_stat (Ok 2)] 0 r 2
    (fun _ => mkFileInfo 1 100 false) (fun _ => mkFileInfo 2 100 false) eq_refl _ _ _ Hi).
  - exists "c.pem"%string. split; [by left|]. left. discriminate.
  - intros v ->%list_elem_of_singleton. split; [reflexivity|]. intros p _. split; reflexivity.
  - exists 0%nat, (mkEnv certCheckInterval certCheckInterval sample_stat (Ok 2)).
    split; [lia|]. split; [reflexivity|]. cbn. lia.
Defined.
