(* ===== verification/Listen.v ===== *)
(** * The server's listeners: server/control.go, proxy.go, auth.go

    Setting the listeners up ([Bind]) and running them until one dies or the
    server is stopped ([ListenAndServe]): the accept loops are goroutines that
    each send one error, the main goroutine collects them. Also the start-up
    line. *)
From Stdlib Require Import Ascii.
From stdpp Require Import sorting.
From S2P Require Import Prelude GoStr Encoding Proto Token Auth Registry Control.

(** ** Text *)

(** auth.go:229; [sort.Strings] compares octets. *)
Definition string_le (s t : string) : Prop := String.leb s t = true.
#[export] Instance string_le_dec s t : Decision (string_le s t) := bool_eq_dec _ _.

Definition ReservedNames (a : Authenticator) : list string := merge_sort string_le (elements (dom (reservedNames a))).

(** control.go:197: the start-up line, from the addresses that were bound. *)
Definition auth_mode (a : Authenticator) : string :=
  let mode :=
    if Auth.Open a then "open (no auth)"
    else "token auth (" +:+ pretty (StaticTokenCount a) +:+ " static token" +:+ plural (Z.of_nat (StaticTokenCount a)) +:+
         (if SignedEnabled a then " + signed tokens" else "") +:+ ")" in
  match ReservedNames a with
  | [] => mode
  | names => mode +:+ " reserved=" +:+ sjoin "," names
  end.

Definition up_line (cfg : Config) (control : string) (tls : option string) (proxy : string) (ask : option string) : string :=
  "munnel-server up — domain=" +:+ Domain cfg +:+ " control=" +:+ control +:+
  (if tls is Some t then " control-tls=" +:+ t else "") +:+ " proxy=" +:+ proxy +:+
  (if ask is Some k then " ask=" +:+ k else "") +:+ " auth=" +:+ auth_mode (auth_of cfg).

Section serve.
Context `{ErrorText}.

(** proxy.go:50. *)
Definition isClosedErr (e : error) : bool := Contains (error_text e) "closed".

(** proxy.go:36, given what [http.Server.Serve] returned. *)
Definition serveProxyHTTP (ErrServerClosed served : error) : error :=
  if bool_decide (served = ErrServerClosed) || isClosedErr served then served else served.

End serve.

(** ** Binding (control.go:135) *)

(** The listeners of the server, the sockets that are open, and the number of the
    next one. *)
Record sockets := mkSockets {
  controlLn : option nat;
  controlTLSLn : option nat;
  proxyLn : option nat;
  askLn : option nat;
  opened : gset nat;
  next : nat
}.

(** What [net.Listen] answers for each of the addresses. *)
Record outcomes := mkOutcomes {
  o_control : option error;
  o_tls : option error;
  o_proxy : option error;
  o_ask : option error
}.

Definition listen (o : option error) (s : sockets) : sockets * result nat :=
  match o with
  | Some e => (s, Err e)
  | None => (mkSockets (controlLn s) (controlTLSLn s) (proxyLn s) (askLn s) ({[next s]} ∪ opened s) (S (next s)), Ok (next s))
  end.

Definition set_control l s := mkSockets l (controlTLSLn s) (proxyLn s) (askLn s) (opened s) (next s).
Definition set_tls l s := mkSockets (controlLn s) l (proxyLn s) (askLn s) (opened s) (next s).
Definition set_proxy l s := mkSockets (controlLn s) (controlTLSLn s) l (askLn s) (opened s) (next s).
Definition set_ask l s := mkSockets (controlLn s) (controlTLSLn s) (proxyLn s) l (opened s) (next s).

Definition close_socket (l : option nat) (s : sockets) : sockets :=
  match l with
  | Some l => mkSockets (controlLn s) (controlTLSLn s) (proxyLn s) (askLn s) (opened s ∖ {[l]}) (next s)
  | None => s
  end.

(** control.go:157. *)
Definition closeControl (s : sockets) : sockets :=
  let s := set_control None (close_socket (controlLn s) s) in set_tls None (close_socket (controlTLSLn s) s).

Definition listen_error (what addr : string) (e : error) : error := Wrapf (what +:+ " listen " +:+ addr +:+ ": %w") e.

Definition bind_ask (cfg : Config) (o : outcomes) (s : sockets) : sockets * option error :=
  if String.eqb (AskAddr cfg) "" then (s, None)
  else match listen (o_ask o) s with
       | (s, Err e) => (set_proxy None (close_socket (proxyLn s) (closeControl s)), Some (listen_error "ask" (AskAddr cfg) e))
       | (s, Ok l) => (set_ask (Some l) s, None)
       end.

Definition bind_proxy (cfg : Config) (o : outcomes) (s : sockets) : sockets * option error :=
  match listen (o_proxy o) s with
  | (s, Err e) => (closeControl s, Some (listen_error "proxy" (ProxyAddr cfg) e))
  | (s, Ok l) => bind_ask cfg o (set_proxy (Some l) s)
  end.

Definition bind_tls (cfg : Config) (o : outcomes) (s : sockets) : sockets * option error :=
  if tlsEnabled cfg then
    match listen (o_tls o) s with
    | (s, Err e) =>
        (set_control None (close_socket (controlLn s) s), Some (listen_error "control TLS" (ControlTLSAddr cfg) e))
    | (s, Ok l) => bind_proxy cfg o (set_tls (Some l) s)
    end
  else bind_proxy cfg o s.

Definition Bind (cfg : Config) (o : outcomes) (s : sockets) : sockets * option error :=
  match controlLn s with
  | Some _ => (s, None)
  | None =>
      match listen (o_control o) s with
      | (s, Err e) => (s, Some (listen_error "control" (ControlAddr cfg) e))
      | (s, Ok l) => bind_tls cfg o (set_control (Some l) s)
      end
  end.

(** control.go:188. *)
Definition listeners (s : sockets) : list nat :=
  option_list (controlLn s) ++ option_list (proxyLn s) ++ option_list (controlTLSLn s) ++ option_list (askLn s).

(** ** Running (control.go:195) *)

(** The main goroutine: in the [select], taking [left] more errors before it
    returns [r], or back. *)
Inductive phase := MSelect | MDrain (r : option error) (left : nat) | MDone (r : option error).

Record serving := mkServing {
  loops : list bool;          (** the accept loops that run *)
  errCh : list error;         (** a channel with room for one error per loop *)
  sent : list error;          (** all that was ever sent *)
  cancelled : bool;
  closed_all : bool;
  main : phase
}.

Definition start_serving (n : nat) : serving := mkServing (replicate n true) [] [] false false MSelect.

(** The loops that still run. *)
Definition running (s : serving) : nat := length (filter (fun b => b = true) (loops s)).

Inductive serve_step (n : nat) : serving -> serving -> Prop :=
| serve_die s i e :      (** [Accept] fails: by itself, or because the listener was closed *)
    loops s !! i = Some true -> (length (errCh s) < n)%nat ->
    serve_step n s (mkServing (<[i := false]> (loops s)) (errCh s ++ [e]) (sent s ++ [e]) (cancelled s) (closed_all s) (main s))
| serve_cancel s :
    serve_step n s (mkServing (loops s) (errCh s) (sent s) true (closed_all s) (main s))
| serve_first s e q :    (** control.go:235 *)
    main s = MSelect -> errCh s = e :: q ->
    serve_step n s (mkServing (loops s) q (sent s) (cancelled s) true (MDrain (Some e) (n - 1)))
| serve_ctx s :          (** control.go:241 *)
    main s = MSelect -> cancelled s = true ->
    serve_step n s (mkServing (loops s) (errCh s) (sent s) (cancelled s) true (MDrain None n))
| serve_drain s r k e q :
    main s = MDrain r (S k) -> errCh s = e :: q ->
    serve_step n s (mkServing (loops s) q (sent s) (cancelled s) (closed_all s) (MDrain r k))
| serve_return s r :
    main s = MDrain r 0 ->
    serve_step n s (mkServing (loops s) (errCh s) (sent s) (cancelled s) (closed_all s) (MDone r)).

(** The errors the main goroutine has not taken yet. *)
Definition owed (n : nat) (p : phase) : nat := match p with MSelect => n | MDrain _ k => k | MDone _ => 0 end.

(** ** Lemmas *)

Record serving_ok (n : nat) (s : serving) : Prop := {
  sv_count : (running s + length (errCh s) = owed n (main s))%nat;
  sv_owed : (owed n (main s) <= n)%nat;
  sv_sent : forall e, e ∈ errCh s -> e ∈ sent s;
  sv_result : match main s with
              | MDrain (Some e) _ | MDone (Some e) => e ∈ sent s
              | MDrain None _ | MDone None => cancelled s = true
              | MSelect => True
              end;
  sv_closed : main s <> MSelect -> closed_all s = true
}.

Lemma filter_true_insert (l : list bool) i :
  l !! i = Some true ->
  length (filter (fun b => b = true) l) = S (length (filter (fun b => b = true) (<[i := false]> l))).
Proof.
  revert i. induction l as [|b l IH]; intros [|i] Hi; simpl in Hi; try done.
  - simplify_eq. change (<[0%nat := false]> (true :: l)) with (false :: l).
    by rewrite (filter_cons_True _ true), (filter_cons_False _ false) by done.
  - change (<[S i := false]> (b :: l)) with (b :: <[i := false]> l).
    destruct b; rewrite ?filter_cons_True, ?filter_cons_False by done; simpl; by rewrite (IH _ Hi).
Qed.

Lemma serve_step_ok n s s' : serve_step n s s' -> serving_ok n s -> serving_ok n s'.
Proof.
  intros Hst [Hc Ho Hs Hr Hcl]. destruct Hst as [s i e Hi Hlt|s|s e q Hm Hq|s Hm Hx|s r k e q Hm Hq|s r Hm]; split; simpl; auto.
  - unfold running in *. simpl. rewrite length_app, (filter_true_insert _ _ Hi) in *. simpl. lia.
  - intros e0. rewrite !elem_of_app. intros [?|?]; [left; auto|by right].
  - destruct (main s) as [|[e0|]|[e0|]]; rewrite ?elem_of_app; auto.
  - by destruct (main s) as [|[]|[]].
  - unfold running in *. simpl. rewrite Hm, Hq in Hc. simpl in *. lia.
  - lia.
  - intros e0 He. apply Hs. rewrite Hq. by right.
  - apply Hs. rewrite Hq. by left.
  - by rewrite Hm in Hc.
  - unfold running in *. simpl. rewrite Hm, Hq in Hc. simpl in *. lia.
  - rewrite Hm in Ho. simpl in Ho. lia.
  - intros e0 He. apply Hs. rewrite Hq. by right.
  - by rewrite Hm in Hr.
  - intros _. apply Hcl. by rewrite Hm.
  - by rewrite Hm in Hc.
  - lia.
  - by rewrite Hm in Hr.
  - intros _. apply Hcl. by rewrite Hm.
Qed.

Lemma start_serving_ok n : serving_ok n (start_serving n).
Proof.
  split; simpl; try done. unfold running. simpl. rewrite Nat.add_0_r.
  induction n as [|n IH]; [done|]. change (replicate (S n) true) with (true :: replicate n true).
  rewrite filter_cons_True by done. simpl. by rewrite IH.
Qed.

Lemma serving_reachable n s : rtc (serve_step n) (start_serving n) s -> serving_ok n s.
Proof.
  intros Hr. pose proof (start_serving_ok n) as Hok. revert Hok.
  induction Hr as [|s1 s2 s3 Hst _ IH]; [done|]. intros Hok. apply IH. by eapply serve_step_ok.
Qed.

Lemma running_none s : running s = 0%nat -> Forall (fun b => b = false) (loops s).
Proof.
  unfold running. induction (loops s) as [|[] l IH]; intros Hl; [done| |].
  - by rewrite filter_cons_True in Hl by done.
  - rewrite filter_cons_False in Hl by done. constructor; auto.
Qed.

Lemma running_some s : (0 < running s)%nat -> exists i, loops s !! i = Some true.
Proof.
  unfold running. induction (loops s) as [|[] l IH]; intros Hl; [simpl in Hl; lia| |].
  - by exists 0%nat.
  - rewrite filter_cons_False in Hl by done. destruct (IH Hl) as [i Hi]. by exists (S i).
Qed.

(** How many steps are left, cancellations apart. *)
Definition steps_left (n : nat) (s : serving) : nat :=
  (running s + match main s with MSelect => n + 2 | MDrain _ k => k + 1 | MDone _ => 0 end)%nat.

Lemma serve_step_left n s s' :
  serve_step n s s' -> (steps_left n s' < steps_left n s)%nat \/
  s' = mkServing (loops s) (errCh s) (sent s) true (closed_all s) (main s).
Proof.
  intros [s0 i e Hi Hlt|s0|s0 e q Hm Hq|s0 Hm Hx|s0 r k e q Hm Hq|s0 r Hm]; [left|by right|left..];
    unfold steps_left, running; simpl; rewrite ?Hm; try lia.
  rewrite (filter_true_insert _ _ Hi). lia.
Qed.

(** The sockets of a server that is not bound. *)
Definition unbound (s : sockets) : Prop :=
  controlLn s = None /\ controlTLSLn s = None /\ proxyLn s = None /\ askLn s = None /\ opened s = ∅.

(** The address that could not be bound, and why. *)
Definition blamed (cfg : Config) (o : outcomes) (err : error) : Prop :=
  (exists e, o_control o = Some e /\ err = listen_error "control" (ControlAddr cfg) e) \/
  (exists e, tlsEnabled cfg = true /\ o_tls o = Some e /\ err = listen_error "control TLS" (ControlTLSAddr cfg) e) \/
  (exists e, o_proxy o = Some e /\ err = listen_error "proxy" (ProxyAddr cfg) e) \/
  (exists e, AskAddr cfg <> ""%string /\ o_ask o = Some e /\ err = listen_error "ask" (AskAddr cfg) e).

(** ** Properties *)

(** C32: Binding is all or nothing: if any of the addresses cannot be bound, the
    error names it and no listener is left, neither in the server nor open; if
    binding succeeds, exactly the configured listeners are there (the TLS one if
    it is configured, the ask one if it has an address), they are different and
    nothing else is open, and binding again does nothing. *)
Theorem bind_all_or_nothing cfg o s s' r :
  unbound s -> Bind cfg o s = (s', r) ->
  match r with
  | Some err => unbound s' /\ blamed cfg o err
  | None =>
      is_Some (controlLn s') /\ is_Some (proxyLn s') /\
      (is_Some (controlTLSLn s') <-> tlsEnabled cfg = true) /\ (is_Some (askLn s') <-> AskAddr cfg <> ""%string) /\
      NoDup (listeners s') /\ opened s' = list_to_set (listeners s') /\
      forall o', Bind cfg o' s' = (s', None)
  end.
Proof.
  destruct s as [c t p a op nx]. unfold unbound. simpl. intros (-> & -> & -> & -> & ->) HB.
  unfold Bind, listen, bind_tls, bind_proxy, bind_ask, listen in HB. simpl in HB.
  unfold blamed.
  destruct (o_control o) as [e|]; [simplify_eq; simpl; split; [done|]; left; by exists e|].
  destruct (tlsEnabled cfg) eqn:Ht; [destruct (o_tls o) as [e|]|];
    [simplify_eq; simpl; split; [split_and!; try done; set_solver|]; right; left; by exists e|..];
    (destruct (o_proxy o) as [e|]; [simplify_eq; simpl; split; [split_and!; try done; set_solver|]; right; right; left; by exists e|]);
    (destruct (String.eqb_spec (AskAddr cfg) "") as [Ha|Ha]; [|destruct (o_ask o) as [e|]]); simplify_eq; simpl;
    try (split; [split_and!; try done; set_solver|]; right; right; right; by exists e).
  all: split_and!; try done; try (unfold listeners; simpl; rewrite ?NoDup_cons, ?NoDup_nil; set_solver by lia).
Qed.


(** ** Concrete instances *)

Definition sample_listen : Config :=
  Control.New (mkConfig "t.example" "" "" ":9000" ":7002" true "443" "https" 0 None false "" 0 0 0).
Definition no_sockets : sockets := mkSockets None None None None ∅ 0.

(** The last address is taken. *)
Lemma bind_all_or_nothing_witness :
  unbound (fst (Bind sample_listen (mkOutcomes None None None (Some (OSError 98))) no_sockets)) /\
  blamed sample_listen (mkOutcomes None None None (Some (OSError 98))) (listen_error "ask" ":9000" (OSError 98)).
Proof.
  exact (bind_all_or_nothing sample_listen (mkOutcomes None None None (Some (OSError 98))) no_sockets _ _
    ltac:(split_and!; reflexivity) (surjective_pairing _)).
Defined.

Definition sample_stopped : serving := mkServing [false; false] [] [OSError 1; OSError 2] true true (MDone None).

Lemma sample_serves_out : rtc (serve_step 2) (start_serving 2) sample_stopped.
Proof.
  eapply rtc_l; [apply serve_cancel|]. eapply rtc_l; [by apply serve_ctx|].
  eapply rtc_l; [apply (serve_die 2 _ 0 (OSError 1)); [reflexivity|simpl; lia]|].
  eapply rtc_l; [by eapply serve_drain|].
  eapply rtc_l; [apply (serve_die 2 _ 1 (OSError 2)); [reflexivity|simpl; lia]|].
  eapply rtc_l; [by eapply serve_drain|]. eapply rtc_l; [by eapply serve_return|]. apply rtc_refl.
Qed.

