(* ===== verification/GoFlag.v ===== *)
(** * The flag package

    [flag.FlagSet.Parse] for the flags the two commands declare: strings,
    booleans, integers and durations. The values are a map from the flags' names;
    the program's [fs.String("name", default, usage)] is an entry of it with the
    default. *)
From Stdlib Require Import Ascii.
From S2P Require Import Prelude GoStr GoFmt.

Inductive value := VString (s : string) | VBool (b : bool) | VInt (n : Z) | VDuration (d : Z).

Abbreviation values := (gmap string value).

Definition get_string (vs : values) (name : string) : string :=
  match vs !! name with Some (VString s) => s | _ => "" end.
Definition get_bool (vs : values) (name : string) : bool :=
  match vs !! name with Some (VBool b) => b | _ => false end.
Definition get_int (vs : values) (name : string) : Z :=
  match vs !! name with Some (VInt n) | Some (VDuration n) => n | _ => 0 end.

(** What one argument is to [parseOne]. *)
Inductive argument :=
| Stop (rest : bool)                              (** no flag; [rest]: the argument itself is kept *)
| BadSyntax
| FlagArg (name : string) (val : option string).

Definition argument_of (s : string) : argument :=
  match s with
  | String "-" (String "-" "") => Stop false
  | String "-" (String c t) =>
      let name := if Ascii.eqb c "-" then t else String c t in
      match name with
      | "" => BadSyntax
      | String c t =>
          if Ascii.eqb c "-" || Ascii.eqb c "=" then BadSyntax
          else match cut_byte "=" t with
               | Some (a, b) => FlagArg (String c a) (Some b)
               | None => FlagArg (String c t) None
               end
      end
  | _ => Stop true
  end.

Example argument_of_sample :
  argument_of <$> ["--ttl=1h"; "-h"; "--"; "-"; "x"; "---"; "--=x"; "-sub=a=b"; "-"] =
  [FlagArg "ttl" (Some "1h"); FlagArg "h" None; Stop false; Stop true; Stop true; BadSyntax; BadSyntax;
   FlagArg "sub" (Some "a=b"); Stop true].
Proof. reflexivity. Qed.

Inductive flag_error :=
| ErrHelp
| FlagError (e : error).

Inductive parsed :=
| Parsed (vs : values) (rest : list string)
| Failed (e : flag_error).

Section parse.
Context `{ParseDuration}.

(** [flag.Value.Set]: the old value tells the flag's type. *)
Definition set_value (old : value) (s : string) : option value :=
  match old with
  | VString _ => Some (VString s)
  | VBool _ => VBool <$> ParseBool s
  | VInt _ => VInt <$> ParseInt0 s
  | VDuration _ => match parse_duration s with Ok d => Some (VDuration d) | Err _ => None end
  end.

Definition is_bool_flag (v : value) : bool := match v with VBool _ => true | _ => false end.

Definition invalid_value (val name : string) : flag_error :=
  FlagError (Errorf "invalid value %q for flag -%s" [val; name]).

(** [Parse]: one [parseOne] per round. *)
Fixpoint Parse (vs : values) (args : list string) : parsed :=
  match args with
  | [] => Parsed vs []
  | s :: rest =>
      match argument_of s with
      | Stop keep => Parsed vs (if keep then args else rest)
      | BadSyntax => Failed (FlagError (Errorf "bad flag syntax: %s" [s]))
      | FlagArg name val =>
          match vs !! name with
          | None =>
              if String.eqb name "help" || String.eqb name "h" then Failed ErrHelp
              else Failed (FlagError (Errorf "flag provided but not defined: -%s" [name]))
          | Some old =>
              if is_bool_flag old then
                match set_value old (default "true" val) with
                | Some v => Parse (<[name := v]> vs) rest
                | None => Failed (FlagError (Errorf "invalid boolean value %q for -%s" [default "true" val; name]))
                end
              else
                match val, rest with
                | Some s, _ =>
                    match set_value old s with
                    | Some v => Parse (<[name := v]> vs) rest
                    | None => Failed (invalid_value s name)
                    end
                | None, s :: rest =>
                    match set_value old s with
                    | Some v => Parse (<[name := v]> vs) rest
                    | None => Failed (invalid_value s name)
                    end
                | None, [] => Failed (FlagError (Errorf "flag needs an argument: -%s" [name]))
                end
          end
      end
  end.

(** The exit code of a set with [ExitOnError]. *)
Definition exit_code (e : flag_error) : Z := match e with ErrHelp => 0 | FlagError _ => 2 end.

(** ** Lemmas *)

Definition same_type (v w : value) : bool :=
  match v, w with
  | VString _, VString _ | VBool _, VBool _ | VInt _, VInt _ | VDuration _, VDuration _ => true
  | _, _ => false
  end.

Lemma set_value_type old s v : set_value old s = Some v -> same_type old v = true.
Proof.
  destruct old; simpl; [by intros [= <-]| | |].
  - destruct (ParseBool s); [by intros [= <-]|done].
  - destruct (ParseInt0 s); [by intros [= <-]|done].
  - destruct (parse_duration s); [by intros [= <-]|done].
Qed.

(** Parsing keeps the flags and their types. *)
Definition typed_as (vs vs' : values) : Prop :=
  forall name, match vs !! name, vs' !! name with
               | Some v, Some w => same_type v w = true
               | None, None => True
               | _, _ => False
               end.

Lemma same_type_trans u v w : same_type u v = true -> same_type v w = true -> same_type u w = true.
Proof. by destruct u, v, w. Qed.

Lemma typed_insert vs name old v :
  vs !! name = Some old -> same_type old v = true -> typed_as vs (<[name := v]> vs).
Proof.
  intros Hl Ht n. destruct (decide (name = n)) as [<-|Hne].
  - by rewrite Hl, lookup_insert_eq.
  - rewrite lookup_insert_ne by done. destruct (vs !! n) as [w|]; [|done]. by destruct w.
Qed.

Lemma typed_trans vs1 vs2 vs3 : typed_as vs1 vs2 -> typed_as vs2 vs3 -> typed_as vs1 vs3.
Proof.
  intros H1 H2 n. specialize (H1 n). specialize (H2 n).
  destruct (vs1 !! n), (vs2 !! n), (vs3 !! n); try done. by eapply same_type_trans.
Qed.

Lemma Parse_typed n : forall vs args vs' rest,
  (length args <= n)%nat -> Parse vs args = Parsed vs' rest -> typed_as vs vs'.
Proof.
  induction n as [|n IH]; intros vs args vs' rest Hn Hp.
  - destruct args; [|simpl in Hn; lia]. simplify_eq/=. intros m. destruct (vs' !! m) as [w|]; [by destruct w|done].
  - destruct args as [|s args]; [simplify_eq/=; intros m; destruct (vs' !! m) as [w|]; [by destruct w|done]|].
    cbn [Parse] in Hp. destruct (argument_of s) as [keep| |name val];
      [simplify_eq; intros m; destruct (vs' !! m) as [w|]; [by destruct w|done]|done|].
    destruct (vs !! name) as [old|] eqn:Hl; [|by destruct (_ || _)].
    assert (forall s' v l, set_value old s' = Some v -> (length l <= length args)%nat ->
      Parse (<[name := v]> vs) l = Parsed vs' rest -> typed_as vs vs') as Hgo.
    { intros s' v l Hs Hlen Hp'. eapply typed_trans.
      - eapply typed_insert; [done|by eapply set_value_type].
      - eapply IH; [|done]. simpl in Hn. lia. }
    destruct (is_bool_flag old).
    + destruct (set_value old _) eqn:Hs; [|done]. by eapply Hgo.
    + destruct val as [s'|]; [|destruct args as [|s' args]; [done|]].
      * destruct (set_value old s') eqn:Hs; [|done]. by eapply Hgo.
      * destruct (set_value old s') eqn:Hs; [|done]. eapply (Hgo s' _ args); [done|simpl; lia|done].
Qed.

End parse.
