(* ===== verification/ClientConf.v ===== *)
(** * The client's configuration file: cmd/client/defaults.go, main.go

    The file holds defaults, one KEY=VALUE per line; [munnel token] rewrites it
    with a new token. The environment and the file system are arguments;
    [filepath.Join] and [filepath.Dir] are a class. *)
From Stdlib Require Import Ascii.
From S2P Require Import Prelude GoStr GoText Encoding Proto Token Auth.

Class FilePath := { path_join : list string -> string; path_dir : string -> string }.

(** What the process is given: [os.LookupEnv], [os.UserHomeDir], and the files. *)
Record environ := mkEnviron {
  lookup_env : string -> option string;
  home_dir : result string;
  files : file
}.

Definition getenv (v : environ) (name : string) : string := default "" (lookup_env v name).

Section conf.
Context `{UnicodeLower, FilePath}.

(** defaults.go:28 and main.go:403. *)
Definition config_path (v : environ) : result string :=
  let path := getenv v "MUNNEL_CONFIG" in
  if String.eqb path "" then
    match home_dir v with
    | Err e => Err e
    | Ok home => Ok (path_join [home; ".munnel"; "config"])
    end
  else Ok path.

(** ** Reading (defaults.go:27) *)

(** A line's key and value, if it has them. *)
Definition config_entry (text : string) : option (string * string) :=
  let line := TrimSpace text in
  if String.eqb line "" || HasPrefix line "#" then None
  else match cut_byte "=" line with
       | None => None
       | Some (k, v) => Some (TrimSpace (ToLower k), TrimSpace v)
       end.

Definition add_line (m : gmap string string) (text : string) : gmap string string :=
  match config_entry text with Some (k, v) => <[k := v]> m | None => m end.

(** The file's content, and the error that ends reading it; what the scanner
    reports is not looked at. *)
Definition parse_config (content : string) (readErr : option error) : gmap string string :=
  foldl add_line ∅ (fst (Scanner content readErr)).

(** [None] is a nil map. *)
Definition loadConfigFile (v : environ) : option (gmap string string) :=
  match config_path v with
  | Err _ => None
  | Ok path => match files v path with Err _ => None | Ok (content, e) => Some (parse_config content e) end
  end.

(** ** Defaults (defaults.go:60) *)

Record stringFlags := mkStringFlags {
  subdomain : string;
  token : string;
  server : string;
  inspectAddr : string;
  localHost : string;
  tls : string;
  serverCertSHA256 : string
}.

(** The settings [run] collects. *)
Record settings := mkSettings {
  sf : stringFlags;
  inspectSet : bool;
  inspectVal : bool;
  maxBodyMB : Z;
  maxBodySet : bool;
  protect : bool;
  showVersion : bool
}.

Definition with_sf (f : stringFlags -> stringFlags) (s : settings) : settings :=
  mkSettings (f (sf s)) (inspectSet s) (inspectVal s) (maxBodyMB s) (maxBodySet s) (protect s) (showVersion s).
Definition with_inspect (b : bool) (s : settings) : settings :=
  mkSettings (sf s) true b (maxBodyMB s) (maxBodySet s) (protect s) (showVersion s).
Definition with_maxBody (n : Z) (s : settings) : settings :=
  mkSettings (sf s) (inspectSet s) (inspectVal s) n true (protect s) (showVersion s).

Definition set_subdomain x f := mkStringFlags x (token f) (server f) (inspectAddr f) (localHost f) (tls f) (serverCertSHA256 f).
Definition set_token x f := mkStringFlags (subdomain f) x (server f) (inspectAddr f) (localHost f) (tls f) (serverCertSHA256 f).
Definition set_server x f := mkStringFlags (subdomain f) (token f) x (inspectAddr f) (localHost f) (tls f) (serverCertSHA256 f).
Definition set_inspectAddr x f := mkStringFlags (subdomain f) (token f) (server f) x (localHost f) (tls f) (serverCertSHA256 f).
Definition set_localHost x f := mkStringFlags (subdomain f) (token f) (server f) (inspectAddr f) x (tls f) (serverCertSHA256 f).
Definition set_tls x f := mkStringFlags (subdomain f) (token f) (server f) (inspectAddr f) (localHost f) x (serverCertSHA256 f).
Definition set_serverCert x f := mkStringFlags (subdomain f) (token f) (server f) (inspectAddr f) (localHost f) (tls f) x.

(** [m["key"]], where a missing key gives the empty string. *)
Definition entry (m : gmap string string) (k : string) : string := default "" (m !! k).

Definition overlay_string (m : gmap string string) (k : string) (set : string -> stringFlags -> stringFlags)
    (s : settings) : settings :=
  if String.eqb (entry m k) "" then s else with_sf (set (entry m k)) s.

(** defaults.go:61. *)
Definition apply (m : gmap string string) (s : settings) : settings :=
  let s := overlay_string m "server" set_server s in
  let s := overlay_string m "token" set_token s in
  let s := overlay_string m "subdomain" set_subdomain s in
  let s := overlay_string m "inspect-addr" set_inspectAddr s in
  let s := overlay_string m "local-host" set_localHost s in
  let s := if String.eqb (entry m "max-body-mb") "" then s
           else match Atoi (entry m "max-body-mb") with NumOk n => with_maxBody n s | _ => s end in
  let s := if String.eqb (entry m "inspect") "" then s
           else with_inspect (EqualFold (entry m "inspect") "true") s in
  let s := overlay_string m "tls" set_tls s in
  overlay_string m "server-cert-sha256" set_serverCert s.

(** defaults.go:12. *)
Definition envKeys : list (string * string) :=
  [("MUNNEL_SERVER", "server"); ("MUNNEL_TOKEN", "token"); ("MUNNEL_SUBDOMAIN", "subdomain");
   ("MUNNEL_INSPECT_ADDR", "inspect-addr"); ("MUNNEL_LOCAL_HOST", "local-host");
   ("MUNNEL_MAX_BODY_MB", "max-body-mb"); ("MUNNEL_INSPECT", "inspect"); ("MUNNEL_TLS", "tls");
   ("MUNNEL_SERVER_CERT_SHA256", "server-cert-sha256")].

(** defaults.go:99. *)
Definition env_map (v : environ) : gmap string string :=
  foldl (fun m '(e, k) => match lookup_env v e with
                          | Some x => if String.eqb x "" then m else <[k := x]> m
                          | None => m
                          end) ∅ envKeys.

Definition applyDefaults (v : environ) (s : settings) : settings :=
  apply (env_map v) (match loadConfigFile v with Some m => apply m s | None => s end).

(** ** Rewriting the file (main.go:402) *)

(** The line sets the token. *)
Definition is_token_line (line : string) : bool :=
  let trimmed := TrimSpace line in
  negb (String.eqb trimmed "") && negb (HasPrefix trimmed "#") &&
  match cut_byte "=" trimmed with Some (k, _) => EqualFold (TrimSpace k) "token" | None => false end.

(** The loop over the lines: the first token line is replaced, others dropped. *)
Fixpoint update_lines (tok : string) (replaced : bool) (lines : list string) : list string * bool :=
  match lines with
  | [] => ([], replaced)
  | line :: lines =>
      if is_token_line line then
        let '(out, r) := update_lines tok true lines in
        (if replaced then out else ("token=" +:+ tok) :: out, r)
      else let '(out, r) := update_lines tok replaced lines in (line :: out, r)
  end.

Definition nl : string := String newline "".

(** The file's new content. *)
Definition updated (tok existing : string) : string :=
  let '(lines, replaced) := update_lines tok false (split_byte newline existing) in
  let lines := if replaced then lines else lines ++ ["token=" +:+ tok] in
  TrimRight_byte newline (sjoin nl lines) +:+ nl.

(** What becomes of the file: the path and the content that were written, or the
    error. [mkdir] and [write] are the outcomes of [os.MkdirAll] and
    [os.WriteFile] on a path; an error of reading the old content is ignored. *)
Definition updateConfigToken (v : environ) (mkdir write : string -> option error) (tok : string) : result (string * string) :=
  match config_path v with
  | Err e => Err e
  | Ok path =>
      match mkdir (path_dir path) with
      | Some e => Err e
      | None =>
          let existing := match files v path with Ok (content, _) => content | Err _ => "" end in
          match write path with
          | Some e => Err e
          | None => Ok (path, updated tok existing)
          end
      end
  end.

End conf.

Example updated_sample :
  updated "T2" ("server=a" +:+ nl +:+ "# c" +:+ nl +:+ " Token = T1" +:+ nl +:+ "token=T0" +:+ nl +:+ nl) =
  "server=a" +:+ nl +:+ "# c" +:+ nl +:+ "token=T2" +:+ nl.
Proof. reflexivity. Qed.

(** ** Lemmas *)

Section facts.
Context `{UnicodeLower}.

Definition ascii_text (s : string) : Prop := sall is_ascii s = true.

(** The lines of a text, as the file is read. *)
Definition parse_lines (m : gmap string string) (lines : list string) : gmap string string := foldl add_line m lines.

Lemma parse_lines_app m l1 l2 : parse_lines m (l1 ++ l2) = parse_lines (parse_lines m l1) l2.
Proof. apply foldl_app. Qed.

Lemma add_line_empty m : add_line m "" = m.
Proof. reflexivity. Qed.

Lemma parse_lines_empties m n : parse_lines m (replicate n "") = m.
Proof. by induction n as [|n IH]. Qed.

Lemma add_line_dropCR m l : ascii_text l -> add_line m (dropCR l) = add_line m l.
Proof. intros Hl. unfold add_line, config_entry. by rewrite TrimSpace_dropCR. Qed.

Lemma parse_lines_dropCR m ls : Forall ascii_text ls -> parse_lines m (dropCR <$> ls) = parse_lines m ls.
Proof.
  intros Hl. revert m. induction Hl as [|l ls Hl _ IH]; intros m; [done|].
  unfold parse_lines in *. cbn [fmap list_fmap foldl]. rewrite add_line_dropCR by done. apply IH.
Qed.

(** A text whose lines are ASCII and short is read line by line. *)
Lemma parse_config_lines content :
  Forall ascii_text (split_byte newline content) -> Forall short (split_byte newline content) ->
  parse_config content None = parse_lines ∅ (split_byte newline content).
Proof.
  intros Hl Hs. unfold parse_config, Scanner.
  destruct (drop_last_empty_cases (split_byte newline content)) as [Heq|Heq].
  - rewrite Heq, scan_tokens_short by done. by apply parse_lines_dropCR.
  - rewrite Heq in Hl, Hs. apply Forall_app in Hl as [Hl _]. apply Forall_app in Hs as [Hs _].
    rewrite scan_tokens_short by done. rewrite Heq at 2. rewrite parse_lines_app. cbn [fst].
    by rewrite <-(parse_lines_dropCR ∅ _ Hl).
Qed.

(** *** Token lines *)

Lemma cut_byte_ascii c s a b : ascii_text s -> cut_byte c s = Some (a, b) -> ascii_text a /\ ascii_text b.
Proof.
  unfold ascii_text. intros Hs [-> _]%cut_byte_spec. rewrite sall_app in Hs. cbn [sall] in Hs.
  by apply andb_true_iff in Hs as [? [_ ?]%andb_true_iff].
Qed.

(** Rewriting and reading agree on which lines set the token. *)
Lemma is_token_line_spec line :
  ascii_text line -> is_token_line line = true <-> exists v, config_entry line = Some ("token", v).
Proof.
  intros Hl. unfold is_token_line, config_entry. pose proof (TrimSpace_all line Hl) as Ht.
  destruct (String.eqb (TrimSpace line) ""); [naive_solver|]. destruct (HasPrefix (TrimSpace line) "#"); [naive_solver|].
  cbn [negb andb orb]. destruct (cut_byte "=" (TrimSpace line)) as [[k v]|] eqn:Hc; [|naive_solver].
  apply cut_byte_ascii in Hc as [Hk _]; [|done]. rewrite ToLower_ascii, TrimSpace_lower by done.
  unfold EqualFold. rewrite fold_ascii_ascii by (by apply TrimSpace_all). rewrite String.eqb_eq.
  change (smap lower_char "token") with "token". split; [intros ->; by eexists|]. by intros (v' & [= -> _]).
Qed.

Lemma token_line_entry tok : sall visible tok = true -> config_entry ("token=" +:+ tok) = Some ("token", tok).
Proof.
  intros Ht. unfold config_entry. rewrite TrimSpace_visible by (cbn [String.append sall]; by rewrite Ht).
  cbn [String.append]. cbn [cut_byte]. simpl. by rewrite (TrimSpace_visible tok Ht).
Qed.

Definition agree (m m' : gmap string string) : Prop := forall k, k <> "token" -> m !! k = m' !! k.

Lemma add_line_agree m m' l : agree m m' -> agree (add_line m l) (add_line m' l).
Proof.
  intros Ha k Hk. unfold add_line. destruct (config_entry l) as [[k' v]|]; [|by apply Ha].
  destruct (decide (k' = k)) as [->|]; [by rewrite !lookup_insert_eq|]. rewrite !lookup_insert_ne by done. by apply Ha.
Qed.

Lemma token_line_agree m m' l v : config_entry l = Some ("token", v) -> agree m m' -> agree m (add_line m' l).
Proof. intros He Ha k Hk. unfold add_line. rewrite He, lookup_insert_ne by done. by apply Ha. Qed.

Lemma other_line_token m l : (forall v, config_entry l <> Some ("token", v)) -> add_line m l !! "token" = m !! "token".
Proof.
  intros Hno. unfold add_line. destruct (config_entry l) as [[k v]|]; [|done].
  rewrite lookup_insert_ne; [done|]. intros ->. by apply (Hno v).
Qed.

(** What rewriting the lines does to what they say. *)
Lemma update_lines_spec tok ls :
  sall visible tok = true -> Forall ascii_text ls ->
  forall replaced m m', agree m m' ->
  let '(out, r) := update_lines tok replaced ls in
  agree (parse_lines m out) (parse_lines m' ls) /\
  parse_lines m out !! "token" = (if negb replaced && r then Some tok else m !! "token") /\
  (replaced = true -> r = true) /\
  forall P : string -> Prop, Forall P ls -> P ("token=" +:+ tok) -> Forall P out.
Proof.
  intros Ht Hl. induction Hl as [|l ls Hl _ IH]; intros replaced m m' Ha.
  - cbn [update_lines]. split; [done|]. split; [by destruct replaced|]. by split.
  - cbn [update_lines]. destruct (is_token_line l) eqn:Hline.
    + apply is_token_line_spec in Hline as [v Hv]; [|done].
      pose proof (IH true (if replaced then m else add_line m ("token=" +:+ tok)) (add_line m' l)) as IHt.
      destruct (update_lines tok true ls) as [out r]. destruct IHt as (Hag & Htok & Hr & HP).
      { eapply token_line_agree; [done|]. destruct replaced; [done|]. intros k Hk. symmetry.
        apply (token_line_agree m' m ("token=" +:+ tok) tok); [by apply token_line_entry| |done].
        intros k' Hk'. symmetry. by apply Ha. }
      specialize (Hr eq_refl) as ->. destruct replaced.
      * split; [done|]. split; [done|]. split; [done|]. intros P [_ HPl]%Forall_cons Htl. by apply HP.
      * cbn [parse_lines foldl]. split; [done|]. split.
        { unfold parse_lines in Htok. rewrite Htok. unfold add_line. rewrite token_line_entry by done.
          by rewrite lookup_insert_eq. }
        split; [done|]. intros P [_ HPl]%Forall_cons Htl. constructor; [done|]. by apply HP.
    + pose proof (IH replaced (add_line m l) (add_line m' l) (add_line_agree _ _ _ Ha)) as IHl.
      destruct (update_lines tok replaced ls) as [out r]. destruct IHl as (Hag & Htok & Hr & HP).
      cbn [parse_lines foldl]. split; [done|]. split.
      * unfold parse_lines in Htok. rewrite Htok. destruct (negb replaced && r); [done|].
        apply other_line_token. intros v Hv. rewrite (proj2 (is_token_line_spec l Hl)) in Hline; [done|by exists v].
      * split; [done|]. intros P [HPl0 HPl]%Forall_cons Htl. constructor; [done|]. by apply HP.
Qed.

(** The lines of the new content, up to empty ones at the end. *)
Lemma updated_lines ls :
  ls <> [] -> Forall (fun l => selem newline l = false) ls ->
  exists n, split_byte newline (TrimRight_byte newline (sjoin nl ls) +:+ nl) ++ replicate n "" = ls ++ [""].
Proof.
  intros Hne Hl. destruct (TrimRight_byte_spec newline (sjoin nl ls)) as [n Hn]. exists n.
  unfold nl at 2. rewrite split_byte_app. cbn [split_byte]. rewrite <-app_assoc.
  change ([""] ++ replicate n "") with (replicate (S n) ""). rewrite replicate_S_end, app_assoc.
  rewrite <-split_srepeat, <-Hn. unfold nl. by rewrite split_join.
Qed.

Lemma update_lines_ne tok ls : ls <> [] -> fst (update_lines tok false ls) <> [].
Proof.
  destruct ls as [|l ls]; [done|]. intros _. cbn [update_lines].
  destruct (is_token_line l); by destruct (update_lines _ _ ls).
Qed.

Lemma visible_line tok : sall visible tok = true -> ascii_text ("token=" +:+ tok) /\ selem newline ("token=" +:+ tok) = false.
Proof.
  intros Ht. assert (sall visible ("token=" +:+ tok) = true) as Hv by (cbn [String.append sall]; by rewrite Ht).
  split; [|by apply (sall_selem visible)]. eapply sall_impl; [|exact Hv]. intros c Hc. unfold visible, in_range, is_ascii in *.
  bool_props. apply Z.ltb_lt. lia.
Qed.

(** The rewritten file, read again. *)
Lemma updated_parse tok existing :
  ascii_text existing -> Forall short (split_byte newline existing) ->
  sall visible tok = true -> short ("token=" +:+ tok) ->
  parse_config (updated tok existing) None !! "token" = Some tok /\
  agree (parse_config (updated tok existing) None) (parse_config existing None).
Proof.
  intros Ha Hs Ht Hst. pose proof (split_byte_all newline is_ascii existing Ha) as Hal.
  destruct (visible_line tok Ht) as [Hta Htn].
  pose proof (update_lines_spec tok (split_byte newline existing) Ht Hal false ∅ ∅ (fun k _ => eq_refl)) as Hu.
  pose proof (update_lines_ne tok _ (split_byte_ne newline existing)) as Hne.
  rewrite (parse_config_lines existing Hal Hs). unfold updated.
  destruct (update_lines tok false (split_byte newline existing)) as [out r]. destruct Hu as (Hag & Htok & _ & HP).
  set (lines := if r then out else out ++ ["token=" +:+ tok]).
  assert (forall P : string -> Prop, Forall P (split_byte newline existing) -> P ("token=" +:+ tok) -> Forall P lines) as HPl.
  { intros P Hl Hp. subst lines. destruct r; [by apply HP|]. apply Forall_app. split; [by apply HP|by constructor]. }
  assert (lines <> []) as Hlne by (subst lines; destruct r; [done|]; by destruct out).
  destruct (updated_lines lines Hlne (HPl _ (split_byte_lines _ _) Htn)) as [n Hn].
  assert (forall P : string -> Prop, Forall P (split_byte newline existing) -> P ("token=" +:+ tok) -> P "" ->
    Forall P (split_byte newline (TrimRight_byte newline (sjoin nl lines) +:+ nl))) as HPs.
  { intros P Hl Hp He. assert (Forall P (lines ++ [""])) as Hall by (apply Forall_app; split; [by apply HPl|by constructor]).
    rewrite <-Hn in Hall. by apply Forall_app in Hall as [? _]. }
  rewrite parse_config_lines by (by apply HPs).
  rewrite <-(parse_lines_empties (parse_lines ∅ _) n), <-parse_lines_app, Hn, parse_lines_app.
  change (parse_lines ?m [""]) with (add_line m ""). rewrite add_line_empty.
  subst lines. destruct r; [done|]. rewrite parse_lines_app. unfold parse_lines at 1 3. cbn [foldl]. split.
  - unfold add_line. rewrite token_line_entry by done. by rewrite lookup_insert_eq.
  - intros k Hk. rewrite <-(Hag k Hk). symmetry.
    by apply (token_line_agree _ _ ("token=" +:+ tok) tok); [apply token_line_entry|intros ? _|].
Qed.

End facts.
