(* ===== verification/ClientCmd.v ===== *)
(** * The client command: cmd/client/main.go

    [run] collects the settings (configuration file, environment, arguments),
    checks them and starts the tunnel of Tunnel.v; [runToken] asks a server for a
    token and saves it. Both end with an exit code or with what they started. *)
From Stdlib Require Import Ascii.
From S2P Require Import Prelude GoStr GoFmt GoText Encoding Http Proto Token Auth Control Session Proxy Inspect Client Tunnel GoFlag ClientConf.

(** ** The arguments (main.go:61) *)

(** A setting given on the command line. *)
Inductive opt :=
| OSubdomain (x : string) | OToken (x : string) | OServer (x : string) | OInspectAddr (x : string)
| OLocalHost (x : string) | OInspect (b : bool) | OMaxBody (n : Z) | OProtect | OTls (x : string)
| OCert (x : string) | OVersion.

Definition set_protect (s : settings) : settings :=
  mkSettings (sf s) (inspectSet s) (inspectVal s) (maxBodyMB s) (maxBodySet s) true (showVersion s).
Definition set_showVersion (s : settings) : settings :=
  mkSettings (sf s) (inspectSet s) (inspectVal s) (maxBodyMB s) (maxBodySet s) (protect s) true.

Definition set_opt (s : settings) (o : opt) : settings :=
  match o with
  | OSubdomain x => with_sf (set_subdomain x) s
  | OToken x => with_sf (set_token x) s
  | OServer x => with_sf (set_server x) s
  | OInspectAddr x => with_sf (set_inspectAddr x) s
  | OLocalHost x => with_sf (set_localHost x) s
  | OInspect b => with_inspect b s
  | OMaxBody n => with_maxBody n s
  | OProtect => set_protect s
  | OTls x => with_sf (set_tls x) s
  | OCert x => with_sf (set_serverCert x) s
  | OVersion => set_showVersion s
  end.

(** [maxBodyMB, _ = strconv.Atoi(x)]. *)
Definition max_body_of (x : string) : opt := OMaxBody (num_value (Atoi x)).

(** What the switch makes of an argument; [TakesNext] are the cases that call
    [next()]. *)
Inductive action :=
| TakesNext (mk : string -> opt)
| Is (o : opt)
| Help
| Unknown
| Positional.

(** The switch of main.go:71, case by case. *)
Definition classify (a : string) : action :=
  let eq := String.eqb a in
  let pre p (mk : string -> opt) k := match CutPrefix a p with Some x => Is (mk x) | None => k end in
  if eq "-s" || eq "--subdomain" then TakesNext OSubdomain else
  pre "--subdomain=" OSubdomain (
  if eq "-t" || eq "--token" then TakesNext OToken else
  pre "--token=" OToken (
  if eq "--server" then TakesNext OServer else
  pre "--server=" OServer (
  if eq "--inspect-addr" then TakesNext OInspectAddr else
  pre "--inspect-addr=" OInspectAddr (
  if eq "--local-host" then TakesNext OLocalHost else
  pre "--local-host=" OLocalHost (
  if eq "--inspect" then Is (OInspect true) else
  if eq "--inspect=false" || eq "--no-inspect" then Is (OInspect false) else
  pre "--inspect=" (fun x => OInspect (String.eqb x "true")) (
  if eq "--max-body-mb" then TakesNext max_body_of else
  pre "--max-body-mb=" max_body_of (
  if eq "--protect" then Is OProtect else
  if eq "--tls" then Is (OTls "true") else
  pre "--tls=" OTls (
  if eq "--server-cert-sha256" then TakesNext OCert else
  pre "--server-cert-sha256=" OCert (
  if eq "--version" || eq "-v" then Is OVersion else
  if eq "-h" || eq "--help" then Help else
  if HasPrefix a "-" then Unknown else Positional))))))))).

(** The loop over [argv] with its index; [next] moves the index if there is a
    next argument. *)
Inductive loop_result :=
| LoopDone (s : settings) (args : list string)
| LoopHelp
| LoopUnknown (a : string)
| LoopFuel.

Fixpoint arg_loop (fuel : nat) (argv : list string) (i : nat) (s : settings) (args : list string) : loop_result :=
  match fuel with
  | O => LoopFuel
  | S fuel =>
      match argv !! i with
      | None => LoopDone s args
      | Some a =>
          match classify a with
          | TakesNext mk =>
              let '(x, i) := match argv !! S i with Some x => (x, S i) | None => ("", i) end in
              arg_loop fuel argv (S i) (set_opt s (mk x)) args
          | Is o => arg_loop fuel argv (S i) (set_opt s o) args
          | Help => LoopHelp
          | Unknown => LoopUnknown a
          | Positional => arg_loop fuel argv (S i) s (args ++ [a])
          end
      end
  end.

(** As many rounds as there are arguments, and one to notice the end. *)
Definition parse_args (argv : list string) (s : settings) : loop_result := arg_loop (S (length argv)) argv 0 s [].

(** The reference: the options and the other arguments of a command line. *)
Inductive command_line :=
| Line (opts : list opt) (args : list string)
| LineHelp
| LineUnknown (a : string).

Definition cons_opt (o : opt) (l : command_line) : command_line :=
  match l with Line os ps => Line (o :: os) ps | l => l end.
Definition cons_arg (a : string) (l : command_line) : command_line :=
  match l with Line os ps => Line os (a :: ps) | l => l end.

Fixpoint read_args (l : list string) : command_line :=
  match l with
  | [] => Line [] []
  | a :: l =>
      match classify a, l with
      | TakesNext mk, x :: l => cons_opt (mk x) (read_args l)
      | TakesNext mk, [] => Line [mk ""] []
      | Is o, _ => cons_opt o (read_args l)
      | Help, _ => LineHelp
      | Unknown, _ => LineUnknown a
      | Positional, _ => cons_arg a (read_args l)
      end
  end.

Example read_args_sample :
  read_args ["3000"; "-s"; "a"; "--tls"; "--server=h:1"; "--max-body-mb"] =
    Line [OSubdomain "a"; OTls "true"; OServer "h:1"; OMaxBody 0] ["3000"] /\
  read_args ["--token"; "--tls"; "x"] = Line [OToken "--tls"] ["x"] /\
  read_args ["-x"; "-h"] = LineUnknown "-x" /\ read_args ["-h"; "-x"] = LineHelp.
Proof. by split_and!. Qed.

(** ** [run] *)

(** A shift of a signed 64-bit integer. *)
Definition int64 (z : Z) : Z := (z + 2 ^ 63) mod 2 ^ 64 - 2 ^ 63.
Definition shl20 (z : Z) : Z := int64 (Z.shiftl z 20).

Definition builtin : settings :=
  mkSettings (mkStringFlags "" "" "localhost:7001" DefaultInspectAddr "127.0.0.1" "" "") false false 0 false false false.

(** main.go:270: [None] is an error. *)
Definition parseBool (x : string) : option bool := if String.eqb x "" then Some false else ParseBool x.

(** main.go:159-177. *)
Definition config_of (s : settings) (port : Z) (tlsOn : bool) : Client.Config :=
  Client.mkConfig port (localHost (sf s)) (server (sf s)) (subdomain (sf s)) (token (sf s)) (protect s)
    (if inspectSet s then inspectVal s else true)
    (if String.eqb (inspectAddr (sf s)) "" then DefaultInspectAddr else inspectAddr (sf s))
    (if maxBodySet s && (0 <? maxBodyMB s) then shl20 (maxBodyMB s) else Z.shiftl 32 20)
    tlsOn (serverCertSHA256 (sf s)) 0 0 [].

Section run.
Context `{UnicodeLower, FilePath}.

(** What [run] comes to: an exit code, or the tunnel it runs (and the inspector,
    if the configuration has one). *)
Inductive outcome :=
| Exit (code : Z)
| Started (cfg : Client.Config) (t : tunnel).

(** main.go:44, after the token subcommand. *)
Definition run_tunnel (v : environ) (argv : list string) : outcome :=
  match parse_args argv (applyDefaults v builtin) with
  | LoopHelp => Exit 0
  | LoopUnknown _ => Exit 2
  | LoopFuel => Exit (-1)
  | LoopDone s args =>
      if showVersion s then Exit 0
      else match args with
           | [arg] =>
               match Atoi arg with
               | NumOk port =>
                   match parseBool (tls (sf s)) with
                   | None => Exit 2
                   | Some tlsOn =>
                       match Validate (config_of s port tlsOn) with
                       | Err _ => Exit 2
                       | Ok cfg => match Tunnel.New cfg with
                                   | Err _ => Exit 2
                                   | Ok (_, t) => Started cfg t
                                   end
                       end
                   end
               | _ => Exit 2
               end
           | _ => Exit 2
           end
  end.

(** ** The log without a terminal (main.go:230-256) *)

(** main.go:262. *)
Definition logPath (p : string) : string := match cut_byte "?" p with Some (a, _) => a | None => p end.

(** What an event prints, and whether the loop ends. *)
Definition log_event (e : Event) : string * bool :=
  match e_Kind e with
  | Connected_ => (nl +:+ "✓ tunnel live  " +:+ e_PublicURL e +:+ nl +:+ nl, false)
  | Disconnected => ("✗ disconnected: " +:+ e_Message e +:+ nl, false)
  | Reconnecting => ("… " +:+ e_Message e +:+ nl, false)
  | Request_ =>
      match e_Record e with
      | Some r =>
          let status := if Errored r then "ERR" else pretty (Inspect.Status r) in
          (pad_right 7 (Method r) +:+ " " +:+ pad_right 40 (logPath (Inspect.Path r)) +:+ " " +:+ status +:+ " " +:+
           pad_left 4 (pretty (Duration r)) +:+ "ms" +:+ nl, false)
      | None => ("", false)
      end
  | ShuttingDown => ("shutdown" +:+ nl, true)
  | Connecting => ("", false)
  end.

(** The loop over the events; when the channel ends without the last event it
    waits for the context, which is over by then. *)
Fixpoint log_events (es : list Event) : string :=
  match es with
  | [] => ""
  | e :: es => let '(out, stop) := log_event e in if stop then out else out +:+ log_events es
  end.

(** ** [munnel token] (main.go:282) *)

(** main.go:387. *)
Definition deriveProxyURL (serverAddr : string) : string :=
  let host := match SplitHostPort serverAddr with Some (h, _) => h | None => serverAddr end in
  if existsb (String.eqb host) ["localhost"; "127.0.0.1"; "::1"] then "http://localhost:8080" else "https://" +:+ host.

(** The decoded reply. *)
Record reply := mkReply { r_Token : string; r_ID : string; r_Sub : string; r_Expires : string; r_Error : string }.

Definition token_flags : gmap string value :=
  <["sub" := VString ""]> (<["ttl" := VString "168h"]> (<["password" := VString ""]> (<["server" := VString ""]>
  (<["server-url" := VString ""]> {["help" := VBool false]})))).

(** What the subcommand meets: the prompt, the server (the status and the decoded
    reply, [None] if it is not JSON), and writing the file. *)
Record token_env := mkTokenEnv {
  te_env : environ;
  te_prompt : result string;
  te_post : string -> gmap string string -> result (Z * option reply);
  te_mkdir : string -> option error;
  te_write : string -> option error
}.

(** What it did: the exit code, the request, and the file it wrote. *)
Record token_run := mkTokenRun {
  tr_code : Z;
  tr_posted : option (string * gmap string string);
  tr_written : option (string * string)
}.

Definition quit_with (code : Z) : token_run := mkTokenRun code None None.

Context `{ParseDuration}.

(** main.go:299-306. *)
Definition token_server (v : environ) (flag : string) : string :=
  let s := if String.eqb flag "" then match loadConfigFile v with Some m => entry m "server" | None => "" end else flag in
  if String.eqb s "" then "localhost:7001" else s.

(** main.go:308-321. *)
Definition token_password (e : token_env) (flag : string) : result string :=
  if String.eqb flag "" then
    if String.eqb (getenv (te_env e) "MUNNEL_ENROLL_PASSWORD") "" then te_prompt e
    else Ok (getenv (te_env e) "MUNNEL_ENROLL_PASSWORD")
  else Ok flag.

Definition token_request (vs : gmap string value) (pw : string) : gmap string string :=
  <["sub" := get_string vs "sub"]> (<["password" := pw]> {["ttl" := get_string vs "ttl"]}).

Definition token_url (v : environ) (vs : gmap string value) : string :=
  let given := get_string vs "server-url" in
  let base := if String.eqb given "" then deriveProxyURL (token_server v (get_string vs "server")) else given in
  TrimSuffix base "/" +:+ "/__munnel/token".

Definition runToken (e : token_env) (args : list string) : token_run :=
  match Parse token_flags args with
  | GoFlag.Failed _ => quit_with 2
  | Parsed vs _ =>
      if get_bool vs "help" then quit_with 0
      else match token_password e (get_string vs "password") with
           | Err _ => quit_with 2
           | Ok pw =>
               if String.eqb pw "" then quit_with 2
               else
                 let posted := Some (token_url (te_env e) vs, token_request vs pw) in
                 match te_post e (token_url (te_env e) vs) (token_request vs pw) with
                 | Err _ => mkTokenRun 1 posted None
                 | Ok (_, None) => mkTokenRun 1 posted None
                 | Ok (_, Some out) =>
                     if negb (String.eqb (r_Error out) "") then mkTokenRun 1 posted None
                     else if String.eqb (r_Token out) "" then mkTokenRun 1 posted None
                     else match updateConfigToken (te_env e) (te_mkdir e) (te_write e) (r_Token out) with
                          | Err _ => mkTokenRun 1 posted None
                          | Ok written => mkTokenRun 0 posted (Some written)
                          end
                 end
           end
  end.

(** main.go:44. *)
Definition run (e : token_env) (argv : list string) : outcome + token_run :=
  match argv with
  | a :: rest => if String.eqb a "token" then inr (runToken e rest) else inl (run_tunnel (te_env e) argv)
  | [] => inl (run_tunnel (te_env e) [])
  end.

(** [munnel token -h] is a usage error of the flag package, not the help its own
    usage text announces. *)
Example token_h_exits_2 e : tr_code (runToken e ["-h"]) = 2 /\ tr_code (runToken e ["--help"]) = 0.
Proof. by split. Qed.

End run.

(** A size that does not fit: 2^44 + 1 megabytes are one. *)
Example max_body_overflows :
  MaxBody (config_of (set_opt builtin (max_body_of "17592186044417")) 3000 false) = 2 ^ 20.
Proof. reflexivity. Qed.

(** ** Lemmas *)

(** What a command line makes of the settings. *)
Definition settle (s : settings) (args : list string) (l : command_line) : loop_result :=
  match l with
  | Line os ps => LoopDone (foldl set_opt s os) (args ++ ps)
  | LineHelp => LoopHelp
  | LineUnknown a => LoopUnknown a
  end.

Lemma settle_opt s args o l : settle s args (cons_opt o l) = settle (set_opt s o) args l.
Proof. by destruct l. Qed.

Lemma settle_arg s args a l : settle s args (cons_arg a l) = settle s (args ++ [a]) l.
Proof. destruct l; simpl; [by rewrite <-app_assoc|done|done]. Qed.

Lemma arg_loop_spec fuel argv i s args :
  (length argv - i < fuel)%nat -> arg_loop fuel argv i s args = settle s args (read_args (drop i argv)).
Proof.
  revert i s args. induction fuel as [|fuel IH]; intros i s args Hf; [lia|]. cbn [arg_loop].
  destruct (argv !! i) as [a|] eqn:Ha.
  - rewrite (drop_S _ _ _ Ha). cbn [read_args]. pose proof (lookup_lt_Some _ _ _ Ha).
    destruct (classify a) as [mk|o| | |].
    + destruct (argv !! S i) as [x|] eqn:Hx.
      * rewrite (drop_S _ _ _ Hx), IH by lia. by rewrite settle_opt.
      * apply lookup_ge_None in Hx. rewrite (drop_ge argv (S i)) by done. rewrite IH by lia. by rewrite drop_ge.
    + rewrite IH by lia. by rewrite settle_opt.
    + done.
    + done.
    + rewrite IH by lia. by rewrite settle_arg.
  - apply lookup_ge_None in Ha. rewrite drop_ge by done. simpl. by rewrite app_nil_r.
Qed.

Lemma parse_args_spec argv s : parse_args argv s = settle s [] (read_args argv).
Proof. unfold parse_args. rewrite arg_loop_spec by lia. by rewrite drop_0. Qed.

(** *** Precedence *)

(** The first that is not empty. *)
Definition pick (x y : string) : string := if String.eqb x "" then y else x.

(** What a map of defaults makes of each setting. *)
Lemma apply_spec m s :
  sf (apply m s) =
    mkStringFlags (pick (entry m "subdomain") (subdomain (sf s))) (pick (entry m "token") (token (sf s)))
      (pick (entry m "server") (server (sf s))) (pick (entry m "inspect-addr") (inspectAddr (sf s)))
      (pick (entry m "local-host") (localHost (sf s))) (pick (entry m "tls") (tls (sf s)))
      (pick (entry m "server-cert-sha256") (serverCertSHA256 (sf s))) /\
  (protect (apply m s) = protect s /\ showVersion (apply m s) = showVersion s) /\
  inspectSet (apply m s) = (if String.eqb (entry m "inspect") "" then inspectSet s else true) /\
  inspectVal (apply m s) = (if String.eqb (entry m "inspect") "" then inspectVal s else EqualFold (entry m "inspect") "true").
Proof.
  destruct s as [[] ? ? ? ? ? ?]. unfold apply, overlay_string, pick.
  generalize (entry m "subdomain"), (entry m "token"), (entry m "server"), (entry m "inspect-addr"),
    (entry m "local-host"), (entry m "tls"), (entry m "server-cert-sha256"), (entry m "inspect"), (entry m "max-body-mb").
  intros. repeat (match goal with |- context [String.eqb ?x ""] => destruct (String.eqb x "") end; cbn).
  all: try (destruct (Atoi _)); by split_and!.
Qed.

(** The string settings, with their flag, variable, key and built-in value. *)
Inductive field := FSubdomain | FToken | FServer | FInspectAddr | FLocalHost | FTls | FCert.

Definition get_field (f : field) (x : stringFlags) : string :=
  match f with
  | FSubdomain => subdomain x | FToken => token x | FServer => server x | FInspectAddr => inspectAddr x
  | FLocalHost => localHost x | FTls => tls x | FCert => serverCertSHA256 x
  end.
Definition given (f : field) (o : opt) : option string :=
  match f, o with
  | FSubdomain, OSubdomain x | FToken, OToken x | FServer, OServer x | FInspectAddr, OInspectAddr x
  | FLocalHost, OLocalHost x | FTls, OTls x | FCert, OCert x => Some x
  | _, _ => None
  end.
Definition variable (f : field) : string :=
  match f with
  | FSubdomain => "MUNNEL_SUBDOMAIN" | FToken => "MUNNEL_TOKEN" | FServer => "MUNNEL_SERVER"
  | FInspectAddr => "MUNNEL_INSPECT_ADDR" | FLocalHost => "MUNNEL_LOCAL_HOST" | FTls => "MUNNEL_TLS"
  | FCert => "MUNNEL_SERVER_CERT_SHA256"
  end.
Definition key (f : field) : string :=
  match f with
  | FSubdomain => "subdomain" | FToken => "token" | FServer => "server" | FInspectAddr => "inspect-addr"
  | FLocalHost => "local-host" | FTls => "tls" | FCert => "server-cert-sha256"
  end.

Lemma foldl_field f s os :
  get_field f (sf (foldl set_opt s os)) = default (get_field f (sf s)) (last (omap (given f) os)).
Proof.
  induction os as [|o os IH] using rev_ind; [done|]. rewrite foldl_app, omap_app. cbn [foldl].
  destruct (given f o) as [x|] eqn:Hg.
  - assert (omap (given f) [o] = [x]) as -> by (simpl; by rewrite Hg). rewrite last_snoc. by destruct f, o; simplify_eq/=.
  - assert (omap (given f) [o] = []) as -> by (simpl; by rewrite Hg). rewrite app_nil_r, <-IH. by destruct f, o; simplify_eq/=.
Qed.

(** The environment as a map of defaults: an empty variable is as an unset one. *)
Lemma env_entries v l m k :
  NoDup (snd <$> l) ->
  entry (foldl (fun m '(e, k) => match lookup_env v e with
                          | Some x => if String.eqb x "" then m else <[k := x]> m
                          | None => m
                          end) m l) k =
  match find (fun p => String.eqb (snd p) k) l with
  | Some (e, _) => if String.eqb (getenv v e) "" then entry m k else getenv v e
  | None => entry m k
  end.
Proof.
  revert m. induction l as [|[e k'] l IH]; intros m Hnd; [done|]. cbn [fmap list_fmap snd] in Hnd.
  apply NoDup_cons in Hnd as [Hnin Hnd]. cbn [foldl find snd]. rewrite IH by done. unfold getenv.
  destruct (String.eqb_spec k' k) as [->|Hne].
  - assert (find (fun p => String.eqb (snd p) k) l = None) as ->.
    { destruct (find _ l) as [[e' k']|] eqn:Hf; [|done]. apply find_some in Hf as [Hin Hk].
      apply String.eqb_eq in Hk. simpl in Hk. subst k'. destruct Hnin. apply list_elem_of_fmap. exists (e', k).
      split; [done|]. by apply list_elem_of_In. }
    destruct (lookup_env v e) as [x|]; [|done]. simpl. destruct (String.eqb x ""); [done|].
    unfold entry. by rewrite lookup_insert_eq.
  - assert (entry (match lookup_env v e with
             | Some x => if String.eqb x "" then m else <[k' := x]> m
             | None => m end) k = entry m k) as ->.
    { destruct (lookup_env v e) as [x|]; [|done]. destruct (String.eqb x ""); [done|].
      unfold entry. by rewrite lookup_insert_ne. }
    done.
Qed.

Lemma entry_env v f : entry (env_map v) (key f) = getenv v (variable f).
Proof.
  unfold env_map. rewrite env_entries by (apply (bool_decide_unpack _); vm_compute; done).
  destruct f; cbn [key variable]; cbn [find envKeys snd String.eqb Ascii.eqb Bool.eqb];
    match goal with |- context [String.eqb ?x ""] => by destruct (String.eqb_spec x "") as [->|] end.
Qed.

Section facts.
Context `{UnicodeLower, FilePath}.

Definition file_defaults (v : environ) : gmap string string := default ∅ (loadConfigFile v).

Lemma apply_field m s f : get_field f (sf (apply m s)) = pick (entry m (key f)) (get_field f (sf s)).
Proof. destruct (apply_spec m s) as [-> _]. by destruct f. Qed.

Lemma defaults_field v s f :
  get_field f (sf (applyDefaults v s)) =
  pick (getenv v (variable f)) (pick (entry (file_defaults v) (key f)) (get_field f (sf s))).
Proof.
  unfold applyDefaults. rewrite apply_field, entry_env. f_equal. unfold file_defaults.
  destruct (loadConfigFile v) as [m|]; simpl; [apply apply_field|].
  unfold pick, entry. rewrite lookup_empty. done.
Qed.

(** *** What [run] starts *)

Lemma Validate_again c c' : Validate c = Ok c' -> Validate c' = Ok c'.
Proof.
  intros Hv. destruct (Validate_ok c c' Hv) as (Hport & Hp & Hh & Ha & Hi & Hb & Ht & Hpin).
  assert (ServerCertSHA256 c' = ServerCertSHA256 c) as Hcert.
  { revert Hv. unfold Validate. repeat case_match; intros; simplify_eq/=; done. }
  unfold Validate. rewrite Hp.
  assert ((LocalPort c <=? 0) || (65535 <? LocalPort c) = false) as -> by (apply orb_false_iff; lia).
  destruct (String.eqb_spec (ServerAddr c') "") as [He|_]; [by rewrite He in Ha|]. rewrite Ha, Hcert, Ht.
  rewrite (proj2 (String.eqb_neq (LocalHost c') "") Hh), (proj2 (String.eqb_neq (InspectAddr c') "") Hi).
  rewrite (proj2 (Z.leb_gt _ _) Hb).
  destruct Hpin as [[Hc Hpin]|(Hc & Htls & Hd)].
  - rewrite Hc. cbn [String.eqb]. rewrite <-Hp, <-Ht, <-Hc, <-Hcert. by destruct c'.
  - rewrite (proj2 (String.eqb_neq _ _) Hc), Htls, Hd. cbn [negb]. rewrite <-Hp, <-Htls, <-Ht, <-Hcert. by destruct c'.
Qed.

Lemma defaults_version v s : showVersion (applyDefaults v s) = showVersion s.
Proof.
  unfold applyDefaults. rewrite (proj2 (proj1 (proj2 (apply_spec _ _)))). destruct (loadConfigFile v); [|done].
  by apply apply_spec.
Qed.

Lemma foldl_version os s : showVersion (foldl set_opt s os) = true -> showVersion s = true \/ OVersion ∈ os.
Proof.
  revert s. induction os as [|o os IH]; intros s; [by left|]. cbn [foldl]. intros [Hs|Hin]%IH; [|right; by right].
  destruct o; try (by left). right. by left.
Qed.

(** A tunnel that [run] starts. *)
Lemma run_tunnel_started v argv cfg t :
  run_tunnel v argv = Started cfg t ->
  Validate cfg = Ok cfg /\ Tunnel.New cfg = Ok (cfg, t) /\
  exists os arg tlsOn, read_args argv = Line os [arg] /\ Atoi arg = NumOk (LocalPort cfg) /\ ~ OVersion ∈ os /\
    Validate (config_of (foldl set_opt (applyDefaults v builtin) os) (LocalPort cfg) tlsOn) = Ok cfg.
Proof.
  unfold run_tunnel. rewrite parse_args_spec. destruct (read_args argv) as [os ps| |a] eqn:Hl; cbn [settle]; try done.
  cbn [app]. set (s := foldl set_opt (applyDefaults v builtin) os).
  destruct (showVersion s) eqn:Hver; [done|]. destruct ps as [|arg [|? ?]]; try done.
  destruct (Atoi arg) as [port| |] eqn:Harg; try done. destruct (parseBool _) as [tlsOn|]; [|done].
  destruct (Validate (config_of s port tlsOn)) as [c|] eqn:Hv; [|done].
  destruct (Tunnel.New c) as [[c' t']|] eqn:Hn; [|done]. intros [= <- <-].
  pose proof (Validate_again _ _ Hv) as Hagain. split; [done|].
  assert (c' = c) as -> by (unfold Tunnel.New in Hn; rewrite Hagain in Hn; by simplify_eq). split; [done|].
  assert (LocalPort c = port) as <- by (by destruct (Validate_ok _ _ Hv) as (_ & -> & _)).
  exists os, arg, tlsOn. split_and!; try done. intros Hin.
  assert (forall os s, OVersion ∈ os -> showVersion (foldl set_opt s os) = true) as Hset.
  { clear. intros os. induction os as [|o os IH]; intros s Hin; [by apply not_elem_of_nil in Hin|].
    cbn [foldl]. apply elem_of_cons in Hin as [<-|Hin]; [|by apply IH].
    assert (forall os s, showVersion s = true -> showVersion (foldl set_opt s os) = true) as Hkeep
      by (clear; intros os; induction os as [|o os IH]; intros s Hs; [done|]; cbn [foldl]; apply IH; by destruct o).
    by apply Hkeep. }
  unfold s in Hver. by rewrite Hset in Hver.
Qed.

Lemma config_token s port tlsOn cfg : Validate (config_of s port tlsOn) = Ok cfg -> Client.Token cfg = token (sf s).
Proof. unfold Validate. repeat case_match; intros; simplify_eq/=; done. Qed.

(** *** A token that was saved *)

(** The same process environment, with a file rewritten. *)
Definition rewritten (v : environ) (path content : string) : environ :=
  mkEnviron (lookup_env v) (home_dir v) (fun p => if String.eqb p path then Ok (content, None) else files v p).

Definition old_content (v : environ) (path : string) : string :=
  match files v path with Ok (content, _) => content | Err _ => "" end.

Lemma rewritten_defaults v path content :
  config_path v = Ok path -> file_defaults (rewritten v path content) = parse_config content None.
Proof.
  intros Hp. unfold file_defaults, loadConfigFile.
  assert (config_path (rewritten v path content) = Ok path) as -> by done. simpl. by rewrite String.eqb_refl.
Qed.

Lemma updateConfigToken_ok v mkdir write tok path content :
  updateConfigToken v mkdir write tok = Ok (path, content) ->
  config_path v = Ok path /\ content = updated tok (old_content v path).
Proof.
  unfold updateConfigToken, old_content. destruct (config_path v) as [p|]; [|done].
  destruct (mkdir _); [done|]. destruct (write p); [done|]. by intros [= <- <-].
Qed.

Context `{ParseDuration}.

Lemma runToken_written e args path content :
  tr_written (runToken e args) = Some (path, content) ->
  tr_code (runToken e args) = 0 /\
  exists url request status out, tr_posted (runToken e args) = Some (url, request) /\
    te_post e url request = Ok (status, Some out) /\ r_Error out = "" /\ r_Token out <> "" /\
    request !! "password" <> Some "" /\
    updateConfigToken (te_env e) (te_mkdir e) (te_write e) (r_Token out) = Ok (path, content).
Proof.
  unfold runToken. destruct (Parse token_flags args) as [vs rest|]; [|done].
  destruct (get_bool vs "help"); [done|]. destruct (token_password e _) as [pw|]; [|done].
  destruct (String.eqb_spec pw "") as [|Hpw]; [done|].
  destruct (te_post e _ _) as [[status [out|]]|] eqn:Hpost; try done.
  destruct (String.eqb_spec (r_Error out) "") as [He|]; [|done]. cbn [negb].
  destruct (String.eqb_spec (r_Token out) "") as [|Ht]; [done|].
  destruct (updateConfigToken _ _ _ _) as [[p c]|] eqn:Hu; [|done]. simpl. intros [= -> ->]. split; [done|].
  do 4 eexists. split_and!; try done. unfold token_request.
  rewrite lookup_insert_ne by done. rewrite lookup_insert_eq. congruence.
Qed.

(** ** Properties *)

(** C35: The argument loop, which walks an index over the arguments and moves it
    inside its cases, always ends, and does what reading the list of arguments
    from left to right does: the options in order, each with the value behind it,
    the first help or unknown flag ending it. *)
Theorem args_equivalence argv s :
  parse_args argv s = match read_args argv with
                      | Line os ps => LoopDone (foldl set_opt s os) ps
                      | LineHelp => LoopHelp
                      | LineUnknown a => LoopUnknown a
                      end.
Proof. rewrite parse_args_spec. by destruct (read_args argv). Qed.

(** Where a setting comes from: each string setting has the value of its last
    flag if there is one, else that of its variable if that is not empty, else
    that of its key in the configuration file if that is not empty, else the
    built-in one. *)
Theorem settings_precedence v argv os ps f :
  read_args argv = Line os ps ->
  exists s, parse_args argv (applyDefaults v builtin) = LoopDone s ps /\
    get_field f (sf s) =
      default (pick (getenv v (variable f)) (pick (entry (file_defaults v) (key f)) (get_field f (sf builtin))))
        (last (omap (given f) os)).
Proof.
  intros Hl. rewrite parse_args_spec, Hl. eexists. split; [done|]. by rewrite foldl_field, defaults_field.
Qed.

(** [run] of the tunnel command ends with the exit code 2, or with 0 when help
    or the version was asked for, or it starts a tunnel; and it only starts one
    from a command line with one argument, a port in range, with a configuration
    that is valid and complete. *)
Theorem run_outcomes e argv :
  match run e argv with
  | inl (Exit code) =>
      code = 2 \/ code = 0 /\ (read_args argv = LineHelp \/ exists os ps, read_args argv = Line os ps /\ OVersion ∈ os)
  | inl (Started cfg t) =>
      Validate cfg = Ok cfg /\ Tunnel.New cfg = Ok (cfg, t) /\ 0 < LocalPort cfg <= 65535 /\
      exists os arg, read_args argv = Line os [arg] /\ Atoi arg = NumOk (LocalPort cfg) /\ ~ OVersion ∈ os
  | inr _ => exists rest, argv = "token" :: rest
  end.
Proof.
  assert (match run_tunnel (te_env e) argv with
  | Exit code =>
      code = 2 \/ code = 0 /\ (read_args argv = LineHelp \/ exists os ps, read_args argv = Line os ps /\ OVersion ∈ os)
  | Started cfg t =>
      Validate cfg = Ok cfg /\ Tunnel.New cfg = Ok (cfg, t) /\ 0 < LocalPort cfg <= 65535 /\
      exists os arg, read_args argv = Line os [arg] /\ Atoi arg = NumOk (LocalPort cfg) /\ ~ OVersion ∈ os
  end) as Hrun.
  { destruct (run_tunnel (te_env e) argv) as [code|cfg t] eqn:Hr.
    - revert Hr. unfold run_tunnel. rewrite parse_args_spec. destruct (read_args argv) as [os ps| |a] eqn:Hl; cbn [settle].
      + destruct (showVersion _) eqn:Hv; [|repeat case_match; intros; simplify_eq; by left].
        intros [= <-]. right. split; [done|]. right. exists os, ps. split; [done|].
        apply foldl_version in Hv as [Hv|]; [|done]. by rewrite defaults_version in Hv.
      + intros [= <-]. right. split; [done|by left].
      + intros [= <-]. by left.
    - destruct (run_tunnel_started _ _ _ _ Hr) as (Hv & Hn & os & arg & tlsOn & Hl & Ha & Hnv & _).
      destruct (Validate_ok _ _ Hv) as (Hp & _). split_and!; try done; try lia. by exists os, arg. }
  unfold run. destruct argv as [|a rest]; [done|]. destruct (String.eqb_spec a "token") as [->|]; [by exists rest|done].
Qed.


End facts.

(** The path column of the log has no query. *)
Lemma logPath_no_query p : selem "?" (logPath p) = false /\ HasPrefix p (logPath p) = true.
Proof.
  unfold logPath. destruct (cut_byte "?" p) as [[a b]|] eqn:Hc.
  - apply cut_byte_spec in Hc as [-> Ha]. split; [done|]. apply HasPrefix_spec. by eexists.
  - split; [|apply HasPrefix_spec; exists ""; by rewrite sapp_nil_r].
    revert Hc. induction p as [|c p IH]; [done|]. cbn [cut_byte selem]. destruct (Ascii.eqb "?" c); [done|].
    destruct (cut_byte "?" p) as [[a b]|]; [done|]. intros _. by apply IH.
Qed.

(** ** Concrete instances *)

#[local] Instance sample_lower : UnicodeLower := id.
#[local] Instance sample_paths : FilePath := {| path_join := sjoin "/"; path_dir p := p |}.
#[local] Instance sample_duration : ParseDuration := fun _ => Ok 0.

Definition sample_conf : string := "server = t.example:7001" +:+ nl +:+ "token=old" +:+ nl.
Definition sample_environ : environ :=
  mkEnviron (fun name => if String.eqb name "MUNNEL_SUBDOMAIN" then Some "env" else None) (Ok "/home/a")
    (fun p => if String.eqb p "/home/a/.munnel/config" then Ok (sample_conf, None) else Err io_EOF).
Definition sample_token_env : token_env :=
  mkTokenEnv sample_environ (Ok "secret") (fun _ _ => Ok (200, Some (mkReply "munnel_T2" "tok_1" "" "" "")))
    (fun _ => None) (fun _ => None).

Lemma settings_precedence_witness :
  exists s, parse_args ["3000"; "-t"; "T"] (applyDefaults sample_environ builtin) = LoopDone s ["3000"] /\
    get_field FToken (sf s) = "T".
Proof.
  destruct (settings_precedence sample_environ ["3000"; "-t"; "T"] [OToken "T"] ["3000"] FToken eq_refl) as (s & Hs & Hf).
  exists s. split; [exact Hs|exact Hf].
Defined.

Lemma sample_saved : exists content, tr_written (runToken sample_token_env []) = Some ("/home/a/.munnel/config", content).
Proof. eexists. vm_compute. reflexivity. Qed.

