(* ===== verification/Usage.v ===== *)
(** * What the client says of its flags: cmd/client/main.go

    The usage texts, read back: the lines of their flags sections are compared with
    what the parser of [ClientCmd] and the flag set of [munnel token] accept. *)
From S2P Require Import Prelude GoStr GoText Http GoHtml Inspect Client GoFlag ClientConf ClientCmd.
From Stdlib Require Import Ascii.

(** main.go:462. *)
Definition usage : string := raw
"munnel — expose localhost to the public internet

usage:
  munnel <port> [flags]
  munnel token --sub <name>   acquire a token (saved to ~/.munnel/config)

flags:
  -s, --subdomain <name>    request a specific subdomain
  -t, --token <token>       auth token for protected servers
      --server <host:port>  control server address          (default `localhost:7001`, port 7001 assumed; 7002 with --tls)
      --tls                 connect to the server's TLS control port (verifies the certificate)
      --server-cert-sha256 <hex>  pin the server certificate (SHA-256 of its DER); needs --tls
      --local-host <host>   local service host              (default `127.0.0.1`)
      --inspect             run the web inspector           (default true)
      --inspect-addr <addr> inspector listen address        (default `127.0.0.1:4040`)
      --max-body-mb <n>     max request body in megabytes   (default 32)
      --protect             require viewer login (forward-auth) on this tunnel
  -v, --version             print version
  -h, --help                show this help

defaults:
  every flag above can be set in ~/.munnel/config (KEY=VAL, one per line) or
  via MUNNEL_* env vars (MUNNEL_SERVER, MUNNEL_TOKEN, MUNNEL_SUBDOMAIN,
  MUNNEL_INSPECT_ADDR, MUNNEL_LOCAL_HOST, MUNNEL_MAX_BODY_MB, MUNNEL_INSPECT,
  MUNNEL_TLS, MUNNEL_SERVER_CERT_SHA256).
  precedence: flag > env > config file > builtin default.

examples:
  munnel 3000                       # random subdomain, defaults from config
  munnel 3000 -s myapp              # claim myapp.<domain>
  munnel 8080 -s myapp -t token --server tunnels.example.com:7001
  munnel 3000 -s myapp --tls --server tunnels.example.com:7002
".

(** main.go:439. *)
Definition tokenUsage : string := raw
"munnel token — acquire a tunnel token (self-service)

usage:
  munnel token --sub <name> [flags]

flags:
  --sub <name>         subdomain to scope the token to (empty = any free subdomain)
  --ttl <duration>     token lifetime (default `168h`; server caps at 720h)
  --password <pw>      enrollment password (or MUNNEL_ENROLL_PASSWORD; prompted if unset)
  --server <host:port> control server address (default from ~/.munnel/config)
  --server-url <url>   proxy base URL (default: https://<server-host>, or http://localhost:8080)
  -h, --help           show this help

the acquired token is saved to ~/.munnel/config and used automatically by
" +:+ "`munnel <port>`" +:+ raw
". when it expires, re-run this command.

examples:
  munnel token --sub alice          # token scoped to alice.<domain>
  munnel token                      # token for any free subdomain
".

(** ** Reading them *)

Definition words (l : string) : list string := List.filter (fun w => negb (String.eqb w "")) (split_byte " " l).

(** The lines behind "flags:", to the next empty one. *)
Fixpoint until_empty (ls : list string) : list string :=
  match ls with [] => [] | l :: ls => if String.eqb l "" then [] else l :: until_empty ls end.
Fixpoint flag_lines (ls : list string) : list string :=
  match ls with [] => [] | l :: ls => if String.eqb l "flags:" then until_empty ls else flag_lines ls end.

(** The names a line gives, and whether a value follows them. *)
Fixpoint flag_entry (ws : list string) : list string * bool :=
  match ws with
  | w :: ws =>
      if HasPrefix w "-" then let '(names, value) := flag_entry ws in (TrimSuffix w "," :: names, value)
      else ([], HasPrefix w "<")
  | [] => ([], false)
  end.

Definition documented (text : string) : list (list string * bool) :=
  (fun l => flag_entry (words l)) <$> flag_lines (split_byte newline text).

Definition names_of (text : string) : list string := concat (fst <$> documented text).

(** ** What the parsers make of them *)

(** The parser takes [name] with a value behind it, or alone. *)
Definition accepts (name : string) (value : bool) : bool :=
  match classify name with
  | TakesNext _ => value
  | Is _ | Help => negb value
  | Unknown | Positional => false
  end.

(** A flag of the set is given with two dashes. *)
Definition token_flag_known (name : string) (value : bool) : bool :=
  match CutPrefix name "--" with
  | Some k => match token_flags !! k with
              | Some (VBool _) => negb value
              | Some _ => value
              | None => false
              end
  | None => false
  end.

Definition entries_ok (ok : string -> bool -> bool) (text : string) : bool :=
  forallb (fun e => forallb (fun name => ok name (snd e)) (fst e)) (documented text).

Lemma entries_spec ok text names value name :
  entries_ok ok text = true -> (names, value) ∈ documented text -> name ∈ names -> ok name value = true.
Proof.
  unfold entries_ok. rewrite forallb_forall. intros Hall Hin%list_elem_of_In Hn%list_elem_of_In.
  specialize (Hall _ Hin). rewrite forallb_forall in Hall. by apply Hall.
Qed.

(** What the parser accepts, in the order of its cases. *)
Lemma classify_known a :
  HasPrefix a "-" = true -> classify a <> Unknown ->
  a = "--no-inspect" \/ exists n, n ∈ ["-s"; "--subdomain"; "-t"; "--token"; "--server"; "--tls"; "--server-cert-sha256";
    "--local-host"; "--inspect"; "--inspect-addr"; "--max-body-mb"; "--protect"; "-v"; "--version"; "-h"; "--help"] /\
    (a = n \/ exists x, a = n +:+ "=" +:+ x).
Proof.
  intros Ha. unfold classify. rewrite Ha. intros Hc.
  repeat match type of Hc with
  | context [String.eqb a ?n] => destruct (String.eqb_spec a n) as [->|_];
      [first [by left | right; exists n; split; [set_solver|by left] | right; exists "--inspect"; split; [set_solver|right; by exists "false"]]|]
  | context [CutPrefix a ?p] => let E := fresh in destruct (CutPrefix a p) as [x|] eqn:E;
      [apply CutPrefix_spec in E as ->; right; exists (TrimSuffix p "="); split; [set_solver|right; by exists x]|clear E]
  end.
  done.
Qed.

