(* ===== verification/ServerCmd.v ===== *)
(** * The server command: cmd/server/main.go

    [run] reads the flags, the key files and the environment into the server's
    configuration; [runMint] signs a token offline. *)
From Stdlib Require Import Ascii.
From S2P Require Import Prelude GoStr GoFmt Encoding Http Proto Token Auth Registry Control ForwardAuth Proxy CertFile GoFlag ClientConf ClientCmd.

(** ** Keys (main.go:172, 194) *)

(** The part both functions share: a file's content without the spaces around. *)
Definition key_file (v : environ) (what path : string) : result (list Byte.byte) :=
  match ReadFile (files v) path with
  | Err e => Err (Wrapf (what +:+ " key file: %w") e)
  | Ok b =>
      let k := TrimSpace b in
      if String.eqb k "" then Err (errors_New (what +:+ " key file is empty")) else Ok (bytes_of_string k)
  end.

(** The empty list is nil: signed tokens are off. *)
Definition loadSigningKey (v : environ) (path : string) : result (list Byte.byte) :=
  if String.eqb path "" then Ok (bytes_of_string (TrimSpace (getenv v "MUNNEL_SIGNING_KEY")))
  else key_file v "signing" path.

(** [rnd] is what [rand.Read] gives. *)
Definition loadSessionKey (v : environ) (path : string) (rnd : result (list Byte.byte)) : result (list Byte.byte) :=
  if String.eqb path "" then
    let k := TrimSpace (getenv v "MUNNEL_SESSION_KEY") in
    if String.eqb k "" then
      match rnd with
      | Err e => Err (Wrapf "generate session key: %w" e)
      | Ok b => Ok (bytes_of_string (hex_EncodeToString b))
      end
    else Ok (bytes_of_string k)
  else key_file v "session" path.

(** ** Flags (main.go:37, 221) *)

Definition server_flags : gmap string value :=
  list_to_map
    [("domain", VString "localhost"); ("control-addr", VString ":7001"); ("control-tls-addr", VString ":7002");
     ("tls-cert-file", VString ""); ("tls-key-file", VString ""); ("proxy-addr", VString ":8080");
     ("ask-addr", VString ""); ("auth-tokens", VString ""); ("auth-file", VString "");
     ("signing-key-file", VString ""); ("revoked-file", VString ""); ("reserved-file", VString "");
     ("auth-stub", VBool false); ("session-key-file", VString ""); ("enroll-password", VString "");
     ("public-scheme", VString "http"); ("public-port", VString ""); ("max-body-mb", VInt 32);
     ("version", VBool false)].

Definition mint_flags : gmap string value :=
  list_to_map [("sub", VString ""); ("ttl", VDuration 0); ("protect", VBool false); ("key-file", VString "")].

Section cmd.
Context `{UnicodeLower, MapRange, JSON (gmap string string), Hmac, JSON Claims, ParseDuration}.

(** ** [mint] (main.go:220) *)

(** What is printed: the identifier, the token, its end, whether it mandates
    protection, and the line for the reserved file. *)
Record minted := mkMinted {
  m_id : string;
  m_token : string;
  m_expires : option Z;
  m_protect : bool;
  m_reserve : option (string * string)
}.

Definition runMint (v : environ) (args : list string) (rnd : result (list Byte.byte)) (now now' : Z) : Z + minted :=
  match Parse mint_flags args with
  | GoFlag.Failed e => inl (exit_code e)
  | Parsed vs _ =>
      match loadSigningKey v (get_string vs "key-file") with
      | Err _ => inl 2
      | Ok [] => inl 2
      | Ok key =>
          let ttl := get_int vs "ttl" in
          let sub := get_string vs "sub" in
          match MintWith key (mkMintOpts sub ttl (get_bool vs "protect")) rnd now with
          | Err _ => inl 1
          | Ok tok =>
              inr (mkMinted (IDOf tok) tok (if 0 <? ttl then Some (now' + ttl) else None) (get_bool vs "protect")
                     (if String.eqb sub "" then None else Some (sub, IDOf tok)))
          end
      end
  end.

(** ** [run] (main.go:31) *)

Inductive outcome :=
| Exit (code : Z)
| Serve (cfg : Control.Config) (fa : option Manager) (tls_files : option (string * string)).

(** main.go:88-99. *)
Definition auth_options (v : environ) (vs : gmap string value) (signingKey : list Byte.byte) : AuthOptions :=
  mkAuthOptions (get_string vs "auth-tokens") (get_string vs "auth-file") signingKey
    (get_string vs "revoked-file") (get_string vs "reserved-file")
    (if String.eqb (get_string vs "reserved-file") "" then TrimSpace (getenv v "MUNNEL_RESERVED") else "").

(** main.go:109: [None] is the error, [Some None] no TLS listener. *)
Definition tls_files (vs : gmap string value) : option (option (string * string)) :=
  let c := get_string vs "tls-cert-file" in
  let k := get_string vs "tls-key-file" in
  if negb (Bool.eqb (String.eqb c "") (String.eqb k "")) then None
  else if negb (String.eqb c "") && negb (String.eqb (get_string vs "control-tls-addr") "") then Some (Some (c, k))
  else Some None.

(** main.go:124: the manager, if there is one. *)
Definition forward_auth (v : environ) (vs : gmap string value) (rnd : result (list Byte.byte)) : result (option Manager) :=
  if get_bool vs "auth-stub" then
    match loadSessionKey v (get_string vs "session-key-file") rnd with
    | Err e => Err e
    | Ok k => Ok (Some (NewManager k (Some StubProvider) (7 * 24 * 3600 * Client.Second)))
    end
  else Ok None.

Definition enroll_password (v : environ) (vs : gmap string value) : string :=
  if String.eqb (get_string vs "enroll-password") "" then TrimSpace (getenv v "MUNNEL_ENROLL_PASSWORD")
  else get_string vs "enroll-password".

Definition server_config (v : environ) (vs : gmap string value) (a : Authenticator) (fa : option Manager) (tls : bool)
    : Control.Config :=
  Control.New (Control.mkConfig (get_string vs "domain") (get_string vs "control-addr") (get_string vs "proxy-addr")
    (get_string vs "ask-addr") (get_string vs "control-tls-addr") tls (get_string vs "public-port")
    (get_string vs "public-scheme") (shl20 (get_int vs "max-body-mb")) (Some a) (Enabled fa)
    (enroll_password v vs) 0 0 0).

(** main.go:80-119, once the flags are read. *)
Definition set_up (v : environ) (vs : gmap string value) (rnd : result (list Byte.byte)) : outcome :=
  match loadSigningKey v (get_string vs "signing-key-file") with
  | Err _ => Exit 2
  | Ok key =>
      match NewAuthenticatorWith (files v) (auth_options v vs key) with
      | Err _ => Exit 2
      | Ok a =>
          match tls_files vs with
          | None => Exit 2
          | Some tls =>
              match forward_auth v vs rnd with
              | Err _ => Exit 2
              | Ok fa => Serve (server_config v vs a fa (if tls is Some _ then true else false)) fa tls
              end
          end
      end
  end.

Definition run_server (v : environ) (args : list string) (rnd : result (list Byte.byte)) : outcome :=
  match Parse server_flags args with
  | GoFlag.Failed e => Exit (exit_code e)
  | Parsed vs _ =>
      if get_bool vs "version" then Exit 0
      else if negb (String.eqb (get_string vs "public-scheme") "http") &&
              negb (String.eqb (get_string vs "public-scheme") "https") then Exit 2
      else set_up v vs rnd
  end.

Definition run (v : environ) (args : list string) (rnd : result (list Byte.byte)) (now now' : Z) : (Z + minted) + outcome :=
  match args with
  | a :: rest => if String.eqb a "mint" then inl (runMint v rest rnd now now') else inr (run_server v args rnd)
  | [] => inr (run_server v [] rnd)
  end.

(** main.go:163, given what [ListenAndServe] returned. *)
Definition exit_status (served : option error) : Z := match served with Some _ => 1 | None => 0 end.

(** The duration the help of [--ttl] offers, 7d, is none: the exit code is 2. *)
Example ttl_days_refused v rnd now now' e :
  parse_duration "7d" = Err e -> runMint v ["--ttl"; "7d"] rnd now now' = inl 2.
Proof.
  intros He. unfold runMint. cbn [Parse]. change (argument_of "--ttl") with (FlagArg "ttl" None). cbn iota.
  assert (mint_flags !! "ttl" = Some (VDuration 0)) as -> by (vm_compute; reflexivity).
  cbn [is_bool_flag set_value]. by rewrite He.
Qed.

(** ** Lemmas *)

Lemma NewAuthenticatorWith_signing fs opts a :
  NewAuthenticatorWith fs opts = Ok a -> signing a = SigningKey opts /\ (SigningKey opts <> [] -> open a = false) /\
  (RevokedFile opts = "" -> revoked a = ∅).
Proof.
  unfold NewAuthenticatorWith, load_revoked. intros Hn.
  destruct (load_auth_file _ _ _) as [[ts rs]|]; [|done].
  destruct (if String.eqb (RevokedFile opts) "" then _ else _) as [rev|] eqn:Hrev; [|done].
  destruct (load_reserved_file _ _ _) as [names0|]; [|done].
  destruct (load_reserved_inline _ _) as [names|]; [|done].
  destruct (if bool_decide (names = ∅) then _ else _); [done|]. simplify_eq. simpl. split; [done|]. split.
  - intros Hk. apply andb_false_iff. right. by apply zlen_nonzero.
  - intros Hr. rewrite Hr in Hrev. by injection Hrev as <-.
Qed.

(** A server that starts. *)
Lemma run_server_serves v args rnd cfg fa tls :
  run_server v args rnd = Serve cfg fa tls ->
  exists vs rest key a, Parse server_flags args = Parsed vs rest /\
    (get_string vs "public-scheme" = "http" \/ get_string vs "public-scheme" = "https") /\
    loadSigningKey v (get_string vs "signing-key-file") = Ok key /\
    NewAuthenticatorWith (files v) (auth_options v vs key) = Ok a /\ tls_files vs = Some tls /\
    forward_auth v vs rnd = Ok fa /\ cfg = server_config v vs a fa (if tls is Some _ then true else false).
Proof.
  unfold run_server, set_up. destruct (Parse server_flags args) as [vs rest|]; [|done].
  destruct (get_bool vs "version"); [done|].
  destruct (negb (String.eqb (get_string vs "public-scheme") "http") && _) eqn:Hs; [done|].
  destruct (loadSigningKey _ _) as [key|] eqn:Hk; [|done].
  destruct (NewAuthenticatorWith _ _) as [a|] eqn:Ha; [|done]. destruct (tls_files vs) as [t|] eqn:Ht; [|done].
  destruct (forward_auth v vs rnd) as [m|] eqn:Hf; [|done]. intros [= <- <- <-].
  exists vs, rest, key, a. split_and!; try done.
  apply andb_false_iff in Hs as [Hs|Hs]; apply negb_false_iff, String.eqb_eq in Hs; auto.
Qed.

(** A token that was printed. *)
Lemma runMint_minted v args b now now' m vs rest :
  Parse mint_flags args = Parsed vs rest -> runMint v args (Ok b) now now' = inr m ->
  exists key, loadSigningKey v (get_string vs "key-file") = Ok key /\ key <> [] /\
    MintWith key (mkMintOpts (get_string vs "sub") (get_int vs "ttl") (get_bool vs "protect")) (Ok b) now = Ok (m_token m) /\
    m_id m = IDOf (m_token m) /\ m_protect m = get_bool vs "protect".
Proof.
  unfold runMint. intros ->. destruct (loadSigningKey _ _) as [[|x key]|]; [done| |done].
  destruct (MintWith _ _ _ _) as [tok|] eqn:Hm; [|done]. intros [= <-]. by exists (x :: key).
Qed.

(** What an authenticator does with an authentic token that is not revoked. *)
Lemma good_token_checks a tok t c :
  open a = false -> good_token a tok t c ->
  Check a tok t = None /\ tokenID a tok t = c_ID c /\ ProtectedByToken a tok t = c_Prot c /\
  (c_Sub c <> "" -> forall requested, CheckSubdomain a tok requested t = None <-> requested = c_Sub c) /\
  (forall name ids, reservedNames a !! name = Some ids -> c_ID c <> "" -> c_ID c ∈ ids ->
     CheckReserved a tok name true t = None /\ CheckReserved a tok name false t = Some (tlsRequiredError name)).
Proof.
  intros Ho (Hs & Ha & He & Hr). pose proof (proj2 (Parse_authentic _ _ _ c) (conj Ha He)) as Hp.
  assert (tokenID a tok t = c_ID c) as Hid by (unfold tokenID; rewrite Hs, Hp, bool_decide_eq_false_2; done).
  split_and!.
  - unfold Check. rewrite Ho, Hs, Hp, bool_decide_eq_false_2 by done.
    destruct (String.eqb_spec tok "") as [->|]; [|done]. unfold isSigned in Hs. by rewrite andb_comm in Hs.
  - done.
  - unfold ProtectedByToken. by rewrite Hs, Hp.
  - intros Hsub requested. unfold CheckSubdomain. rewrite Hs, Hp, (proj2 (String.eqb_neq _ _) Hsub). cbn [negb].
    destruct (String.eqb_spec requested (c_Sub c)); by split.
  - intros name ids Hn Hne Hin. unfold CheckReserved. rewrite Hn, Hid, (proj2 (String.eqb_neq _ _) Hne).
    by rewrite bool_decide_eq_false_2 by tauto.
Qed.

(** ** Properties *)

(** C13: A token minted offline is accepted by every server that runs with the same
    key, for as long as was asked: its check passes until the end, it claims
    exactly the name it was scoped to, it mandates protection if so minted, and
    once its printed identifier is listed for a reserved name it may claim that
    name over TLS, while over plaintext it is told to use TLS. *)
Theorem minted_token_accepted valid (HL : JSONLaws Claims valid) v args b now now' m vs rest v2 args2 rnd cfg fa tls :
  let sub := get_string vs "sub" in
  let ttl := get_int vs "ttl" in
  let c := mkClaims sub (if 0 <? ttl then Unix (now + ttl) else 0) ("tok_" +:+ hex_EncodeToString b) (get_bool vs "protect") in
  valid c -> Parse mint_flags args = Parsed vs rest -> runMint v args (Ok b) now now' = inr m ->
  run_server v2 args2 rnd = Serve cfg fa tls ->
  loadSigningKey v (get_string vs "key-file") = Ok (signing (auth_of cfg)) ->
  forall t, ttl <= 0 \/ t <= now + ttl -> m_id m ∉ revoked (auth_of cfg) ->
  Check (auth_of cfg) (m_token m) t = None /\
  (sub <> "" -> forall requested, CheckSubdomain (auth_of cfg) (m_token m) requested t = None <-> requested = sub) /\
  ProtectedByToken (auth_of cfg) (m_token m) t = m_protect m /\
  tokenID (auth_of cfg) (m_token m) t = m_id m /\
  forall name ids, reservedNames (auth_of cfg) !! name = Some ids -> m_id m ∈ ids ->
    CheckReserved (auth_of cfg) (m_token m) name true t = None /\
    CheckReserved (auth_of cfg) (m_token m) name false t = Some (tlsRequiredError name).
Proof.
  intros sub ttl c Hv Hp Hm Hs Hkey t Ht Hrev.
  destruct (runMint_minted _ _ _ _ _ _ _ _ Hp Hm) as (key & Hk & Hne & Hmint & Hid & Hprot).
  rewrite Hkey in Hk. injection Hk as <-. set (a := auth_of cfg) in *.
  destruct (MintWith_authentic valid HL (signing a) (mkMintOpts sub ttl (get_bool vs "protect")) b now Hne Hv) as (tok & Hm' & Ha).
  fold sub ttl in Hmint. rewrite Hmint in Hm'. injection Hm' as <-.
  assert (m_id m = c_ID c) as Hidc by (rewrite Hid; by apply (IDOf_authentic _ _ c) in Ha).
  assert (good_token a (m_token m) t c) as Hg.
  { split; [|split; [exact Ha|split; [|by rewrite <-Hidc]]].
    - unfold isSigned. apply andb_true_iff. split; [by apply Z.ltb_lt; destruct (signing a); simpl in *; [done|lia]|].
      destruct Ha as (_ & p & s & payload & -> & _). apply HasPrefix_spec. by eexists.
    - subst c. simpl. destruct (Z.ltb_spec 0 ttl); [right|by left]. apply Unix_mono. lia. }
  destruct (run_server_serves _ _ _ _ _ _ Hs) as (vs2 & rest2 & key2 & a2 & _ & _ & _ & Ha2 & _ & _ & Hcfg).
  destruct (NewAuthenticatorWith_signing _ _ _ Ha2) as (Hsgn & Hopen & _).
  assert (a = a2) as Heq by (unfold a; by rewrite Hcfg).
  assert (open a = false) as Ho by (rewrite Heq; apply Hopen; rewrite <-Hsgn, <-Heq; done).
  destruct (good_token_checks a (m_token m) t c Ho Hg) as (H1' & H2' & H3' & H4' & H5').
  rewrite Hprot, Hidc. split_and!; try done. intros name ids Hn Hin. apply (H5' name ids Hn); [|done]. subst c. simpl. done.
Qed.

(** C37: A server only starts with a configuration that is well formed: its scheme
    is http or https, its authenticator is well formed (names valid, reserved
    names only with a signing key and not shared with static tokens), it is open
    to everybody only without tokens and key, the TLS port is on exactly when both
    files and an address are given, protection is available exactly with the stub
    provider, and the body limit is positive. *)
Theorem server_well_configured `{!MapRangeLaws} v args rnd cfg fa tls :
  run_server v args rnd = Serve cfg fa tls ->
  (PublicScheme cfg = "http" \/ PublicScheme cfg = "https") /\
  auth_ok (auth_of cfg) /\
  (tlsEnabled cfg = true <-> exists cert key, tls = Some (cert, key) /\ cert <> "" /\ key <> "") /\
  (FA cfg = true <-> exists m, fa = Some m) /\
  0 < MaxRequestBody cfg /\ 0 < ResponseHeaderTimeout cfg /\ Domain cfg <> "" /\ ControlAddr cfg <> "" /\ ProxyAddr cfg <> "".
Proof.
  intros (vs & rest & key & a & _ & Hsch & _ & Ha & Htls & Hfa & ->)%run_server_serves.
  split_and!.
  - unfold server_config. cbn [Control.New PublicScheme]. unfold or_default. by destruct Hsch as [-> | ->]; [left|right].
  - unfold auth_of, server_config. cbn [Control.New Control.Auth default]. by eapply NewAuthenticatorWith_spec.
  - unfold tlsEnabled, server_config. cbn [Control.New Control.ControlTLS Control.ControlTLSAddr].
    unfold tls_files in Htls.
    destruct (String.eqb_spec (get_string vs "tls-cert-file") "") as [Hc|Hc],
      (String.eqb_spec (get_string vs "tls-key-file") "") as [Hk|Hk]; cbn [negb Bool.eqb andb] in Htls; try done.
    + simplify_eq. split; [done|]. by intros (? & ? & ? & _).
    + destruct (String.eqb (get_string vs "control-tls-addr") ""); cbn [negb] in Htls; simplify_eq.
      * split; [done|]. by intros (? & ? & ? & _).
      * split; [|done]. intros _. by do 2 eexists.
  - unfold server_config. cbn [Control.New Control.FA]. unfold forward_auth in Hfa.
    destruct (get_bool vs "auth-stub"); [|simplify_eq; split; [done|by intros [? ?]]].
    destruct (loadSessionKey _ _ _); [|done]. simplify_eq. split; [by eexists|done].
  - unfold server_config. cbn [Control.New MaxRequestBody]. unfold or_positive.
    destruct (Z.leb_spec (shl20 (get_int vs "max-body-mb")) 0); [done|lia].
  - done.
  - unfold server_config. cbn [Control.New Domain]. unfold or_default. by destruct (String.eqb_spec (get_string vs "domain") "").
  - unfold server_config. cbn [Control.New ControlAddr]. unfold or_default. by destruct (String.eqb_spec (get_string vs "control-addr") "").
  - unfold server_config. cbn [Control.New ProxyAddr]. unfold or_default. by destruct (String.eqb_spec (get_string vs "proxy-addr") "").
Qed.

End cmd.

(** ** Concrete instances *)

#[local] Instance sample_lower : UnicodeLower := id.
#[local] Instance sample_range : MapRange := map_to_list.
#[local] Instance sample_range_laws : MapRangeLaws.
Proof. intros m. reflexivity. Qed.
#[local] Instance sample_maps : JSON (gmap string string) := countable_json.
#[local] Instance sample_hmac : Hmac := fun key p => key ++ p.
#[local] Instance sample_claims : JSON Claims := countable_json.
#[local] Instance sample_duration : ParseDuration := fun _ => Ok (24 * 3600 * Client.Second).

Definition sample_environ : environ :=
  mkEnviron (fun name => if String.eqb name "MUNNEL_SIGNING_KEY" then Some " k " else None) (Err io_EOF) (fun _ => Err io_EOF).
Definition sample_mint : list string := ["--sub=a"; "--ttl"; "24h"].
Definition sample_server : list string := ["-domain"; "t.example"; "-tls-cert-file=c.pem"; "-tls-key-file=k.pem"].
Definition sample_values : gmap string value :=
  match Parse mint_flags sample_mint with Parsed vs _ => vs | _ => ∅ end.
Definition sample_minted : minted :=
  match runMint sample_environ sample_mint (Ok [Byte.x01]) Client.Second Client.Second with
  | inr m => m | inl _ => mkMinted "" "" None false None end.
Definition sample_cfg : Control.Config :=
  match run_server sample_environ sample_server (Ok []) with
  | Serve cfg _ _ => cfg | Exit _ => Control.New (Control.mkConfig "" "" "" "" "" false "" "" 0 None false "" 0 0 0) end.

Lemma sample_serving :
  run_server sample_environ sample_server (Ok []) = Serve sample_cfg None (Some ("c.pem", "k.pem")).
Proof. vm_compute. reflexivity. Qed.

Lemma minted_token_accepted_witness :
  Check (auth_of sample_cfg) (m_token sample_minted) Client.Second = None /\
  (CheckSubdomain (auth_of sample_cfg) (m_token sample_minted) "b" Client.Second = None -> "b" = "a").
Proof.
  assert (Hp : Parse mint_flags sample_mint = Parsed sample_values []) by (vm_compute; reflexivity).
  assert (Hm : runMint sample_environ sample_mint (Ok [Byte.x01]) Client.Second Client.Second = inr sample_minted)
    by (vm_compute; reflexivity).
  assert (Hk : loadSigningKey sample_environ (get_string sample_values "key-file") = Ok (signing (auth_of sample_cfg)))
    by (vm_compute; reflexivity).
  assert (Ht : get_int sample_values "ttl" <= 0 \/ Client.Second <= Client.Second + get_int sample_values "ttl")
    by (right; vm_compute; discriminate).
  assert (Hr : m_id sample_minted ∉ revoked (auth_of sample_cfg))
    by (apply (bool_decide_unpack _); vm_compute; exact I).
  assert (Hsub : get_string sample_values "sub" <> "") by (vm_compute; discriminate).
  destruct (minted_token_accepted (fun _ => True) countable_json_laws sample_environ sample_mint [Byte.x01]
    Client.Second Client.Second sample_minted sample_values [] sample_environ sample_server (Ok []) sample_cfg None
    (Some ("c.pem", "k.pem")) I Hp Hm sample_serving Hk Client.Second Ht Hr) as (Hc & Hs & _).
  split; [exact Hc|]. intros Hb. exact (proj1 (Hs Hsub "b") Hb).
Defined.

Lemma server_well_configured_witness : tlsEnabled sample_cfg = true /\ 0 < MaxRequestBody sample_cfg.
Proof.
  destruct (server_well_configured sample_environ sample_server (Ok []) sample_cfg None (Some ("c.pem", "k.pem"))
    sample_serving) as (_ & _ & Ht & _ & Hm & _).
  split; [|exact Hm]. apply Ht. exists "c.pem", "k.pem". split; [reflexivity|]. split; discriminate.
Defined.
